(* ===== verification/_CoqProject ===== *)
-Q . S2P
Prelude.v
Hooks.v
Crypt.v
Des.v
CryptBits.v
CryptTables.v
CryptProps.v
CryptDes.v
CryptMain.v
Password.v
Wire.v
Magic.v
Words.v
Secrets.v
SecretsProps.v
Lcp.v
LcpProps.v
LcpNak.v
LcpReq.v
LcpNeg.v
Ipcp.v
IpcpProps.v
IpcpNak.v
IpcpReq.v
Callout.v
Fsm.v
FsmTimer.v
FsmRfc.v
FsmProps.v
Ppp.v
Chap.v
Link.v
Auth.v
AuthProps.v
Options.v
OptionsProps.v
Setup.v
Daemon.v
DaemonInv.v
DaemonRun.v
ChapProps.v
Scenario.v
Fcs.v
Mbuf.v
IfPpp.v
IfDemo.v
IfIn.v
IfRecv.v
IfOut.v
IfLink.v
IfRun.v
IfOpen.v
Cksum.v
IpInput.v
IpReass.v
IpRefine.v
IpFrag.v
IpThms.v
IpHeader.v
IpPath.v
Life.v
