(* ===== verification/Prelude.v ===== *)
(** * Verification of the PPP daemon (root file)

    The repository is a VxWorks BSP tree.  This development models its
    Point-to-Point Protocol, src/vxworks_test/netinet/ppp with the headers of
    src/target/h/netinet/ppp: the two negotiation automata, the options they
    negotiate, authentication with CHAP and the secrets behind it, the timeouts,
    the configuration, the task that runs all of it from signals, the
    connection hooks, the password encryption, and the network driver below.
    Paths below are relative to these two directories.

    ** The program

    One task runs the daemon for each PPP unit.  [ppp_task] (pppLib.c), spawned by [pppInit], takes
    the options from a structure and a file (options.c), checks that the
    authentication they ask for is possible (auth.c), brings LCP up and then
    does nothing: all work happens in its signal handlers, SIGIO for packets
    ([io]), SIGALRM for timeouts ([alrm]), SIGHUP and SIGTERM.  A packet goes to
    the protocol of its number.  LCP and IPCP are two instances of the automaton
    of fsm.c, which calls the protocol through a table of callbacks; a callback
    of LCP (lcp_up) starts authentication (auth.c, chap.c), whose success opens
    IPCP, whose callbacks configure the interface.  Timeouts are entries of a
    list of relative times.  Secrets come from a table (pppSecretLib.c) and from
    files read word by word ([getword] of options.c).

    The packets pass through if_ppp.c, which has its own task for each unit:
    [pppwrite] (from the daemon) and [pppoutput] (from IP) queue them,
    [ppp_wrt_task] writes them to the tty as frames, the tty's hook [pppintr]
    schedules [ppp_tty_read], which feeds [pppinput] byte by byte; complete
    packets go to IP or wait for [pppread], and the daemon gets SIGIO.

    ** How it is modelled

    A C function of the daemon or the driver is a function in the monad [M] of
    Prelude.v: a state, a non-local exit ([die] and [goto flush]), [Fault] for an
    access outside of an object, [Hang] for a loop out of fuel.  [wp] is the
    weakest precondition, its first argument says whether a fault is allowed.
    The functions of ip_input.c, ip_output.c, in_cksum.c and crypt.c pass their
    state explicitly and give [None] for such an access.  State is a record with
    setters ([r <| f := v |>]); integers are Z with their width written out
    ([u8], [u16], [u32], [s16]); bytes are Z with [is_u8].  What is not in the
    repository is a parameter: the tty and the interface ioctls (ppp_vxworks.c),
    MD5, PAP (upap.c), TCP header compression, the pool of mbufs, files, names
    of hosts, the login table; class [PppEnv], [OptionsEnv], [Files], [DrvEnv]
    and the arguments of the operations.

    ** The files and what they model

    - Hooks.v: pppHookLib.c, split where the semaphore splits it.
    - Crypt.v: crypt.c.  Des.v: the DES of the standard on lists of bits.
      CryptBits.v, CryptTables.v, CryptProps.v, CryptDes.v, CryptMain.v,
      Password.v: the tables, the cipher and [crypt] against it.
    - Wire.v: the byte macros of pppd.h and the cursor of the option parsers.
    - Callout.v: [ppp_timeout], [ppp_untimeout], [adjtimeout], the list part of
      [alrm] (pppLib.c), with the list of absolute deadlines as specification.
    - Fsm.v: all of fsm.c, over an interface [FsmHost] for the task it lives in
      and the callback table.  FsmTimer.v: its invariant that whoever waits has
      a timeout.  FsmRfc.v: the table of RFC 1661 and the refinement.
      FsmProps.v: packets and their bounds.
    - Magic.v: magic.c.
    - Lcp.v: the options of lcp.c ([lcp_cilen], [lcp_addci], [lcp_ackci],
      [lcp_nakci], [lcp_rejci], [lcp_reqci] and their macros); LcpProps.v,
      LcpNak.v, LcpReq.v, LcpNeg.v: what they do.
    - Ipcp.v: the same for ipcp.c; IpcpProps.v, IpcpNak.v, IpcpReq.v.
    - Words.v: [getword] (options.c).  Secrets.v: [scan_authfile] and the searches
      of [get_secret] and [null_login] (auth.c), pppSecretLib.c.
      SecretsProps.v: what they find.
    - Ppp.v: the state of the task (PPP_TASK_VARS of pppd.h), its environment,
      the two instances of the automaton.
    - Chap.v: the part of chap.c that does not report to the daemon; Link.v: the
      rest of chap.c, the callbacks of lcp.c and ipcp.c, the link phases of
      auth.c, echo requests, the signal handlers and the main loop.
    - Auth.v: [check_auth_options] and [check_passwd] (auth.c); AuthProps.v.
    - Options.v: options.c and the set-up of [ppp_task]; OptionsProps.v, Setup.v.
    - Daemon.v, DaemonInv.v, DaemonRun.v: the invariant of the task.
    - ChapProps.v: who is accepted by CHAP.  Scenario.v: computed runs of the
      task, the witnesses of the theorems about it.
    - Fcs.v: the frame check of if_ppp.c.  Mbuf.v: mbufs and the queues of if.h.
      IfPpp.v: if_ppp.c from the queues to the line and back.  IfDemo.v: a
      concrete environment.  IfIn.v: the specification of the receiver and the
      collection of octets; IfRecv.v: every byte of the line, and where packets
      go; IfOut.v: what is written; IfLink.v: two units and a line; IfRun.v:
      requests and limits; IfOpen.v: [pppopen], [pppclose], [pppioctl].
    - Life.v: [pppInit], [ppp_task] around its main loop, [set_up_tty], [cleanup],
      [pppDelete] (pppLib.c): memory, descriptors and timers.
    - The Internet protocol that the packets of the driver go to, in
      src/vxworks_test/netinet.  Cksum.v: in_cksum.c.  IpInput.v: the fragments
      of ip_input.c ([ours] of [ipintr], [ipReAssemble], timeouts); IpReass.v: its
      specification by intervals, and the queue of one datagram; IpRefine.v: the
      refinement; IpFrag.v: the fragmentation of ip_output.c; IpThms.v: the
      results and what goes wrong; IpHeader.v: the checks of [ipintr] on a packet;
      IpPath.v: the header that [ip_output] writes, and the whole way.

    ** What is shown

    - Refinement: fsm.c takes the actions of the table of RFC 1661 and counts its
      requests, under every setting of the automaton's options, but for three
      cells; the receiver of if_ppp.c behaves on every sequence of bytes, while
      its packets fit the buffer of the input hook, like a small machine on
      lists; the callout list is the list of deadlines; the
      hooks are a table; the reassembly of IP collects intervals.
    - Invariants of the state: whoever waits has a timeout (but for a CHAP client
      that has been refused) and the network phase is not entered while
      authentication is due, after any signals; the map of
      escaped characters stays one that can be read back.
    - Functional correctness, errors and bounds: each option parser (what is
      accepted, what is answered, inside which buffers), the secrets that a file
      or the table yields, what a frame looks like, [pppopen] and [pppclose],
      what a unit leaves behind when its task ends.
    - Equivalence with references: DES, the CRC of RFC 1662, the checksum of
      RFC 1071, the checks of [ipintr] on mbufs and on bytes.
    - Termination: the parsers, the scan of a file.
    - Composition: two ends of LCP agree; a packet that the daemon of one opened
      unit writes is read by the daemon of the other, if the pool gives
      [pppwrite] a cluster that holds it; what a unit that must
      authenticate its peer starts with; a datagram goes through [ip_output], the
      wire and [ipintr] between hosts of any byte order.
    - Where the code does not do what it means to, the theorem says what it does
      (a parser that never ends, buffers that are overrun, a race, authentication
      that is bypassed by a new negotiation, an MRU that stops the receiver,
      fragments that are emptied, memory that is freed twice or never).

    ** Bounds and fuel

    Loops that are not structural have fuel, and a theorem that it is enough:
    the option parsers one round for each byte of the packet ([lcp_nakci_spec],
    [ipcp_nakci_spec] say when no fuel is), [scan_loop] two rounds for each
    character, the commands of a file one round for each character, the escape
    list the length of its string, [getm_alloc] the bytes wanted, [write_run] and
    [send_bytes] the bytes to send, [wrt_loop] the packets that wait and two
    more, [frag_loop] the bytes of the datagram, the loops of [in_cksum] the bytes
    of an mbuf.  The driver's theorems need an MRU below 32761 ([ready]), where the
    length of a packet still fits into a short; those on fragments need offsets
    below 32768, where [ip_off] is not negative (see [late_fragment_emptied]).

    ** Not modelled

    PAP: upap.c is not in the repository.  Printing (pppShow.c, the printpkt
    functions, the dumps of if_ppp.c).  The level of debugging
    (incdebug, nodebug).  A handler runs to
    its end: the interruption of a handler by SIGTERM, which is not masked, is
    not modelled, nor errors of reading files, the ends of the task for want of
    memory in [ppp_timeout] and for errors of time() and timer_settime() in
    [ppp_timeout] and [adjtimeout] (which call [die]), the errno of library calls other
    than strtoul, the string branch of [setspeed], which nothing calls, and
    concurrent changes of the table of secrets.  The rest of the repository
    (board support, drivers, boot code, USB; of the Internet protocols all but the
    checksum, the headers and the fragments: routing, options, ICMP, IGMP, ARP) is
    access to hardware or outside of the daemon. *)

From stdpp Require Export base tactics list numbers option decidable.
From Stdlib Require Export ZArith Lia.

Set Default Proof Using "Type".
#[export] Set Default Goal Selector "!".

Declare Scope ppp_scope.
Delimit Scope ppp_scope with ppp.
#[global] Open Scope ppp_scope.
#[global] Open Scope Z_scope.

(** ** Record update

    [Eta R] is the eta expansion of a record; [derive_setter] builds the
    update function of one field out of it. *)

Class Eta (R : Type) := eta_of : R -> R.
Class Setter {R T : Type} (proj : R -> T) := upd : (T -> T) -> R -> R.
Arguments upd {R T} proj {_} _ _ : simpl never.

Ltac derive_setter :=
  match goal with
  | |- @Setter ?R ?T ?p =>
      let g := fresh "g" in
      let r := fresh "r" in
      refine (fun g r => _);
      let e := eval cbv [eta_of] in (@eta_of R _ r) in
      let e := eval hnf in e in
      let h := eval pattern (p r) in e in
      match h with
      | ?F _ => let b := eval cbv beta in (F (g (p r))) in exact b
      end
  end.

Notation "r <| f := v |>" := (upd f (fun _ => v) r)
  (at level 12, left associativity, f at level 9, v at level 200,
   format "r  <| f  :=  v |>") : ppp_scope.
Notation "r <| f ::= g |>" := (upd f g r)
  (at level 12, left associativity, f at level 9, g at level 200,
   format "r  <| f  ::=  g |>") : ppp_scope.

(** ** Machine integers

    A w-bit unsigned value is a [Z] in [0, 2^w); a conversion to it wraps. *)

Definition u8 (z : Z) : Z := z mod 2 ^ 8.
Definition u16 (z : Z) : Z := z mod 2 ^ 16.
Definition u32 (z : Z) : Z := z mod 2 ^ 32.
Definition s16 (z : Z) : Z := let r := z mod 2 ^ 16 in if r <? 2 ^ 15 then r else r - 2 ^ 16.

Definition is_u8 (z : Z) : Prop := 0 <= z < 2 ^ 8.
Definition is_u16 (z : Z) : Prop := 0 <= z < 2 ^ 16.
Definition is_u32 (z : Z) : Prop := 0 <= z < 2 ^ 32.

Definition bytes := Forall is_u8.

Lemma u8_range z : is_u8 (u8 z).
Proof. apply Z.mod_pos_bound. lia. Qed.
Lemma u16_range z : is_u16 (u16 z).
Proof. apply Z.mod_pos_bound. lia. Qed.
Lemma u32_range z : is_u32 (u32 z).
Proof. apply Z.mod_pos_bound. lia. Qed.
Lemma u8_id z : is_u8 z -> u8 z = z.
Proof. apply Z.mod_small. Qed.
Lemma u16_id z : is_u16 z -> u16 z = z.
Proof. apply Z.mod_small. Qed.
Lemma u32_id z : is_u32 z -> u32 z = z.
Proof. apply Z.mod_small. Qed.

(** Arithmetic on machine integers: unfold the wrap-arounds and call [lia]. *)
Ltac unfold_int :=
  unfold u8, u16, u32, is_u8, is_u16, is_u32 in *;
  change (2 ^ 8) with 256 in *; change (2 ^ 16) with 65536 in *;
  change (2 ^ 24) with 16777216 in *; change (2 ^ 32) with 4294967296 in *.
Ltac int_lia := unfold_int; Z.to_euclidean_division_equations; lia.

Lemma bytes_app l l' : bytes l -> bytes l' -> bytes (l ++ l').
Proof. intros H H'. by apply Forall_app. Qed.

Lemma bytes_nil : bytes [].
Proof. constructor. Qed.

Create HintDb ppp discriminated.
#[export] Hint Resolve u8_range u16_range u32_range bytes_app bytes_nil : ppp.

(** ** The monad

    [M W X A]: a computation over the state [W] which returns an [A], leaves
    abruptly with an [X] (the [exit] of the task, the [goto bad] of a parser),
    reads or writes outside of an object ([Fault]), or is a loop that has used
    up its fuel ([Hang]; each such loop comes with a theorem that the fuel it
    is given is enough, or that no fuel is). *)

Inductive outcome (W X A : Type) :=
  | Ok (a : A) (w : W)
  | Throw (x : X) (w : W)
  | Fault
  | Hang.
Arguments Ok {W X A} a w.
Arguments Throw {W X A} x w.
Arguments Fault {W X A}.
Arguments Hang {W X A}.

Definition M (W X A : Type) : Type := W -> outcome W X A.

Section Monad.
Context {W X : Type}.
Implicit Types w : W.

Definition ret {A} (a : A) : M W X A := fun w => Ok a w.
Definition bind {A B} (m : M W X A) (k : A -> M W X B) : M W X B :=
  fun w => match m w with
           | Ok a w' => k a w'
           | Throw x w' => Throw x w'
           | Fault => Fault
           | Hang => Hang
           end.
Definition throw {A} (x : X) : M W X A := fun w => Throw x w.
Definition fault {A} : M W X A := fun _ => Fault.
Definition hang {A} : M W X A := fun _ => Hang.
Definition gets {A} (f : W -> A) : M W X A := fun w => Ok (f w) w.
Definition modify (f : W -> W) : M W X unit := fun w => Ok tt (f w).
Definition put (w : W) : M W X unit := fun _ => Ok tt w.

(** An access which is outside of its object when it gives [None]. *)
Definition access {A} (o : option A) : M W X A :=
  match o with Some a => ret a | None => fault end.

(** [if (c) m] without an [else]. *)
Definition when (c : bool) (m : M W X unit) : M W X unit :=
  if c then m else ret tt.
End Monad.

Notation "x <- m ;; k" := (bind m (fun x => k))
  (at level 100, m at next level, right associativity) : ppp_scope.
Notation "' p <- m ;; k" := (bind m (fun x => match x with p => k end))
  (at level 100, p pattern, m at next level, right associativity) : ppp_scope.
Notation "m ;; k" := (bind m (fun _ => k))
  (at level 100, right associativity) : ppp_scope.

(** ** Postconditions

    [wp F m Q E w]: from [w], [Q] holds of a normal return of [m] and [E] of
    an abrupt one; [F] says what is claimed of a run that faults or does not
    return: [False] for "there is none", [True] for "nothing". *)

Definition wp (F : Prop) {W X A} (m : M W X A) (Q : A -> W -> Prop)
  (E : X -> W -> Prop) (w : W) : Prop :=
  match m w with
  | Ok a w' => Q a w'
  | Throw x w' => E x w'
  | Fault | Hang => F
  end.

Section Wp.
Context {F : Prop} {W X : Type}.

Lemma wp_ret {A} (a : A) Q (E : X -> W -> Prop) w : Q a w -> wp F (ret a) Q E w.
Proof. done. Qed.
Lemma wp_throw {A} (x : X) (Q : A -> W -> Prop) (E : X -> W -> Prop) w :
  E x w -> wp F (throw x) Q E w.
Proof. done. Qed.
Lemma wp_gets {A} (f : W -> A) Q (E : X -> W -> Prop) w :
  Q (f w) w -> wp F (gets f) Q E w.
Proof. done. Qed.
Lemma wp_modify (f : W -> W) Q (E : X -> W -> Prop) w :
  Q tt (f w) -> wp F (modify f) Q E w.
Proof. done. Qed.
Lemma wp_put (w' : W) Q (E : X -> W -> Prop) w :
  Q tt w' -> wp F (put w') Q E w.
Proof. done. Qed.
Lemma wp_access {A} (o : option A) a Q (E : X -> W -> Prop) w :
  o = Some a -> Q a w -> wp F (access o) Q E w.
Proof. intros -> H. exact H. Qed.
Lemma wp_access' {A} (o : option A) Q (E : X -> W -> Prop) w :
  (forall a, o = Some a -> Q a w) -> (o = None -> F) -> wp F (access o) Q E w.
Proof. destruct o; unfold wp, access; cbn; auto. Qed.

Lemma wp_bind {A B} (m : M W X A) (k : A -> M W X B) Q (E : X -> W -> Prop) w :
  wp F m (fun a => wp F (k a) Q E) E w -> wp F (bind m k) Q E w.
Proof. unfold wp, bind. by destruct (m w). Qed.

Lemma wp_bind_inv {A B} (m : M W X A) (k : A -> M W X B) Q (E : X -> W -> Prop) w :
  wp F (bind m k) Q E w -> wp F m (fun a => wp F (k a) Q E) E w.
Proof. unfold wp, bind. by destruct (m w). Qed.

Lemma wp_mono {A} (m : M W X A) (Q Q' : A -> W -> Prop) (E E' : X -> W -> Prop) w :
  wp F m Q E w ->
  (forall a w', Q a w' -> Q' a w') -> (forall x w', E x w' -> E' x w') ->
  wp F m Q' E' w.
Proof. unfold wp. destruct (m w); eauto. Qed.

Lemma wp_conj {A} (m : M W X A) (Q Q' : A -> W -> Prop) (E E' : X -> W -> Prop) w :
  wp F m Q E w -> wp F m Q' E' w ->
  wp F m (fun a w' => Q a w' /\ Q' a w') (fun x w' => E x w' /\ E' x w') w.
Proof. unfold wp. destruct (m w); eauto. Qed.

Lemma wp_when (c : bool) (m : M W X unit) Q (E : X -> W -> Prop) w :
  (c = true -> wp F m Q E w) -> (c = false -> Q tt w) -> wp F (when c m) Q E w.
Proof. unfold when. destruct c; intros H1 H2; [auto|]. by apply wp_ret, H2. Qed.

Lemma wp_if {A} (c : bool) (m n : M W X A) Q (E : X -> W -> Prop) w :
  (c = true -> wp F m Q E w) -> (c = false -> wp F n Q E w) ->
  wp F (if c then m else n) Q E w.
Proof. destruct c; auto. Qed.
End Wp.

(** A run that is shown not to fault has the partial postcondition. *)
Lemma wp_fault_mono {W X A} (F F' : Prop) (m : M W X A) Q (E : X -> W -> Prop) w :
  (F -> F') -> wp F m Q E w -> wp F' m Q E w.
Proof. unfold wp. destruct (m w); auto. Qed.

(** An invariant of the state that a computation keeps when it returns. *)
Section Preserves.
Context {W X : Type} (I : W -> Prop).

Definition preserves {A} (m : M W X A) : Prop :=
  forall w, I w -> wp True m (fun _ => I) (fun _ _ => True) w.

Lemma preserves_ret {A} (a : A) : preserves (ret a).
Proof. intros w Hw. by apply wp_ret. Qed.
Lemma preserves_throw {A} (x : X) : preserves (throw x : M W X A).
Proof. done. Qed.
Lemma preserves_fault {A} : preserves (fault : M W X A).
Proof. done. Qed.
Lemma preserves_gets {A} (f : W -> A) : preserves (gets f).
Proof. intros w Hw. by apply wp_gets. Qed.
Lemma preserves_modify (f : W -> W) : (forall w, I w -> I (f w)) -> preserves (modify f).
Proof. intros Hf w Hw. by apply wp_modify, Hf. Qed.
Lemma preserves_access {A} (o : option A) : preserves (access o).
Proof. intros w Hw. by apply wp_access'. Qed.
Lemma preserves_bind {A B} (m : M W X A) (k : A -> M W X B) :
  preserves m -> (forall a, preserves (k a)) -> preserves (bind m k).
Proof.
  intros Hm Hk w Hw. apply wp_bind. eapply wp_mono; [exact (Hm w Hw)| |done].
  intros a w' Hw'. exact (Hk a w' Hw').
Qed.
Lemma preserves_if {A} (b : bool) (m n : M W X A) :
  preserves m -> preserves n -> preserves (if b then m else n).
Proof. by destruct b. Qed.
Lemma preserves_when b (m : M W X unit) : preserves m -> preserves (when b m).
Proof. intros Hm. apply preserves_if; [done|apply preserves_ret]. Qed.
End Preserves.

(** Extensional equality of computations, and the monad laws. *)
Definition meq {W X A} : relation (M W X A) := fun m n => forall w, m w = n w.

#[export] Instance meq_equiv {W X A} : Equivalence (@meq W X A).
Proof.
  split; unfold meq; intros ?; [done|by intros y H w|].
  intros y z H1 H2 w. by rewrite H1.
Qed.

#[export] Instance bind_proper {W X A B} :
  Proper (meq ==> pointwise_relation A meq ==> meq) (@bind W X A B).
Proof.
  intros m m' Hm k k' Hk w. unfold bind. rewrite Hm.
  destruct (m' w); [apply Hk|done..].
Qed.

#[export] Instance wp_proper {W X A} :
  Proper (iff ==> meq ==> eq ==> eq ==> eq ==> iff) (fun F => @wp F W X A).
Proof. intros F F' HF m m' Hm ? Q -> ? E -> ? w ->. unfold wp. rewrite Hm. by destruct (m' w). Qed.

Lemma bind_assoc {W X A B C} (m : M W X A) (f : A -> M W X B) (g : B -> M W X C) :
  meq (bind (bind m f) g) (bind m (fun a => bind (f a) g)).
Proof. intros w. unfold bind. by destruct (m w). Qed.

Lemma ret_bind {W X A B} (a : A) (k : A -> M W X B) : meq (bind (ret a) k) (k a).
Proof. done. Qed.

(** One step of symbolic execution. [wp_step] opens one bind or primitive;
    [wp_go] repeats it and splits the conditionals it meets. *)
Ltac wp_step :=
  lazymatch goal with
  | |- wp _ (bind _ _) _ _ _ => apply wp_bind
  | |- wp _ (ret _) _ _ _ => apply wp_ret
  | |- wp _ (gets _) _ _ _ => apply wp_gets
  | |- wp _ (modify _) _ _ _ => apply wp_modify
  | |- wp _ (put _) _ _ _ => apply wp_put
  | |- wp _ (throw _) _ _ _ => apply wp_throw
  | |- wp _ (when _ _) _ _ _ => apply wp_when; intros ?
  | |- wp _ (if _ then _ else _) _ _ _ => apply wp_if; intros ?
  | |- wp _ (let '_ := ?x in _) _ _ _ => destruct x
  end; cbv beta.
Ltac wp_go := repeat wp_step.

(** Apply a specification whose postcondition is stronger than the goal's. *)
Ltac wp_use H := eapply wp_mono; [eapply H| |]; cbv beta.

(** ** Lists *)

Section Lists.
Context {A : Type}.
Implicit Types l : list A.

(** [l] with the bytes [bs] written at its start; [None] when they do not fit. *)
Definition poke (bs l : list A) : option (list A) :=
  if decide (length bs <= length l)%nat
  then Some (bs ++ drop (length bs) l) else None.

Lemma poke_length bs l l' : poke bs l = Some l' -> length l' = length l.
Proof.
  unfold poke. case_decide; [|done]. intros [= <-].
  rewrite length_app, length_drop. lia.
Qed.

Lemma poke_fits bs l :
  (length bs <= length l)%nat -> poke bs l = Some (bs ++ drop (length bs) l).
Proof. intros H. unfold poke. by rewrite decide_True. Qed.

(** [l] with the bytes [bs] written at offset [o]. *)
Definition poke_at (o : nat) (bs l : list A) : option (list A) :=
  if decide (o + length bs <= length l)%nat
  then Some (take o l ++ bs ++ drop (o + length bs) l) else None.

Lemma poke_at_length o bs l l' : poke_at o bs l = Some l' -> length l' = length l.
Proof.
  unfold poke_at. case_decide; [|done]. intros [= <-].
  rewrite !length_app, length_take, length_drop. lia.
Qed.

Lemma poke_at_fits o bs l :
  (o + length bs <= length l)%nat ->
  poke_at o bs l = Some (take o l ++ bs ++ drop (o + length bs) l).
Proof. intros H. unfold poke_at. by rewrite decide_True. Qed.

(** The [n] elements of [l] from offset [o]; [None] when they run past its end. *)
Definition slice (o n : nat) l : option (list A) :=
  if decide (o + n <= length l)%nat then Some (take n (drop o l)) else None.

Lemma slice_fits o n l :
  (o + n <= length l)%nat -> slice o n l = Some (take n (drop o l)).
Proof. intros H. unfold slice. by rewrite decide_True. Qed.

Lemma slice_length o n l s : slice o n l = Some s -> length s = n.
Proof.
  unfold slice. case_decide; [|done]. intros [= <-].
  rewrite length_take, length_drop. lia.
Qed.
End Lists.

#[export] Hint Rewrite @length_app @length_take @length_drop @length_cons @length_nil
  : ppp_len.
