(* ===== verification/Hooks.v ===== *)
(** * pppHookLib.c: the connect and disconnect hooks

    The table of a pointer for each unit, the structures it points to, and the
    two routines in the parts that the semaphore makes: what comes before
    [semTake] can be separated from the rest by a call of another task. *)

From stdpp Require Import gmap.
From S2P Require Export Prelude.

Definition NPPP := 16.
Definition PPP_HOOK_CONNECT := 0.
Definition PPP_HOOK_DISCONNECT := 1.
Definition M_pppHookLib := Z.shiftl 102 16.
Definition S_pppHookLib_NOT_INITIALIZED := Z.lor M_pppHookLib 1.
Definition S_pppHookLib_HOOK_DELETED := Z.lor M_pppHookLib 2.
Definition S_pppHookLib_HOOK_ADDED := Z.lor M_pppHookLib 3.
Definition S_pppHookLib_HOOK_UNKNOWN := Z.lor M_pppHookLib 4.
Definition S_pppHookLib_INVALID_UNIT := Z.lor M_pppHookLib 5.

(** A routine is its address, [NULL] is [None]. *)
Record PPP_HOOK_RTNS := mk_rtns { connectHook : option Z; disconnectHook : option Z }.
(** The hook of a type. *)
Definition hook (type : Z) (r : PPP_HOOK_RTNS) : option Z :=
  if type =? PPP_HOOK_CONNECT then connectHook r else disconnectHook r.
Definition put_hook (type : Z) (f : option Z) (r : PPP_HOOK_RTNS) : PPP_HOOK_RTNS :=
  if type =? PPP_HOOK_CONNECT then mk_rtns f (disconnectHook r) else mk_rtns (connectHook r) f.

(** Whether the semaphore exists, [pppHookRtns], and the memory of the
    structures; a pointer that is not in [hk_heap] has been freed. *)
Record hooks := mk_hooks {
  hk_sem : bool;
  hk_rtns : list (option positive);
  hk_heap : gmap positive PPP_HOOK_RTNS }.
#[export] Instance eta_hooks : Eta hooks := fun s =>
  {| hk_sem := hk_sem s; hk_rtns := hk_rtns s; hk_heap := hk_heap s |}.
#[export] Instance set_hk_sem : Setter hk_sem := ltac:(derive_setter).
#[export] Instance set_hk_rtns : Setter hk_rtns := ltac:(derive_setter).
#[export] Instance set_hk_heap : Setter hk_heap := ltac:(derive_setter).

(** OK, or ERROR with the [errno] that the routine sets ([None]: that of [calloc]
    or [semMCreate]). *)
Inductive status := OK | ERROR (errno : option Z).
Definition calls := M hooks Empty_set.

Definition pppHookLibInit (sem_ok : bool) : calls status :=
  s <- gets id ;;
  if hk_sem s then ret OK else
  modify (fun s => s <| hk_rtns := replicate (Z.to_nat NPPP) None |>) ;;
  if sem_ok then modify (fun s => s <| hk_sem := true |>) ;; ret OK else ret (ERROR None).

(** [pppHookRtns[unit]] *)
Definition get_rtns (unit : Z) : calls (option positive) :=
  l <- gets hk_rtns ;; access (if unit <? 0 then None else l !! Z.to_nat unit).
Definition put_rtns (unit : Z) (p : option positive) : calls () :=
  l <- gets hk_rtns ;;
  if (0 <=? unit) && (unit <? Z.of_nat (length l))
  then modify (fun s => s <| hk_rtns := <[Z.to_nat unit := p]> l |>) else fault.
(** [*p] *)
Definition deref (p : positive) : calls PPP_HOOK_RTNS :=
  h <- gets hk_heap ;; access (h !! p).
Definition assign (p : positive) (r : PPP_HOOK_RTNS) : calls () :=
  _ <- deref p ;; modify (fun s => s <| hk_heap ::= <[p := r]> |>).

(** The checks both routines begin with. *)
Definition check_args (unit type : Z) : calls (option status) :=
  sem <- gets hk_sem ;;
  if negb sem then ret (Some (ERROR (Some S_pppHookLib_NOT_INITIALIZED))) else
  if (unit <? 0) || (NPPP <? unit) then ret (Some (ERROR (Some S_pppHookLib_INVALID_UNIT))) else
  if negb (type =? PPP_HOOK_CONNECT) && negb (type =? PPP_HOOK_DISCONNECT)
  then ret (Some (ERROR (Some S_pppHookLib_HOOK_UNKNOWN)))
  else ret None.

(** [pppHookAdd] before [semTake]: the structure to change, or the status. *)
Definition add_check (calloc_ok : bool) (unit type : Z) : calls (status + positive) :=
  bad <- check_args unit type ;;
  match bad with
  | Some st => ret (inl st)
  | None =>
      p <- get_rtns unit ;;
      match p with
      | None =>
          h <- gets hk_heap ;;
          if calloc_ok then
            let p := fresh (dom h) in
            modify (fun s => s <| hk_heap ::= <[p := mk_rtns None None]> |>) ;; ret (inr p)
          else ret (inl (ERROR None))
      | Some p =>
          r <- deref p ;;
          match hook type r with
          | Some _ => ret (inl (ERROR (Some S_pppHookLib_HOOK_ADDED)))
          | None => ret (inr p)
          end
      end
  end.
(** From [semTake] on. *)
Definition add_commit (unit : Z) (hookRtn : option Z) (type : Z) (p : positive) : calls status :=
  put_rtns unit (Some p) ;;
  r <- deref p ;; assign p (put_hook type hookRtn r) ;; ret OK.
Definition pppHookAdd (calloc_ok : bool) (unit : Z) (hookRtn : option Z) (type : Z) : calls status :=
  c <- add_check calloc_ok unit type ;;
  match c with inl st => ret st | inr p => add_commit unit hookRtn type p end.

(** [pppHookDelete] likewise; behind [semTake] it reads the table again. *)
Definition delete_check (unit type : Z) : calls (option status) :=
  bad <- check_args unit type ;;
  match bad with
  | Some st => ret (Some st)
  | None =>
      p <- get_rtns unit ;;
      match p with
      | None => ret (Some (ERROR (Some S_pppHookLib_HOOK_DELETED)))
      | Some p =>
          r <- deref p ;;
          match hook type r with
          | None => ret (Some (ERROR (Some S_pppHookLib_HOOK_DELETED)))
          | Some _ => ret None
          end
      end
  end.
Definition rtns_at (unit : Z) : calls positive := p <- get_rtns unit ;; access p.
Definition delete_commit (unit type : Z) : calls status :=
  p <- rtns_at unit ;;
  r <- deref p ;; assign p (put_hook type None r) ;;
  r <- deref p ;;
  when (bool_decide (connectHook r = None) && bool_decide (disconnectHook r = None))
    (modify (fun s => s <| hk_heap ::= delete p |>) ;; put_rtns unit None) ;;
  ret OK.
Definition pppHookDelete (unit type : Z) : calls status :=
  c <- delete_check unit type ;;
  match c with Some st => ret st | None => delete_commit unit type end.

(** ** The table that the routines stand for *)

(** The hook of a unit and a type. *)
Definition hook_of (s : hooks) (unit type : Z) : option Z :=
  match hk_rtns s !! Z.to_nat unit with
  | Some (Some p) => match hk_heap s !! p with Some r => hook type r | None => None end
  | _ => None
  end.

(** Pointers of the table point to structures of their own. *)
Record hooks_ok (s : hooks) : Prop := {
  ho_size : length (hk_rtns s) = Z.to_nat NPPP;
  ho_live : forall i p, hk_rtns s !! i = Some (Some p) -> is_Some (hk_heap s !! p);
  ho_own : forall i j p, hk_rtns s !! i = Some (Some p) -> hk_rtns s !! j = Some (Some p) -> i = j }.

(** The calls, and what they should do to a table of hooks. *)
Inductive hook_call := Add (unit : Z) (hookRtn : option Z) (type : Z) | Delete (unit type : Z).
Definition known (type : Z) : bool := (type =? PPP_HOOK_CONNECT) || (type =? PPP_HOOK_DISCONNECT).
Definition table := Z -> Z -> option Z.
Definition put_table (a : table) (unit type : Z) (f : option Z) : table :=
  fun u t => if (u =? unit) && (t =? type) then f else a u t.
Definition spec_args (unit type : Z) : option status :=
  if (unit <? 0) || (NPPP <=? unit) then Some (ERROR (Some S_pppHookLib_INVALID_UNIT))
  else if known type then None else Some (ERROR (Some S_pppHookLib_HOOK_UNKNOWN)).
Definition spec_call (c : hook_call) (a : table) : status * table :=
  match c with
  | Add unit f type =>
      match spec_args unit type, a unit type with
      | Some st, _ => (st, a)
      | None, Some _ => (ERROR (Some S_pppHookLib_HOOK_ADDED), a)
      | None, None => (OK, put_table a unit type f)
      end
  | Delete unit type =>
      match spec_args unit type, a unit type with
      | Some st, _ => (st, a)
      | None, None => (ERROR (Some S_pppHookLib_HOOK_DELETED), a)
      | None, Some _ => (OK, put_table a unit type None)
      end
  end.
Definition run_call (c : hook_call) : calls status :=
  match c with
  | Add unit f type => pppHookAdd true unit f type
  | Delete unit type => pppHookDelete unit type
  end.
Fixpoint run_calls (l : list hook_call) : calls (list status) :=
  match l with
  | [] => ret []
  | c :: l => st <- run_call c ;; sts <- run_calls l ;; ret (st :: sts)
  end.
Fixpoint spec_calls (l : list hook_call) (a : table) : list status :=
  match l with
  | [] => []
  | c :: l => let '(st, a) := spec_call c a in st :: spec_calls l a
  end.
Definition unit_of (c : hook_call) : Z := match c with Add u _ _ => u | Delete u _ => u end.
(** What is in the table, for units and types that exist. *)
Definition stands_for (s : hooks) (a : table) : Prop :=
  hk_sem s = true /\ hooks_ok s
  /\ forall u t, 0 <= u < NPPP -> known t = true -> a u t = hook_of s u t.
Definition type_of (c : hook_call) : Z := match c with Add _ _ t => t | Delete _ t => t end.

(** ** A call, step by step *)

Lemma known_cases t : known t = negb (negb (t =? PPP_HOOK_CONNECT) && negb (t =? PPP_HOOK_DISCONNECT)).
Proof. unfold known. by destruct (t =? PPP_HOOK_CONNECT), (t =? PPP_HOOK_DISCONNECT). Qed.
Lemma check_args_spec s u t : hk_sem s = true -> u <> NPPP -> check_args u t s = Ok (spec_args u t) s.
Proof.
  intros Hs Hu. unfold check_args, bind, gets, spec_args. rewrite Hs. cbn [negb].
  assert ((NPPP <? u) = (NPPP <=? u)) as -> by (revert Hu; unfold NPPP; lia).
  rewrite known_cases.
  destruct ((u <? 0) || (NPPP <=? u)); [done|].
  by destruct (t =? PPP_HOOK_CONNECT), (t =? PPP_HOOK_DISCONNECT).
Qed.
Lemma spec_args_range u t : spec_args u t = None -> 0 <= u < NPPP /\ known t = true.
Proof.
  unfold spec_args. destruct ((u <? 0) || _) eqn:Hb; [done|]. destruct (known t); [|done].
  split; [|done]. revert Hb. unfold NPPP. lia.
Qed.
Lemma get_rtns_at s u p : 0 <= u -> hk_rtns s !! Z.to_nat u = Some p -> get_rtns u s = Ok p s.
Proof.
  intros H Hp. unfold get_rtns, bind, gets, access.
  destruct (u <? 0) eqn:E; [lia|]. by rewrite Hp.
Qed.
Lemma slot s u : hooks_ok s -> 0 <= u < NPPP -> exists p, hk_rtns s !! Z.to_nat u = Some p.
Proof. intros Hok Hu. apply lookup_lt_is_Some. rewrite (ho_size _ Hok). lia. Qed.
Lemma deref_at s p r : hk_heap s !! p = Some r -> deref p s = Ok r s.
Proof. intros H. unfold deref, bind, gets, access. by rewrite H. Qed.
Lemma put_rtns_at s u p : length (hk_rtns s) = Z.to_nat NPPP -> 0 <= u < NPPP ->
  put_rtns u p s = Ok tt (mk_hooks (hk_sem s) (<[Z.to_nat u := p]> (hk_rtns s)) (hk_heap s)).
Proof.
  intros Hn Hu. unfold put_rtns, bind, gets, modify. rewrite Hn.
  assert ((0 <=? u) && (u <? Z.of_nat (Z.to_nat NPPP)) = true) as ->; [|done].
  rewrite Z2Nat.id by done. destruct Hu. by rewrite (proj2 (Z.leb_le _ _)), (proj2 (Z.ltb_lt _ _)).
Qed.
Lemma assign_at s p r r' : hk_heap s !! p = Some r ->
  assign p r' s = Ok tt (mk_hooks (hk_sem s) (hk_rtns s) (<[p := r']> (hk_heap s))).
Proof. intros H. unfold assign, bind. by rewrite (deref_at _ _ _ H). Qed.

Lemma hook_put t t' f r : known t = true -> known t' = true ->
  hook t' (put_hook t f r) = if t' =? t then f else hook t' r.
Proof.
  unfold known, hook, put_hook, PPP_HOOK_CONNECT, PPP_HOOK_DISCONNECT. intros Ht Ht'.
  apply orb_true_iff in Ht, Ht'. rewrite !Z.eqb_eq in Ht, Ht'.
  destruct Ht as [-> | ->], Ht' as [-> | ->]; done.
Qed.

(** The structure at [p] belongs to slot [u], or is one that no slot has yet. *)
Definition owned (s : hooks) (u : Z) (p : positive) (r : PPP_HOOK_RTNS) : Prop :=
  (hk_rtns s !! Z.to_nat u = Some (Some p) /\ hk_heap s !! p = Some r)
  \/ (hk_rtns s !! Z.to_nat u = Some None /\ hk_heap s !! p = None /\ r = mk_rtns None None).

Lemma put_ok s u p r r' : hooks_ok s -> 0 <= u < NPPP -> owned s u p r ->
  hooks_ok (mk_hooks (hk_sem s) (<[Z.to_nat u := Some p]> (hk_rtns s)) (<[p := r']> (hk_heap s))).
Proof.
  intros [Hn Hl Ho] Hu Hp.
  assert (Hin : (Z.to_nat u < length (hk_rtns s))%nat) by (rewrite Hn; lia).
  assert (Hother : forall i, i <> Z.to_nat u -> hk_rtns s !! i <> Some (Some p)).
  { intros i Hi Hip. destruct Hp as [[Hp _]|(_ & Hp & _)].
    - by destruct (Hi (Ho _ _ _ Hip Hp)).
    - destruct (Hl _ _ Hip) as [? Hx]. by rewrite Hp in Hx. }
  split; cbn.
  - by rewrite length_insert.
  - intros i q. rewrite list_lookup_insert_Some, lookup_insert_is_Some'.
    intros [(_ & [= ->] & _)|[_ Hq]]; [by left|right; eauto].
  - intros i j q. rewrite !list_lookup_insert_Some.
    intros [(<- & [= <-] & _)|[Hi Hq]] [(<- & Hqq & _)|[Hj Hq']]; [done| | |by eapply Ho].
    + by destruct (Hother j).
    + injection Hqq as <-. by destruct (Hother i).
Qed.

Lemma stands_put s a u t f p r : stands_for s a -> 0 <= u < NPPP -> known t = true ->
  owned s u p r ->
  stands_for (mk_hooks (hk_sem s) (<[Z.to_nat u := Some p]> (hk_rtns s))
                (<[p := put_hook t f r]> (hk_heap s))) (put_table a u t f).
Proof.
  intros (Hs & Hok & Ha) Hu Ht Hp. split_and!; [done|by eapply put_ok|].
  intros v t' Hv Ht'. unfold hook_of, put_table. cbn.
  assert (Hin : (Z.to_nat u < length (hk_rtns s))%nat) by (rewrite (ho_size _ Hok); lia).
  destruct (v =? u) eqn:E.
  - apply Z.eqb_eq in E as ->. rewrite list_lookup_insert_eq, lookup_insert_eq by done.
    rewrite hook_put by done. cbn [andb]. destruct (t' =? t); [done|].
    rewrite Ha by done. unfold hook_of.
    destruct Hp as [[-> ->]|(-> & _ & ->)]; [done|]. cbn. unfold hook. by destruct (t' =? _).
  - apply Z.eqb_neq in E. cbn [andb]. rewrite Ha by done. unfold hook_of.
    rewrite list_lookup_insert_ne by lia.
    destruct (hk_rtns s !! Z.to_nat v) as [[q|]|] eqn:Hq; [|done..].
    destruct (ho_live _ Hok _ _ Hq) as [x Hx].
    rewrite lookup_insert_ne; [done|intros <-].
    destruct Hp as [[Hp _]|(_ & Hp & _)]; [|congruence].
    apply E. apply Z2Nat.inj; [lia..|]. by apply (ho_own _ Hok _ _ p).
Qed.

Lemma stands_free s a u p r : stands_for s a -> 0 <= u < NPPP ->
  hk_rtns s !! Z.to_nat u = Some (Some p) -> hk_heap s !! p = Some r ->
  connectHook r = None -> disconnectHook r = None ->
  stands_for (mk_hooks (hk_sem s) (<[Z.to_nat u := None]> (hk_rtns s)) (delete p (hk_heap s))) a.
Proof.
  intros (Hs & Hok & Ha) Hu Hp Hr Hc Hd.
  assert (Hin : (Z.to_nat u < length (hk_rtns s))%nat) by (rewrite (ho_size _ Hok); lia).
  assert (Hne : forall i q, i <> Z.to_nat u -> hk_rtns s !! i = Some (Some q) -> p <> q).
  { intros i q Hi Hq <-. by apply Hi, (ho_own _ Hok _ _ p). }
  split_and!; [done|split; cbn|].
  - by rewrite length_insert, (ho_size _ Hok).
  - intros i q. rewrite list_lookup_insert_Some. intros [(_ & ? & _)|[Hi Hq]]; [done|].
    rewrite lookup_delete_ne by eauto. by apply (ho_live _ Hok _ _ Hq).
  - intros i j q. rewrite !list_lookup_insert_Some.
    intros [(_ & ? & _)|[Hi Hq]] [(_ & ? & _)|[Hj Hq']]; [done..|]. by eapply (ho_own _ Hok).
  - intros v t Hv Ht. rewrite Ha by done. unfold hook_of. cbn.
    destruct (decide (v = u)) as [->|Hv'].
    + rewrite list_lookup_insert_eq, Hp, Hr by done. unfold hook. by destruct (t =? _).
    + rewrite list_lookup_insert_ne by lia.
      destruct (hk_rtns s !! Z.to_nat v) as [[q|]|] eqn:Hq; [|done..].
      rewrite lookup_delete_ne; [done|]. eapply Hne; [|done]. lia.
Qed.

(** What a call does to the state that stands for a table. *)
Definition does (m : calls status) (sp : status * table) (s : hooks) : Prop :=
  exists s', m s = Ok (fst sp) s' /\ stands_for s' (snd sp).

Lemma hook_of_some s u p r t : hk_rtns s !! Z.to_nat u = Some (Some p) -> hk_heap s !! p = Some r ->
  hook_of s u t = hook t r.
Proof. intros Hp Hr. unfold hook_of. by rewrite Hp, Hr. Qed.
Lemma hook_of_none s u t : hk_rtns s !! Z.to_nat u = Some None -> hook_of s u t = None.
Proof. intros Hp. unfold hook_of. by rewrite Hp. Qed.

(** [s1] is [s] once the structure at [p] is there. *)
Definition ready (s s1 : hooks) (p : positive) (r : PPP_HOOK_RTNS) : Prop :=
  hk_sem s1 = hk_sem s /\ hk_rtns s1 = hk_rtns s /\ hk_heap s1 !! p = Some r
  /\ forall r', <[p := r']> (hk_heap s1) = <[p := r']> (hk_heap s).

Lemma ready_live s p r : hk_heap s !! p = Some r -> ready s s p r.
Proof. done. Qed.
Lemma ready_new s p :
  ready s (s <| hk_heap ::= <[p := mk_rtns None None]> |>) p (mk_rtns None None).
Proof.
  split_and!; [done..| |]; intros; cbv beta delta [upd]; cbn.
  - apply lookup_insert_eq.
  - apply insert_insert_eq.
Qed.

Lemma add_commit_at s u f t p r : length (hk_rtns s) = Z.to_nat NPPP -> 0 <= u < NPPP ->
  hk_heap s !! p = Some r ->
  add_commit u f t p s = Ok OK (mk_hooks (hk_sem s) (<[Z.to_nat u := Some p]> (hk_rtns s))
                                  (<[p := put_hook t f r]> (hk_heap s))).
Proof.
  intros Hn Hu Hr. unfold add_commit, bind. rewrite put_rtns_at by done.
  rewrite (deref_at _ p r) by exact Hr. by rewrite (assign_at _ p r).
Qed.

Lemma add_commit_does s s1 a u f t p r : stands_for s a -> 0 <= u < NPPP -> known t = true ->
  owned s u p r -> ready s s1 p r ->
  does (add_commit u f t p) (OK, put_table a u t f) s1.
Proof.
  intros Hst Hu Ht Ho (Hsem & Hrt & Hr & Hup). unfold does.
  rewrite (add_commit_at s1 u f t p r) by (rewrite ?Hrt; try apply Hst; done).
  rewrite Hup, Hsem, Hrt. eexists. split; [done|].
  exact (stands_put s a u t f p r Hst Hu Ht Ho).
Qed.

(** A unit without a structure: the checks allocate one. *)
Lemma add_check_alloc s u t : hk_sem s = true -> spec_args u t = None -> u <> NPPP ->
  hk_rtns s !! Z.to_nat u = Some None ->
  add_check true u t s =
    Ok (inr (fresh (dom (hk_heap s))))
       (s <| hk_heap ::= <[fresh (dom (hk_heap s)) := mk_rtns None None]> |>).
Proof.
  intros Hs Hsp Hu Hp. unfold add_check, bind. rewrite check_args_spec, Hsp by done.
  apply spec_args_range in Hsp as [Hr _]. by rewrite (get_rtns_at _ _ None) by (done || lia).
Qed.
Lemma fresh_free s : hk_heap s !! fresh (dom (hk_heap s)) = None.
Proof. apply not_elem_of_dom, is_fresh. Qed.

(** The checks of [pppHookAdd] when the call is in order. *)
Lemma add_check_free s a u t : stands_for s a -> spec_args u t = None -> u <> NPPP -> a u t = None ->
  exists s1 p r, add_check true u t s = Ok (inr p) s1 /\ owned s u p r /\ ready s s1 p r.
Proof.
  intros (Hs & Hok & Ha) Hsp Hu Hf. pose proof (spec_args_range u t Hsp) as [Hr Ht].
  rewrite Ha in Hf by done. destruct (slot s u Hok Hr) as [[p|] Hp].
  - unfold add_check, bind. rewrite check_args_spec, Hsp by done.
    destruct (ho_live _ Hok _ _ Hp) as [r Hr']. exists s, p, r.
    rewrite (get_rtns_at _ _ (Some p)), (deref_at _ _ r) by (done || lia).
    rewrite (hook_of_some _ _ p r) in Hf by done. rewrite Hf. split_and!; [done|by left|done].
  - rewrite add_check_alloc by done. do 3 eexists. split; [done|].
    split; [|apply ready_new]. right. split_and!; [done|apply fresh_free|done].
Qed.

Lemma add_check_taken s a u t f : stands_for s a -> spec_args u t = None -> u <> NPPP ->
  a u t = Some f -> add_check true u t s = Ok (inl (ERROR (Some S_pppHookLib_HOOK_ADDED))) s.
Proof.
  intros (Hs & Hok & Ha) Hsp Hu Hf. unfold add_check, bind.
  rewrite check_args_spec, Hsp by done. apply spec_args_range in Hsp as [Hr Ht].
  rewrite Ha in Hf by done. destruct (slot s u Hok Hr) as [[p|] Hp].
  - destruct (ho_live _ Hok _ _ Hp) as [r Hr'].
    rewrite (get_rtns_at _ _ (Some p)), (deref_at _ _ r) by (done || lia).
    rewrite (hook_of_some _ _ p r) in Hf by done. by rewrite Hf.
  - by rewrite hook_of_none in Hf.
Qed.

Lemma pppHookAdd_does s a u f t : stands_for s a -> u <> NPPP ->
  does (pppHookAdd true u f t) (spec_call (Add u f t) a) s.
Proof.
  intros Hst Hu. unfold does, pppHookAdd. cbn [spec_call].
  destruct (spec_args u t) as [st|] eqn:Hsp; [|destruct (a u t) as [g|] eqn:Hf].
  - unfold bind, add_check, bind. rewrite check_args_spec, Hsp by (apply Hst || done). by eexists.
  - unfold bind. rewrite (add_check_taken s a u t g) by done. by eexists.
  - destruct (add_check_free s a u t) as (s1 & p & r & Hc & Ho & Hy); [done..|].
    unfold bind. rewrite Hc. apply spec_args_range in Hsp as [Hr Ht].
    exact (add_commit_does s s1 a u f t p r Hst Hr Ht Ho Hy).
Qed.

Lemma delete_check_spec s a u t : stands_for s a -> spec_args u t = None -> u <> NPPP ->
  delete_check u t s = Ok (if a u t then None
                           else Some (ERROR (Some S_pppHookLib_HOOK_DELETED))) s.
Proof.
  intros (Hs & Hok & Ha) Hsp Hu. unfold delete_check, bind.
  rewrite check_args_spec, Hsp by done. apply spec_args_range in Hsp as [Hr Ht].
  rewrite Ha by done. destruct (slot s u Hok Hr) as [[p|] Hp].
  - destruct (ho_live _ Hok _ _ Hp) as [r Hr'].
    rewrite (get_rtns_at _ _ (Some p)), (deref_at _ _ r) by (done || lia).
    rewrite (hook_of_some _ _ p r) by done. by destruct (hook t r).
  - rewrite (get_rtns_at _ _ None), hook_of_none by (done || lia). done.
Qed.

Definition no_hook (r : PPP_HOOK_RTNS) : bool :=
  bool_decide (connectHook r = None) && bool_decide (disconnectHook r = None).
Lemma delete_commit_at s u t p r : length (hk_rtns s) = Z.to_nat NPPP -> 0 <= u < NPPP ->
  hk_rtns s !! Z.to_nat u = Some (Some p) -> hk_heap s !! p = Some r ->
  let r' := put_hook t None r in
  let h := <[p := r']> (hk_heap s) in
  delete_commit u t s = Ok OK
    (if no_hook r' then mk_hooks (hk_sem s) (<[Z.to_nat u := None]> (hk_rtns s)) (delete p h)
     else mk_hooks (hk_sem s) (hk_rtns s) h).
Proof.
  intros Hn Hu Hp Hr r' h. unfold delete_commit, rtns_at, bind.
  rewrite (get_rtns_at _ _ (Some p)) by (done || lia). cbn [access ret].
  rewrite (deref_at _ _ r), (assign_at _ _ r) by done. fold r' h.
  rewrite (deref_at _ p r') by apply lookup_insert_eq. fold (no_hook r').
  destruct (no_hook r'); cbn [when]; [|done].
  change (modify _ ?w) with (Ok (X:=Empty_set) tt (mk_hooks (hk_sem w) (hk_rtns w) (delete p (hk_heap w)))).
  cbv iota. by rewrite put_rtns_at.
Qed.

Lemma delete_commit_does s a u t f : stands_for s a -> 0 <= u < NPPP -> known t = true ->
  a u t = Some f -> does (delete_commit u t) (OK, put_table a u t None) s.
Proof.
  intros Hst Hu Ht Hf. pose proof Hst as (Hs & Hok & Ha). rewrite Ha in Hf by done.
  destruct (slot s u Hok Hu) as [[p|] Hp]; [|by rewrite hook_of_none in Hf].
  destruct (ho_live _ Hok _ _ Hp) as [r Hr].
  unfold does. rewrite (delete_commit_at s u t p r) by (apply Hok || done). cbv zeta.
  eexists. split; [done|]. cbn [snd].
  assert (Hst' := stands_put s a u t None p r Hst Hu Ht (or_introl (conj Hp Hr))).
  rewrite list_insert_id in Hst' by done.
  destruct (no_hook _) eqn:Hb; [|done].
  apply andb_true_iff in Hb as [Hc%bool_decide_eq_true Hd%bool_decide_eq_true].
  by apply (stands_free _ _ u p (put_hook t None r) Hst'); cbn; rewrite ?lookup_insert_eq.
Qed.

Lemma pppHookDelete_does s a u t : stands_for s a -> u <> NPPP ->
  does (pppHookDelete u t) (spec_call (Delete u t) a) s.
Proof.
  intros Hst Hu. unfold does, pppHookDelete. cbn [spec_call].
  destruct (spec_args u t) as [st|] eqn:Hsp.
  - unfold bind, delete_check, bind. rewrite check_args_spec, Hsp by (apply Hst || done).
    by eexists.
  - unfold bind. rewrite (delete_check_spec s a) by done. apply spec_args_range in Hsp as [Hr Ht].
    destruct (a u t) as [g|] eqn:Hf; [|by eexists].
    exact (delete_commit_does s a u t g Hst Hr Ht Hf).
Qed.

Lemma run_call_does s a c : stands_for s a -> unit_of c <> NPPP ->
  does (run_call c) (spec_call c a) s.
Proof. destruct c; [apply pppHookAdd_does|apply pppHookDelete_does]. Qed.

(** ** The routines implement the table *)

(** C19: while memory is there and no call names the unit [NPPP], any sequence
    of calls returns, call by call, what it would for a table of hooks that
    has a place for each unit and type: an invalid unit or type, a place
    that is taken and one that is empty are refused with their codes, and
    leave the table as it is. *)
Theorem hooks_refine l : forall s a, stands_for s a -> Forall (fun c => unit_of c <> NPPP) l ->
  exists s', run_calls l s = Ok (spec_calls l a) s'.
Proof.
  induction l as [|c l IH]; intros s a Hst Hl; [by eexists|].
  inversion_clear Hl as [|? ? Hc Hl'].
  destruct (run_call_does s a c Hst Hc) as (s1 & Hr & Hst1). cbn [run_calls spec_calls].
  unfold bind. rewrite Hr. destruct (spec_call c a) as [st a1]. cbn [fst snd] in *.
  destruct (IH s1 a1 Hst1 Hl') as [s2 ->]. by eexists.
Qed.

Lemma init_stands sem : exists s, pppHookLibInit true sem = Ok OK s
  /\ (hk_sem sem = false -> stands_for s (fun _ _ => None)).
Proof.
  unfold pppHookLibInit, bind, gets, modify, id. destruct (hk_sem sem) eqn:E; [by eexists|].
  eexists. split; [done|]. intros _. cbv beta delta [upd]. split_and!; [done|split|].
  - apply length_replicate.
  - cbn. intros i p Hi. by apply lookup_replicate in Hi as [? _].
  - cbn. intros i j p Hi. by apply lookup_replicate in Hi as [? _].
  - intros u t Hu _. unfold hook_of. cbn. rewrite lookup_replicate_2; [done|]. lia.
Qed.

(** The check of the unit lets [NPPP] through, and the table has no such
    place: a call with it reads outside of the table. *)
Theorem hook_unit_NPPP s a c : stands_for s a -> unit_of c = NPPP -> known (type_of c) = true ->
  run_call c s = Fault.
Proof.
  intros (Hs & Hok & _) Hu Ht.
  assert (Hc : check_args NPPP (type_of c) s = Ok None s).
  { unfold check_args, bind, gets. rewrite Hs. cbn [negb].
    rewrite known_cases in Ht. by destruct (negb (_ =? PPP_HOOK_CONNECT) && _). }
  assert (Hg : get_rtns NPPP s = Fault).
  { unfold get_rtns, bind, gets. rewrite lookup_ge_None_2; [done|]. by rewrite (ho_size _ Hok). }
  destruct c; cbn [unit_of type_of run_call] in *; subst;
    unfold pppHookAdd, pppHookDelete, add_check, delete_check, bind;
    by rewrite Hc, Hg.
Qed.

(** The checks of [pppHookAdd] are made before the semaphore is taken.  Two
    tasks that add the connect and the disconnect hook of a unit without any
    both allocate a structure; both calls return [OK], and the hook of the
    one that takes the semaphore first is lost. *)
Theorem hook_add_race s a u t f t' f' : stands_for s a -> spec_args u t = None ->
  spec_args u t' = None -> u <> NPPP -> t <> t' -> hk_rtns s !! Z.to_nat u = Some None ->
  exists p q s1 s2 s3 s4, add_check true u t s = Ok (inr p) s1
  /\ add_check true u t' s1 = Ok (inr q) s2
  /\ add_commit u f t p s2 = Ok OK s3 /\ hook_of s3 u t = f
  /\ add_commit u f' t' q s3 = Ok OK s4 /\ hook_of s4 u t' = f' /\ hook_of s4 u t = None.
Proof.
  intros (Hs & Hok & _) Hsp Hsp' Hu Ht Hp.
  pose proof (spec_args_range u t Hsp) as [Hr Hk]. pose proof (spec_args_range u t' Hsp') as [_ Hk'].
  set (p := fresh (dom (hk_heap s))).
  set (s1 := s <| hk_heap ::= <[p := mk_rtns None None]> |>).
  set (q := fresh (dom (hk_heap s1))).
  assert (Hp1 : hk_heap s1 !! p = Some (mk_rtns None None)) by apply lookup_insert_eq.
  assert (Hpq : q <> p) by (intros E; pose proof (fresh_free s1) as Hq; fold q in Hq; congruence).
  assert (Hn : length (hk_rtns s) = Z.to_nat NPPP) by apply Hok.
  assert (Hin : (Z.to_nat u < length (hk_rtns s))%nat) by (rewrite Hn; lia).
  exists p, q, s1. do 3 eexists.
  split; [by apply add_check_alloc|]. split; [by apply add_check_alloc|]. fold q.
  split; [apply (add_commit_at _ u f t p (mk_rtns None None)); [done..|]|].
  { cbv beta delta [upd]; cbn. by rewrite lookup_insert_ne. }
  assert (Hf : forall s r g d, hk_rtns s !! Z.to_nat u = Some (Some r) -> known d = true ->
    hk_heap s !! r = Some (put_hook d g (mk_rtns None None)) -> forall d', known d' = true ->
    hook_of s u d' = if d' =? d then g else None).
  { intros w r g d Hw Hd Hg d' Hd'. rewrite (hook_of_some _ _ r _ d' Hw Hg), hook_put by done.
    destruct (d' =? d); [done|]. unfold hook. by destruct (d' =? _). }
  assert (Hl : forall x : option positive, <[Z.to_nat u := x]> (hk_rtns s) !! Z.to_nat u = Some x)
    by (intros; by apply list_lookup_insert_eq).
  split; [erewrite (Hf _ p f t); [by rewrite Z.eqb_refl|apply Hl|done|apply lookup_insert_eq|done]|].
  split; [apply (add_commit_at _ u f' t' q (mk_rtns None None)); cbn; [|done|]|].
  { by rewrite length_insert. }
  { rewrite lookup_insert_ne by done. apply lookup_insert_eq. }
  assert (Hl' : forall x : option positive, forall l, length l = length (hk_rtns s) ->
    <[Z.to_nat u := x]> l !! Z.to_nat u = Some x) by (intros; apply list_lookup_insert_eq; lia).
  split; erewrite (Hf _ q f' t'); try (apply Hl'; cbn; by rewrite length_insert) || done
    || apply lookup_insert_eq || idtac.
  - by rewrite Z.eqb_refl.
  - by destruct (Z.eqb_spec t t').
Qed.

(** Between the checks of [pppHookAdd] and [semTake] another task may delete the
    only hook of the unit: the structure is freed, and the rest of
    [pppHookAdd] writes the new hook into freed memory. *)
Theorem hook_delete_race s a u t f t' g : stands_for s a -> spec_args u t = None ->
  spec_args u t' = None -> u <> NPPP -> t <> t' -> a u t = None -> a u t' = Some g ->
  exists p s', add_check true u t s = Ok (inr p) s
  /\ pppHookDelete u t' s = Ok OK s' /\ add_commit u f t p s' = Fault.
Proof.
  intros Hst Hsp Hsp' Hu Htt Hf Hg. pose proof Hst as (Hs & Hok & Ha).
  pose proof (spec_args_range u t Hsp) as [Hr Hk]. pose proof (spec_args_range u t' Hsp') as [_ Hk'].
  assert (Hdc := delete_check_spec s a u t' Hst Hsp' Hu). rewrite Hg in Hdc.
  rewrite Ha in Hf, Hg by done.
  destruct (slot s u Hok Hr) as [[p|] Hp]; [|by rewrite hook_of_none in Hg].
  destruct (ho_live _ Hok _ _ Hp) as [r Hr'].
  rewrite (hook_of_some _ _ p r) in Hf, Hg by done.
  assert (Hn : no_hook (put_hook t' None r) = true).
  { assert (Hh : forall d, known d = true -> hook d (put_hook t' None r) = None).
    { intros d Hd. rewrite hook_put by done. destruct (Z.eqb_spec d t') as [|Hne]; [done|].
      revert Hf Hk Hk' Hd Htt Hne. unfold known, PPP_HOOK_CONNECT, PPP_HOOK_DISCONNECT.
      intros. assert (d = t) as -> by lia. done. }
    apply andb_true_iff. split; apply bool_decide_eq_true;
      [apply (Hh PPP_HOOK_CONNECT)|apply (Hh PPP_HOOK_DISCONNECT)]; done. }
  exists p. eexists. split; [|split].
  - unfold add_check, bind. rewrite check_args_spec, Hsp by done.
    rewrite (get_rtns_at _ _ (Some p)), (deref_at _ _ r) by (done || lia). by rewrite Hf.
  - unfold pppHookDelete, bind. rewrite Hdc. apply (delete_commit_at s u t' p r); [apply Hok|done..].
  - rewrite Hn. unfold add_commit, bind. rewrite put_rtns_at.
    + unfold deref, bind, gets. cbn [hk_heap]. by rewrite lookup_delete_eq.
    + cbn. rewrite length_insert. apply Hok.
    + done.
Qed.

(** ** Runs *)

Definition initialised : hooks :=
  match pppHookLibInit true (mk_hooks false [] ∅) with Ok _ s => s | _ => mk_hooks false [] ∅ end.
Lemma initialised_stands : stands_for initialised (fun _ _ => None).
Proof.
  unfold initialised. destruct (init_stands (mk_hooks false [] ∅)) as (s & -> & Hs). by apply Hs.
Qed.
Definition some_calls : list hook_call :=
  [Add 0 (Some 4096) 0; Add 0 (Some 8192) 1; Delete 0 0; Delete 0 0; Add 0 (Some 1) 1; Delete 0 1;
   Add 17 None 0; Add (-1) None 0; Delete 3 1; Add 15 (Some 1) 7].

Lemma hooks_refine_witness : exists s', run_calls some_calls initialised =
  Ok [OK; OK; OK; ERROR (Some S_pppHookLib_HOOK_DELETED); ERROR (Some S_pppHookLib_HOOK_ADDED); OK;
      ERROR (Some S_pppHookLib_INVALID_UNIT); ERROR (Some S_pppHookLib_INVALID_UNIT);
      ERROR (Some S_pppHookLib_HOOK_DELETED); ERROR (Some S_pppHookLib_HOOK_UNKNOWN)] s'.
Proof.
  refine (hooks_refine some_calls initialised _ initialised_stands _).
  repeat apply Forall_cons_2; [vm_compute; congruence..|apply Forall_nil_2].
Defined.
Lemma hook_unit_NPPP_witness :
  run_call (Add 16 (Some 4096) PPP_HOOK_CONNECT) initialised = Fault.
Proof. exact (hook_unit_NPPP _ _ (Add 16 (Some 4096) 0) initialised_stands eq_refl eq_refl). Defined.
Lemma hook_add_race_witness : exists p q s1 s2 s3 s4,
  add_check true 2 0 initialised = Ok (inr p) s1 /\ add_check true 2 1 s1 = Ok (inr q) s2
  /\ add_commit 2 (Some 4096) 0 p s2 = Ok OK s3 /\ hook_of s3 2 0 = Some 4096
  /\ add_commit 2 (Some 8192) 1 q s3 = Ok OK s4 /\ hook_of s4 2 1 = Some 8192
  /\ hook_of s4 2 0 = None.
Proof.
  apply (hook_add_race _ _ 2 0 (Some 4096) 1 (Some 8192) initialised_stands);
    reflexivity || (vm_compute; congruence).
Defined.
