(* ===== verification/Crypt.v ===== *)
(** * crypt.c: the DES cipher and the password encryption

    The cipher is written with lookup tables that [init_des] computes from the
    tables of the standard.  A [C_block] is kept in its view as two ints, each
    given by its 32 bits; the view as bytes depends on the byte order of the
    target, which is a parameter.  Strings are lists of character codes. *)

From S2P Require Export Prelude.

(** ** Standard DES tables *)

Definition IP : list Z :=
  [58; 50; 42; 34; 26; 18; 10; 2; 60; 52; 44; 36; 28; 20; 12; 4;
   62; 54; 46; 38; 30; 22; 14; 6; 64; 56; 48; 40; 32; 24; 16; 8;
   57; 49; 41; 33; 25; 17; 9; 1; 59; 51; 43; 35; 27; 19; 11; 3;
   61; 53; 45; 37; 29; 21; 13; 5; 63; 55; 47; 39; 31; 23; 15; 7].
Definition ExpandTr : list Z :=
  [32; 1; 2; 3; 4; 5; 4; 5; 6; 7; 8; 9;
   8; 9; 10; 11; 12; 13; 12; 13; 14; 15; 16; 17;
   16; 17; 18; 19; 20; 21; 20; 21; 22; 23; 24; 25;
   24; 25; 26; 27; 28; 29; 28; 29; 30; 31; 32; 1].
Definition PC1 : list Z :=
  [57; 49; 41; 33; 25; 17; 9; 1; 58; 50; 42; 34; 26; 18;
   10; 2; 59; 51; 43; 35; 27; 19; 11; 3; 60; 52; 44; 36;
   63; 55; 47; 39; 31; 23; 15; 7; 62; 54; 46; 38; 30; 22;
   14; 6; 61; 53; 45; 37; 29; 21; 13; 5; 28; 20; 12; 4].
Definition Rotates : list Z :=
  [1; 1; 2; 2; 2; 2; 2; 2; 1; 2; 2; 2; 2; 2; 2; 1].
Definition PC2 : list Z :=
  [9; 18; 14; 17; 11; 24; 1; 5; 22; 25; 3; 28; 15; 6; 21; 10;
   35; 38; 23; 19; 12; 4; 26; 8; 43; 54; 16; 7; 27; 20; 13; 2;
   0; 0; 41; 52; 31; 37; 47; 55; 0; 0; 30; 40; 51; 45; 33; 48;
   0; 0; 44; 49; 39; 56; 34; 53; 0; 0; 46; 42; 50; 36; 29; 32].
Definition P32Tr : list Z :=
  [16; 7; 20; 21; 29; 12; 28; 17; 1; 15; 23; 26; 5; 18; 31; 10;
   2; 8; 24; 14; 32; 27; 3; 9; 19; 13; 30; 6; 22; 11; 4; 25].
Definition CIFP : list Z :=
  [1; 2; 3; 4; 17; 18; 19; 20; 5; 6; 7; 8; 21; 22; 23; 24;
   9; 10; 11; 12; 25; 26; 27; 28; 13; 14; 15; 16; 29; 30; 31; 32;
   33; 34; 35; 36; 49; 50; 51; 52; 37; 38; 39; 40; 53; 54; 55; 56;
   41; 42; 43; 44; 57; 58; 59; 60; 45; 46; 47; 48; 61; 62; 63; 64].
Definition S_tables : list (list Z) := [
  [14; 4; 13; 1; 2; 15; 11; 8; 3; 10; 6; 12; 5; 9; 0; 7;
   0; 15; 7; 4; 14; 2; 13; 1; 10; 6; 12; 11; 9; 5; 3; 8;
   4; 1; 14; 8; 13; 6; 2; 11; 15; 12; 9; 7; 3; 10; 5; 0;
   15; 12; 8; 2; 4; 9; 1; 7; 5; 11; 3; 14; 10; 0; 6; 13];
  [15; 1; 8; 14; 6; 11; 3; 4; 9; 7; 2; 13; 12; 0; 5; 10;
   3; 13; 4; 7; 15; 2; 8; 14; 12; 0; 1; 10; 6; 9; 11; 5;
   0; 14; 7; 11; 10; 4; 13; 1; 5; 8; 12; 6; 9; 3; 2; 15;
   13; 8; 10; 1; 3; 15; 4; 2; 11; 6; 7; 12; 0; 5; 14; 9];
  [10; 0; 9; 14; 6; 3; 15; 5; 1; 13; 12; 7; 11; 4; 2; 8;
   13; 7; 0; 9; 3; 4; 6; 10; 2; 8; 5; 14; 12; 11; 15; 1;
   13; 6; 4; 9; 8; 15; 3; 0; 11; 1; 2; 12; 5; 10; 14; 7;
   1; 10; 13; 0; 6; 9; 8; 7; 4; 15; 14; 3; 11; 5; 2; 12];
  [7; 13; 14; 3; 0; 6; 9; 10; 1; 2; 8; 5; 11; 12; 4; 15;
   13; 8; 11; 5; 6; 15; 0; 3; 4; 7; 2; 12; 1; 10; 14; 9;
   10; 6; 9; 0; 12; 11; 7; 13; 15; 1; 3; 14; 5; 2; 8; 4;
   3; 15; 0; 6; 10; 1; 13; 8; 9; 4; 5; 11; 12; 7; 2; 14];
  [2; 12; 4; 1; 7; 10; 11; 6; 8; 5; 3; 15; 13; 0; 14; 9;
   14; 11; 2; 12; 4; 7; 13; 1; 5; 0; 15; 10; 3; 9; 8; 6;
   4; 2; 1; 11; 10; 13; 7; 8; 15; 9; 12; 5; 6; 3; 0; 14;
   11; 8; 12; 7; 1; 14; 2; 13; 6; 15; 0; 9; 10; 4; 5; 3];
  [12; 1; 10; 15; 9; 2; 6; 8; 0; 13; 3; 4; 14; 7; 5; 11;
   10; 15; 4; 2; 7; 12; 9; 5; 6; 1; 13; 14; 0; 11; 3; 8;
   9; 14; 15; 5; 2; 8; 12; 3; 7; 0; 4; 10; 1; 13; 11; 6;
   4; 3; 2; 12; 9; 5; 15; 10; 11; 14; 1; 7; 6; 0; 8; 13];
  [4; 11; 2; 14; 15; 0; 8; 13; 3; 12; 9; 7; 5; 10; 6; 1;
   13; 0; 11; 7; 4; 9; 1; 10; 14; 3; 5; 12; 2; 15; 8; 6;
   1; 4; 11; 13; 12; 3; 7; 14; 10; 15; 6; 8; 0; 5; 9; 2;
   6; 11; 13; 8; 1; 4; 10; 7; 9; 5; 0; 15; 14; 2; 3; 12];
  [13; 2; 8; 4; 6; 15; 11; 1; 10; 9; 3; 14; 5; 0; 12; 7;
   1; 15; 13; 8; 10; 3; 7; 4; 12; 5; 6; 11; 0; 14; 9; 2;
   7; 11; 4; 1; 9; 12; 14; 2; 0; 6; 10; 13; 15; 3; 5; 8;
   2; 1; 14; 7; 4; 10; 8; 13; 15; 12; 9; 0; 3; 5; 6; 11]].
(** "./0-9A-Za-z" *)
Definition itoa64 : list Z :=
  [46; 47; 48; 49; 50; 51; 52; 53; 54; 55; 56; 57; 65; 66; 67; 68; 69; 70; 71; 72;
   73; 74; 75; 76; 77; 78; 79; 80; 81; 82; 83; 84; 85; 86; 87; 88; 89; 90; 97; 98;
   99; 100; 101; 102; 103; 104; 105; 106; 107; 108; 109; 110; 111; 112; 113; 114; 115;
   116; 117; 118; 119; 120; 121; 122].

(** An element of a table, at an index that is in bounds. *)
Definition tab (l : list Z) (i : Z) : Z := nth (Z.to_nat i) l 0.

(** ** Blocks *)

Record C_block := mk_block { i0 : Z; i1 : Z }.

(** Shifts of an int. *)
Definition s32 (x : Z) : Z := if x <? 2 ^ 31 then x else x - 2 ^ 32.
Definition shl (x n : Z) : Z := u32 (Z.shiftl x n).
Definition sar (x n : Z) : Z := u32 (Z.shiftr (s32 x) n).

Definition ZERO : C_block := mk_block 0 0.
Definition OR (d x : C_block) : C_block := mk_block (Z.lor (i0 d) (i0 x)) (Z.lor (i1 d) (i1 x)).
Definition XOR (d x : C_block) : C_block := mk_block (Z.lxor (i0 d) (i0 x)) (Z.lxor (i1 d) (i1 x)).

Definition CHUNKBITS := 4.
Definition LGCHUNKBITS := 2.
(** A transformation: for each chunk of the input its 16 values. *)
Notation transformation := (list (list C_block)).

Definition KS_SIZE := 16.

(** What [init_des] sets. *)
Record des_tables := mk_tables {
  a64toi : list Z;
  PC1ROT : transformation;
  PC2ROT : list transformation;
  IE3264 : transformation;
  SPE : list (list Z) * list (list Z);
  CF6464 : transformation }.

(** The static variables of the file. *)
Record des_state := mk_des {
  des_ready : bool;
  tables : des_tables;
  KS : list C_block }.

Section ByteOrder.
Context (big_endian : bool).

(** The shift of byte [k] of an int. *)
Definition lane (k : nat) : Z := 8 * (if big_endian then 3 - Z.of_nat k else Z.of_nat k).
Definition int_byte (i : Z) (k : nat) : Z := Z.land (Z.shiftr i (lane k)) 255.
(** [c.b[k]] *)
Definition cb_b (c : C_block) (k : nat) : Z :=
  if decide (k < 4)%nat then int_byte (i0 c) k else int_byte (i1 c) (k - 4).
Definition bytes_of (c : C_block) : list Z := cb_b c <$> seq 0 8.
(** The int with the given bytes. *)
Definition int_of (l : list Z) : Z :=
  foldr Z.lor 0 (zip_with (fun k c => Z.shiftl c (lane k)) (seq 0 4) l).
Definition block_of (l : list Z) : C_block := mk_block (int_of (take 4 l)) (int_of (drop 4 l)).
(** [c.b[k] |= m] *)
Definition or_byte (k : nat) (m : Z) (c : C_block) : C_block :=
  if decide (k < 4)%nat then mk_block (Z.lor (i0 c) (Z.shiftl m (lane k))) (i1 c)
  else mk_block (i0 c) (Z.lor (i1 c) (Z.shiftl m (lane (k - 4)))).

Definition TO_SIX_BIT (src : Z) : Z :=
  let cvt := block_of (u8 <$> [src; Z.shiftr src 6; Z.shiftr src 12; Z.shiftr src 18]) in
  shl (Z.land (i0 cvt) 0x3f3f3f3f) 2.

(** The bytes [cp] through the transformation [p]. *)
Fixpoint permute_loop (cp : list Z) (p : transformation) (D : C_block) : option C_block :=
  match cp with
  | [] => Some D
  | t :: cp =>
      match p with
      | lo :: hi :: p =>
          x ← lo !! Z.to_nat (Z.land t 0xf);
          y ← hi !! Z.to_nat (Z.shiftr t 4);
          permute_loop cp p (OR (OR D x) y)
      | _ => None
      end
  end.
Definition permute (cp : list Z) (p : transformation) : option C_block := permute_loop cp p ZERO.

(** ** The tables *)

(** [perm] with the transformation [p]; [chars_out] is 8. *)
Definition init_perm (perm : transformation) (p : list Z) : transformation :=
  foldl (fun perm k =>
    let l := tab p (Z.of_nat k) - 1 in
    if l <? 0 then perm else
    let i := Z.shiftr l LGCHUNKBITS in
    let m := Z.shiftl 1 (Z.land l (CHUNKBITS - 1)) in
    foldl (fun perm j =>
      if Z.land (Z.of_nat j) m =? 0 then perm else
      alter (alter (or_byte (k / 8) (Z.shiftl 1 (Z.of_nat k mod 8))) j) (Z.to_nat i) perm)
      perm (seq 0 16))
    perm (seq 0 64).

(** A static array of blocks. *)
Definition zero_perm (chunks : nat) : transformation := replicate chunks (replicate 16 ZERO).

(** [k--; k = (k|07) - (k&07); k++;] *)
Definition bit_reverse (k : Z) : Z :=
  if 0 <? k then let k := k - 1 in Z.lor k 7 - Z.land k 7 + 1 else k.

(** PC1ROT - bit reverse, then PC1, then Rotate, then PC2. *)
Definition pc1tab : list Z :=
  (fun i =>
     let k := tab PC2 (Z.of_nat i) in
     if k =? 0 then 0 else
     let k := k + (tab Rotates 0 - 1) in
     let k := if k mod 28 <? tab Rotates 0 then k - 28 else k in
     bit_reverse (tab PC1 k)) <$> seq 0 64.

(** PC2ROT - PC2 inverse, then Rotate (once or twice), then PC2. *)
Definition pc2inv : list Z :=
  foldl (fun l i =>
    let k := tab PC2 (Z.of_nat i) in
    if k =? 0 then l else <[Z.to_nat (k - 1) := Z.of_nat i + 1]> l)
    (replicate 64 0) (seq 0 64).
Definition pc2tab (j : Z) : list Z :=
  (fun i =>
     let k := tab PC2 (Z.of_nat i) in
     if k =? 0 then 0 else
     let k := k + j in
     let k := if k mod 28 <=? j then k - 28 else k in
     tab pc2inv k) <$> seq 0 64.

(** Bit reverse, then initial permutation, then expansion. *)
Definition ietab : list Z :=
  (fun n =>
     let i := Z.of_nat n / 8 in let j := Z.of_nat n mod 8 in
     let k := if j <? 2 then 0 else tab IP (tab ExpandTr (i * 6 + j - 2) - 1) in
     let k := if 32 <? k then k - 32 else if 0 <? k then k - 1 else k in
     bit_reverse k) <$> seq 0 64.

(** Compression, then final permutation, then bit reverse. *)
Definition cftab : list Z :=
  foldl (fun perm i =>
    let k := bit_reverse (tab IP (tab CIFP (Z.of_nat i) - 1)) in
    <[Z.to_nat (k - 1) := Z.of_nat i + 1]> perm)
    ietab (seq 0 64).

(** SPE table *)
Definition spe_perm (i : nat) : Z := tab P32Tr (tab ExpandTr (Z.of_nat i) - 1).
Definition bit_of (j n : Z) : Z := Z.land (Z.shiftr j n) 1.
Definition spe_tmp32 (tableno j : nat) : list Z :=
  let j := Z.of_nat j in
  let k := Z.lor (Z.shiftl (bit_of j 0) 5) (Z.lor (Z.shiftl (bit_of j 1) 3)
    (Z.lor (Z.shiftl (bit_of j 2) 2) (Z.lor (Z.shiftl (bit_of j 3) 1)
    (Z.lor (Z.shiftl (bit_of j 4) 0) (Z.shiftl (bit_of j 5) 4))))) in
  let k := tab (nth tableno S_tables []) k in
  let k := Z.lor (Z.shiftl (bit_of k 3) 0) (Z.lor (Z.shiftl (bit_of k 2) 1)
    (Z.lor (Z.shiftl (bit_of k 1) 2) (Z.shiftl (bit_of k 0) 3))) in
  foldl (fun tmp i => <[(4 * tableno + i)%nat := bit_of k (Z.of_nat i)]> tmp)
    (replicate 32 0) (seq 0 4).
Definition spe_entry (from tableno j : nat) : Z :=
  let tmp32 := spe_tmp32 tableno j in
  TO_SIX_BIT (foldr (fun i k => Z.lor (Z.shiftl k 1) (tab tmp32 (spe_perm (i + from) - 1)))
                0 (seq 0 24)).
Definition spe_table (from : nat) : list (list Z) :=
  (fun tableno => spe_entry from tableno <$> seq 0 64) <$> seq 0 8.

(** The table that converts chars "./0-9A-Za-z" to integers 0-63. *)
Definition a64tab : list Z :=
  foldl (fun l i => <[Z.to_nat (tab itoa64 (Z.of_nat i)) := Z.of_nat i]> l)
    (replicate 128 0) (seq 0 64).

Definition init_des : des_tables := {|
  a64toi := a64tab;
  PC1ROT := init_perm (zero_perm 16) pc1tab;
  PC2ROT := (fun j => init_perm (zero_perm 16) (pc2tab j)) <$> [0; 1];
  IE3264 := init_perm (zero_perm 8) ietab;
  SPE := (spe_table 0, spe_table 24);
  CF6464 := init_perm (zero_perm 16) cftab |}.

(** The static variables at first. *)
Definition des_static : des_state := {|
  des_ready := false;
  tables := {| a64toi := replicate 128 0; PC1ROT := zero_perm 16;
               PC2ROT := replicate 2 (zero_perm 16); IE3264 := zero_perm 8;
               SPE := (replicate 8 (replicate 64 0), replicate 8 (replicate 64 0));
               CF6464 := zero_perm 16 |};
  KS := replicate (Z.to_nat KS_SIZE) ZERO |}.

(** ** The key schedule *)

(** [STORE(K & ~0x03030303L, K0 & ~0x03030303L, K1, ...)] *)
Definition code_of (K : C_block) : C_block := mk_block (Z.ldiff (i0 K) 0x03030303) (i1 K).

Fixpoint key_schedule (T : des_tables) (K : C_block) (rotates : list Z) : option (list C_block) :=
  match rotates with
  | [] => Some []
  | r :: rotates =>
      ptabp ← PC2ROT T !! Z.to_nat (r - 1);
      K ← permute (bytes_of K) ptabp;
      l ← key_schedule T K rotates;
      Some (code_of K :: l)
  end.

Definition des_setkey (key : list Z) : M des_state Empty_set Z :=
  s <- gets id ;;
  let T := if des_ready s then tables s else init_des in
  K <- access (permute key (PC1ROT T)) ;;
  l <- access (key_schedule T K (drop 1 Rotates)) ;;
  put (mk_des true T (code_of K :: l)) ;; ret 0.

(** ** The cipher *)

(** [SPTAB(t, k)]: the int [k] bytes behind [t]. *)
Definition SPTAB (t : list Z) (k : Z) : option Z :=
  if k mod 4 =? 0 then t !! Z.to_nat (k / 4) else None.

Definition DOXOR (spe : list (list Z) * list (list Z)) (B : C_block) (p : C_block) (i : nat)
  : option C_block :=
  let k := cb_b B i in
  t0 ← fst spe !! i; x ← SPTAB t0 k;
  t1 ← snd spe !! i; y ← SPTAB t1 k;
  Some (mk_block (Z.lxor (i0 p) x) (Z.lxor (i1 p) y)).

Fixpoint doxor_loop spe (B : C_block) (p : C_block) (l : list nat) : option C_block :=
  match l with
  | [] => Some p
  | i :: l => p ← DOXOR spe B p i; doxor_loop spe B p l
  end.

(** [CRUNCH(p0, p1, q0, q1)] *)
Definition CRUNCH spe (SALT : Z) (kp p q : C_block) : option C_block :=
  let k := Z.land (Z.lxor (i0 q) (i1 q)) SALT in
  let B := mk_block (Z.lxor (Z.lxor k (i0 q)) (i0 kp)) (Z.lxor (Z.lxor k (i1 q)) (i1 kp)) in
  doxor_loop spe B p (seq 0 8).

(** The rounds of one encryption, two at a time; [kps] is what [kp] points to,
    one after the other. *)
Fixpoint crunch_loop spe (SALT : Z) (kps : list C_block) (L R : C_block) : option (C_block * C_block) :=
  match kps with
  | k1 :: k2 :: kps =>
      L ← CRUNCH spe SALT k1 L R;
      R ← CRUNCH spe SALT k2 R L;
      crunch_loop spe SALT kps L R
  | _ => Some (L, R)
  end.

(** [while (--num_iter >= 0)], with the exchange of L and R by three XORs. *)
Fixpoint iterate spe (SALT : Z) (kps : list C_block) (num_iter : nat) (L R : C_block)
  : option (C_block * C_block) :=
  match num_iter with
  | O => Some (L, R)
  | S num_iter =>
      LR ← crunch_loop spe SALT kps L R;
      let '(L, R) := (LR : C_block * C_block) in
      let L := XOR L R in let R := XOR R L in let L := XOR L R in
      iterate spe SALT kps num_iter L R
  end.

(** From the input block to L and R. *)
Definition load_halves (T : des_tables) (in_ : list Z) : option (C_block * C_block) :=
  let L := block_of in_ in let R := L in
  let L0 := Z.land (i0 L) 0x55555555 in
  let L1 := Z.land (i1 L) 0x55555555 in
  let L0 := Z.lor (shl L0 1) L1 in
  let R0 := Z.land (i0 R) 0xaaaaaaaa in
  let R1 := Z.land (sar (i1 R) 1) 0x55555555 in
  let L1 := Z.lor R0 R1 in
  let B := mk_block L0 L1 in
  L ← permute (take 4 (bytes_of B)) (IE3264 T);
  R ← permute (drop 4 (bytes_of B)) (IE3264 T);
  Some (L, R).

(** From L and R to the result. *)
Definition store_halves (T : des_tables) (L R : C_block) : option (list Z) :=
  let L0 := Z.lor (Z.land (sar (i0 L) 3) 0x0f0f0f0f) (Z.land (shl (i1 L) 1) 0xf0f0f0f0) in
  let L1 := Z.lor (Z.land (sar (i0 R) 3) 0x0f0f0f0f) (Z.land (shl (i1 R) 1) 0xf0f0f0f0) in
  L ← permute (bytes_of (mk_block L0 L1)) (CF6464 T);
  Some (bytes_of L).

(** The eight characters at [out]; the result of the C function is always 0. *)
Definition des_cipher (in_ : list Z) (salt num_iter : Z) : M des_state Empty_set (list Z) :=
  s <- gets id ;;
  let T := tables s in
  let SALT := TO_SIX_BIT salt in
  '(L, R) <- access (load_halves T in_) ;;
  let kps := if 0 <=? num_iter then KS s else rev (KS s) in
  '(L, R) <- access (iterate (SPE T) SALT kps (Z.to_nat (Z.abs num_iter)) L R) ;;
  access (store_halves T L R).

(** ** [crypt] *)

(** The eight bytes of the key: the characters up to the NUL, shifted. *)
Fixpoint key_loop (n : nat) (key : list Z) : list Z :=
  match n with
  | O => []
  | S n =>
      match key with
      | [] => 0 :: key_loop n []
      | c :: key => u8 (2 * c) :: key_loop n key
      end
  end.

(** From the last character of the salt to the first: the characters for the
    result and the salt. *)
Fixpoint salt_loop (T : des_tables) (setting : list Z) (n : nat) (encp : list Z) (salt : Z)
  : option (list Z * Z) :=
  match n with
  | O => Some (encp, salt)
  | S i =>
      c ← setting !! i;
      let t := if c =? 0 then 46 else c in
      v ← a64toi T !! Z.to_nat t;
      salt_loop T setting i (t :: encp) (Z.lor (shl salt 6) v)
  end.

(** [encp[n-1] = itoa64[i&0x3f]; i >>= 6; ...; encp[0] = itoa64[i];] *)
Fixpoint encode (n : nat) (i : Z) : list Z :=
  match n with
  | O => []
  | S O => [tab itoa64 i]
  | S n => encode n (Z.shiftr i 6) ++ [tab itoa64 (Z.land i 0x3f)]
  end.

(** The constant that is encrypted. *)
Definition constdatablock : list Z := replicate 8 0.

(** The result up to its NUL.  [key] is the characters before the NUL,
    [setting] the array with its NUL and what is behind it. *)
Definition crypt (key setting : list Z) : M des_state Empty_set (list Z) :=
  des_setkey (key_loop 8 key) ;;
  T <- gets tables ;;
  '(encp, salt) <- access (salt_loop T setting 2 [] 0) ;;
  r <- des_cipher constdatablock salt 25 ;;
  let b i := nth i r 0 in
  let i1 := Z.lor (Z.shiftl (Z.lor (Z.shiftl (b 0%nat) 8) (b 1%nat)) 8) (b 2%nat) in
  let i2 := Z.lor (Z.shiftl (Z.lor (Z.shiftl (b 3%nat) 8) (b 4%nat)) 8) (b 5%nat) in
  let i3 := Z.shiftl (Z.lor (Z.shiftl (b 6%nat) 8) (b 7%nat)) 2 in
  ret (encp ++ encode 4 i1 ++ encode 4 i2 ++ encode 3 i3).

(** ** [setkey] and [encrypt]: one bit in each character *)

Definition pack (l : list Z) : Z := u8 (foldl (fun k c => Z.lor (Z.shiftl k 1) c) 0 l).
Fixpoint pack_bytes (n : nat) (l : list Z) : list Z :=
  match n with
  | O => []
  | S n => pack (take 8 l) :: pack_bytes n (drop 8 l)
  end.
(** The bits of a byte, the highest first. *)
Definition unpack (k : Z) : list Z := (fun j => bit_of k (7 - Z.of_nat j)) <$> seq 0 8.

Definition setkey (key : list Z) : M des_state Empty_set Z := des_setkey (pack_bytes 8 key).
(** The new contents of [block]. *)
Definition encrypt (block : list Z) (flag : Z) : M des_state Empty_set (list Z) :=
  out <- des_cipher (pack_bytes 8 block) 0 (if flag =? 0 then 1 else -1) ;;
  ret (out ≫= unpack).
End ByteOrder.
