(* ===== verification/Des.v ===== *)
(** * The Data Encryption Standard, as a function on lists of bits

    The reference for crypt.c: the cipher of the standard (with the salt of the
    password encryption) on lists of bits, bit 1 first, without tables for the
    combined permutations.  It uses the tables of the standard that crypt.c has;
    the final permutation and PC2 without its padding are given here. *)

From S2P Require Export Crypt.

Notation bits := (list bool).

(** The bits that a table of the standard (from 1) selects. *)
Definition pick (t : list Z) (l : bits) : bits := (fun i => nth (Z.to_nat i - 1) l false) <$> t.
Definition xor_bits : bits -> bits -> bits := zip_with xorb.

Definition FP : list Z :=
  [40; 8; 48; 16; 56; 24; 64; 32; 39; 7; 47; 15; 55; 23; 63; 31;
   38; 6; 46; 14; 54; 22; 62; 30; 37; 5; 45; 13; 53; 21; 61; 29;
   36; 4; 44; 12; 52; 20; 60; 28; 35; 3; 43; 11; 51; 19; 59; 27;
   34; 2; 42; 10; 50; 18; 58; 26; 33; 1; 41; 9; 49; 17; 57; 25].
Definition PC2_48 : list Z :=
  [14; 17; 11; 24; 1; 5; 3; 28; 15; 6; 21; 10; 23; 19; 12; 4; 26; 8; 16; 7; 27; 20; 13; 2;
   41; 52; 31; 37; 47; 55; 30; 40; 51; 45; 33; 48; 44; 49; 39; 56; 34; 53; 46; 42; 50; 36; 29; 32].

(** ** The key schedule *)

Definition rotl {A} (n : nat) (l : list A) : list A := drop n l ++ take n l.
(** Both halves of C and D rotated. *)
Definition rotl_halves {A} (n : nat) (cd : list A) : list A :=
  rotl n (take 28 cd) ++ rotl n (drop 28 cd).
Fixpoint rotations (rotates : list Z) (cd : bits) : list bits :=
  match rotates with
  | [] => []
  | r :: rotates => let cd := rotl_halves (Z.to_nat r) cd in cd :: rotations rotates cd
  end.
Definition round_keys (key : bits) : list bits :=
  pick PC2_48 <$> rotations Rotates (pick PC1 key).

(** ** The cipher function *)

Definition b2n (x : bool) : nat := if x then 1 else 0.
(** Row and column of an S box from six bits, and the four bits at that place. *)
Definition sbox (i : nat) (l : bits) : bits :=
  let b j := b2n (nth j l false) in
  let row := (2 * b 0 + b 5)%nat in
  let col := (8 * b 1 + 4 * b 2 + 2 * b 3 + b 4)%nat in
  let v := nth (16 * row + col) (nth i S_tables []) 0 in
  (fun j => Z.testbit v (3 - Z.of_nat j)) <$> seq 0 4.
Definition sboxes (l : bits) : bits :=
  seq 0 8 ≫= fun i => sbox i (take 6 (drop (6 * i) l)).

(** Where bit [n] of E comes from: bits [n] and [n + 24] are exchanged when bit
    [n] of the salt is set. *)
Definition salt_src (salt : Z) (n : nat) : nat :=
  if decide (n < 24)%nat then (if Z.testbit salt (Z.of_nat n) then n + 24 else n)%nat
  else (if Z.testbit salt (Z.of_nat n - 24) then n - 24 else n)%nat.
Definition salted (salt : Z) (e : bits) : bits :=
  (fun n => nth (salt_src salt n) e false) <$> seq 0 48.

Definition cipher_f (salt : Z) (key r : bits) : bits :=
  pick P32Tr (sboxes (xor_bits (salted salt (pick ExpandTr r)) key)).

Fixpoint feistel (salt : Z) (keys : list bits) (l r : bits) : bits * bits :=
  match keys with
  | [] => (l, r)
  | k :: keys => feistel salt keys r (xor_bits l (cipher_f salt k r))
  end.

(** One encryption of a block of 64 bits with the given round keys. *)
Definition des (salt : Z) (keys : list bits) (block : bits) : bits :=
  let lr := pick IP block in
  let '(l, r) := feistel salt keys (take 32 lr) (drop 32 lr) in
  pick FP (r ++ l).

(** ** Bytes as bits, the highest bit first *)

Definition byte_bits (c : Z) : bits := (fun j => Z.testbit c (7 - Z.of_nat j)) <$> seq 0 8.
Definition bits_of (l : list Z) : bits := l ≫= byte_bits.

(** ** Decryption *)

Lemma length_pick t l : length (pick t l) = length t.
Proof. apply length_fmap. Qed.
Lemma length_xor l l' : length l' = length l -> length (xor_bits l l') = length l.
Proof. intros Hl. unfold xor_bits. rewrite length_zip_with. lia. Qed.
Lemma length_bits_of l : length (bits_of l) = (8 * length l)%nat.
Proof. induction l as [|c l IH]; [done|]. cbn [bits_of mbind list_bind]. rewrite length_app. cbn.
unfold bits_of in IH. lia. Qed.
Lemma length_cipher_f salt k r : length (cipher_f salt k r) = 32%nat.
Proof. unfold cipher_f. by rewrite length_pick. Qed.

Lemma xor_bits_inv l l' : length l' = length l -> xor_bits (xor_bits l l') l' = l.
Proof.
  revert l'. induction l as [|x l IH]; intros [|y l'] Hl; [done..|]. cbn in Hl |- *.
  rewrite IH by lia. by destruct x, y.
Qed.

Lemma feistel_app salt keys keys' l r :
  feistel salt (keys ++ keys') l r
  = feistel salt keys' (feistel salt keys l r).1 (feistel salt keys l r).2.
Proof. revert l r. induction keys as [|k keys IH]; intros l r; [done|]. apply IH. Qed.

Lemma feistel_length salt keys l r :
  length l = 32%nat -> length r = 32%nat ->
  length (feistel salt keys l r).1 = 32%nat /\ length (feistel salt keys l r).2 = 32%nat.
Proof.
  revert l r. induction keys as [|k keys IH]; intros l r Hl Hr; [done|].
  apply IH; [done|]. rewrite length_xor; [done|]. by rewrite length_cipher_f.
Qed.

(** The rounds backwards from the exchanged halves give the halves exchanged. *)
Lemma feistel_rev salt keys l r :
  length l = 32%nat -> length r = 32%nat ->
  feistel salt (rev keys) (feistel salt keys l r).2 (feistel salt keys l r).1 = (r, l).
Proof.
  revert l r. induction keys as [|k keys IH]; intros l r Hl Hr; [done|].
  cbn [feistel rev]. rewrite feistel_app.
  rewrite IH by (rewrite ?length_xor; rewrite ?length_cipher_f; done).
  cbn [feistel fst snd]. rewrite xor_bits_inv; [done|]. by rewrite length_cipher_f.
Qed.

(** A permutation and its inverse. *)
Lemma pick_pick t u l n :
  length l = n -> bool_decide ((fun i => nth (Z.to_nat i - 1) t 0) <$> u = Z.of_nat <$> seq 1 n) = true ->
  forallb (fun i => (1 <=? i) && (i <=? Z.of_nat (length t))) u = true ->
  pick u (pick t l) = l.
Proof.
  intros Hl Hi Hu. apply bool_decide_eq_true in Hi. unfold pick.
  transitivity ((fun i => nth (Z.to_nat i - 1) l false) <$> ((fun i => nth (Z.to_nat i - 1) t 0) <$> u)).
  - rewrite <- list_fmap_compose. apply list_fmap_ext. intros k i Hk.
    rewrite forallb_forall in Hu.
    apply list_elem_of_lookup_2, list_elem_of_In, Hu in Hk. apply andb_true_iff in Hk as [Hk1 Hk2].
    apply Z.leb_le in Hk1, Hk2. unfold compose.
    rewrite (nth_indep _ _ (nth (Z.to_nat 0 - 1) l false)) by (rewrite length_fmap; lia).
    apply (map_nth (fun i => nth (Z.to_nat i - 1) l false)).
  - rewrite Hi, <- list_fmap_compose. unfold compose. subst n. clear.
    apply nth_ext with (d := false) (d' := false); rewrite length_fmap, length_seq; [done|].
    intros k Hk. rewrite (nth_indep _ _ ((fun x => nth (Z.to_nat (Z.of_nat x) - 1) l false) 0%nat))
      by (rewrite length_fmap, length_seq; lia).
    rewrite (map_nth (fun x => nth (Z.to_nat (Z.of_nat x) - 1) l false)), seq_nth by lia.
    f_equal. lia.
Qed.

Lemma IP_FP l : length l = 64%nat -> pick IP (pick FP l) = l.
Proof.
  intros Hl. apply (pick_pick FP IP l 64 Hl); by vm_compute.
Qed.
Lemma FP_IP l : length l = 64%nat -> pick FP (pick IP l) = l.
Proof.
  intros Hl. apply (pick_pick IP FP l 64 Hl); by vm_compute.
Qed.

Lemma length_des salt keys l : length (des salt keys l) = 64%nat.
Proof. unfold des. destruct (feistel _ _ _ _). by rewrite length_pick. Qed.

Lemma des_rev salt keys block :
  length block = 64%nat -> des salt (rev keys) (des salt keys block) = block.
Proof.
  intros Hb. unfold des at 2. set (lr := pick IP block).
  assert (Hlr : length lr = 64%nat) by (unfold lr; by rewrite length_pick).
  destruct (feistel salt keys (take 32 lr) (drop 32 lr)) as [l r] eqn:E.
  destruct (feistel_length salt keys (take 32 lr) (drop 32 lr)) as [Hl Hr];
    [rewrite ?length_take, ?length_drop; lia..|]. rewrite E in Hl, Hr. cbn [fst snd] in Hl, Hr.
  unfold des. rewrite IP_FP by (rewrite length_app; lia).
  rewrite take_app_length', drop_app_length' by done.
  pose proof (feistel_rev salt keys (take 32 lr) (drop 32 lr)) as Hrev. rewrite E in Hrev.
  cbn [fst snd] in Hrev. rewrite Hrev by (rewrite ?length_take, ?length_drop; lia).
  rewrite take_drop. by apply FP_IP.
Qed.
