(* ===== verification/CryptBits.v ===== *)
(** * The blocks of crypt.c as sequences of bits

    Bit [k] of a block, [k < 64], is bit [k mod 8] of byte [k / 8], whatever the
    byte order.  What the operations on ints and the table lookups of crypt.c do
    to these bits; the tables are checked by computation. *)

From S2P Require Export Des.

(** The bits of a list of bytes, the lowest bit of each first. *)
Definition lbit (l : list Z) (k : nat) : bool := Z.testbit (nth (k / 8) l 0) (Z.of_nat (k mod 8)).

Section ByteOrder.
Context (big_endian : bool).
Notation lane := (lane big_endian).
Notation cb_b := (cb_b big_endian).
Notation bytes_of := (bytes_of big_endian).
Notation block_of := (block_of big_endian).

(** The place of bit [k] of four bytes in an int. *)
Definition place (k : nat) : Z := lane (k / 8) + Z.of_nat (k mod 8).
Definition bitat (c : C_block) (k : nat) : bool := Z.testbit (cb_b c (k / 8)) (Z.of_nat (k mod 8)).

(** A check of all bits of a block. *)
Lemma forall_below (n : nat) (p : nat -> bool) k :
  forallb p (seq 0 n) = true -> (k < n)%nat -> p k = true.
Proof. rewrite forallb_forall. intros H Hk. apply H, in_seq. lia. Qed.

Lemma check_below (n : nat) (P : nat -> Prop) `{forall k, Decision (P k)} k :
  forallb (fun k => bool_decide (P k)) (seq 0 n) = true -> (k < n)%nat -> P k.
Proof. intros Hall Hk. exact (bool_decide_eq_true_1 _ (forall_below _ _ k Hall Hk)). Qed.

Lemma place_range k : (k < 32)%nat -> 0 <= place k < 32.
Proof.
  intros Hk. assert (k / 8 < 4)%nat by (apply Nat.Div0.div_lt_upper_bound; lia).
  pose proof (Nat.mod_upper_bound k 8 ltac:(lia)). unfold place, Crypt.lane. destruct big_endian; lia.
Qed.
Lemma div_mod_8 k : (k = 8 * (k / 8) + k mod 8 /\ k mod 8 < 8)%nat.
Proof. split; [apply Nat.Div0.div_mod|apply Nat.mod_upper_bound; lia]. Qed.

Lemma bitat_int c k :
  (k < 64)%nat ->
  bitat c k = if decide (k < 32)%nat then Z.testbit (i0 c) (place k)
              else Z.testbit (i1 c) (place (k - 32)).
Proof.
  intros Hk. pose proof (div_mod_8 k). pose proof (div_mod_8 (k - 32)).
  unfold bitat, Crypt.cb_b, int_byte, place.
  assert (Hb : forall i q, 0 <= lane q ->
    Z.testbit (Z.land (Z.shiftr i (lane q)) 255) (Z.of_nat (k mod 8))
    = Z.testbit i (lane q + Z.of_nat (k mod 8))).
  { intros i q Hq. rewrite Z.land_spec, Z.shiftr_spec by lia. change 255 with (Z.ones 8).
    rewrite Z.ones_spec_low, andb_true_r by lia. f_equal. lia. }
  case_decide; case_decide; try lia.
  - apply Hb. unfold Crypt.lane. destruct big_endian; lia.
  - replace ((k - 32) / 8)%nat with (k / 8 - 4)%nat by lia.
    replace ((k - 32) mod 8)%nat with (k mod 8)%nat by lia.
    apply Hb. unfold Crypt.lane. destruct big_endian; lia.
Qed.

Lemma bitat_OR c d k : (k < 64)%nat -> bitat (OR c d) k = bitat c k || bitat d k.
Proof. intros Hk. rewrite !bitat_int by done. by case_decide; cbn; rewrite Z.lor_spec. Qed.
Lemma bitat_XOR c d k : (k < 64)%nat -> bitat (XOR c d) k = xorb (bitat c k) (bitat d k).
Proof. intros Hk. rewrite !bitat_int by done. by case_decide; cbn; rewrite Z.lxor_spec. Qed.
Lemma bitat_ZERO k : (k < 64)%nat -> bitat ZERO k = false.
Proof. intros Hk. rewrite bitat_int by done. by case_decide; cbn; rewrite Z.testbit_0_l. Qed.

Lemma lbit_bytes_of c k : (k < 64)%nat -> lbit (bytes_of c) k = bitat c k.
Proof.
  intros Hk. unfold lbit, bitat, Crypt.bytes_of. f_equal. pose proof (div_mod_8 k).
  rewrite (nth_indep _ 0 (cb_b c 0)) by (rewrite length_fmap, length_seq; lia).
  rewrite (map_nth (cb_b c)), seq_nth by lia. done.
Qed.
Lemma bytes_of_bytes c : bytes (bytes_of c).
Proof.
  unfold Crypt.bytes_of. apply Forall_fmap, Forall_true. intros k. unfold compose, Crypt.cb_b, int_byte.
  change 255 with (Z.ones 8). unfold is_u8. case_decide; rewrite Z.land_ones by lia;
    apply Z.mod_pos_bound; lia.
Qed.
Lemma length_bytes_of c : length (bytes_of c) = 8%nat.
Proof. done. Qed.

(** Bits of the ints after a shift and a mask with equal bytes. *)
Lemma place_up k n :
  (n <= k mod 8)%nat -> place k - Z.of_nat n = place (k - n).
Proof.
  intros Hn. pose proof (div_mod_8 k). pose proof (div_mod_8 (k - n)). unfold place.
  assert ((k - n) / 8 = k / 8)%nat as -> by lia. lia.
Qed.
Lemma place_down k n :
  (k mod 8 + n < 8)%nat -> place k + Z.of_nat n = place (k + n).
Proof.
  intros Hn. pose proof (div_mod_8 k). pose proof (div_mod_8 (k + n)). unfold place.
  assert ((k + n) / 8 = k / 8)%nat as -> by lia. lia.
Qed.
Lemma shl_bit x n k :
  (k < 32)%nat -> 0 <= n ->
  Z.testbit (shl x n) (place k) = Z.testbit x (place k - n).
Proof.
  intros Hk Hn. pose proof (place_range k Hk). unfold shl, u32.
  rewrite Z.mod_pow2_bits_low, Z.shiftl_spec by lia. done.
Qed.
Lemma s32_bit x p : 0 <= p < 32 -> Z.testbit (s32 x) p = Z.testbit x p.
Proof.
  intros Hp. unfold s32. destruct (x <? _); [done|].
  rewrite <- (Z.mod_pow2_bits_low (x - 2 ^ 32) 32), <- (Z.mod_pow2_bits_low x 32) by lia.
  f_equal. replace (x - 2 ^ 32) with (x + (-1) * 2 ^ 32) by lia. apply Z_mod_plus_full.
Qed.
Lemma sar_bit x n k :
  (k < 32)%nat -> 0 <= n -> place k + n < 32 ->
  Z.testbit (sar x n) (place k) = Z.testbit x (place k + n).
Proof.
  intros Hk Hn Hp. pose proof (place_range k Hk). unfold sar, u32.
  rewrite Z.mod_pow2_bits_low, Z.shiftr_spec, s32_bit by lia. done.
Qed.

(** ** Masks *)

(** [m] has the byte [c] four times. *)
Definition repeats (m c : Z) : Prop :=
  forallb (fun k => eqb (Z.testbit m (place k)) (Z.testbit c (Z.of_nat (k mod 8)))) (seq 0 32) = true.
Lemma mask_bit m c k :
  repeats m c -> (k < 32)%nat -> Z.testbit m (place k) = Z.testbit c (Z.of_nat (k mod 8)).
Proof. intros Hm Hk. apply eqb_prop. exact (forall_below _ _ k Hm Hk). Qed.
Lemma repeats_masks :
  repeats 0x55555555 0x55 /\ repeats 0xaaaaaaaa 0xaa /\ repeats 0x0f0f0f0f 0x0f
  /\ repeats 0xf0f0f0f0 0xf0 /\ repeats 0x03030303 0x03 /\ repeats 0x3f3f3f3f 0x3f.
Proof. unfold repeats, place, Crypt.lane. destruct big_endian; vm_compute; repeat split. Qed.

(** ** Blocks out of bytes *)

Lemma byte_bits_high c i : is_u8 c -> 8 <= i -> Z.testbit c i = false.
Proof. intros Hc Hi. rewrite <- (u8_id c Hc). unfold u8. by rewrite Z.mod_pow2_bits_high by lia. Qed.
Lemma byte_in_int c q k :
  is_u8 c -> (q < 4)%nat -> (k < 32)%nat ->
  Z.testbit (Z.shiftl c (lane q)) (place k)
  = if decide (k / 8 = q)%nat then Z.testbit c (Z.of_nat (k mod 8)) else false.
Proof.
  intros Hc Hq Hk. pose proof (place_range k Hk). pose proof (div_mod_8 k).
  rewrite Z.shiftl_spec by lia. unfold place. case_decide; [subst q; f_equal; lia|].
  assert (Hp : place k - lane q < 0 \/ 8 <= place k - lane q)
    by (unfold place, Crypt.lane; destruct big_endian; lia).
  unfold place in Hp. destruct Hp; [by apply Z.testbit_neg_r|by apply byte_bits_high].
Qed.
Lemma int_of_bit l k :
  bytes l -> length l = 4%nat -> (k < 32)%nat ->
  Z.testbit (int_of big_endian l) (place k) = lbit l k.
Proof.
  intros Hb Hl Hk. destruct l as [|c0 [|c1 [|c2 [|c3 [|]]]]]; try done.
  unfold bytes in Hb. rewrite !Forall_cons_iff in Hb. destruct Hb as (B0 & B1 & B2 & B3 & _).
  unfold int_of. cbn [seq zip_with foldr]. rewrite !Z.lor_spec, Z.testbit_0_l, !byte_in_int by (done || lia).
  unfold lbit. pose proof (div_mod_8 k).
  assert (k / 8 = 0 \/ k / 8 = 1 \/ k / 8 = 2 \/ k / 8 = 3)%nat as [E|[E|[E|E]]] by lia; rewrite E;
    cbn; by rewrite ?orb_false_r.
Qed.
Lemma lbit_take l n k : (k < 8 * n)%nat -> lbit (take n l) k = lbit l k.
Proof.
  intros Hk. pose proof (div_mod_8 k). unfold lbit. f_equal.
  rewrite <- (take_drop n l) at 2. destruct (decide (k / 8 < length (take n l))%nat).
  - by rewrite app_nth1.
  - rewrite length_take in *. rewrite !nth_overflow; [done|rewrite length_app, length_take, length_drop; lia|].
    rewrite length_take. lia.
Qed.
Lemma lbit_drop l n k : lbit (drop n l) k = lbit l (8 * n + k).
Proof.
  pose proof (div_mod_8 k). pose proof (div_mod_8 (8 * n + k)). unfold lbit.
  replace ((8 * n + k) / 8)%nat with (n + k / 8)%nat by lia.
  replace ((8 * n + k) mod 8)%nat with (k mod 8)%nat by lia.
  f_equal. by rewrite <- nth_skipn.
Qed.
Lemma block_of_bit l k :
  bytes l -> length l = 8%nat -> (k < 64)%nat -> bitat (block_of l) k = lbit l k.
Proof.
  intros Hb Hl Hk. rewrite bitat_int by done. unfold Crypt.block_of. cbn [i0 i1]. case_decide.
  - rewrite int_of_bit; [by apply lbit_take| |rewrite length_take; lia|done]. by apply Forall_take.
  - rewrite int_of_bit; [|by apply Forall_drop|rewrite length_drop; lia|lia].
    rewrite lbit_drop. f_equal. lia.
Qed.

Lemma six_bit src k :
  (k < 32)%nat ->
  Z.testbit (TO_SIX_BIT big_endian src) (place k)
  = if decide (k mod 8 < 2)%nat then false else Z.testbit src (Z.of_nat (6 * (k / 8) + k mod 8 - 2)).
Proof.
  intros Hk. pose proof (div_mod_8 k). unfold TO_SIX_BIT. cbn [fmap list_fmap].
  rewrite shl_bit, Z.land_spec by lia. case_decide.
  - assert (Hm : Z.testbit 0x3f3f3f3f (place k - 2) = false); [|by rewrite Hm, andb_false_r].
    pose proof (forall_below 32 (fun k => implb (bool_decide (k mod 8 < 2)%nat)
      (negb (Z.testbit 0x3f3f3f3f (place k - 2)))) k) as Hc.
    apply negb_true_iff. cbn beta in Hc. rewrite bool_decide_true in Hc by done. apply Hc; [|done].
    clear. unfold place, Crypt.lane. by destruct big_endian; vm_compute.
  - change 2 with (Z.of_nat 2). rewrite place_up by lia. pose proof (div_mod_8 (k - 2)).
    rewrite (mask_bit 0x3f3f3f3f 0x3f); [|apply repeats_masks|lia]. change 0x3f with (Z.ones 6).
    rewrite Z.ones_spec_low, andb_true_r by lia. unfold Crypt.block_of. cbn [i0 take].
    rewrite int_of_bit; [|repeat constructor; apply u8_range|done|lia].
    replace ((k - 2) / 8)%nat with (k / 8)%nat by lia. unfold lbit.
    assert (k / 8 = 0 \/ k / 8 = 1 \/ k / 8 = 2 \/ k / 8 = 3)%nat as [E|[E|[E|E]]] by lia;
      replace ((k - 2) / 8)%nat with (k / 8)%nat by lia; rewrite E; cbn [nth]; unfold u8;
      rewrite Z.mod_pow2_bits_low, ?Z.shiftr_spec by lia; f_equal; lia.
Qed.
End ByteOrder.
