(* ===== verification/CryptTables.v ===== *)
(** * The tables of crypt.c do what their comments say

    A transformation computed by [init_perm] moves the bits of its input as the
    array it was made from tells; the SPE tables are the S boxes, P and E. *)

From S2P Require Export CryptBits.

(** The bits that [t] (an array for [init_perm]) takes from [g]. *)
Definition moved (t : list Z) (g : nat -> bool) (k : nat) : bool :=
  let l := tab t (Z.of_nat k) in
  if 0 <? l then g (Z.to_nat (l - 1)) else false.

(** What the chunk [i] with the value [v] contributes to bit [k]. *)
Definition chunk_bit (t : list Z) (k i : nat) (v : Z) : bool :=
  let l := tab t (Z.of_nat k) - 1 in
  (0 <=? l) && (l / 4 =? Z.of_nat i) && Z.testbit v (l mod 4).

Section ByteOrder.
Context (big_endian : bool).
Notation bitat := (bitat big_endian).

Definition performs (p : transformation) (t : list Z) : Prop :=
  forall i v, (i < length p)%nat -> (v < 16)%nat ->
  exists row c, p !! i = Some row /\ row !! v = Some c
  /\ forall k, (k < 64)%nat -> bitat c k = chunk_bit t k i (Z.of_nat v).

Definition performs_dec (p : transformation) (t : list Z) : bool :=
  forallb (fun i => forallb (fun v =>
    match p !! i with
    | Some row =>
        match row !! v with
        | Some c => forallb (fun k => eqb (bitat c k) (chunk_bit t k i (Z.of_nat v))) (seq 0 64)
        | None => false
        end
    | None => false
    end) (seq 0 16)) (seq 0 (length p)).
Lemma performs_dec_ok p t : performs_dec p t = true -> performs p t.
Proof.
  intros H i v Hi Hv. pose proof (forall_below _ _ i H Hi) as Hr. cbn beta in Hr.
  pose proof (forall_below _ _ v Hr Hv) as Hc. cbn beta in Hc.
  destruct (p !! i) as [row|]; [|done]. destruct (row !! v) as [c|] eqn:E; [|done].
  exists row, c. split_and!; [done|done|]. intros k Hk. apply eqb_prop.
  exact (forall_below _ _ k Hc Hk).
Qed.

Lemma low_nibble c i : is_u8 c -> 0 <= i < 4 -> Z.testbit (Z.land c 0xf) i = Z.testbit c i.
Proof.
  intros Hc Hi. rewrite Z.land_spec. change 0xf with (Z.ones 4).
  by rewrite Z.ones_spec_low, andb_true_r by lia.
Qed.
Lemma nibbles c : is_u8 c -> (Z.to_nat (Z.land c 0xf) < 16)%nat /\ (Z.to_nat (Z.shiftr c 4) < 16)%nat.
Proof.
  intros Hc. change 0xf with (Z.ones 4). rewrite Z.land_ones, Z.shiftr_div_pow2 by lia.
  change (2 ^ 4) with 16. int_lia.
Qed.

(** The part of the input that is already used, up to byte [o]. *)
Lemma permute_loop_bits cp p t o D :
  bytes cp -> performs p t -> length p = (2 * (o + length cp))%nat ->
  exists D', permute_loop cp (drop (2 * o) p) D = Some D' /\
  forall k, (k < 64)%nat ->
    bitat D' k = bitat D k || (let l := tab t (Z.of_nat k) - 1 in
      (8 * Z.of_nat o <=? l) && lbit cp (Z.to_nat l - 8 * o)).
Proof.
  intros Hcp Hp. revert o D. induction Hcp as [|c cp Hc Hcp IH]; intros o D Hl.
  - exists D. split; [by destruct (drop _ _)|]. intros k Hk. cbv zeta.
    assert (Hn : lbit [] (Z.to_nat (tab t (Z.of_nat k) - 1) - 8 * o) = false)
      by (unfold lbit; rewrite nth_overflow by (cbn; lia); apply Z.testbit_0_l).
    by rewrite Hn, andb_false_r, orb_false_r.
  - cbn [length] in Hl. destruct (nibbles c Hc) as [Hlo Hhi].
    destruct (Hp (2 * o) (Z.to_nat (Z.land c 0xf)) ltac:(lia) Hlo)%nat as (lo & x & Elo & Ex & Hx).
    destruct (Hp (S (2 * o)) (Z.to_nat (Z.shiftr c 4)) ltac:(lia) Hhi)%nat as (hi & y & Ehi & Ey & Hy).
    rewrite (drop_S _ _ _ Elo), (drop_S _ _ _ Ehi).
    cbn [permute_loop]. rewrite Ex, Ey. cbn [mbind option_bind].
    destruct (IH (S o) (OR (OR D x) y) ltac:(lia)) as (D' & E & HD').
    replace (2 * S o)%nat with (S (S (2 * o))) in E by lia. exists D'. split; [exact E|].
    intros k Hk. rewrite HD', !bitat_OR, Hx, Hy by done. rewrite <- !orb_assoc. f_equal. cbv zeta.
    unfold chunk_bit. set (l := tab t (Z.of_nat k) - 1).
    unfold is_u8 in Hc. assert (Hland : 0 <= Z.land c 0xf) by (apply Z.land_nonneg; lia).
    assert (Hshr : 0 <= Z.shiftr c 4) by (apply Z.shiftr_nonneg; lia).
    rewrite !Z2Nat.id by done.
    destruct (Z.leb_spec (8 * Z.of_nat o) l) as [Hol|Hol]; cbn [andb].
    2: { rewrite (proj2 (Z.leb_gt (8 * Z.of_nat (S o)) l)) by lia.
         destruct (Z.leb_spec 0 l); [|done]. rewrite !(proj2 (Z.eqb_neq _ _)); [done|..];
         Z.to_euclidean_division_equations; lia. }
    rewrite (proj2 (Z.leb_le 0 l)) by lia. cbn [andb].
    destruct (Z.leb_spec (8 * Z.of_nat (S o)) l) as [Hsl|Hsl]; cbn [andb].
    { rewrite !(proj2 (Z.eqb_neq _ _)) by (Z.to_euclidean_division_equations; lia). cbn [andb orb].
      unfold lbit. pose proof (div_mod_8 (Z.to_nat l - 8 * o)). pose proof (div_mod_8 (Z.to_nat l - 8 * S o)).
      replace ((Z.to_nat l - 8 * o) / 8)%nat with (S ((Z.to_nat l - 8 * S o) / 8)) by lia.
      replace ((Z.to_nat l - 8 * o) mod 8)%nat with ((Z.to_nat l - 8 * S o) mod 8)%nat by lia. done. }
    rewrite orb_false_r. unfold lbit.
    rewrite Nat.div_small, Nat.mod_small by lia. cbn [nth].
    destruct (Z.ltb_spec l (8 * Z.of_nat o + 4)).
    + replace (l / 4) with (Z.of_nat (2 * o)) by (Z.to_euclidean_division_equations; lia).
      rewrite Z.eqb_refl, (proj2 (Z.eqb_neq _ _)), orb_false_r by lia. cbn [andb].
      rewrite low_nibble by (unfold is_u8; try lia; apply Z.mod_pos_bound; lia). f_equal.
      Z.to_euclidean_division_equations; lia.
    + replace (l / 4) with (Z.of_nat (S (2 * o))) by (Z.to_euclidean_division_equations; lia).
      rewrite Z.eqb_refl, (proj2 (Z.eqb_neq _ _)) by lia. cbn [andb orb].
      rewrite Z.shiftr_spec by (apply Z.mod_pos_bound; lia). f_equal.
      Z.to_euclidean_division_equations; lia.
Qed.

Lemma permute_bits cp p t :
  bytes cp -> performs p t -> length p = (2 * length cp)%nat ->
  exists D, permute cp p = Some D
  /\ forall k, (k < 64)%nat -> bitat D k = moved t (lbit cp) k.
Proof.
  intros Hcp Hp Hl. destruct (permute_loop_bits cp p t 0 ZERO Hcp Hp Hl) as (D & E & HD).
  exists D. split; [exact E|]. intros k Hk. rewrite HD, bitat_ZERO by done. unfold moved. cbn [orb].
  rewrite Nat.mul_0_r, Nat.sub_0_r. cbn [Z.of_nat Z.mul].
  destruct (Z.ltb_spec 0 (tab t (Z.of_nat k))); [by rewrite (proj2 (Z.leb_le _ _)) by lia|].
  by rewrite (proj2 (Z.leb_gt _ _)) by lia.
Qed.

End ByteOrder.

(** ** The five transformations *)

Lemma PC1ROT_performs big :
  performs big (PC1ROT (init_des big)) pc1tab /\ length (PC1ROT (init_des big)) = 16%nat.
Proof. split; [apply performs_dec_ok|]; by destruct big; vm_compute. Qed.
Lemma PC2ROT_performs big (r : Z) :
  r = 1 \/ r = 2 ->
  exists p, PC2ROT (init_des big) !! Z.to_nat (r - 1) = Some p
  /\ performs big p (pc2tab (r - 1)) /\ length p = 16%nat.
Proof.
  intros Hr. exists (init_perm big (zero_perm 16) (pc2tab (r - 1))). split.
  - by destruct Hr as [-> | ->].
  - destruct Hr as [-> | ->]; (split; [apply performs_dec_ok|]); by destruct big; vm_compute.
Qed.
Lemma IE3264_performs big :
  performs big (IE3264 (init_des big)) ietab /\ length (IE3264 (init_des big)) = 8%nat.
Proof. split; [apply performs_dec_ok|]; by destruct big; vm_compute. Qed.
Lemma CF6464_performs big :
  performs big (CF6464 (init_des big)) cftab /\ length (CF6464 (init_des big)) = 16%nat.
Proof. split; [apply performs_dec_ok|]; by destruct big; vm_compute. Qed.
