(* ===== verification/CryptProps.v ===== *)
(** * crypt.c computes DES

    The table-driven cipher of crypt.c against the reference in Des.v, on
    targets of both byte orders: one round, the key schedule, the two ends of
    the cipher, and the theorems about [des_cipher], [encrypt] and [crypt]. *)

From S2P Require Export CryptTables.

(** ** The 8*(6+2) format *)

(** Bit [k] of a block with the 48 bits [e]. *)
Definition fmt (e : bits) (k : nat) : bool :=
  if decide (k mod 8 < 2)%nat then false else nth (6 * (k / 8) + k mod 8 - 2) e false.
(** A block with the bits [e]. *)
Definition coded (big : bool) (c : C_block) (e : bits) : Prop :=
  forall k, (k < 64)%nat -> bitat big c k = fmt e k.

Lemma nth_pick n t l :
  nth n (pick t l) false = if decide (n < length t)%nat then nth (Z.to_nat (nth n t 0) - 1) l false else false.
Proof.
  unfold pick. case_decide.
  - rewrite (nth_indep _ false ((fun i => nth (Z.to_nat i - 1) l false) 0)) by by rewrite length_fmap.
    apply (map_nth (fun i => nth (Z.to_nat i - 1) l false)).
  - apply nth_overflow. rewrite length_fmap. lia.
Qed.
Lemma nth_xor n l l' :
  length l = length l' -> nth n (xor_bits l l') false = xorb (nth n l false) (nth n l' false).
Proof.
  revert n l'. induction l as [|x l IH]; intros [|n] [|y l'] Hl; try done. exact (IH n l' (eq_add_S _ _ Hl)).
Qed.

Lemma fmt_xor e e' k : length e = length e' -> fmt (xor_bits e e') k = xorb (fmt e k) (fmt e' k).
Proof. intros Hl. unfold fmt. case_decide; [done|]. by apply nth_xor. Qed.
Lemma pick_xor t l l' :
  length l = length l' -> pick t (xor_bits l l') = xor_bits (pick t l) (pick t l').
Proof.
  intros Hl. induction t as [|i t IH]; [done|]. cbn. f_equal; [by apply nth_xor|exact IH].
Qed.

(** ** The S boxes *)

(** The four bits of box [t] at their place, the others zero. *)
Definition at_box (t : nat) (four : bits) : bits :=
  replicate (4 * t) false ++ four ++ replicate (28 - 4 * t) false.
(** The output of the SPE tables for 32 bits of the boxes. *)
Definition spread (l : bits) (k : nat) : bool := fmt (pick ExpandTr (pick P32Tr l)) k.

Definition six_of (v : nat) : bits := (fun j => Z.testbit (Z.of_nat v) (Z.of_nat j)) <$> seq 0 6.
Definition spe_ok (big : bool) : bool :=
  let s0 := spe_table big 0 in let s1 := spe_table big 24 in
  forallb (fun t => forallb (fun v =>
    match s0 !! t, s1 !! t with
    | Some t0, Some t1 =>
        match t0 !! v, t1 !! v with
        | Some x, Some y =>
            let l := pick ExpandTr (pick P32Tr (at_box t (sbox t (six_of v)))) in
            forallb (fun k => eqb (bitat big (mk_block x y) k) (fmt l k)) (seq 0 64)
        | _, _ => false
        end
    | _, _ => false
    end) (seq 0 64)) (seq 0 8).
Lemma spe_checked big : spe_ok big = true.
Proof. by destruct big; vm_compute. Qed.

Lemma spe_lookup big t v :
  (t < 8)%nat -> (v < 64)%nat ->
  exists t0 t1 x y, (SPE (init_des big)).1 !! t = Some t0 /\ (SPE (init_des big)).2 !! t = Some t1
  /\ t0 !! v = Some x /\ t1 !! v = Some y
  /\ forall k, (k < 64)%nat -> bitat big (mk_block x y) k = spread (at_box t (sbox t (six_of v))) k.
Proof.
  intros Ht Hv. pose proof (forall_below _ _ t (spe_checked big) Ht) as H1. cbn beta zeta in H1.
  pose proof (forall_below _ _ v H1 Hv) as H2. cbn beta zeta in H2. clear H1.
  change (SPE (init_des big)).1 with (spe_table big 0).
  change (SPE (init_des big)).2 with (spe_table big 24).
  destruct (spe_table big 0 !! t) as [t0|]; [|done]. destruct (spe_table big 24 !! t) as [t1|]; [|done].
  destruct (t0 !! v) as [x|] eqn:E0; [|done]. destruct (t1 !! v) as [y|] eqn:E1; [|done].
  exists t0, t1, x, y. split_and!; [done..|]. intros k Hk. apply eqb_prop.
  exact (forall_below _ _ k H2 Hk).
Qed.

(** A byte with two zero bits at the bottom as an offset into a table of ints. *)
Lemma offset_ok (c : Z) :
  is_u8 c -> Z.testbit c 0 = false -> Z.testbit c 1 = false ->
  c mod 4 = 0 /\ 0 <= c / 4 < 64 /\ forall j, 0 <= j -> Z.testbit (c / 4) j = Z.testbit c (j + 2).
Proof.
  intros Hc H0 H1. split_and!.
  - change 4 with (2 ^ 2). apply Z.bits_inj'. intros n Hn. rewrite Z.testbit_0_l.
    destruct (Z.ltb_spec n 2); [|by apply Z.mod_pow2_bits_high; lia].
    rewrite Z.mod_pow2_bits_low by lia. assert (n = 0 \/ n = 1) as [-> | ->] by lia; done.
  - int_lia.
  - int_lia.
  - intros j Hj. change 4 with (2 ^ 2). by rewrite Z.div_pow2_bits by lia.
Qed.

Lemma six_coded big B e i :
  coded big B e -> (i < 8)%nat -> length e = 48%nat ->
  exists v, (v < 64)%nat /\ cb_b big B i = 4 * Z.of_nat v /\ six_of v = take 6 (drop (6 * i) e).
Proof.
  intros HB Hi He.
  assert (Hbit : forall j, (j < 8)%nat -> Z.testbit (cb_b big B i) (Z.of_nat j) = fmt e (8 * i + j)).
  { intros j Hj. rewrite <- HB by lia. unfold bitat. pose proof (div_mod_8 (8 * i + j)).
    replace ((8 * i + j) / 8)%nat with i by lia. by replace ((8 * i + j) mod 8)%nat with j by lia. }
  assert (Hfmt : forall j, (j < 8)%nat -> fmt e (8 * i + j)
    = if decide (j < 2)%nat then false else nth (6 * i + j - 2) e false).
  { intros j Hj. unfold fmt. pose proof (div_mod_8 (8 * i + j)).
    replace ((8 * i + j) / 8)%nat with i by lia. by replace ((8 * i + j) mod 8)%nat with j by lia. }
  assert (Hb : is_u8 (cb_b big B i)).
  { pose proof (bytes_of_bytes big B) as Hbs. unfold bytes in Hbs. rewrite Forall_lookup in Hbs.
    apply (Hbs i). unfold bytes_of. rewrite list_lookup_fmap, lookup_seq_lt by lia. done. }
  destruct (offset_ok _ Hb) as (Hm & Hr & Hd).
  { pose proof (Hbit 0%nat ltac:(lia)) as E. by rewrite Hfmt in E by lia. }
  { pose proof (Hbit 1%nat ltac:(lia)) as E. by rewrite Hfmt in E by lia. }
  exists (Z.to_nat (cb_b big B i / 4)). split_and!; [lia|rewrite Z2Nat.id by lia; int_lia|].
  apply nth_ext with (d := false) (d' := false).
  { unfold six_of. rewrite length_fmap, length_seq, length_take, length_drop. lia. }
  intros j Hj. unfold six_of in *. rewrite length_fmap, length_seq in Hj.
  rewrite (nth_indep _ _ ((fun j => Z.testbit (Z.of_nat (Z.to_nat (cb_b big B i / 4))) (Z.of_nat j)) 0%nat))
    by (rewrite length_fmap, length_seq; lia).
  rewrite (map_nth (fun j => Z.testbit (Z.of_nat (Z.to_nat (cb_b big B i / 4))) (Z.of_nat j))), seq_nth by lia.
  rewrite Z2Nat.id, Hd by lia. replace (Z.of_nat (0 + j) + 2) with (Z.of_nat (j + 2)) by lia.
  rewrite Hbit, Hfmt, decide_False by lia.
  transitivity (nth j (drop (6 * i) e) false).
  - rewrite nth_skipn. f_equal. lia.
  - rewrite <- (take_drop 6 (drop (6 * i) e)) at 1. apply app_nth1. rewrite length_take, length_drop. lia.
Qed.

Lemma length_sbox i l : length (sbox i l) = 4%nat.
Proof. done. Qed.
Lemma length_sboxes l : length (sboxes l) = 32%nat.
Proof. done. Qed.

Lemma spread_nth l k :
  exists o, spread l k = match o with Some i => nth i l false | None => false end
  /\ match o with Some i => (i < 32)%nat | None => True end
  /\ forall l', spread l' k = match o with Some i => nth i l' false | None => false end.
Proof.
  unfold spread, fmt. case_decide; [by exists None|].
  set (n := (6 * (k / 8) + k mod 8 - 2)%nat).
  destruct (decide (n < 48)%nat) as [Hn|Hn].
  2: { exists None. split_and!; [|done|intros l']; rewrite nth_pick, decide_False by done; done. }
  set (e := (Z.to_nat (nth n ExpandTr 0%Z) - 1)%nat). set (p := (Z.to_nat (nth e P32Tr 0%Z) - 1)%nat).
  assert (Hp : (p < 32 /\ e < 32)%nat).
  { pose proof (forall_below 48 (fun n =>
      let e := (Z.to_nat (nth n ExpandTr 0%Z) - 1)%nat in
      (Z.to_nat (nth e P32Tr 0%Z) - 1 <? 32)%nat && (e <? 32)%nat) n eq_refl Hn) as Hc.
    cbn beta zeta in Hc. apply andb_true_iff in Hc as [H1 H2]. apply Nat.ltb_lt in H1, H2. done. }
  exists (Some p). split_and!; [|lia|intros l'];
    rewrite nth_pick, decide_True by done; fold e; rewrite nth_pick, decide_True; (done || cbn; lia).
Qed.
Lemma spread_xor l l' k :
  length l = length l' -> spread (xor_bits l l') k = xorb (spread l k) (spread l' k).
Proof. intros Hl. unfold spread. rewrite !pick_xor by (rewrite ?length_pick; done). by apply fmt_xor. Qed.

Section Round.
Context (big : bool).
Notation T := (init_des big).

Lemma doxor_bits B e p i :
  coded big B e -> length e = 48%nat -> (i < 8)%nat ->
  exists p', DOXOR big (SPE T) B p i = Some p'
  /\ forall k, (k < 64)%nat -> bitat big p' k
       = xorb (bitat big p k) (spread (at_box i (sbox i (take 6 (drop (6 * i) e)))) k).
Proof.
  intros HB He Hi. destruct (six_coded big B e i HB Hi He) as (v & Hv & Ev & <-).
  destruct (spe_lookup big i v Hi Hv) as (t0 & t1 & x & y & E0 & E1 & Ex & Ey & Hxy).
  assert (Hs : forall t z, t !! v = Some z -> SPTAB t (cb_b big B i) = Some z).
  { intros t z Hz. unfold SPTAB. rewrite Ev, Z.mul_comm, Z.mod_mul, Z.div_mul, Nat2Z.id by lia. exact Hz. }
  exists (XOR p (mk_block x y)). split.
  - unfold DOXOR. rewrite E0, E1. cbn [mbind option_bind]. by rewrite (Hs _ _ Ex), (Hs _ _ Ey).
  - intros k Hk. by rewrite bitat_XOR, Hxy by done.
Qed.

Lemma doxor_loop_bits B e p l :
  coded big B e -> length e = 48%nat -> Forall (fun i => i < 8)%nat l ->
  exists p', doxor_loop big (SPE T) B p l = Some p'
  /\ forall k, (k < 64)%nat -> bitat big p' k
       = foldl (fun x i => xorb x (spread (at_box i (sbox i (take 6 (drop (6 * i) e)))) k))
           (bitat big p k) l.
Proof.
  intros HB He Hl. revert p. induction Hl as [|i l Hi Hl IH]; intros p; [by exists p|].
  destruct (doxor_bits B e p i HB He Hi) as (p1 & E & H1). destruct (IH p1) as (p2 & E2 & H2).
  exists p2. cbn [doxor_loop]. rewrite E. split; [exact E2|]. intros k Hk. by rewrite H2, H1 by done.
Qed.

(** The eight boxes side by side. *)
Lemma boxes_nth (s : nat -> bits) x i :
  (forall t, length (s t) = 4%nat) -> (i < 32)%nat ->
  foldl (fun x t => xorb x (nth i (at_box t (s t)) false)) x (seq 0 8)
  = xorb x (nth i (seq 0 8 ≫= s) false).
Proof.
  intros Hs Hi. cbn [seq foldl mbind list_bind].
  do 8 match goal with
  | |- context [at_box ?t (s ?t)] =>
      let H := fresh in
      pose proof (Hs t) as H; destruct (s t) as [|? [|? [|? [|? [|]]]]]; try discriminate H; clear H
  end.
  do 32 (destruct i as [|i]; [cbn; by rewrite ?xorb_false_r|]). lia.
Qed.

Lemma foldl_xor_false (x : bool) {A} (l : list A) : foldl (fun x _ => xorb x false) x l = x.
Proof. induction l as [|a l IH]; [done|]. cbn. by rewrite xorb_false_r. Qed.

(** [p ^= f(q)] of the standard. *)
Lemma doxor_all B e p :
  coded big B e -> length e = 48%nat ->
  exists p', doxor_loop big (SPE T) B p (seq 0 8) = Some p'
  /\ forall k, (k < 64)%nat -> bitat big p' k = xorb (bitat big p k) (spread (sboxes e) k).
Proof.
  intros HB He. destruct (doxor_loop_bits B e p (seq 0 8) HB He) as (p' & E & Hp'); [by repeat constructor; lia|].
  exists p'. split; [exact E|]. intros k Hk. rewrite Hp' by done.
  destruct (spread_nth (sboxes e) k) as (o & -> & Ho & Hall).
  transitivity (foldl (fun x i => xorb x match o with
    | Some n => nth n (at_box i (sbox i (take 6 (drop (6 * i) e)))) false | None => false end)
    (bitat big p k) (seq 0 8)).
  { generalize (bitat big p k). generalize (seq 0 8). intros l. induction l as [|i l IH]; intros x; [done|].
    cbn [foldl]. rewrite Hall. apply IH. }
  destruct o as [n|]; [|by rewrite foldl_xor_false, xorb_false_r].
  by apply (boxes_nth (fun i => sbox i (take 6 (drop (6 * i) e)))).
Qed.

Lemma length_salted salt e : length (salted salt e) = 48%nat.
Proof. unfold salted. by rewrite length_fmap. Qed.
Lemma nth_salted salt e n :
  (n < 48)%nat -> nth n (salted salt e) false = nth (salt_src salt n) e false.
Proof.
  intros Hn. unfold salted.
  rewrite (nth_indep _ _ ((fun n => nth (salt_src salt n) e false) 0%nat)) by by rewrite length_fmap.
  by rewrite (map_nth (fun n => nth (salt_src salt n) e false)), seq_nth.
Qed.

(** The input of the S boxes: the exchange of bits by [(q0 ^ q1) & SALT]. *)
Lemma crunch_input salt kp K q e :
  coded big kp K -> length K = 48%nat -> coded big q e ->
  let k := Z.land (Z.lxor (i0 q) (i1 q)) (TO_SIX_BIT big salt) in
  coded big (mk_block (Z.lxor (Z.lxor k (i0 q)) (i0 kp)) (Z.lxor (Z.lxor k (i1 q)) (i1 kp)))
    (xor_bits (salted salt e) K).
Proof.
  intros HK HlK Hq k j Hj. pose proof (HK j Hj) as Hkj. pose proof (div_mod_8 j).
  rewrite fmt_xor by (by rewrite length_salted). rewrite <- Hkj, !bitat_int by done. cbn [i0 i1].
  pose proof (Hq j Hj) as Hqj. rewrite bitat_int in Hqj by done.
  case_decide as Hs.
  - pose proof (Hq (j + 32)%nat ltac:(lia)) as Hq2. rewrite bitat_int, decide_False in Hq2 by lia.
    replace (j + 32 - 32)%nat with j in Hq2 by lia.
    unfold k. rewrite !Z.lxor_spec, Z.land_spec, Z.lxor_spec, six_bit, Hqj, Hq2 by done. f_equal.
    pose proof (div_mod_8 (j + 32)). unfold fmt.
    replace ((j + 32) mod 8)%nat with (j mod 8)%nat by lia.
    replace ((j + 32) / 8)%nat with (j / 8 + 4)%nat by lia.
    case_decide; [done|]. rewrite nth_salted by lia. unfold salt_src. rewrite decide_True by lia.
    set (n := (6 * (j / 8) + j mod 8 - 2)%nat).
    replace (6 * (j / 8 + 4) + j mod 8 - 2)%nat with (n + 24)%nat by lia.
    destruct (Z.testbit salt (Z.of_nat n)); by destruct (nth n e false), (nth (n + 24) e false).
  - pose proof (Hq (j - 32)%nat ltac:(lia)) as Hq2. rewrite bitat_int, decide_True in Hq2 by lia.
    unfold k. rewrite !Z.lxor_spec, Z.land_spec, Z.lxor_spec, six_bit, Hqj, Hq2 by lia. f_equal.
    pose proof (div_mod_8 (j - 32)). unfold fmt.
    replace ((j - 32) mod 8)%nat with (j mod 8)%nat by lia.
    replace ((j - 32) / 8)%nat with (j / 8 - 4)%nat by lia.
    case_decide; [done|]. rewrite nth_salted by lia. unfold salt_src. rewrite decide_False by lia.
    set (n := (6 * (j / 8) + j mod 8 - 2)%nat).
    replace (6 * (j / 8 - 4) + j mod 8 - 2)%nat with (n - 24)%nat by lia.
    replace (Z.of_nat (n - 24)) with (Z.of_nat n - 24) by lia.
    destruct (Z.testbit salt (Z.of_nat n - 24)); by destruct (nth n e false), (nth (n - 24) e false).
Qed.

(** A half of the block in the cipher. *)
Definition half (c : C_block) (l : bits) : Prop := coded big c (pick ExpandTr l) /\ length l = 32%nat.

Lemma crunch_bits salt kp K p l q r :
  coded big kp K -> length K = 48%nat -> half p l -> half q r ->
  exists p', CRUNCH big (SPE T) (TO_SIX_BIT big salt) kp p q = Some p'
  /\ half p' (xor_bits l (cipher_f salt K r)).
Proof.
  intros HK HlK [Hp Hl] [Hq Hr].
  destruct (doxor_all _ (xor_bits (salted salt (pick ExpandTr r)) K) p
    (crunch_input salt kp K q _ HK HlK Hq)) as (p' & E & Hp').
  { rewrite length_xor; by rewrite length_salted. }
  exists p'. split; [exact E|]. split; [|by rewrite length_xor, ?length_cipher_f].
  intros k Hk. rewrite Hp', Hp by done. rewrite pick_xor by by rewrite length_cipher_f.
  rewrite fmt_xor by by rewrite !length_pick. done.
Qed.

(** [kps] points to the round keys [keys], an even number of them. *)
Definition keys_coded (kps : list C_block) (keys : list bits) : Prop :=
  Forall2 (fun kp K => coded big kp K /\ length K = 48%nat) kps keys.

Lemma crunch_loop_bits salt kps keys L R l r n :
  keys_coded kps keys -> length keys = (2 * n)%nat -> half L l -> half R r ->
  exists L' R', crunch_loop big (SPE T) (TO_SIX_BIT big salt) kps L R = Some (L', R')
  /\ half L' (feistel salt keys l r).1 /\ half R' (feistel salt keys l r).2.
Proof.
  intros Hk. revert keys Hk L R l r n.
  induction kps as [kps IH] using (induction_ltof1 _ length). unfold ltof in IH.
  intros keys Hk L R l r n Hn HL HR.
  destruct Hk as [|k1 K1 kps keys [H1 Hl1] Hk]; [by exists L, R|].
  destruct Hk as [|k2 K2 kps keys [H2 Hl2] Hk]; [cbn in Hn; lia|].
  destruct (crunch_bits salt k1 K1 L l R r H1 Hl1 HL HR) as (L1 & E1 & HL1).
  destruct (crunch_bits salt k2 K2 R r L1 _ H2 Hl2 HR HL1) as (R1 & E2 & HR1).
  cbn [crunch_loop feistel]. rewrite E1. cbn [mbind option_bind]. rewrite E2. cbn [mbind option_bind].
  apply (IH kps ltac:(cbn; lia) keys Hk L1 R1 _ _ (n - 1)%nat); [cbn in Hn; lia|done|done].
Qed.
End Round.
