(* ===== verification/CryptDes.v ===== *)
(** * crypt.c: the whole cipher

    The two ends of [des_cipher], the key schedule of [des_setkey], and the
    theorems: [des_cipher] is the standard's DES, iterated and salted, for both
    byte orders, and decryption undoes it; what [crypt] returns. *)

From S2P Require Export CryptProps.

(** The bit of the standard's numbering (from 0) that is bit [j] of the bytes. *)
Definition rev8 (j : nat) : nat := (8 * (j / 8) + (7 - j mod 8))%nat.

Lemma rev8_range j n : (j < 8 * n)%nat -> (rev8 j < 8 * n)%nat.
Proof. pose proof (div_mod_8 j). unfold rev8. lia. Qed.
Lemma rev8_rev8 j : rev8 (rev8 j) = j.
Proof. pose proof (div_mod_8 j). pose proof (div_mod_8 (rev8 j)). unfold rev8 in *. lia. Qed.

Lemma nth_bits_of l n :
  (n < 8 * length l)%nat ->
  nth n (bits_of l) false = Z.testbit (nth (n / 8) l 0) (Z.of_nat (7 - n mod 8)).
Proof.
  revert n. induction l as [|c l IH]; intros n Hn; [cbn in Hn; lia|].
  change (bits_of (c :: l)) with (byte_bits c ++ bits_of l). pose proof (div_mod_8 n).
  destruct (decide (n < 8)%nat).
  - rewrite app_nth1 by (cbn; lia). rewrite Nat.div_small, Nat.mod_small by lia. cbn [nth].
    unfold byte_bits. rewrite (nth_indep _ _ ((fun j => Z.testbit c (7 - Z.of_nat j)) 0%nat)) by (cbn; lia).
    rewrite (map_nth (fun j => Z.testbit c (7 - Z.of_nat j))), seq_nth by lia. f_equal. lia.
  - rewrite app_nth2 by (cbn; lia). cbn [length] in Hn.
    change (length (byte_bits c)) with 8%nat. rewrite IH by lia. pose proof (div_mod_8 (n - 8)).
    replace (n / 8)%nat with (S ((n - 8) / 8)) by lia.
    by replace (n mod 8)%nat with ((n - 8) mod 8)%nat by lia.
Qed.
Lemma lbit_bits l j : (j < 8 * length l)%nat -> lbit l j = nth (rev8 j) (bits_of l) false.
Proof.
  intros Hj. pose proof (div_mod_8 j). pose proof (div_mod_8 (rev8 j)).
  rewrite nth_bits_of by by apply rev8_range. unfold lbit, rev8 in *.
  f_equal; [f_equal; lia|lia].
Qed.
Lemma nth_take_lt {A} n m (l : list A) d : (n < m)%nat -> nth n (take m l) d = nth n l d.
Proof.
  revert m l. induction n as [|n IH]; intros [|m] [|a l] H; try lia; try done.
  cbn. apply IH. lia.
Qed.

Lemma parity j :
  (j < 64)%nat ->
  (j mod 2 = 1 /\ 1 <= j mod 8 /\ (j - 1) mod 2 = 0 /\ 1 <= j /\ (j < 32 \/ (j - 32) mod 2 = 1)
   \/ j mod 2 = 0 /\ j mod 8 + 1 < 8 /\ (j - 32) mod 2 = 0)%nat.
Proof.
  intros Hj.
  by apply (check_below 64 (fun j => (j mod 2 = 1 /\ 1 <= j mod 8 /\ (j - 1) mod 2 = 0 /\ 1 <= j
      /\ (j < 32 \/ (j - 32) mod 2 = 1)
    \/ j mod 2 = 0 /\ j mod 8 + 1 < 8 /\ (j - 32) mod 2 = 0)%nat)).
Qed.

(** Where a bit of an expanded half comes from. *)
Definition esrc (k : nat) : nat := Z.to_nat (nth (6 * (k / 8) + k mod 8 - 2) ExpandTr 0) - 1.
Definition ipsrc (i : nat) : nat := Z.to_nat (nth i IP 0) - 1.

Lemma fmt_expanded l k :
  (k < 64)%nat ->
  fmt (pick ExpandTr l) k = if decide (k mod 8 < 2)%nat then false else nth (esrc k) l false.
Proof.
  intros Hk. pose proof (div_mod_8 k). unfold fmt. case_decide; [done|].
  rewrite nth_pick, decide_True; [done|]. change (length ExpandTr) with 48%nat. lia.
Qed.
Lemma nth_IP x i : (i < 64)%nat -> nth i (pick IP x) false = nth (ipsrc i) x false.
Proof. intros Hi. by rewrite nth_pick, decide_True. Qed.

Section ByteOrder.
Context (big : bool).
Notation T := (init_des big).

(** ** The input *)

Definition load_src (j : nat) : nat :=
  if decide (j < 32)%nat then (if decide (j mod 2 = 1) then j - 1 else 32 + j)%nat
  else (if decide (j mod 2 = 1) then j - 32 else j + 1)%nat.

Lemma mask_55 k : (k < 32)%nat -> Z.testbit 0x55555555 (place big k) = bool_decide (k mod 2 = 0)%nat.
Proof.
  intros Hk. pose proof (repeats_masks big) as (M1 & M2 & M3 & M4 & _).
  rewrite (mask_bit big 0x55555555 0x55 k M1 Hk).
  exact (eqb_prop _ _ (forall_below 32 (fun k => eqb (Z.testbit 0x55 (Z.of_nat (k mod 8)))
    (bool_decide (k mod 2 = 0)%nat)) k eq_refl Hk)).
Qed.
Lemma mask_aa k : (k < 32)%nat -> Z.testbit 0xaaaaaaaa (place big k) = bool_decide (k mod 2 = 1)%nat.
Proof.
  intros Hk. pose proof (repeats_masks big) as (M1 & M2 & M3 & M4 & _).
  rewrite (mask_bit big 0xaaaaaaaa 0xaa k M2 Hk).
  exact (eqb_prop _ _ (forall_below 32 (fun k => eqb (Z.testbit 0xaa (Z.of_nat (k mod 8)))
    (bool_decide (k mod 2 = 1)%nat)) k eq_refl Hk)).
Qed.
Lemma mask_0f k : (k < 32)%nat -> Z.testbit 0x0f0f0f0f (place big k) = bool_decide (k mod 8 < 4)%nat.
Proof.
  intros Hk. pose proof (repeats_masks big) as (M1 & M2 & M3 & M4 & _).
  rewrite (mask_bit big 0x0f0f0f0f 0x0f k M3 Hk).
  exact (eqb_prop _ _ (forall_below 32 (fun k => eqb (Z.testbit 0x0f (Z.of_nat (k mod 8)))
    (bool_decide (k mod 8 < 4)%nat)) k eq_refl Hk)).
Qed.
Lemma mask_f0 k : (k < 32)%nat -> Z.testbit 0xf0f0f0f0 (place big k) = bool_decide (4 <= k mod 8)%nat.
Proof.
  intros Hk. pose proof (repeats_masks big) as (M1 & M2 & M3 & M4 & _).
  rewrite (mask_bit big 0xf0f0f0f0 0xf0 k M4 Hk).
  exact (eqb_prop _ _ (forall_below 32 (fun k => eqb (Z.testbit 0xf0 (Z.of_nat (k mod 8)))
    (bool_decide (4 <= k mod 8)%nat)) k eq_refl Hk)).
Qed.

(** The even and the odd bits of the input apart. *)
Definition load_block (in_ : list Z) : C_block :=
  let L := block_of big in_ in
  mk_block (Z.lor (shl (Z.land (i0 L) 0x55555555) 1) (Z.land (i1 L) 0x55555555))
           (Z.lor (Z.land (i0 L) 0xaaaaaaaa) (Z.land (sar (i1 L) 1) 0x55555555)).

Lemma load_block_bits in_ j :
  bytes in_ -> length in_ = 8%nat -> (j < 64)%nat ->
  bitat big (load_block in_) j = lbit in_ (load_src j).
Proof.
  intros Hb Hl Hj. pose proof (div_mod_8 j).
  assert (H0 : forall k, (k < 32)%nat -> Z.testbit (i0 (block_of big in_)) (place big k) = lbit in_ k).
  { intros k Hk. rewrite <- (block_of_bit big in_ k Hb Hl), bitat_int, decide_True by lia. done. }
  assert (H1 : forall k, (k < 32)%nat -> Z.testbit (i1 (block_of big in_)) (place big k) = lbit in_ (32 + k)).
  { intros k Hk. rewrite <- (block_of_bit big in_ (32 + k) Hb Hl), bitat_int, decide_False by lia.
    do 2 f_equal. lia. }
  pose proof (parity j Hj) as [[Hodd (Ho1 & Ho2 & Ho3 & Ho4)]|[Heven [He1 He2]]].
  - rewrite bitat_int by done. unfold load_block, load_src. cbn [i0 i1].
    case_decide; rewrite (decide_True (P := (j mod 2 = 1)%nat)) by done.
    + rewrite Z.lor_spec, shl_bit, !Z.land_spec, mask_55, H1 by lia.
      rewrite bool_decide_false, andb_false_r, orb_false_r by lia. change 1 with (Z.of_nat 1).
      rewrite place_up by lia. rewrite mask_55, H0, bool_decide_true, andb_true_r; (done || lia).
    + rewrite Z.lor_spec, !Z.land_spec, mask_aa, mask_55, H0 by lia.
      assert (Hm : ((j - 32) mod 2 = 1)%nat) by lia. rewrite Hm.
      by rewrite andb_true_r, andb_false_r, orb_false_r.
  - rewrite bitat_int by done. unfold load_block, load_src. cbn [i0 i1].
    case_decide; rewrite (decide_False (P := (j mod 2 = 1)%nat)) by lia.
    + rewrite Z.lor_spec, shl_bit, !Z.land_spec, mask_55, H1 by lia.
      rewrite bool_decide_true, andb_true_r by done.
      assert (Hz : Z.testbit 0x55555555 (place big j - 1) = false); [|by rewrite Hz, andb_false_r].
      pose proof (forall_below 32 (fun k => implb (bool_decide (k mod 2 = 0)%nat)
        (negb (Z.testbit 0x55555555 (place big k - 1)))) j) as Hc.
      cbn beta in Hc. rewrite bool_decide_true in Hc by done.
      apply negb_true_iff, Hc; [|done]. clear. unfold place, lane. by destruct big; vm_compute.
    + rewrite Z.lor_spec, !Z.land_spec, mask_aa, mask_55, H0 by lia.
      rewrite bool_decide_false, bool_decide_true, andb_false_r, andb_true_r by lia. cbn [orb].
      pose proof (div_mod_8 (j - 32)).
      assert (Hp : place big (j - 32) + 1 = place big (j - 32 + 1))
        by (change 1 with (Z.of_nat 1); apply place_down; lia).
      pose proof (place_range big (j - 32 + 1)).
      rewrite sar_bit, Hp, H1 by lia. f_equal. lia.
Qed.

(** What [ietab] selects for the half at [h] of the permuted block. *)
Lemma load_checked k h :
  (k < 64)%nat -> h = 0%nat \/ h = 32%nat ->
  (k mod 8 < 2)%nat /\ (0 <? tab ietab (Z.of_nat k)) = false
  \/ ~ (k mod 8 < 2)%nat /\ 0 < tab ietab (Z.of_nat k) < 33 /\ (esrc k < 32)%nat
     /\ ipsrc (h + esrc k) = rev8 (load_src (h + Z.to_nat (tab ietab (Z.of_nat k) - 1))).
Proof.
  intros Hk Hh.
  apply (check_below 64 (fun k => (k mod 8 < 2)%nat /\ (0 <? tab ietab (Z.of_nat k)) = false
    \/ ~ (k mod 8 < 2)%nat /\ 0 < tab ietab (Z.of_nat k) < 33 /\ (esrc k < 32)%nat
       /\ ipsrc (h + esrc k) = rev8 (load_src (h + Z.to_nat (tab ietab (Z.of_nat k) - 1))))); [|done].
  destruct Hh as [-> | ->]; by vm_compute.
Qed.

Lemma load_bits in_ :
  bytes in_ -> length in_ = 8%nat ->
  exists L R, load_halves big T in_ = Some (L, R)
  /\ half big L (take 32 (pick IP (bits_of in_))) /\ half big R (drop 32 (pick IP (bits_of in_))).
Proof.
  intros Hb Hl. destruct (IE3264_performs big) as [Hp Hlen].
  set (bs := bytes_of big (load_block in_)).
  assert (Hbs : bytes bs) by apply bytes_of_bytes.
  destruct (permute_bits big (take 4 bs) (IE3264 T) ietab) as (L & EL & HL); [by apply Forall_take|done|done|].
  destruct (permute_bits big (drop 4 bs) (IE3264 T) ietab) as (R & ER & HR); [by apply Forall_drop|done|done|].
  assert (Hbit : forall j, (j < 64)%nat -> lbit bs j = nth (rev8 (load_src j)) (bits_of in_) false).
  { intros j Hj. unfold bs. rewrite lbit_bytes_of, load_block_bits, lbit_bits; [done| |done..].
    rewrite Hl. apply Nat.ltb_lt.
    exact (forall_below 64 (fun j => (load_src j <? 8 * 8)%nat) j eq_refl Hj). }
  exists L, R. split.
  { unfold load_halves. change (mk_block _ _) with (load_block in_). fold bs. rewrite EL.
    cbn [mbind option_bind]. by rewrite ER. }
  assert (Hlen64 : length (pick IP (bits_of in_)) = 64%nat) by by rewrite length_pick.
  split; (split; [|rewrite ?length_take, ?length_drop; lia]); intros k Hk; rewrite fmt_expanded by done.
  - rewrite HL by done. unfold moved.
    destruct (load_checked k 0 Hk ltac:(by left)) as [[Hm ->]|(Hm & Hr & Hs & Hsrc)].
    { by rewrite decide_True. }
    rewrite (proj2 (Z.ltb_lt _ _)), decide_False by lia. cbn [Nat.add] in Hsrc.
    by rewrite nth_take_lt, nth_IP, Hsrc, lbit_take, Hbit by lia.
  - rewrite HR by done. unfold moved.
    destruct (load_checked k 32 Hk ltac:(by right)) as [[Hm ->]|(Hm & Hr & Hs & Hsrc)].
    { by rewrite decide_True. }
    rewrite (proj2 (Z.ltb_lt _ _)), decide_False by lia.
    by rewrite nth_skipn, nth_IP, Hsrc, lbit_drop, Hbit by lia.
Qed.

(** ** The output *)

(** The compressed halves side by side: whose bit, and which. *)
Definition store_src (j : nat) : nat := if decide (j mod 8 < 4)%nat then (j + 3)%nat else (j + 31)%nat.
Definition store_block (L R : C_block) : C_block :=
  mk_block (Z.lor (Z.land (sar (i0 L) 3) 0x0f0f0f0f) (Z.land (shl (i1 L) 1) 0xf0f0f0f0))
           (Z.lor (Z.land (sar (i0 R) 3) 0x0f0f0f0f) (Z.land (shl (i1 R) 1) 0xf0f0f0f0)).

Lemma store_int_bits c k :
  (k < 32)%nat ->
  Z.testbit (Z.lor (Z.land (sar (i0 c) 3) 0x0f0f0f0f) (Z.land (shl (i1 c) 1) 0xf0f0f0f0)) (place big k)
  = bitat big c (store_src k).
Proof.
  intros Hk. pose proof (div_mod_8 k).
  rewrite Z.lor_spec, !Z.land_spec, mask_0f, mask_f0, shl_bit by lia. unfold store_src. case_decide.
  - rewrite bool_decide_true, bool_decide_false, andb_true_r, andb_false_r, orb_false_r by lia.
    pose proof (place_range big (k + 3)).
    assert (Hp : place big k + 3 = place big (k + 3)) by (change 3 with (Z.of_nat 3); apply place_down; lia).
    rewrite sar_bit, Hp, bitat_int, decide_True by lia. done.
  - rewrite bool_decide_false, bool_decide_true, andb_true_r, andb_false_r by lia. cbn [orb].
    change 1 with (Z.of_nat 1). rewrite place_up, bitat_int, decide_False by lia. do 2 f_equal. lia.
Qed.
Lemma store_block_bits L R j :
  (j < 64)%nat ->
  bitat big (store_block L R) j
  = if decide (j < 32)%nat then bitat big L (store_src j) else bitat big R (store_src (j - 32)).
Proof.
  intros Hj. rewrite bitat_int by done. unfold store_block. cbn [i0 i1].
  case_decide; apply store_int_bits; lia.
Qed.

(** What [cftab] selects for bit [n] of the result. *)
Definition cf_src (n : nat) : nat := Z.to_nat (tab cftab (Z.of_nat (rev8 n)) - 1).
Definition cf_half_src (n : nat) : nat := store_src (cf_src n mod 32).
Lemma store_checked n :
  (n < 64)%nat ->
  0 < tab cftab (Z.of_nat (rev8 n)) < 65 /\ ~ (cf_half_src n mod 8 < 2)%nat /\ (cf_half_src n < 64)%nat
  /\ (esrc (cf_half_src n) < 32)%nat
  /\ (Z.to_nat (nth n FP 0%Z) - 1)%nat
     = (if decide (cf_src n < 32) then esrc (cf_half_src n) else 32 + esrc (cf_half_src n))%nat.
Proof.
  intros Hn. refine (check_below 64 (fun n =>
    0 < tab cftab (Z.of_nat (rev8 n)) < 65 /\ ~ (cf_half_src n mod 8 < 2)%nat /\ (cf_half_src n < 64)%nat
    /\ (esrc (cf_half_src n) < 32)%nat
    /\ (Z.to_nat (nth n FP 0%Z) - 1)%nat
       = (if decide (cf_src n < 32) then esrc (cf_half_src n) else 32 + esrc (cf_half_src n))%nat) n _ Hn).
  by vm_compute.
Qed.

#[local] Opaque cftab.
Lemma store_bits L R l r :
  half big L l -> half big R r ->
  exists out, store_halves big T L R = Some out /\ length out = 8%nat /\ bytes out
  /\ bits_of out = pick FP (l ++ r).
Proof.
  intros [HL Hl] [HR Hr]. destruct (CF6464_performs big) as [Hp Hlen].
  set (bs := bytes_of big (store_block L R)).
  destruct (permute_bits big bs (CF6464 T) cftab) as (D & ED & HD); [apply bytes_of_bytes|done|done|].
  exists (bytes_of big D). split_and!; [|done|apply bytes_of_bytes|].
  { unfold store_halves. change (mk_block _ _) with (store_block L R). fold bs. by rewrite ED. }
  apply nth_ext with (d := false) (d' := false); [by rewrite length_bits_of, length_pick|].
  rewrite length_bits_of. change (8 * length (bytes_of big D))%nat with 64%nat. intros n Hn.
  assert (Hrn : (rev8 n < 64)%nat) by (apply (rev8_range n 8); lia).
  rewrite <- (rev8_rev8 n) at 1.
  rewrite <- lbit_bits, lbit_bytes_of, HD, nth_pick, decide_True by done. unfold moved. cbv zeta.
  destruct (store_checked n Hn) as (Hl0 & Hk8 & Hk & He & ->).
  assert (Hj : (cf_src n < 64)%nat) by (unfold cf_src; lia).
  change (Z.to_nat (tab cftab (Z.of_nat (rev8 n)) - 1)) with (cf_src n).
  rewrite (proj2 (Z.ltb_lt _ _)) by lia.
  unfold bs. rewrite lbit_bytes_of, store_block_bits by exact Hj. case_decide as Hlt.
  - assert (Hsrc : store_src (cf_src n) = cf_half_src n) by (unfold cf_half_src; by rewrite Nat.mod_small).
    rewrite Hsrc, HL, fmt_expanded, decide_False by done. by rewrite app_nth1 by lia.
  - assert (Hsrc : store_src (cf_src n - 32) = cf_half_src n).
    { unfold cf_half_src. f_equal. apply (Nat.mod_unique _ _ 1); lia. }
    rewrite Hsrc, HR, fmt_expanded, decide_False by done. rewrite app_nth2 by lia. f_equal. lia.
Qed.

(** ** The iterations *)

Lemma half_ext c d l : half big c l -> (forall k, (k < 64)%nat -> bitat big d k = bitat big c k) -> half big d l.
Proof. intros [Hc Hl] Hd. split; [|done]. intros k Hk. by rewrite Hd, Hc. Qed.

Lemma iterate_bits salt kps keys n L R l r block :
  keys_coded big kps keys -> length keys = 16%nat -> half big L l -> half big R r ->
  length block = 64%nat -> l ++ r = pick IP block ->
  exists L' R' l' r', iterate big (SPE T) (TO_SIX_BIT big salt) kps n L R = Some (L', R')
  /\ half big L' l' /\ half big R' r' /\ l' ++ r' = pick IP (Nat.iter n (des salt keys) block).
Proof.
  intros Hk Hn. revert L R l r block.
  induction n as [|n IH]; intros L R l r block HL HR Hb Hlr; [by exists L, R, l, r|].
  destruct (crunch_loop_bits big salt kps keys L R l r 8 Hk Hn HL HR) as (L1 & R1 & E & HL1 & HR1).
  cbn [iterate]. rewrite E. cbn [mbind option_bind]. cbv beta iota zeta.
  rewrite Nat.iter_succ_r.
  assert (Hd : des salt keys block = pick FP ((feistel salt keys l r).2 ++ (feistel salt keys l r).1)).
  { unfold des. rewrite <- Hlr. destruct HL as [_ Hl]. rewrite take_app_length', drop_app_length' by done.
    by destruct (feistel salt keys l r). }
  set (L2 := XOR L1 R1). set (R2 := XOR R1 L2). set (L3 := XOR L2 R2).
  assert (HR2 : half big R2 (feistel salt keys l r).1).
  { apply (half_ext _ _ _ HL1). intros k Hk'. unfold R2, L2. rewrite !bitat_XOR by done.
    by destruct (bitat big L1 k), (bitat big R1 k). }
  assert (HL3 : half big L3 (feistel salt keys l r).2).
  { apply (half_ext _ _ _ HR1). intros k Hk'. unfold L3, R2, L2. rewrite !bitat_XOR by done.
    by destruct (bitat big L1 k), (bitat big R1 k). }
  apply (IH L3 R2 _ _ _ HL3 HR2); [apply length_des|]. rewrite Hd. symmetry. apply IP_FP.
  rewrite length_app. destruct HL3 as [_ ->], HR2 as [_ ->]. done.
Qed.

(** ** The key schedule *)

(** A 64 bit code with the bits of C and D that [PC2] has a place for. *)
Definition cd_bit (cd : bits) (k : nat) : bool :=
  let i := tab PC2 (Z.of_nat k) in if i =? 0 then false else nth (Z.to_nat i - 1) cd false.
Definition cd_coded (c : C_block) (cd : bits) : Prop :=
  (forall k, (k < 64)%nat -> bitat big c k = cd_bit cd k) /\ length cd = 56%nat.

Lemma length_rotl_halves {A} n (cd : list A) : length (rotl_halves n cd) = length cd.
Proof. unfold rotl_halves, rotl. rewrite !length_app, !length_drop, !length_take, !length_drop. lia. Qed.
Lemma rotl_halves_map {A B} (f : A -> B) n l : rotl_halves n (f <$> l) = f <$> rotl_halves n l.
Proof. unfold rotl_halves, rotl. by rewrite !fmap_app, !fmap_drop, !fmap_take, !fmap_drop. Qed.
(** A rotation in terms of indices. *)
Lemma nth_rotl r (cd : bits) i :
  length cd = 56%nat -> (i < 56)%nat ->
  nth i (rotl_halves r cd) false = nth (nth i (rotl_halves r (seq 0 56)) 0%nat) cd false.
Proof.
  intros Hl Hi.
  assert (Hcd : cd = (fun j => nth j cd false) <$> seq 0 56).
  { apply nth_ext with (d := false) (d' := nth 0 cd false); [by rewrite length_fmap, length_seq|].
    rewrite Hl. intros n Hn. rewrite (map_nth (fun j => nth j cd false)), seq_nth by lia. done. }
  transitivity (nth i ((fun j => nth j cd false) <$> rotl_halves r (seq 0 56)) (nth 0 cd false)).
  - rewrite Hcd at 1. rewrite rotl_halves_map. apply nth_indep.
    by rewrite length_fmap, length_rotl_halves.
  - apply (map_nth (fun j => nth j cd false)).
Qed.

Lemma cd_bit_some cd k i :
  tab PC2 (Z.of_nat k) = i -> 0 < i -> cd_bit cd k = nth (Z.to_nat i - 1) cd false.
Proof. intros E Hi. unfold cd_bit. rewrite E. by rewrite (proj2 (Z.eqb_neq _ _)) by lia. Qed.
Lemma cd_bit_none cd k : tab PC2 (Z.of_nat k) = 0 -> cd_bit cd k = false.
Proof. intros E. unfold cd_bit. by rewrite E. Qed.

Lemma pc1_checked k :
  (k < 64)%nat ->
  tab PC2 (Z.of_nat k) = 0 /\ tab pc1tab (Z.of_nat k) = 0
  \/ 0 < tab PC2 (Z.of_nat k) < 57 /\ 0 < tab pc1tab (Z.of_nat k) < 65
     /\ (Z.to_nat (nth (nth (Z.to_nat (tab PC2 (Z.of_nat k)) - 1) (rotl_halves 1 (seq 0 56)) 0%nat) PC1 0%Z) - 1)%nat
        = rev8 (Z.to_nat (tab pc1tab (Z.of_nat k) - 1)).
Proof.
  intros Hk. refine (check_below 64 (fun k =>
    tab PC2 (Z.of_nat k) = 0 /\ tab pc1tab (Z.of_nat k) = 0
    \/ 0 < tab PC2 (Z.of_nat k) < 57 /\ 0 < tab pc1tab (Z.of_nat k) < 65
       /\ (Z.to_nat (nth (nth (Z.to_nat (tab PC2 (Z.of_nat k)) - 1) (rotl_halves 1 (seq 0 56)) 0%nat) PC1
         0%Z) - 1)%nat
          = rev8 (Z.to_nat (tab pc1tab (Z.of_nat k) - 1))) k _ Hk).
  by vm_compute.
Qed.
Lemma pc2_checked r k :
  r = 1 \/ r = 2 -> (k < 64)%nat ->
  tab PC2 (Z.of_nat k) = 0 /\ tab (pc2tab (r - 1)) (Z.of_nat k) = 0
  \/ 0 < tab PC2 (Z.of_nat k) < 57 /\ 0 < tab (pc2tab (r - 1)) (Z.of_nat k) < 65
     /\ 0 < tab PC2 (tab (pc2tab (r - 1)) (Z.of_nat k) - 1)
     /\ (Z.to_nat (tab PC2 (tab (pc2tab (r - 1)) (Z.of_nat k) - 1)) - 1)%nat
        = nth (Z.to_nat (tab PC2 (Z.of_nat k)) - 1) (rotl_halves (Z.to_nat r) (seq 0 56)) 0%nat.
Proof.
  intros Hr Hk. refine (check_below 64 (fun k =>
    tab PC2 (Z.of_nat k) = 0 /\ tab (pc2tab (r - 1)) (Z.of_nat k) = 0
    \/ 0 < tab PC2 (Z.of_nat k) < 57 /\ 0 < tab (pc2tab (r - 1)) (Z.of_nat k) < 65
       /\ 0 < tab PC2 (tab (pc2tab (r - 1)) (Z.of_nat k) - 1)
       /\ (Z.to_nat (tab PC2 (tab (pc2tab (r - 1)) (Z.of_nat k) - 1)) - 1)%nat
          = nth (Z.to_nat (tab PC2 (Z.of_nat k)) - 1) (rotl_halves (Z.to_nat r) (seq 0 56)) 0%nat) k _ Hk).
  destruct Hr as [-> | ->]; by vm_compute.
Qed.
Lemma pc48_checked k :
  (k < 64)%nat ->
  (k mod 8 < 2)%nat /\ ((k < 32)%nat \/ tab PC2 (Z.of_nat k) = 0)
  \/ ~ (k mod 8 < 2)%nat /\ 0 < tab PC2 (Z.of_nat k)
     /\ tab PC2 (Z.of_nat k) = nth (6 * (k / 8) + k mod 8 - 2)%nat PC2_48 0.
Proof.
  intros Hk. refine (check_below 64 (fun k =>
    (k mod 8 < 2)%nat /\ ((k < 32)%nat \/ tab PC2 (Z.of_nat k) = 0)
    \/ ~ (k mod 8 < 2)%nat /\ 0 < tab PC2 (Z.of_nat k)
       /\ tab PC2 (Z.of_nat k) = nth (6 * (k / 8) + k mod 8 - 2)%nat PC2_48 0) k _ Hk).
  by vm_compute.
Qed.
#[local] Opaque pc1tab pc2tab.

Lemma first_code key :
  bytes key -> length key = 8%nat ->
  exists K, permute key (PC1ROT T) = Some K
  /\ cd_coded K (rotl_halves 1 (pick PC1 (bits_of key))).
Proof.
  intros Hb Hl. destruct (PC1ROT_performs big) as [Hp Hlen].
  destruct (permute_bits big key (PC1ROT T) pc1tab Hb Hp) as (K & EK & HK); [by rewrite Hl|].
  exists K. split; [exact EK|]. split; [|by rewrite length_rotl_halves, length_pick].
  intros k Hk. rewrite HK by done. unfold moved. cbv zeta.
  destruct (pc1_checked k Hk) as [[E1 ->]|(Hi & Hr & Hsrc)]; [by rewrite cd_bit_none|].
  rewrite (proj2 (Z.ltb_lt _ _)) by lia.
  rewrite (cd_bit_some _ _ _ eq_refl) by lia. rewrite nth_rotl; [|by rewrite length_pick|lia].
  rewrite nth_pick. case_decide as Hlt; [by rewrite Hsrc, lbit_bits by lia|].
  destruct Hlt. change (length PC1) with 56%nat.
  pose proof (check_below 56 (fun i => (nth i (rotl_halves 1 (seq 0 56)) 0 < 56)%nat)
    (Z.to_nat (tab PC2 (Z.of_nat k)) - 1) eq_refl) as Hc. apply Hc. lia.
Qed.

Lemma next_code K cd r :
  cd_coded K cd -> r = 1 \/ r = 2 ->
  exists p K', PC2ROT T !! Z.to_nat (r - 1) = Some p /\ permute (bytes_of big K) p = Some K'
  /\ cd_coded K' (rotl_halves (Z.to_nat r) cd).
Proof.
  intros [HK Hcd] Hr. destruct (PC2ROT_performs big r Hr) as (p & Ep & Hp & Hlen).
  destruct (permute_bits big (bytes_of big K) p (pc2tab (r - 1))) as (K' & EK & HK');
    [apply bytes_of_bytes|done|done|].
  exists p, K'. split_and!; [done|done|]. split; [|by rewrite length_rotl_halves].
  intros k Hk. rewrite HK' by done. unfold moved. cbv zeta.
  destruct (pc2_checked r k Hr Hk) as [[E1 ->]|(Hi & Hl & Hi2 & Hsrc)]; [by rewrite cd_bit_none|].
  rewrite (proj2 (Z.ltb_lt _ _)) by lia.
  rewrite (cd_bit_some (rotl_halves _ _) _ _ eq_refl), nth_rotl by (done || lia).
  set (q := Z.to_nat (tab (pc2tab (r - 1)) (Z.of_nat k) - 1)).
  rewrite lbit_bytes_of, HK by lia.
  replace (tab (pc2tab (r - 1)) (Z.of_nat k) - 1) with (Z.of_nat q) in * by lia.
  rewrite (cd_bit_some cd q _ eq_refl) by done. by rewrite Hsrc.
Qed.

Lemma mask_03 k : (k < 32)%nat -> Z.testbit 0x03030303 (place big k) = bool_decide (k mod 8 < 2)%nat.
Proof.
  intros Hk. pose proof (repeats_masks big) as (_ & _ & _ & _ & M5 & _).
  rewrite (mask_bit big 0x03030303 0x03 k M5 Hk).
  exact (eqb_prop _ _ (forall_below 32 (fun k => eqb (Z.testbit 0x03 (Z.of_nat (k mod 8)))
    (bool_decide (k mod 8 < 2)%nat)) k eq_refl Hk)).
Qed.
Lemma code_of_coded K cd : cd_coded K cd -> coded big (code_of K) (pick PC2_48 cd).
Proof.
  intros [HK Hcd] k Hk. specialize (HK k Hk). rewrite bitat_int in HK |- * by done.
  unfold code_of. cbn [i0 i1]. unfold fmt.
  destruct (pc48_checked k Hk) as [[Hm Ho]|(Hm & Hi & Hs)].
  - rewrite (decide_True (P := (k mod 8 < 2)%nat)) by done. case_decide.
    + by rewrite Z.ldiff_spec, mask_03, bool_decide_true, andb_false_r by lia.
    + rewrite HK. destruct Ho; [lia|]. by apply cd_bit_none.
  - rewrite (decide_False (P := (k mod 8 < 2)%nat)) by done. pose proof (div_mod_8 k).
    rewrite (cd_bit_some _ _ _ eq_refl) in HK by done.
    rewrite nth_pick, (decide_True (P := (_ < length PC2_48)%nat)) by (change (length PC2_48) with 48%nat; lia).
    rewrite <- Hs, <- HK.
    case_decide; [|done]. by rewrite Z.ldiff_spec, mask_03, bool_decide_false, andb_true_r by lia.
Qed.

Lemma key_schedule_coded rotates K cd :
  cd_coded K cd -> Forall (fun r => r = 1 \/ r = 2) rotates ->
  exists l, key_schedule big T K rotates = Some l
  /\ keys_coded big l (pick PC2_48 <$> rotations rotates cd).
Proof.
  intros HK Hr. revert K cd HK. induction Hr as [|r rotates Hr Hrs IH]; intros K cd HK.
  - exists []. split; [done|constructor].
  - destruct (next_code K cd r HK Hr) as (p & K' & Ep & EK & HK').
    destruct (IH K' _ HK') as (l & El & Hl). exists (code_of K' :: l). cbn [key_schedule].
    rewrite Ep. cbn [mbind option_bind]. rewrite EK. cbn [mbind option_bind]. rewrite El.
    split; [done|]. cbn [rotations fmap list_fmap]. constructor; [|exact Hl].
    split; [by apply code_of_coded|by rewrite length_pick].
Qed.

(** The tables are computed before they are used. *)
Definition des_inv (s : des_state) : Prop := des_ready s = true -> tables s = T.

Lemma des_setkey_codes key s :
  des_inv s -> bytes key -> length key = 8%nat ->
  exists l, des_setkey big key s = Ok 0 (mk_des true T l)
  /\ keys_coded big l (round_keys (bits_of key)).
Proof.
  intros Hs Hb Hl. destruct (first_code key Hb Hl) as (K & EK & HK).
  destruct (key_schedule_coded (drop 1 Rotates) K _ HK) as (l & El & Hks).
  { refine (bool_decide_eq_true_1 (Forall _ _) _). by vm_compute. }
  exists (code_of K :: l). split.
  - unfold des_setkey, bind, gets. cbn [id].
    assert ((if des_ready s then tables s else T) = T) as ->
      by (destruct (des_ready s) eqn:E; [by apply Hs|done]).
    rewrite EK. cbn [access ret]. rewrite El. done.
  - unfold round_keys. change Rotates with (1 :: drop 1 Rotates) at 1. cbn [rotations fmap list_fmap].
    constructor; [|exact Hks]. split; [by apply code_of_coded|by rewrite length_pick].
Qed.
End ByteOrder.
