(* ===== verification/CryptMain.v ===== *)
(** * What crypt.c computes

    [des_cipher] is the standard's DES, salted and iterated, for both byte
    orders; decryption undoes encryption; [setkey] and [encrypt] on bits; the
    string [crypt] returns, and when it reads outside of its table. *)

From S2P Require Export CryptDes.

Section Cipher.
Context (big : bool).
Notation T := (init_des big).

Lemma keys_coded_rev kps keys : keys_coded big kps keys -> keys_coded big (rev kps) (rev keys).
Proof. unfold keys_coded. rewrite !rev_alt. apply Forall2_reverse. Qed.
Lemma length_rotations rotates cd : length (rotations rotates cd) = length rotates.
Proof. revert cd. induction rotates as [|r l IH]; intros cd; [done|]. cbn. by rewrite IH. Qed.
Lemma length_round_keys key : length (round_keys key) = 16%nat.
Proof. unfold round_keys. by rewrite length_fmap, length_rotations. Qed.

(** The state after [des_setkey]. *)
Definition ready_with (keys : list bits) (s : des_state) : Prop :=
  des_ready s = true /\ tables s = T /\ keys_coded big (KS s) keys /\ length keys = 16%nat.

(** The keys in the order of their use. *)
Definition in_order {A} (num_iter : Z) (keys : list A) : list A :=
  if 0 <=? num_iter then keys else rev keys.

Lemma setkey_ready key s :
  des_inv big s -> bytes key -> length key = 8%nat ->
  exists s', des_setkey big key s = Ok 0 s' /\ ready_with (round_keys (bits_of key)) s'.
Proof.
  intros Hs Hb Hl. destruct (des_setkey_codes big key s Hs Hb Hl) as (l & E & Hk).
  eexists. split; [exact E|]. by split_and!; [..|apply length_round_keys].
Qed.

Lemma length_iter_des salt keys n x : length x = 64%nat -> length (Nat.iter n (des salt keys) x) = 64%nat.
Proof. intros Hx. destruct n; [done|apply length_des]. Qed.

Lemma cipher_des keys s in_ salt n :
  ready_with keys s -> bytes in_ -> length in_ = 8%nat ->
  exists out, des_cipher big in_ salt n s = Ok out s
  /\ bytes out /\ length out = 8%nat
  /\ bits_of out = Nat.iter (Z.to_nat (Z.abs n)) (des salt (in_order n keys)) (bits_of in_).
Proof.
  intros (_ & Ht & Hk & Hn) Hb Hl.
  destruct (load_bits big in_ Hb Hl) as (L & R & EL & HL & HR).
  assert (Hkps : keys_coded big (in_order n (KS s)) (in_order n keys))
    by (unfold in_order; destruct (_ <=? _); [done|by apply keys_coded_rev]).
  assert (Hn' : length (in_order n keys) = 16%nat)
    by (unfold in_order; destruct (_ <=? _); [done|by rewrite length_rev]).
  destruct (iterate_bits big salt _ _ (Z.to_nat (Z.abs n)) L R _ _ (bits_of in_) Hkps Hn' HL HR)
    as (L' & R' & l' & r' & EI & HL' & HR' & Hlr); [by rewrite length_bits_of, Hl|apply take_drop|].
  destruct (store_bits big L' R' l' r' HL' HR') as (out & EO & Ho & Hbo & Hbits).
  exists out. split_and!; [|done|done|].
  - unfold des_cipher, bind, gets. cbn [id]. rewrite Ht, EL. cbn [access ret].
    unfold in_order in EI. rewrite EI. cbn [access ret]. by rewrite EO.
  - rewrite Hbits, Hlr. apply FP_IP, length_iter_des. by rewrite length_bits_of, Hl.
Qed.

Lemma iter_des_rev salt keys n x :
  length x = 64%nat -> Nat.iter n (des salt (rev keys)) (Nat.iter n (des salt keys) x) = x.
Proof.
  intros Hx. induction n as [|n IH]; [done|].
  change (Nat.iter (S n) (des salt keys) x) with (des salt keys (Nat.iter n (des salt keys) x)).
  rewrite Nat.iter_succ_r, des_rev; [done|by apply length_iter_des].
Qed.

Lemma byte_bits_inj c d : is_u8 c -> is_u8 d -> byte_bits c = byte_bits d -> c = d.
Proof.
  intros Hc Hd H. apply Z.bits_inj'. intros n Hn.
  destruct (Z.ltb_spec n 8); [|by rewrite !byte_bits_high].
  assert (Hj : forall c, Z.testbit c n = nth (7 - Z.to_nat n) (byte_bits c) false).
  { intros x. unfold byte_bits.
    rewrite (nth_indep _ false ((fun j => Z.testbit x (7 - Z.of_nat j)) 0%nat)) by (cbn; lia).
    rewrite (map_nth (fun j => Z.testbit x (7 - Z.of_nat j))), seq_nth by lia. f_equal. lia. }
  by rewrite !Hj, H.
Qed.
Lemma bits_of_inj l l' : bytes l -> bytes l' -> length l = length l' -> bits_of l = bits_of l' -> l = l'.
Proof.
  intros Hl. revert l'. induction Hl as [|c l Hc Hl IH]; intros [|d l'] Hl' Hlen H; try done.
  apply Forall_cons_iff in Hl' as [Hd Hl']. cbn [bits_of mbind list_bind] in H.
  apply app_inj_1 in H as [H1 H2]; [|done]. f_equal; [by apply byte_bits_inj|].
  apply IH; [done| |exact H2]. by injection Hlen.
Qed.

(** ** The bits of [setkey] and [encrypt] *)

Lemma pack_bits l :
  length l = 8%nat -> is_u8 (pack (Z.b2z <$> l)) /\ byte_bits (pack (Z.b2z <$> l)) = l.
Proof.
  intros Hl. split; [apply u8_range|].
  destruct l as [|[] [|[] [|[] [|[] [|[] [|[] [|[] [|[] [|]]]]]]]]]; try discriminate Hl; reflexivity.
Qed.
Lemma pack_bytes_bits n l :
  length l = (8 * n)%nat ->
  bytes (pack_bytes n (Z.b2z <$> l)) /\ length (pack_bytes n (Z.b2z <$> l)) = n
  /\ bits_of (pack_bytes n (Z.b2z <$> l)) = l.
Proof.
  revert l. induction n as [|n IH]; intros l Hl.
  { destruct l; [|done]. by split_and!; [constructor|..]. }
  cbn [pack_bytes].
  rewrite <- fmap_take, <- fmap_drop.
  destruct (pack_bits (take 8 l)) as [H1 H2]; [rewrite length_take; lia|].
  destruct (IH (drop 8 l)) as (H3 & H4 & H5); [rewrite length_drop; lia|].
  split_and!; [by constructor|cbn [length]; by rewrite H4|].
  cbn [bits_of mbind list_bind]. rewrite H2. unfold bits_of in H5. rewrite H5. apply take_drop.
Qed.
Lemma unpack_bits c : unpack c = Z.b2z <$> byte_bits c.
Proof.
  unfold unpack, byte_bits. rewrite <- list_fmap_compose. apply list_fmap_ext. intros i j Hj.
  apply lookup_seq in Hj as [-> Hi]. cbn [Nat.add]. unfold compose, bit_of. change 1 with (Z.ones 1).
  rewrite Z.land_ones, Z.shiftr_div_pow2 by lia. change (2 ^ 1) with 2. symmetry. apply Z.testbit_spec'. lia.
Qed.
Lemma unpack_all l : (l ≫= unpack) = Z.b2z <$> bits_of l.
Proof.
  induction l as [|c l IH]; [done|]. cbn [mbind list_bind bits_of]. rewrite fmap_app, unpack_bits.
  f_equal. exact IH.
Qed.
End Cipher.

(** C8: on a target of either byte order, after [des_setkey] the table-driven
    [des_cipher] computes the DES of the standard, with the salt's exchanges and
    iterated as often as asked for, backwards for a negative count; no table is
    accessed outside of its bounds. *)
Theorem des_cipher_is_des big s key in_ salt n :
  des_inv big s -> bytes key -> length key = 8%nat -> bytes in_ -> length in_ = 8%nat ->
  exists out s', (des_setkey big key ;; des_cipher big in_ salt n) s = Ok out s'
  /\ bytes out /\ length out = 8%nat
  /\ bits_of out = Nat.iter (Z.to_nat (Z.abs n))
       (des salt (in_order n (round_keys (bits_of key)))) (bits_of in_).
Proof.
  intros Hs Hb Hl Hi Hil. destruct (setkey_ready big key s Hs Hb Hl) as (s' & E & Hr).
  destruct (cipher_des big _ s' in_ salt n Hr Hi Hil) as (out & E' & H). exists out, s'.
  unfold bind. by rewrite E.
Qed.

(** Decryption with the negated count undoes encryption, for every key, salt
    and count. *)
Theorem des_cipher_inverse big s key in_ salt n :
  des_inv big s -> bytes key -> length key = 8%nat -> bytes in_ -> length in_ = 8%nat -> 0 <= n ->
  exists s', (des_setkey big key ;; out <- des_cipher big in_ salt n ;;
              des_cipher big out salt (- n)) s = Ok in_ s'.
Proof.
  intros Hs Hb Hl Hi Hil Hn. destruct (setkey_ready big key s Hs Hb Hl) as (s' & E & Hr).
  destruct (cipher_des big _ s' in_ salt n Hr Hi Hil) as (out & E1 & Ho & Hol & Hob).
  destruct (cipher_des big _ s' out salt (- n) Hr Ho Hol) as (back & E2 & Hk & Hkl & Hkb).
  exists s'. unfold bind. rewrite E, E1, E2. f_equal.
  apply bits_of_inj; [done|done|congruence|]. rewrite Hkb, Hob, Z.abs_opp.
  unfold in_order. rewrite (proj2 (Z.leb_le 0 n)) by done.
  destruct (Z.leb_spec 0 (- n)).
  - assert (n = 0) as -> by lia. done.
  - apply iter_des_rev. by rewrite length_bits_of, Hil.
Qed.

(** C35: [setkey] and [encrypt], with a bit in each character, are DES and, with
    the flag, its inverse. *)
Theorem encrypt_is_des big s key block flag :
  des_inv big s -> length key = 64%nat -> length block = 64%nat ->
  exists s', (setkey big (Z.b2z <$> key) ;; encrypt big (Z.b2z <$> block) flag) s
  = Ok (Z.b2z <$> des 0 (if flag =? 0 then round_keys key else rev (round_keys key)) block) s'.
Proof.
  intros Hs Hk Hb. destruct (pack_bytes_bits 8 key Hk) as (K1 & K2 & K3).
  destruct (pack_bytes_bits 8 block Hb) as (B1 & B2 & B3).
  destruct (setkey_ready big _ s Hs K1 K2) as (s' & E & Hr).
  destruct (cipher_des big _ s' _ 0 (if flag =? 0 then 1 else -1) Hr B1 B2) as (out & E1 & Ho & Hol & Hob).
  exists s'. unfold encrypt, setkey, bind. rewrite E, E1. unfold ret. f_equal.
  rewrite unpack_all, Hob, B3, K3. by destruct (flag =? 0).
Qed.
