(* ===== verification/Password.v ===== *)
(** * crypt.c: the string that [crypt] returns

    The salt and the 64 bits of the 25-fold cipher in the characters of
    [itoa64], six bits each; and when [crypt] reads outside of its table. *)

From S2P Require Export CryptMain.

(** The number with the bits [l], the highest first. *)
Definition num (l : bits) : Z := foldl (fun v x => 2 * v + Z.b2z x) 0 l.
(** [n] characters for the bits [l], six for each. *)
Definition armor (n : nat) (l : bits) : list Z :=
  (fun j => tab itoa64 (num (take 6 (drop (6 * j) l)))) <$> seq 0 n.

Lemma num_app l l' : num (l ++ l') = num l * 2 ^ Z.of_nat (length l') + num l'.
Proof.
  unfold num. rewrite foldl_app. generalize (foldl (fun v x => 2 * v + Z.b2z x) 0 l).
  induction l' as [|x l' IH] using rev_ind; intros v; [cbn; lia|].
  rewrite !foldl_app. cbn [foldl]. rewrite IH, length_app. cbn [length].
  rewrite Nat2Z.inj_add, Z.pow_add_r by lia. change (2 ^ Z.of_nat 1) with 2. lia.
Qed.
Lemma num_range l : 0 <= num l < 2 ^ Z.of_nat (length l).
Proof.
  induction l as [|x l IH] using rev_ind; [done|]. rewrite num_app, length_app. cbn [length].
  rewrite Nat2Z.inj_add, Z.pow_add_r by lia. change (2 ^ Z.of_nat 1) with 2.
  assert (0 <= num [x] < 2) by by destruct x. lia.
Qed.
Lemma byte_num l : length l = 8%nat -> byte_bits (num l) = l.
Proof.
  intros Hl.
  destruct l as [|[] [|[] [|[] [|[] [|[] [|[] [|[] [|[] [|]]]]]]]]]; try discriminate Hl; reflexivity.
Qed.
Lemma num_byte c : is_u8 c -> num (byte_bits c) = c.
Proof.
  intros Hc. apply byte_bits_inj; [exact (num_range (byte_bits c))|done|by apply byte_num].
Qed.

Lemma length_armor n l : length (armor n l) = n.
Proof. unfold armor. by rewrite length_fmap, length_seq. Qed.
Lemma armor_app n m l l' :
  length l = (6 * n)%nat -> armor (n + m) (l ++ l') = armor n l ++ armor m l'.
Proof.
  intros Hl. unfold armor. rewrite seq_app, fmap_app. f_equal.
  - apply list_fmap_ext. intros i j Hj. apply lookup_seq in Hj as [-> Hi]. do 2 f_equal.
    rewrite drop_app_le by lia. apply take_app_le. rewrite length_drop. lia.
  - rewrite (Nat.add_comm 0 n), <- fmap_add_seq, <- list_fmap_compose.
    apply list_fmap_ext. intros i j Hj. unfold compose. do 2 f_equal.
    rewrite drop_app_ge by lia. do 2 f_equal. lia.
Qed.

(** Each shift takes the last six bits away. *)
Lemma encode_armor n l :
  length l = (6 * S n)%nat -> encode (S n) (num l) = armor (S n) l.
Proof.
  revert l. induction n as [|n IH]; intros l Hl.
  - unfold armor. cbn [encode seq fmap list_fmap]. rewrite drop_0, take_ge by lia. done.
  - change (encode (S (S n)) (num l))
      with (encode (S n) (Z.shiftr (num l) 6) ++ [tab itoa64 (Z.land (num l) 0x3f)]).
    set (k := (6 * S n)%nat). rewrite <- (take_drop k l).
    assert (Hk : length (take k l) = (6 * S n)%nat) by (rewrite length_take; lia).
    assert (Hd : length (drop k l) = 6%nat) by (rewrite length_drop; lia).
    pose proof (num_range (drop k l)) as Hr. rewrite Hd in Hr.
    rewrite num_app, Hd. change (2 ^ Z.of_nat 6) with 64 in *.
    replace (S (S n)) with (S n + 1)%nat by lia. rewrite armor_app by done. f_equal.
    + rewrite <- IH by done. f_equal. rewrite Z.shiftr_div_pow2 by lia. change (2 ^ 6) with 64.
      rewrite Z.div_add_l, Z.div_small by lia. lia.
    + unfold armor. cbn [seq fmap list_fmap Nat.mul]. rewrite drop_0, (take_ge (drop k l)) by lia. do 2 f_equal.
      change 0x3f with (Z.ones 6). rewrite Z.land_ones by lia. change (2 ^ 6) with 64.
      rewrite Z.add_comm, Z.mod_add by lia. by rewrite Z.mod_small.
Qed.

Lemma shift_or x n c : 0 <= n -> 0 <= c < 2 ^ n -> Z.lor (Z.shiftl x n) c = x * 2 ^ n + c.
Proof.
  intros Hn Hc. rewrite Z.shiftl_mul_pow2 by done. symmetry.
  rewrite Z.add_nocarry_lxor, Z.lxor_lor; [done| |].
  all: apply Z.bits_inj'; intros i Hi; rewrite Z.land_spec, Z.testbit_0_l;
    destruct (Z.ltb_spec i n); [by rewrite Z.mul_pow2_bits_low|];
    rewrite <- (Z.mod_small c (2 ^ n)) by done; by rewrite Z.mod_pow2_bits_high, andb_false_r by lia.
Qed.

(** ** [crypt] *)

(** The salt character at [i], and the number of a character. *)
Definition salt_char (setting : list Z) (i : nat) : Z :=
  let c := nth i setting 0 in if c =? 0 then 46 else c.
Definition code64 (t : Z) : Z := nth (Z.to_nat t) (a64tab) 0.
Definition salt_of (setting : list Z) : Z :=
  code64 (salt_char setting 0) + 64 * code64 (salt_char setting 1).
(** The 64 bits behind the result. *)
Definition password_bits (key setting : list Z) : bits :=
  Nat.iter 25 (des (salt_of setting) (round_keys (bits_of (key_loop 8 key)))) (replicate 64 false).

Lemma key_loop_bytes n key : bytes (key_loop n key) /\ length (key_loop n key) = n.
Proof.
  revert key. induction n as [|n IH]; intros key; [split; [constructor|done]|].
  destruct key as [|c key]; cbn [key_loop]; [destruct (IH []) as [Hb Hl]|destruct (IH key) as [Hb Hl]];
    (split; [constructor; [|done]|cbn [length]; congruence]); [done|apply u8_range].
Qed.

Lemma code64_range t : 0 <= t < 128 ->
  a64tab !! Z.to_nat t = Some (code64 t) /\ 0 <= code64 t < 64.
Proof.
  intros Ht. unfold code64. rewrite <- (Z2Nat.id t) in Ht by lia. assert (Hn : (Z.to_nat t < 128)%nat) by lia.
  refine (check_below 128 (fun n => a64tab !! n = Some (nth n (a64tab) 0)
    /\ 0 <= nth n (a64tab) 0 < 64) (Z.to_nat t) _ Hn).
  by vm_compute.
Qed.
Lemma code64_itoa64 i : 0 <= i < 64 -> code64 (tab itoa64 i) = i.
Proof.
  intros Hi. rewrite <- (Z2Nat.id i) at 2 by lia. rewrite <- (Z2Nat.id i) at 1 by lia.
  refine (check_below 64 (fun n => code64 (tab itoa64 (Z.of_nat n)) = Z.of_nat n) (Z.to_nat i) _ _); [|lia].
  by vm_compute.
Qed.

Lemma salt_loop_ok big setting :
  (2 <= length setting)%nat -> Forall (fun c => 0 <= c < 128) (take 2 setting) ->
  salt_loop (init_des big) setting 2 [] 0
  = Some ([salt_char setting 0; salt_char setting 1], salt_of setting).
Proof.
  intros Hl Hc. destruct setting as [|c0 [|c1 rest]]; [cbn in Hl; lia..|].
  cbn [take] in Hc. apply Forall_cons_iff in Hc as [Hc0 Hc]. apply Forall_cons_iff in Hc as [Hc1 _].
  assert (Hs : forall c, 0 <= c < 128 -> 0 <= (if c =? 0 then 46 else c) < 128)
    by (intros c Hc'; destruct (c =? 0); lia).
  destruct (code64_range _ (Hs c0 Hc0)) as [E0 R0]. destruct (code64_range _ (Hs c1 Hc1)) as [E1 R1].
  cbn [salt_loop]. change ((c0 :: c1 :: rest) !! 1%nat) with (Some c1).
  change ((c0 :: c1 :: rest) !! 0%nat) with (Some c0). cbn [mbind option_bind].
  change (a64toi (init_des big)) with a64tab. rewrite E1. cbn [mbind option_bind].
  rewrite E0. cbn [mbind option_bind].
  unfold salt_of, salt_char. cbn [nth]. do 2 f_equal.
  assert (Hsh : forall v, 0 <= v < 64 -> shl v 6 = Z.shiftl v 6).
  { intros v Hv. apply u32_id. unfold is_u32. rewrite Z.shiftl_mul_pow2 by lia. lia. }
  change (shl 0 6) with 0. rewrite Z.lor_0_l, Hsh by done.
  rewrite shift_or by lia. change (2 ^ 6) with 64. lia.
Qed.

(** The eleven characters from the eight bytes. *)
Lemma encode_bytes r :
  bytes r -> length r = 8%nat ->
  let b i := nth i r 0 in
  encode 4 (Z.lor (Z.shiftl (Z.lor (Z.shiftl (b 0%nat) 8) (b 1%nat)) 8) (b 2%nat))
  ++ encode 4 (Z.lor (Z.shiftl (Z.lor (Z.shiftl (b 3%nat) 8) (b 4%nat)) 8) (b 5%nat))
  ++ encode 3 (Z.shiftl (Z.lor (Z.shiftl (b 6%nat) 8) (b 7%nat)) 2)
  = armor 11 (bits_of r ++ [false; false]).
Proof.
  intros Hb Hl. destruct r as [|b0 [|b1 [|b2 [|b3 [|b4 [|b5 [|b6 [|b7 [|]]]]]]]]]; try discriminate Hl.
  unfold bytes in Hb. rewrite !Forall_cons_iff in Hb.
  destruct Hb as (B0 & B1 & B2 & B3 & B4 & B5 & B6 & B7 & _). cbn [nth].
  assert (H3 : forall x y z, is_u8 x -> is_u8 y -> is_u8 z ->
    Z.lor (Z.shiftl (Z.lor (Z.shiftl x 8) y) 8) z = num (bits_of [x; y; z])).
  { intros x y z Hx Hy Hz. rewrite !shift_or by (unfold is_u8 in *; lia).
    cbn [bits_of mbind list_bind]. rewrite app_nil_r, !num_app, !num_byte by done.
    rewrite length_app. cbn [length byte_bits fmap list_fmap seq].
    change (2 ^ Z.of_nat (8 + 8)) with (2 ^ 8 * 2 ^ 8). change (2 ^ Z.of_nat 8) with (2 ^ 8). lia. }
  assert (H2 : Z.shiftl (Z.lor (Z.shiftl b6 8) b7) 2 = num (bits_of [b6; b7] ++ [false; false])).
  { rewrite shift_or by (unfold is_u8 in *; lia). rewrite num_app. cbn [bits_of mbind list_bind].
    rewrite app_nil_r, num_app, !num_byte, Z.shiftl_mul_pow2 by done. cbn [length].
    change (length (byte_bits b7)) with 8%nat. change (num [false; false]) with 0.
    change (2 ^ Z.of_nat 8) with (2 ^ 8). change (2 ^ Z.of_nat 2) with (2 ^ 2). lia. }
  rewrite !H3, H2 by done. rewrite !encode_armor by by rewrite ?length_app, length_bits_of.
  rewrite <- !armor_app by by rewrite length_bits_of. done.
Qed.

Lemma password_bits_25 r key setting :
  bits_of r = Nat.iter (Z.to_nat (Z.abs 25)) (des (salt_of setting)
    (in_order 25 (round_keys (bits_of (key_loop 8 key))))) (bits_of constdatablock) ->
  bits_of r = password_bits key setting.
Proof.
  change (Z.to_nat (Z.abs 25)) with 25%nat. change (bits_of constdatablock) with (replicate 64 false).
  intros Hr. exact Hr.
Qed.

(** The last of the characters that are no ASCII characters stops the loop. *)
Lemma salt_loop_fault big setting :
  (2 <= length setting)%nat -> Exists (fun c => 128 <= c) (take 2 setting) ->
  salt_loop (init_des big) setting 2 [] 0 = None.
Proof.
  intros Hl Hc. destruct setting as [|c0 [|c1 rest]]; [cbn in Hl; lia..|]. cbn [take] in Hc.
  assert (Hout : forall c, 128 <= c -> a64tab !! Z.to_nat (if c =? 0 then 46 else c) = None).
  { intros c Hc'. rewrite (proj2 (Z.eqb_neq _ _)) by lia. apply lookup_ge_None_2.
    change (length a64tab) with 128%nat. lia. }
  cbn [salt_loop]. change ((c0 :: c1 :: rest) !! 1%nat) with (Some c1).
  change ((c0 :: c1 :: rest) !! 0%nat) with (Some c0). cbn [mbind option_bind].
  change (a64toi (init_des big)) with a64tab.
  apply Exists_cons in Hc as [Hc|Hc]; [|apply Exists_cons in Hc as [Hc|Hc]; [|by apply Exists_nil in Hc]].
  - case (a64tab !! Z.to_nat (if c1 =? 0 then 46 else c1)); [|reflexivity].
    intros v. cbn [mbind option_bind]. by rewrite (Hout c0 Hc).
  - by rewrite (Hout c1 Hc).
Qed.

Lemma crypt_ok big s key setting :
  des_inv big s -> (2 <= length setting)%nat -> Forall (fun c => 0 <= c < 128) (take 2 setting) ->
  exists s', crypt big key setting s
  = Ok ([salt_char setting 0; salt_char setting 1]
        ++ armor 11 (password_bits key setting ++ [false; false])) s'.
Proof.
  intros Hs Hl Hc. destruct (key_loop_bytes 8 key) as [Hk Hkl].
  destruct (setkey_ready big (key_loop 8 key) s Hs Hk Hkl) as (s' & E & Hr).
  assert (Ht : tables s' = init_des big) by apply Hr.
  destruct (cipher_des big _ s' constdatablock (salt_of setting) 25 Hr) as (r & E1 & Hb & Hrl & Hbits);
    [by repeat constructor|done|].
  exists s'. unfold crypt, bind. rewrite E. unfold gets. rewrite Ht, (salt_loop_ok big setting Hl Hc).
  cbn [access ret]. rewrite E1. unfold ret. f_equal. f_equal.
  pose proof (encode_bytes r Hb Hrl) as He. cbv zeta in He. rewrite He. do 2 f_equal.
  by apply password_bits_25.
Qed.

Lemma crypt_fault big s key setting :
  des_inv big s -> (2 <= length setting)%nat -> Exists (fun c => 128 <= c) (take 2 setting) ->
  crypt big key setting s = Fault.
Proof.
  intros Hs Hl Hc. destruct (key_loop_bytes 8 key) as [Hk Hkl].
  destruct (setkey_ready big (key_loop 8 key) s Hs Hk Hkl) as (s' & E & Hr).
  assert (Ht : tables s' = init_des big) by apply Hr.
  unfold crypt, bind, gets. by rewrite E, Ht, (salt_loop_fault big setting Hl Hc).
Qed.

(** C32: [crypt] returns the two salt characters (a dot for a NUL) and the 64 bits
    that 25 salted encryptions of a zero block under the key give, six bits in
    each character of the alphabet; the salt is that of the first two characters
    of [setting], in both byte orders. *)
Theorem crypt_result big s key setting :
  des_inv big s -> (2 <= length setting)%nat -> Forall (fun c => 0 <= c < 128) (take 2 setting) ->
  exists s', crypt big key setting s
  = Ok ([salt_char setting 0; salt_char setting 1]
        ++ armor 11 (password_bits key setting ++ [false; false])) s'.
Proof. apply crypt_ok. Qed.

(** C37: [crypt] reads outside of the table of the characters exactly when one of
    the two salt characters is not an ASCII character. *)
Theorem crypt_reads_outside big s key setting :
  des_inv big s -> (2 <= length setting)%nat -> bytes setting ->
  crypt big key setting s = Fault <-> Exists (fun c => 128 <= c) (take 2 setting).
Proof.
  intros Hs Hl Hb. split; [intros HF|by apply crypt_fault].
  destruct (decide (Exists (fun c => 128 <= c) (take 2 setting))) as [Hc|Hc]; [done|].
  destruct (crypt_ok big s key setting Hs Hl) as [s' E]; [|by rewrite E in HF].
  apply (Forall_take _ 2) in Hb. apply not_Exists_Forall in Hc; [|apply _].
  apply Forall_forall. intros c Hin. rewrite Forall_forall in Hb, Hc.
  specialize (Hb c Hin). specialize (Hc c Hin). unfold is_u8 in Hb. cbn in Hc. lia.
Qed.

(** ** Witnesses *)

Lemma des_static_inv big : des_inv big des_static.
Proof. done. Qed.

(** The test vector of the standard's literature. *)
Definition sample_key : list Z := [0x13; 0x34; 0x57; 0x79; 0x9b; 0xbc; 0xdf; 0xf1].
Definition sample_block : list Z := [0x01; 0x23; 0x45; 0x67; 0x89; 0xab; 0xcd; 0xef].

Lemma sample_bytes : bytes sample_key /\ bytes sample_block.
Proof. split; repeat (constructor; [by unfold is_u8; lia|]); constructor. Qed.

Lemma des_cipher_is_des_witness :
  bits_of [0x85; 0xe8; 0x13; 0x54; 0x0f; 0x0a; 0xb4; 0x05]
  = Nat.iter 1 (des 0 (in_order 1 (round_keys (bits_of sample_key)))) (bits_of sample_block)
  /\ exists out s', (des_setkey true sample_key ;; des_cipher true sample_block 0 1) des_static = Ok out s'
  /\ bytes out /\ length out = 8%nat
  /\ bits_of out = Nat.iter (Z.to_nat (Z.abs 1))
       (des 0 (in_order 1 (round_keys (bits_of sample_key)))) (bits_of sample_block).
Proof.
  split; [vm_compute; reflexivity|].
  exact (des_cipher_is_des true des_static sample_key sample_block 0 1
    (des_static_inv true) (proj1 sample_bytes) eq_refl (proj2 sample_bytes) eq_refl).
Defined.
Lemma des_cipher_inverse_witness :
  exists s', (des_setkey false sample_key ;; out <- des_cipher false sample_block 0xabc 3 ;;
              des_cipher false out 0xabc (- (3))) des_static = Ok sample_block s'.
Proof.
  exact (des_cipher_inverse false des_static sample_key sample_block 0xabc 3
    (des_static_inv false) (proj1 sample_bytes) eq_refl (proj2 sample_bytes) eq_refl
    ltac:(discriminate)).
Defined.
Lemma encrypt_is_des_witness :
  exists s', (setkey true (Z.b2z <$> bits_of sample_key) ;;
              encrypt true (Z.b2z <$> bits_of sample_block) 0) des_static
  = Ok (Z.b2z <$> des 0 (if 0 =? 0 then round_keys (bits_of sample_key)
                         else rev (round_keys (bits_of sample_key))) (bits_of sample_block)) s'.
Proof.
  exact (encrypt_is_des true des_static (bits_of sample_key) (bits_of sample_block) 0
    (des_static_inv true) eq_refl eq_refl).
Defined.
(** [crypt("foob", "ar")] is "arlEKn0OzVJn.". *)
Lemma crypt_result_witness :
  [97; 114] ++ armor 11 (password_bits [102; 111; 111; 98] [97; 114; 0] ++ [false; false])
  = [97; 114; 108; 69; 75; 110; 48; 79; 122; 86; 74; 110; 46]
  /\ exists s', crypt true [102; 111; 111; 98] [97; 114; 0] des_static
  = Ok ([salt_char [97; 114; 0] 0; salt_char [97; 114; 0] 1]
        ++ armor 11 (password_bits [102; 111; 111; 98] [97; 114; 0] ++ [false; false])) s'.
Proof.
  split; [vm_compute; reflexivity|].
  refine (crypt_result true des_static [102; 111; 111; 98] [97; 114; 0] (des_static_inv true) _ _).
  - cbn. lia.
  - repeat constructor; discriminate.
Defined.
Lemma crypt_reads_outside_witness :
  crypt true [102; 111; 111; 98] [97; 200; 0] des_static = Fault
  /\ (crypt true [102; 111; 111; 98] [97; 200; 0] des_static = Fault
      <-> Exists (fun c => 128 <= c) (take 2 [97; 200; 0])).
Proof.
  split; [vm_compute; reflexivity|].
  refine (crypt_reads_outside true des_static [102; 111; 111; 98] [97; 200; 0] (des_static_inv true) _ _).
  - cbn. lia.
  - repeat (constructor; [by unfold is_u8; lia|]). constructor.
Defined.
