(* ===== verification/Wire.v ===== *)
(** * The byte macros of pppd.h

    [GETCHAR], [GETSHORT], [GETLONG], [PUTCHAR], [PUTSHORT], [PUTLONG],
    [INCPTR] and [MAKEHEADER] of target/h/netinet/ppp/pppd.h, and the cursor
    (remaining length and pointer) every option parser of the daemon moves
    over the received packet.  A pointer into a packet is the list of the
    bytes from it to the end of the buffer, so a read past the end of the
    buffer is a [Fault]. *)

From S2P Require Export Prelude.

(** ** Constants of ppp.h, fsm.h and pppd.h *)

Definition ALLSTATIONS := 0xff.
Definition UI := 0x03.
Definition LCP := 0xc021.
Definition IPCP := 0x8021.
Definition UPAP := 0xc023.
Definition CHAP := 0xc223.
Definition LQR := 0xc025.
Definition DLLHEADERLEN := 4.
Definition MTU := 1500.
Definition PPP_MRU := 1500.
Definition HEADERLEN := 4.

Definition CONFREQ := 1.
Definition CONFACK := 2.
Definition CONFNAK := 3.
Definition CONFREJ := 4.
Definition TERMREQ := 5.
Definition TERMACK := 6.
Definition CODEREJ := 7.
Definition PROTREJ := 8.
Definition ECHOREQ := 9.
Definition ECHOREP := 10.
Definition DISCREQ := 11.

(** ** Writing: the bytes a macro stores through its pointer *)

Definition PUTCHAR (c : Z) : list Z := [u8 c].
Definition PUTSHORT (s : Z) : list Z := [u8 (Z.shiftr s 8); u8 s].
Definition PUTLONG (l : Z) : list Z :=
  [u8 (Z.shiftr l 24); u8 (Z.shiftr l 16); u8 (Z.shiftr l 8); u8 l].
Definition MAKEHEADER (t : Z) : list Z :=
  PUTCHAR ALLSTATIONS ++ PUTCHAR UI ++ PUTSHORT t.

(** ** Reading *)

Definition be16 (a b : Z) : Z := Z.lor (Z.shiftl a 8) b.
Definition be32 (a b c d : Z) : Z :=
  Z.lor (Z.shiftl (Z.lor (Z.shiftl (Z.lor (Z.shiftl a 8) b) 8) c) 8) d.

Record cursor := mk_cursor { len : Z; p : list Z }.
#[export] Instance eta_cursor : Eta cursor :=
  fun c => {| len := len c; p := p c |}.
#[export] Instance set_len : Setter len := ltac:(derive_setter).
#[export] Instance set_p : Setter p := ltac:(derive_setter).

(** The parsers leave with [goto bad]. *)
Definition parser := M cursor unit.
Definition bad {A} : parser A := throw tt.

Definition GETCHAR : parser Z := fun c =>
  match p c with
  | a :: q => Ok a {| len := len c; p := q |}
  | [] => Fault
  end.
Definition GETSHORT : parser Z :=
  a <- GETCHAR ;; b <- GETCHAR ;; ret (be16 a b).
Definition GETLONG : parser Z :=
  a <- GETCHAR ;; b <- GETCHAR ;; c <- GETCHAR ;; d <- GETCHAR ;;
  ret (be32 a b c d).
Definition INCPTR (n : Z) : parser unit :=
  modify (fun c => c <| p ::= drop (Z.to_nat n) |>).
(** [p[i]] *)
Definition peek (i : nat) : parser Z := fun c =>
  match p c !! i with Some a => Ok a c | None => Fault end.
(** [len -= n] *)
Definition take_len (n : Z) : parser unit :=
  modify (fun c => c <| len ::= fun l => l - n |>).

(** Run a computation on a component of a larger state. *)
Definition zoom {S T X A} (get : T -> S) (set : S -> T -> T) (m : M S X A)
  : M T X A :=
  fun t => match m (get t) with
           | Ok a s => Ok a (set s t)
           | Throw x s => Throw x (set s t)
           | Fault => Fault
           | Hang => Hang
           end.

Lemma wp_zoom {F S T X A} (get : T -> S) set (m : M S X A) Q (E : X -> T -> Prop) t :
  wp F m (fun a s => Q a (set s t)) (fun x s => E x (set s t)) (get t) ->
  wp F (zoom get set m) Q E t.
Proof. unfold wp, zoom. by destruct (m (get t)). Qed.

(** ** Arithmetic of the encodings *)

Lemma land_shift8 a b : is_u8 b -> Z.land (Z.shiftl a 8) b = 0.
Proof.
  intros Hb. apply Z.bits_inj'. intros n Hn. rewrite Z.land_spec, Z.bits_0.
  destruct (decide (n < 8)).
  - rewrite Z.shiftl_spec_low by lia. done.
  - rewrite (Z.bits_above_log2 b n); [by rewrite andb_false_r|apply Hb|].
    destruct (decide (b = 0)) as [->|]; [simpl; lia|].
    assert (Z.log2 b < 8) by (apply Z.log2_lt_pow2; unfold is_u8 in *; lia).
    lia.
Qed.

Lemma lor_shift8 a b : is_u8 b -> Z.lor (Z.shiftl a 8) b = a * 256 + b.
Proof.
  intros Hb. rewrite <- Z.lxor_lor by (by apply land_shift8).
  rewrite <- Z.add_nocarry_lxor by (by apply land_shift8).
  rewrite Z.shiftl_mul_pow2; lia.
Qed.

Lemma be16_eq a b : is_u8 b -> be16 a b = a * 256 + b.
Proof. apply lor_shift8. Qed.

Lemma be32_eq a b c d :
  is_u8 b -> is_u8 c -> is_u8 d ->
  be32 a b c d = ((a * 256 + b) * 256 + c) * 256 + d.
Proof. intros. unfold be32. rewrite !lor_shift8 by done. lia. Qed.

Lemma u8_shiftr l n : 0 <= n -> u8 (Z.shiftr l n) = (l / 2 ^ n) mod 256.
Proof. intros. unfold u8. by rewrite Z.shiftr_div_pow2. Qed.

Lemma be16_range a b : is_u8 a -> is_u8 b -> is_u16 (be16 a b).
Proof. intros Ha Hb. rewrite be16_eq by done. int_lia. Qed.

Lemma be32_range a b c d :
  is_u8 a -> is_u8 b -> is_u8 c -> is_u8 d -> is_u32 (be32 a b c d).
Proof. intros. rewrite be32_eq by done. int_lia. Qed.

(** Decoding inverts encoding, up to the width of the field. *)
Lemma be16_put s : be16 (u8 (Z.shiftr s 8)) (u8 s) = u16 s.
Proof.
  rewrite be16_eq by apply u8_range. rewrite u8_shiftr by lia.
  int_lia.
Qed.

Lemma be32_put l :
  be32 (u8 (Z.shiftr l 24)) (u8 (Z.shiftr l 16)) (u8 (Z.shiftr l 8)) (u8 l) = u32 l.
Proof.
  rewrite be32_eq by apply u8_range. rewrite !u8_shiftr by lia.
  int_lia.
Qed.

(** Encoding inverts decoding of bytes. *)
Lemma put_be16 a b : is_u8 a -> is_u8 b -> PUTSHORT (be16 a b) = [a; b].
Proof.
  intros Ha Hb. unfold PUTSHORT. rewrite be16_eq by done.
  rewrite u8_shiftr by lia. repeat f_equal; int_lia.
Qed.

Lemma put_be32 a b c d :
  is_u8 a -> is_u8 b -> is_u8 c -> is_u8 d ->
  PUTLONG (be32 a b c d) = [a; b; c; d].
Proof.
  intros. unfold PUTLONG. rewrite be32_eq by done.
  rewrite !u8_shiftr by lia. repeat f_equal; int_lia.
Qed.

(** A decoded short equals a u16 value exactly when its bytes are the encoding. *)
Lemma be16_inj a b s :
  is_u8 a -> is_u8 b -> is_u16 s -> be16 a b = s <-> [a; b] = PUTSHORT s.
Proof.
  intros Ha Hb Hs. split.
  - intros <-. by rewrite put_be16.
  - intros H. unfold PUTSHORT in H. injection H as -> ->.
    rewrite be16_put. by apply u16_id.
Qed.

Lemma be32_inj a b c d l :
  is_u8 a -> is_u8 b -> is_u8 c -> is_u8 d -> is_u32 l ->
  be32 a b c d = l <-> [a; b; c; d] = PUTLONG l.
Proof.
  intros Ha Hb Hc Hd Hl. split.
  - intros <-. by rewrite put_be32.
  - intros H. unfold PUTLONG in H. injection H as -> -> -> ->.
    rewrite be32_put. by apply u32_id.
Qed.

Lemma bytes_PUTCHAR c : bytes (PUTCHAR c).
Proof. repeat constructor; apply u8_range. Qed.
Lemma bytes_PUTSHORT s : bytes (PUTSHORT s).
Proof. repeat constructor; apply u8_range. Qed.
Lemma bytes_PUTLONG l : bytes (PUTLONG l).
Proof. repeat constructor; apply u8_range. Qed.
#[export] Hint Resolve bytes_PUTCHAR bytes_PUTSHORT bytes_PUTLONG : ppp.
