(* ===== verification/Magic.v ===== *)
(** * magic.c: magic numbers, and the random numbers the daemon draws

    [random] is not code of the repository: the values it is still going to
    return are a sequence in the state, and [srandom] is an argument. *)

From S2P Require Export Wire.

(** [g_next] is the static [next] of magic.c. *)
Record rng := mk_rng { g_next : Z; g_random : nat -> Z }.

#[export] Instance eta_rng : Eta rng :=
  fun g => {| g_next := g_next g; g_random := g_random g |}.
#[export] Instance set_g_next : Setter g_next := ltac:(derive_setter).
#[export] Instance set_g_random : Setter g_random := ltac:(derive_setter).

(** [random()] returns a value of 31 bits. *)
Definition random_ok (g : rng) : Prop :=
  is_u32 (g_next g) /\ forall i, 0 <= g_random g i < 2 ^ 31.

Definition random {X} : M rng X Z := fun g =>
  Ok (g_random g 0%nat) (g <| g_random ::= fun r i => r (S i) |>).

Definition magic_init (tickGet : Z) (srandom : Z -> nat -> Z) : rng :=
  {| g_next := u32 tickGet; g_random := srandom (u32 tickGet) |}.

Definition magic {X} : M rng X Z :=
  m <- gets g_next ;;
  r <- random ;;
  modify (fun g => g <| g_next := u32 r |>) ;;
  ret m.

Lemma random_ok_random {X} g Q (E : X -> rng -> Prop) F :
  random_ok g ->
  (forall r g', 0 <= r < 2 ^ 31 -> random_ok g' -> Q r g') ->
  wp F random Q E g.
Proof.
  intros [Hn Hr] HQ. unfold wp, random. apply HQ; [apply Hr|].
  split; [done|]. intros i. apply Hr.
Qed.

Lemma random_ok_magic {X} g Q (E : X -> rng -> Prop) F :
  random_ok g ->
  (forall g', random_ok g' -> Q (g_next g) g') ->
  wp F magic Q E g.
Proof.
  intros [Hn Hr] HQ. unfold wp, magic, random, gets, bind, modify, ret.
  apply HQ. split; [apply u32_range|]. intros i. apply Hr.
Qed.

Lemma random_ok_init ticks srandom :
  (forall s i, 0 <= srandom s i < 2 ^ 31) -> random_ok (magic_init ticks srandom).
Proof. intros H. split; [apply u32_range|]. intros i. apply H. Qed.
