(* ===== verification/Words.v ===== *)
(** * options.c: [getword], the words of an options or secrets file

    A file is the list of its characters (read without errors), [getc] takes
    the first.  [word] is the caller's array of MAXWORDLEN characters; a store
    behind its end is a [Fault]. *)

From S2P Require Export Wire.

Definition MAXWORDLEN := 1024.

Definition BACKSLASH := 92.
Definition NEWLINE := 10.
Definition HASH := 35.
Definition QUOTE := 34.
(** [isspace] in the C locale. *)
Definition isspace (c : Z) : bool := ((9 <=? c) && (c <=? 13)) || (c =? 32).

(** The string in an array: what is before the first NUL. *)
Fixpoint cstring (l : list Z) : list Z :=
  match l with
  | c :: l => if c =? 0 then [] else c :: cstring l
  | [] => []
  end.

(** How the first loop ends: at the end of the file, perhaps behind a backslash
    (which is in the array then), or at the character a word starts with, which
    may be escaped, with [*newlinep] and the rest of the file. *)
Inductive skipped :=
  | Ended (escape : bool)
  | Starts (newline escape : bool) (c : Z) (f : list Z).

(** The first loop: white-space and comments. *)
Fixpoint skip_white (comment newline : bool) (f : list Z) : skipped :=
  match f with
  | [] => Ended false
  | c :: f =>
      if comment then skip_white (negb (c =? NEWLINE)) (newline || (c =? NEWLINE)) f
      else if c =? BACKSLASH then
        match f with
        | [] => Ended true
        | c :: f =>
            if c =? NEWLINE then skip_white false newline f else Starts newline true c f
        end
      else if c =? NEWLINE then skip_white false true f
      else if c =? HASH then skip_white true newline f
      else if negb (isspace c) then Starts newline false c f
      else skip_white false newline f
  end.

(** The locals of [getword] and the array. *)
Record scan := mk_scan {
  s_word : list Z;
  s_len : Z;
  s_escape : bool;
  s_quoted : bool }.

(** [word[i] = c] *)
Definition store (i c : Z) (word : list Z) : option (list Z) :=
  if (0 <=? i) && (i <? Z.of_nat (length word)) then Some (<[Z.to_nat i := c]> word) else None.

(** One round of the second loop; [Throw] when the word ends before [c]. *)
Definition word_char (c : Z) : M scan unit unit :=
  s <- gets id ;;
  if s_escape s then
    (if c =? NEWLINE then put (mk_scan (s_word s) (s_len s - 1) false (s_quoted s))
     else if (c =? QUOTE) || isspace c || (c =? BACKSLASH) then
       word <- access (store (s_len s - 1) c (s_word s)) ;;
       put (mk_scan word (s_len s) false (s_quoted s))
     else
       word <- (if s_len s <? MAXWORDLEN - 1 then access (store (s_len s) c (s_word s))
                else ret (s_word s)) ;;
       put (mk_scan word (s_len s + 1) false (s_quoted s)))
  else if c =? QUOTE then put (mk_scan (s_word s) (s_len s) false (negb (s_quoted s)))
  else if negb (s_quoted s) && (isspace c || (c =? HASH)) then throw tt
  else
    word <- (if s_len s <? MAXWORDLEN - 1 then access (store (s_len s) c (s_word s))
             else ret (s_word s)) ;;
    put (mk_scan word (s_len s + 1) (c =? BACKSLASH) (s_quoted s)).

(** The second loop, from the character [c] with [f] behind it; the result is
    what is left of the file, [ungetc] included. *)
Fixpoint word_loop (f : list Z) (c : Z) : M scan Empty_set (list Z) := fun s =>
  match word_char c s with
  | Ok _ s => match f with [] => Ok [] s | c :: f => word_loop f c s end
  | Throw _ s => Ok (c :: f) s
  | Fault => Fault
  | Hang => Hang
  end.

(** The state of a scan of a file: the file and the array. *)
Record reader := mk_reader { r_file : list Z; r_word : list Z }.

(** The second loop and the NUL behind the word. *)
Definition read_word (newline escape : bool) (c : Z) (f : list Z) (word : list Z) (len : Z)
  : outcome reader Empty_set (bool * bool) :=
  match word_loop f c (mk_scan word len escape false) with
  | Ok f s =>
      match store (Z.min (s_len s) (MAXWORDLEN - 1)) 0 (s_word s) with
      | Some word => Ok (true, newline) (mk_reader f word)
      | None => Fault
      end
  | Throw e _ => match e : Empty_set with end
  | Fault => Fault
  | Hang => Hang
  end.

(** Whether there was a word, and whether it starts a line. *)
Definition getword : M reader Empty_set (bool * bool) := fun r =>
  match skip_white false false (r_file r) with
  | Ended false => Ok (false, false) (mk_reader [] (r_word r))
  | Ended true =>
      match store 0 BACKSLASH (r_word r) with
      | Some word => Ok (false, false) (mk_reader [] word)
      | None => Fault
      end
  | Starts newline true c f =>
      match store 0 BACKSLASH (r_word r) with
      | Some word => read_word newline true c f word 1
      | None => Fault
      end
  | Starts newline false c f => read_word newline false c f (r_word r) 0
  end.

(** ** Writing words *)

(** A word in quotes. *)
Definition escape_char (c : Z) : list Z :=
  if (c =? QUOTE) || (c =? BACKSLASH) then [BACKSLASH; c] else [c].
Definition quote (w : list Z) : list Z :=
  QUOTE :: concat (escape_char <$> w) ++ [QUOTE].
(** What may follow a word. *)
Definition separated (f : list Z) : Prop :=
  match f with [] => True | c :: _ => isspace c = true \/ c = HASH end.
(** The array with [p] at its start. *)
Definition holding (p b : list Z) : list Z := p ++ drop (length p) b.

Lemma cstring_app p l : Forall (fun c => c <> 0) p -> cstring (p ++ 0 :: l) = p.
Proof.
  induction 1 as [|c p Hc Hp IH]; [done|]. cbn.
  by rewrite (proj2 (Z.eqb_neq c 0)), IH.
Qed.

Lemma store_length i c l l' : store i c l = Some l' -> length l' = length l.
Proof. unfold store. destruct (_ && _); [|done]. intros [= <-]. apply length_insert. Qed.
Lemma store_some i c l :
  0 <= i < Z.of_nat (length l) -> store i c l = Some (<[Z.to_nat i := c]> l).
Proof. intros Hi. unfold store. by rewrite (proj2 (Z.leb_le _ _)), (proj2 (Z.ltb_lt _ _)) by lia. Qed.

(** Storing behind [p]. *)
Lemma store_next p b c :
  (length p < length b)%nat ->
  store (Z.of_nat (length p)) c (holding p b) = Some (holding (p ++ [c]) b).
Proof.
  intros Hl. unfold holding. rewrite store_some.
  - f_equal. rewrite Nat2Z.id, length_app, <- app_assoc, insert_app_r_alt by lia. f_equal.
    destruct (lookup_lt_is_Some_2 b (length p) Hl) as [d Hd].
    by rewrite Nat.sub_diag, Nat.add_1_r, (drop_S _ _ _ Hd).
  - rewrite length_app, length_drop. lia.
Qed.
(** Storing over the last character of [p]. *)
Lemma store_over p b c d :
  (length p < length b)%nat ->
  store (Z.of_nat (length p)) c (holding (p ++ [d]) b) = Some (holding (p ++ [c]) b).
Proof.
  intros Hl. unfold holding. rewrite store_some.
  - by rewrite Nat2Z.id, !length_app, <- !app_assoc, insert_app_r_alt, Nat.sub_diag by lia.
  - rewrite !length_app, length_drop. cbn. lia.
Qed.

(** *** The second loop reads a quoted word *)

Lemma loop_cons f c c' s s' :
  word_char c s = Ok tt s' -> word_loop (c' :: f) c s = word_loop f c' s'.
Proof. intros E. cbn [word_loop]. by rewrite E. Qed.

(** The scan in quotes, with [p] read so far. *)
Definition reading (p b : list Z) : scan := mk_scan (holding p b) (Z.of_nat (length p)) false true.

Lemma char_plain p b c :
  c <> QUOTE -> c <> BACKSLASH -> Z.of_nat (length p) < MAXWORDLEN - 1 ->
  length b = Z.to_nat MAXWORDLEN ->
  word_char c (reading p b) = Ok tt (reading (p ++ [c]) b).
Proof.
  intros Hq Hb Hl Hlen. unfold word_char, reading, gets, bind, put. cbn.
  rewrite (proj2 (Z.eqb_neq _ _) Hq), (proj2 (Z.eqb_neq _ _) Hb), (proj2 (Z.ltb_lt _ _) Hl).
  rewrite store_next by (rewrite Hlen; unfold MAXWORDLEN in *; lia).
  cbn. do 2 f_equal. rewrite length_app. cbn. lia.
Qed.
Lemma char_escape p b :
  Z.of_nat (length p) < MAXWORDLEN - 1 -> length b = Z.to_nat MAXWORDLEN ->
  word_char BACKSLASH (reading p b)
  = Ok tt (mk_scan (holding (p ++ [BACKSLASH]) b) (Z.of_nat (length p) + 1) true true).
Proof.
  intros Hl Hlen. unfold word_char, reading, gets, bind, put. cbn.
  rewrite (proj2 (Z.ltb_lt _ _) Hl).
  by rewrite store_next by (rewrite Hlen; unfold MAXWORDLEN in *; lia).
Qed.
Lemma char_escaped p b c :
  c = QUOTE \/ c = BACKSLASH -> Z.of_nat (length p) < MAXWORDLEN - 1 ->
  length b = Z.to_nat MAXWORDLEN ->
  word_char c (mk_scan (holding (p ++ [BACKSLASH]) b) (Z.of_nat (length p) + 1) true true)
  = Ok tt (reading (p ++ [c]) b).
Proof.
  intros Hc Hl Hlen. unfold word_char, reading, gets, bind, put. cbn.
  rewrite Z.add_simpl_r, store_over by (rewrite Hlen; unfold MAXWORDLEN in *; lia).
  replace (Z.of_nat (length (p ++ [c]))) with (Z.of_nat (length p) + 1)
    by (rewrite length_app; cbn; lia).
  by destruct Hc as [-> | ->].
Qed.

(** From inside the quotes to the end of the word. *)
Lemma loop_quoted w p b c f f' :
  c :: f = concat (escape_char <$> w) ++ QUOTE :: f' ->
  Z.of_nat (length p + length w) < MAXWORDLEN - 1 -> length b = Z.to_nat MAXWORDLEN ->
  separated f' ->
  exists quoted, word_loop f c (reading p b)
  = Ok f' (mk_scan (holding (p ++ w) b) (Z.of_nat (length (p ++ w))) false quoted).
Proof.
  revert p c f. induction w as [|d w IH]; intros p c f Hf Hl Hlen Hs.
  - injection Hf as -> ->. rewrite app_nil_r. exists false. destruct f' as [|c' f']; [done|].
    rewrite (loop_cons _ _ _ _ (mk_scan (holding p b) (Z.of_nat (length p)) false false)) by done.
    assert (Hstop : word_char c' (mk_scan (holding p b) (Z.of_nat (length p)) false false)
      = Throw tt (mk_scan (holding p b) (Z.of_nat (length p)) false false)).
    { destruct Hs as [Hs| ->]; [|done]. unfold word_char, gets, bind. cbn.
      assert (Hq : (c' =? QUOTE) = false) by (apply Z.eqb_neq; intros ->; done). by rewrite Hq, Hs. }
    destruct f'; cbn [word_loop]; by rewrite Hstop.
  - cbn [length] in Hl. assert (Hp : Z.of_nat (length p) < MAXWORDLEN - 1) by lia.
    specialize (IH (p ++ [d])). rewrite <- app_assoc, length_app in IH. cbn [length] in IH.
    assert (Hmore : exists c' f2, concat (escape_char <$> w) ++ QUOTE :: f' = c' :: f2)
      by (destruct (concat _); cbn; eauto).
    destruct Hmore as (c' & f2 & Hmore).
    cbn [fmap list_fmap concat] in Hf. rewrite <- app_assoc, Hmore in Hf.
    unfold escape_char in Hf. destruct ((d =? QUOTE) || (d =? BACKSLASH)) eqn:Hd.
    + injection Hf as -> ->. apply orb_true_iff in Hd. rewrite !Z.eqb_eq in Hd.
      rewrite (loop_cons _ _ _ _ _ (char_escape p b Hp Hlen)).
      rewrite (loop_cons _ _ _ _ _ (char_escaped p b d Hd Hp Hlen)).
      apply IH; [done|lia|done|done].
    + injection Hf as -> ->. apply orb_false_iff in Hd. rewrite !Z.eqb_neq in Hd.
      destruct Hd as [Hq Hb]. rewrite (loop_cons _ _ _ _ _ (char_plain p b d Hq Hb Hp Hlen)).
      apply IH; [done|lia|done|done].
Qed.

Lemma getword_quoted w pre f b :
  Forall (fun c => c <> 0) w -> Z.of_nat (length w) < MAXWORDLEN - 1 ->
  length b = Z.to_nat MAXWORDLEN -> separated f -> pre = [] \/ pre = [32] \/ pre = [NEWLINE] ->
  exists b', getword (mk_reader (pre ++ quote w ++ f) b)
    = Ok (true, bool_decide (pre = [NEWLINE])) (mk_reader f b')
  /\ cstring b' = w /\ length b' = length b.
Proof.
  intros Hw Hl Hlen Hs Hpre.
  assert (Hskip : skip_white false false (pre ++ quote w ++ f)
    = Starts (bool_decide (pre = [NEWLINE])) false QUOTE ((concat (escape_char <$> w) ++ [QUOTE]) ++ f)).
  { by destruct Hpre as [-> |[-> | ->]]. }
  unfold getword, read_word. cbn [r_file r_word]. rewrite Hskip. cbv beta iota zeta.
  assert (Hmore : exists c' f2, concat (escape_char <$> w) ++ QUOTE :: f = c' :: f2)
    by (destruct (concat _); cbn; eauto).
  destruct Hmore as (c' & f2 & Hmore). rewrite <- app_assoc. cbn [app].
  destruct (loop_quoted w [] b c' f2 f) as [q Hloop]; [done|cbn; lia|done|done|].
  rewrite Hmore, (loop_cons _ _ _ _ (reading [] b)) by done.
  cbn [app] in Hloop. rewrite Hloop. cbn [s_len s_word].
  rewrite Z.min_l, store_next by (rewrite ?Hlen; unfold MAXWORDLEN in *; lia).
  eexists. split; [done|]. unfold holding. rewrite <- app_assoc. cbn [app]. split.
  - by apply cstring_app.
  - rewrite length_app. cbn. rewrite length_drop, length_app. cbn. unfold MAXWORDLEN in *. lia.
Qed.

(** A word of up to 1022 characters that was written in quotes, with its
    quotes and backslashes escaped, is read back as it was, whatever it
    contains, and the file is left at the character behind the word; a line
    feed in front of the word is reported. *)
Theorem getword_quote w pre f b :
  Forall (fun c => c <> 0) w -> Z.of_nat (length w) < MAXWORDLEN - 1 ->
  length b = Z.to_nat MAXWORDLEN -> separated f -> pre = [] \/ pre = [32] \/ pre = [NEWLINE] ->
  exists b', getword (mk_reader (pre ++ quote w ++ f) b)
    = Ok (true, bool_decide (pre = [NEWLINE])) (mk_reader f b')
  /\ cstring b' = w /\ length b' = length b.
Proof. apply getword_quoted. Qed.

(** *** Every scan ends, and where it stays in the array *)

(** A file whose words cannot run out of the array: it is short, or nothing in
    it is escaped. *)
Definition harmless (f : list Z) : Prop :=
  Z.of_nat (length f) <= MAXWORDLEN \/ BACKSLASH ∉ f.

Lemma harmless_suffix f f' : f' `suffix_of` f -> harmless f -> harmless f'.
Proof.
  intros [k ->] [Hl|Hb].
  - left. rewrite length_app in Hl. lia.
  - right. intros Hin. apply Hb, elem_of_app. by right.
Qed.

(** The array is in bounds for what is left of the file. *)
Record scan_ok (s : scan) (f : list Z) : Prop := {
  so_word : length (s_word s) = Z.to_nat MAXWORDLEN;
  so_len : 0 <= s_len s;
  so_escape : s_escape s = true -> 1 <= s_len s }.
Definition scan_safe (s : scan) (f : list Z) : Prop :=
  s_len s + Z.of_nat (length f) <= MAXWORDLEN \/ s_escape s = false /\ BACKSLASH ∉ f.

Lemma char_cases c f s :
  scan_ok s (c :: f) ->
  (exists s', word_char c s = Ok tt s' /\ scan_ok s' f
     /\ (scan_safe s (c :: f) -> scan_safe s' f))
  \/ word_char c s = Throw tt s
  \/ word_char c s = Fault /\ ~ scan_safe s (c :: f).
Proof.
  destruct s as [word len escape quoted]. intros [Hw Hl He]. cbn in *.
  assert (Hput : forall e q (Hq : e = true -> c = BACKSLASH),
    exists word', (if len <? MAXWORDLEN - 1 then access (store len c word) else ret word)
      = (ret word' : M scan unit _) /\ scan_ok (mk_scan word' (len + 1) e q) f).
  { intros e q Hq. destruct (len <? MAXWORDLEN - 1) eqn:E.
    - apply Z.ltb_lt in E. exists (<[Z.to_nat len := c]> word). split.
      + unfold access. rewrite store_some; [done|]. rewrite Hw. unfold MAXWORDLEN in *. lia.
      + split; cbn; [by rewrite length_insert|lia|lia].
    - exists word. split; [done|]. split; cbn; [done|lia|lia]. }
  assert (Hsafe : forall e q word', scan_safe (mk_scan word len escape quoted) (c :: f) ->
    (e = true -> c = BACKSLASH) -> (escape = true \/ escape = false) ->
    scan_safe (mk_scan word' (len + 1) e q) f).
  { intros e q word' [Hb|[Hb1 Hb2]] Hq _; cbn in *; [left; cbn; lia|right]. cbn.
    apply not_elem_of_cons in Hb2 as [Hb2 Hb3]. split; [|done]. destruct e; [|done].
    destruct Hb2. symmetry. auto. }
  unfold word_char, bind, gets. cbn [s_escape s_quoted s_word s_len id].
  destruct escape.
  - specialize (He eq_refl). destruct (c =? NEWLINE).
    + left. eexists. split; [done|]. split; [split; cbn; [done|lia|done]|].
      intros [Hb|[]]; [left; cbn in *; lia|done].
    + destruct (_ || _) eqn:Hc.
      * destruct (decide (len - 1 < MAXWORDLEN)).
        -- left. rewrite store_some by (rewrite Hw; unfold MAXWORDLEN in *; lia).
           eexists. split; [done|]. split; [split; cbn; [by rewrite length_insert|lia|done]|].
           intros [Hb|[]]; [left; cbn in *; lia|done].
        -- right; right. unfold store. rewrite (proj2 (Z.ltb_ge _ _)), andb_false_r
             by (rewrite Hw; unfold MAXWORDLEN in *; lia).
           split; [done|]. intros [Hb|[]]; [cbn in *; lia|done].
      * left. destruct (Hput false quoted ltac:(done)) as (word' & -> & Hok).
        eexists. split; [done|]. split; [done|]. intros Hs. apply Hsafe; auto. done.
  - destruct (c =? QUOTE).
    + left. eexists. split; [done|]. split; [split; cbn; [done|lia|done]|].
      intros [Hb|[_ Hb]]; [left; cbn in *; lia|right; split; [done|]].
      by apply not_elem_of_cons in Hb as [].
    + destruct (_ && _); [by right; left|]. left.
      assert (Hq : (c =? BACKSLASH) = true -> c = BACKSLASH) by apply Z.eqb_eq.
      destruct (Hput (c =? BACKSLASH) quoted Hq) as (word' & -> & Hok).
      eexists. split; [done|]. split; [done|]. intros Hs. apply Hsafe; auto.
Qed.

Lemma char_not_end c s :
  s_escape s = true \/ isspace c = false /\ c <> HASH -> word_char c s <> Throw tt s.
Proof.
  intros Hc. unfold word_char, bind, gets, put, access, ret, fault, throw. cbn [id].
  destruct s as [word len escape quoted]. cbn in *.
  destruct Hc as [-> |[Hsp Hh]]; [by repeat case_match|].
  rewrite Hsp, (proj2 (Z.eqb_neq _ _) Hh). cbn. rewrite andb_false_r. by repeat case_match.
Qed.

Lemma loop_cases f c s :
  scan_ok s (c :: f) ->
  (exists f' s', word_loop f c s = Ok f' s' /\ scan_ok s' f' /\ f' `suffix_of` c :: f
     /\ (word_char c s <> Throw tt s -> f' `suffix_of` f))
  \/ word_loop f c s = Fault /\ ~ scan_safe s (c :: f).
Proof.
  revert c s. induction f as [|c' f IH]; intros c s Hok.
  - destruct (char_cases c [] s Hok) as [(s' & E & Hok' & _)|[E|[E Hn]]]; cbn [word_loop]; rewrite E.
    + left. exists [], s'. split_and!; [done|done|apply suffix_nil|intros; apply suffix_nil].
    + left. exists [c], s. by split_and!.
    + by right.
  - destruct (char_cases c (c' :: f) s Hok) as [(s' & E & Hok' & Hs)|[E|[E Hn]]]; cbn [word_loop];
      rewrite E.
    + destruct (IH c' s' Hok') as [(f' & s2 & E' & Hok2 & Hsf & _)|[E' Hn]].
      * left. exists f', s2. split_and!; [done|done|by apply suffix_cons_r|done].
      * right. split; [done|]. auto.
    + left. exists (c :: c' :: f), s. by split_and!.
    + by right.
Qed.

Lemma skip_white_some comment newline f newline' escape c f' :
  skip_white comment newline f = Starts newline' escape c f' ->
  (if escape then BACKSLASH :: c :: f' else c :: f') `suffix_of` f
  /\ (escape = false -> isspace c = false /\ c <> HASH).
Proof.
  revert comment newline. induction f as [f IH] using (induction_ltof1 _ length). unfold ltof in IH.
  intros comment newline Hf. destruct f as [|d f]; [done|]. cbn [skip_white] in Hf.
  assert (Hnext : forall comment newline, skip_white comment newline f = Starts newline' escape c f' ->
    (if escape then BACKSLASH :: c :: f' else c :: f') `suffix_of` d :: f
    /\ (escape = false -> isspace c = false /\ c <> HASH)).
  { intros cm nl Hf'. destruct (IH f ltac:(cbn; lia) cm nl Hf') as [Hs He].
    split; [by apply suffix_cons_r|done]. }
  destruct comment; [by eapply Hnext|].
  destruct (d =? BACKSLASH) eqn:Hb.
  - apply Z.eqb_eq in Hb as ->. destruct f as [|e f]; [done|]. destruct (e =? NEWLINE).
    + destruct (IH f ltac:(cbn; lia) false newline Hf) as [Hs He].
      split; [by do 2 apply suffix_cons_r|done].
    + injection Hf as <- <- <- <-. by split.
  - destruct (d =? NEWLINE); [by eapply Hnext|]. destruct (d =? HASH) eqn:Hh; [by eapply Hnext|].
    destruct (isspace d) eqn:Hsp; cbn in Hf; [exact (Hnext _ _ Hf)|]. injection Hf as <- <- <- <-.
    split; [done|]. intros _. split; [done|]. by apply Z.eqb_neq.
Qed.

(** What [getword] does with any file. *)
Lemma getword_cases r :
  length (r_word r) = Z.to_nat MAXWORDLEN ->
  (exists more newline r', getword r = Ok (more, newline) r'
     /\ length (r_word r') = Z.to_nat MAXWORDLEN /\ r_file r' `suffix_of` r_file r
     /\ (if more then (length (r_file r') < length (r_file r))%nat else newline = false))
  \/ getword r = Fault /\ ~ harmless (r_file r).
Proof.
  intros Hr. unfold getword.
  destruct (skip_white false false (r_file r)) as [[]|newline escape c f] eqn:E.
  1: { left. rewrite store_some by (rewrite Hr; unfold MAXWORDLEN; lia).
       eexists false, false, _. split_and!; [done| |apply suffix_nil|done]. cbn. by rewrite length_insert. }
  1: { left. exists false, false, (mk_reader [] (r_word r)). split_and!; [done|done|apply suffix_nil|done]. }
  apply skip_white_some in E as [Hs He].
  assert (Hcs : (c :: f) `suffix_of` r_file r)
    by (destruct escape; [etrans; [|exact Hs]; by apply suffix_cons_r|done]).
  assert (Hlt : (length f < length (r_file r))%nat) by (apply suffix_length in Hcs; cbn in Hcs; lia).
  assert (Hgo : forall word len, scan_ok (mk_scan word len escape false) (c :: f) ->
    (harmless (r_file r) -> scan_safe (mk_scan word len escape false) (c :: f)) ->
    (exists f' s, word_loop f c (mk_scan word len escape false) = Ok f' s
       /\ scan_ok s f' /\ f' `suffix_of` f)
    \/ word_loop f c (mk_scan word len escape false) = Fault /\ ~ harmless (r_file r)).
  { intros word len Hok Hsafe. destruct (loop_cases f c _ Hok) as [(f' & s & E & Hok' & _ & Hsf)|[E Hn]].
    - left. exists f', s. split_and!; [done|done|]. apply Hsf, char_not_end. cbn.
      destruct escape; [by left|right; auto].
    - right. split; [done|]. auto. }
  assert (Hend : forall word len, scan_ok (mk_scan word len escape false) (c :: f) ->
    (harmless (r_file r) -> scan_safe (mk_scan word len escape false) (c :: f)) ->
    (exists more newline' r', read_word newline escape c f word len = Ok (more, newline') r'
       /\ length (r_word r') = Z.to_nat MAXWORDLEN /\ r_file r' `suffix_of` r_file r
       /\ (if more then (length (r_file r') < length (r_file r))%nat else newline' = false))
    \/ read_word newline escape c f word len = Fault /\ ~ harmless (r_file r)).
  { intros word len Hok Hsafe. unfold read_word.
    destruct (Hgo word len Hok Hsafe) as [(f' & s & -> & [Hw Hl _] & Hsf)|[-> Hn]]; [|by right].
    left. rewrite store_some by (rewrite Hw; unfold MAXWORDLEN in *; lia).
    eexists true, newline, _. split_and!; [done| | |]; cbn.
    - by rewrite length_insert.
    - etrans; [exact Hsf|]. etrans; [|exact Hcs]. by apply suffix_cons_r.
    - apply suffix_length in Hsf. lia. }
  destruct escape.
  - rewrite store_some by (rewrite Hr; unfold MAXWORDLEN; lia). apply Hend.
    + split; cbn; [by rewrite length_insert|lia|lia].
    + intros [Hh|Hh]; [left|].
      * cbn. apply suffix_length in Hs. cbn in Hs. lia.
      * destruct Hh. eapply elem_of_suffix; [|exact Hs]. by left.
  - apply Hend; [split; cbn; [done|lia|done]|]. intros [Hh|Hh]; [left|right].
    + cbn. apply suffix_length in Hs. cbn in Hs. lia.
    + split; [done|]. intros Hin. destruct Hh. by eapply elem_of_suffix.
Qed.

(** *** Out of the array *)

Lemma loop_run n f s :
  scan_ok s [] -> s_escape s = false ->
  exists s', word_loop (replicate n 97 ++ f) 97 s = word_loop f 97 s' /\ scan_ok s' []
    /\ s_escape s' = false /\ s_len s' = s_len s + Z.of_nat n.
Proof.
  revert s. induction n as [|n IH]; intros s Hok He.
  - exists s. split_and!; [done|done|done|lia].
  - assert (Hc : exists s', word_char 97 s = Ok tt s' /\ scan_ok s' [] /\ s_escape s' = false
      /\ s_len s' = s_len s + 1).
    { destruct s as [word len escape quoted], Hok as [Hw Hl _]. cbn in *. subst escape.
      unfold word_char, bind, gets, put. cbn. rewrite andb_false_r.
      destruct (len <? MAXWORDLEN - 1) eqn:E.
      - apply Z.ltb_lt in E. rewrite store_some by (rewrite Hw; unfold MAXWORDLEN in *; lia).
        eexists. split_and!; [done|split; cbn; [by rewrite length_insert|lia|done]|done|done].
      - eexists. split_and!; [done|split; cbn; [done|lia|done]|done|done]. }
    destruct Hc as (s1 & E1 & Hok1 & He1 & Hl1).
    destruct (IH s1 Hok1 He1) as (s2 & E2 & Hok2 & He2 & Hl2).
    exists s2. split_and!; [|done|done|lia]. cbn [replicate app].
    by rewrite (loop_cons _ _ _ _ _ E1).
Qed.

(** A word that is longer than the array is cut, but not where a character
    behind a backslash stands for itself: behind 1024 characters an escaped
    blank is stored outside of the array. *)
Theorem getword_overflows n f b :
  (1024 <= n)%nat -> length b = Z.to_nat MAXWORDLEN ->
  getword (mk_reader (replicate n 97 ++ BACKSLASH :: 32 :: f) b) = Fault.
Proof.
  intros Hn Hb. destruct n as [|n]; [lia|]. unfold getword, read_word. cbn [r_file r_word replicate app].
  change (skip_white false false (97 :: replicate n 97 ++ BACKSLASH :: 32 :: f))
    with (Starts false false 97 (replicate n 97 ++ BACKSLASH :: 32 :: f)). cbv beta iota.
  destruct (loop_run n (BACKSLASH :: 32 :: f) (mk_scan b 0 false false)) as (s & -> & Hok & He & Hl).
  { by split. }
  { done. }
  destruct s as [word len escape quoted], Hok as [Hw Hlen _]. cbn in Hl, He, Hw, Hlen. subst escape.
  assert (E1 : forall len, scan_ok (mk_scan word len false quoted) [] -> 1023 <= len ->
    word_char 97 (mk_scan word len false quoted) = Ok tt (mk_scan word (len + 1) false quoted)).
  { intros l _ Hg. unfold word_char, bind, gets, put. cbn. rewrite andb_false_r.
    by rewrite (proj2 (Z.ltb_ge _ _)). }
  rewrite (loop_cons _ _ _ _ _ (E1 len ltac:(by split) ltac:(lia))).
  assert (E2 : word_char BACKSLASH (mk_scan word (len + 1) false quoted)
    = Ok tt (mk_scan word (len + 1 + 1) true quoted)).
  { unfold word_char, bind, gets, put. cbn. rewrite andb_false_r.
    by rewrite (proj2 (Z.ltb_ge _ _)) by (unfold MAXWORDLEN; lia). }
  rewrite (loop_cons _ _ _ _ _ E2).
  assert (E3 : word_char 32 (mk_scan word (len + 1 + 1) true quoted) = Fault).
  { unfold word_char, bind, gets, put. cbn. rewrite Z.add_simpl_r. unfold store.
    by rewrite (proj2 (Z.ltb_ge _ _)), andb_false_r by (rewrite Hw; unfold MAXWORDLEN; lia). }
  destruct f; cbn [word_loop]; by rewrite E3.
Qed.

Lemma getword_overflows_witness :
  (1024 <= 1024)%nat /\ length (replicate 1024 0) = Z.to_nat MAXWORDLEN
  /\ getword (mk_reader (replicate 1024 97 ++ BACKSLASH :: 32 :: []) (replicate 1024 0)) = Fault.
Proof.
  split; [lia|]. split; [reflexivity|]. apply (getword_overflows 1024); [lia|reflexivity].
Defined.
Lemma getword_quote_witness :
  (Z.of_nat (length [34; 92; 32; 35]) < MAXWORDLEN - 1) /\
  exists b', getword (mk_reader ([NEWLINE] ++ quote [34; 92; 32; 35] ++ [32]) (replicate 1024 0))
    = Ok (true, bool_decide ([NEWLINE] = [NEWLINE])) (mk_reader [32] b')
  /\ cstring b' = [34; 92; 32; 35] /\ length b' = length (replicate 1024 0).
Proof.
  split; [reflexivity|].
  apply (getword_quote [34; 92; 32; 35] [NEWLINE] [32] (replicate 1024 0));
    [repeat constructor; discriminate|reflexivity|reflexivity|by left|by right; right].
Defined.
