(* ===== verification/Secrets.v ===== *)
(** * The secrets: auth.c ([scan_authfile], [null_login] and the lookups) and
      pppSecretLib.c

    The secrets come from a table in memory and from a file in the format of
    [getword].  A line of the file has a client, a server, a secret and the
    addresses the client may use. *)

From S2P Require Export Words.

Definition NONWILD_SERVER := 1.
Definition NONWILD_CLIENT := 2.
Definition MAXNAMELEN := 256.
Definition MAXSECRETLEN := 256.

Definition ISWILD (word : list Z) : bool := bool_decide (word = [42]).
(** [fopen] of a file for reading: its contents. *)
Class Files := fopen : list Z -> option (list Z).

(** A name that is given ([NULL] is [None]) and not empty selects the entries
    with that name or a wildcard. *)
Definition matches (name : option (list Z)) (word : list Z) : bool :=
  match name with
  | None | Some [] => true
  | Some name => bool_decide (word = name) || ISWILD word
  end.

(** A secret that was found: the flags, the secret and the addresses. *)
Record found := mk_found { fd_flag : Z; fd_secret : list Z; fd_addrs : list (list Z) }.

Section Scan.
Context `{Files}.

(** The word in the array. *)
Definition the_word {X} : M reader X (list Z) := gets (fun r => cstring (r_word r)).

(** [while ( !newline && getword(...)) ;] *)
Fixpoint next_line (fuel : nat) (newline : bool) : M reader Empty_set bool :=
  if newline then ret true else
  match fuel with
  | O => hang
  | S fuel =>
      '(more, newline) <- getword ;;
      if more then next_line fuel newline else ret newline
  end.

(** The words up to the end of the line; whether a new line follows them. *)
Fixpoint read_addrs (fuel : nat) : M reader Empty_set (list (list Z) * bool) :=
  match fuel with
  | O => hang
  | S fuel =>
      '(more, newline) <- getword ;;
      if negb more || newline then ret ([], newline) else
      word <- the_word ;;
      '(l, newline) <- read_addrs fuel ;; ret (word :: l, newline)
  end.

(** The secret behind an [@]: the first word of another file, read into the
    same array. *)
Definition indirect (word : list Z) : M reader Empty_set bool :=
  match fopen (drop 1 word) with
  | None => ret false
  | Some sf => fun r =>
      match getword (mk_reader sf (r_word r)) with
      | Ok (more, _) r' => Ok more (mk_reader (r_file r) (r_word r'))
      | Throw e _ => match e : Empty_set with end
      | Fault => Fault
      | Hang => Hang
      end
  end.

(** The loop over the entries; [best] is the best match so far. *)
Fixpoint scan_loop (fuel : nat) (client server : option (list Z)) (newline : bool)
  (best : option found) : M reader Empty_set (option found) :=
  match fuel with
  | O => hang
  | S fuel =>
      let continue := scan_loop fuel client server in
      newline <- next_line (S fuel) newline ;;
      if negb newline then ret best else
      word <- the_word ;;
      if negb (matches client word) then continue false best else
      let got := if ISWILD word then 0 else NONWILD_CLIENT in
      '(more, newline) <- getword ;;
      if negb more then ret best else if newline then continue true best else
      word <- the_word ;;
      if negb (matches server word) then continue false best else
      let got := if ISWILD word then got else Z.lor got NONWILD_SERVER in
      if got <=? match best with Some b => fd_flag b | None => -1 end then continue false best else
      '(more, newline) <- getword ;;
      if negb more then ret best else if newline then continue true best else
      word <- the_word ;;
      ok <- match word with
            | c :: _ => if c =? 64 then indirect word else ret true
            | [] => ret true
            end ;;
      if negb ok then continue false best else
      secret <- the_word ;;
      '(addrs, newline) <- read_addrs (S fuel) ;;
      let best := Some (mk_found got secret addrs) in
      if negb newline then ret best else continue true best
  end.

(** [scan_authfile]; the result [-1] is [None].  The last argument is what the
    array [word] holds at first. *)
Definition scan_authfile (client server : option (list Z)) (f word : list Z) :
  outcome reader Empty_set (option found) :=
  (let fuel := (2 * length f + 2)%nat in
   '(more, _) <- getword ;;
   if negb more then ret None else scan_loop fuel client server true None) (mk_reader f word).

(** ** pppSecretLib.c *)

Record PPP_SECRET := mk_secret {
  ps_client : list Z; ps_server : list Z; ps_secret : list Z; ps_addrs : list Z }.
#[export] Instance ppp_secret_eq_dec : EqDecision PPP_SECRET.
Proof. solve_decision. Defined.

(** Whether the library is initialised ([pppSemId]) and [pppSecretHead]. *)
Record secret_lib := mk_lib { sl_sem : bool; sl_table : list PPP_SECRET }.

(** [strcpy] into an array of [n] characters; [NULL] leaves the zeroed array. *)
Definition strcpy_to (n : Z) (o : option (list Z)) : option (list Z) :=
  match o with
  | None => Some []
  | Some l => if Z.of_nat (length l) <? n then Some l else None
  end.

Definition pppSecretLibInit (sem_ok : bool) : M secret_lib Empty_set bool :=
  l <- gets id ;;
  if sl_sem l then ret true else
  if sem_ok then put (mk_lib true (sl_table l)) ;; ret true else ret false.

(** [calloc_ok]: whether there is memory for the entry. *)
Definition pppSecretAdd (calloc_ok : bool) (client server secret addrs : option (list Z))
  : M secret_lib Empty_set bool :=
  l <- gets id ;;
  if negb (sl_sem l) then ret false else
  if negb calloc_ok then ret false else
  client <- access (strcpy_to MAXNAMELEN client) ;;
  server <- access (strcpy_to MAXNAMELEN server) ;;
  secret <- access (strcpy_to MAXSECRETLEN secret) ;;
  addrs <- access (strcpy_to MAXNAMELEN addrs) ;;
  put (mk_lib true (mk_secret client server secret addrs :: sl_table l)) ;; ret true.

(** Whether an entry is the one to delete. *)
Definition is_entry (client server secret : list Z) (e : PPP_SECRET) : bool :=
  bool_decide (client = ps_client e) && bool_decide (server = ps_server e)
  && bool_decide (secret = ps_secret e).
(** The list without its first such entry; [None] when there is none. *)
Fixpoint unhook (client server secret : list Z) (l : list PPP_SECRET) : option (list PPP_SECRET) :=
  match l with
  | [] => None
  | e :: l =>
      if is_entry client server secret e then Some l
      else cons e <$> unhook client server secret l
  end.
Definition pppSecretDelete (client server secret : list Z) : M secret_lib Empty_set bool :=
  l <- gets id ;;
  if negb (sl_sem l) then ret false else
  match unhook client server secret (sl_table l) with
  | Some t => put (mk_lib true t) ;; ret true
  | None => ret false
  end.

(** The search for the best entry: [got_flag] lives across the rounds. *)
Fixpoint find_loop (client server : option (list Z)) (l : list PPP_SECRET) (got : Z)
  (best : option (Z * PPP_SECRET)) : option (Z * PPP_SECRET) :=
  match l with
  | [] => best
  | e :: l =>
      if negb (matches client (ps_client e)) || negb (matches server (ps_server e))
      then find_loop client server l got best else
      let got := if ISWILD (ps_client e) then got else NONWILD_CLIENT in
      let got := if ISWILD (ps_server e) then got else Z.lor got NONWILD_SERVER in
      let best_flag := match best with Some (b, _) => b | None => -1 end in
      find_loop client server l got (if best_flag <? got then Some (got, e) else best)
  end.

(** [strtok_r] with the separators space and tab. *)
Fixpoint strtok (l acc : list Z) : list (list Z) :=
  match l with
  | [] => if bool_decide (acc = []) then [] else [acc]
  | c :: l =>
      if (c =? 32) || (c =? 9)
      then (if bool_decide (acc = []) then strtok l [] else acc :: strtok l [])
      else strtok l (acc ++ [c])
  end.

(** The outer option is [None] for an access outside of an object (such as
    [fclose] of the [NULL] that [fopen] gave). *)
Definition pppSecretFind (lib : secret_lib) (client server : option (list Z)) : option (option found) :=
  if negb (sl_sem lib) then Some None else
  match find_loop client server (sl_table lib) 0 None with
  | None => Some None
  | Some (flag, e) =>
      let answer secret := Some (Some (mk_found flag secret (strtok (ps_addrs e) []))) in
      match ps_secret e with
      | 64 :: atfile =>
          match fopen atfile with
          | None => None
          | Some sf =>
              match getword (mk_reader sf (replicate (Z.to_nat MAXWORDLEN) 0)) with
              | Ok (true, _) r => answer (cstring (r_word r))
              | Ok (false, _) _ => Some None
              | Throw e _ => match e : Empty_set with end
              | Fault | Hang => None
              end
          end
      | secret => answer secret
      end
  end.

(** The call with [NULL] for the secret and the addresses: whether there is an
    entry.  Nothing else is looked at. *)
Definition pppSecretKnown (lib : secret_lib) (client server : option (list Z)) : bool :=
  sl_sem lib && match find_loop client server (sl_table lib) 0 None with Some _ => true | None => false end.

(** ** The lookups of auth.c: the table first, then the file *)

(** [fopen] of the file and [scan_authfile] of it. *)
Definition scan_file (file : option (list Z)) (client server : option (list Z))
  : option (option found) :=
  match file with
  | None => Some None
  | Some name =>
      match fopen name with
      | None => Some None
      | Some f =>
          match scan_authfile client server f (replicate (Z.to_nat MAXWORDLEN) 0) with
          | Ok r _ => Some r
          | Throw e _ => match e : Empty_set with end
          | Fault | Hang => None
          end
      end
  end.
Definition from_file (client server : list Z) (file : option (list Z)) : option (option found) :=
  scan_file file (Some client) (Some server).

(** The search of [get_secret]. *)
Definition search (lib : secret_lib) (chap_file : option (list Z)) (client server : list Z)
  : option (option found) :=
  match pppSecretFind lib (Some client) (Some server) with
  | None => None
  | Some (Some r) => Some (Some r)
  | Some None => from_file client server chap_file
  end.

(** Whether a secret lets in a peer without a name and a password. *)
Definition lets_in (r : option found) : bool :=
  match r with
  | Some r => negb (Z.land (fd_flag r) NONWILD_CLIENT =? 0) && bool_decide (fd_secret r = [])
  | None => false
  end.
(** The search of [null_login]. *)
Definition search_null (lib : secret_lib) (pap_file : option (list Z)) (server : list Z)
  : option (option found) :=
  match pppSecretFind lib (Some []) (Some server) with
  | None => None
  | Some r =>
      if lets_in r then Some r else
      match from_file [] server pap_file with
      | None => None
      | Some r => Some (if lets_in r then r else None)
      end
  end.

(** A word list: [NULL] when it has no word. *)
Definition wordlist (l : list (list Z)) : option (list (list Z)) :=
  match l with [] => None | _ => Some l end.
End Scan.

(** ** What the task uses *)

(** [find_secret client server] is the search of [get_secret] with the addresses
    that go with the secret, [find_null_login] the one of [null_login]; the
    outer option is [None] where the search leaves its objects. *)
Class SecretLib := {
  find_secret : list Z -> list Z -> option (option (list Z * option (list (list Z))));
  find_null_login : list Z -> option (option (option (list (list Z)))) }.

Definition secrets_of `{Files} (lib : secret_lib) (chap_file pap_file : option (list Z))
  : SecretLib := {|
  find_secret := fun client server =>
    option_map (option_map (fun r => (fd_secret r, wordlist (fd_addrs r))))
      (search lib chap_file client server);
  find_null_login := fun server =>
    option_map (option_map (fun r => wordlist (fd_addrs r))) (search_null lib pap_file server) |}.
