(* ===== verification/SecretsProps.v ===== *)
(** * The searches for secrets

    Every scan of a secrets file ends; a file written with quoted words gives
    the first of its best entries; the table in memory gives it only if no
    entry has a wildcard for its client. *)

From S2P Require Export Secrets.

(** ** Termination *)

Section Termination.
Context `{Files}.
(** [Safe]: all files are harmless. *)
Context (Safe : Prop) (HS : Safe -> forall name sf, fopen name = Some sf -> harmless sf).

(** [m] returns; it may leave the array only when [Safe] does not hold. *)
Definition returns {A} (m : M reader Empty_set A) (Q : A -> reader -> Prop) (r : reader) : Prop :=
  match m r with
  | Ok a r' => Q a r'
  | Throw e _ => match e : Empty_set with end
  | Fault => ~ Safe
  | Hang => False
  end.

Record reader_ok (r : reader) : Prop := {
  ro_word : length (r_word r) = Z.to_nat MAXWORDLEN;
  ro_file : Safe -> harmless (r_file r) }.

Lemma returns_ret {A} (a : A) (Q : A -> reader -> Prop) r : Q a r -> returns (ret a) Q r.
Proof. done. Qed.
Lemma returns_bind {A B} (m : M reader Empty_set A) (k : A -> M reader Empty_set B) (Q : B -> reader -> Prop) r :
  returns m (fun a => returns (k a) Q) r -> returns (bind m k) Q r.
Proof. unfold returns, bind. by destruct (m r) as [a r'|[]| |]. Qed.
Lemma returns_mono {A} (m : M reader Empty_set A) (Q Q' : A -> reader -> Prop) r :
  returns m Q r -> (forall a r', Q a r' -> Q' a r') -> returns m Q' r.
Proof. unfold returns. destruct (m r) as [a r'|[]| |]; auto. Qed.
Lemma returns_if {A} (b : bool) (m n : M reader Empty_set A) (Q : A -> reader -> Prop) r :
  (b = true -> returns m Q r) -> (b = false -> returns n Q r) -> returns (if b then m else n) Q r.
Proof. destruct b; auto. Qed.
Lemma returns_word (Q : list Z -> reader -> Prop) r :
  Q (cstring (r_word r)) r -> returns the_word Q r.
Proof. done. Qed.

Definition size (r : reader) : nat := length (r_file r).

Lemma returns_getword (Q : bool * bool -> reader -> Prop) r :
  reader_ok r ->
  (forall (more newline : bool) r', reader_ok r' -> (size r' <= size r)%nat ->
     (if more then (size r' < size r)%nat else newline = false) -> Q (more, newline) r') ->
  returns getword Q r.
Proof.
  intros [Hw Hf] HQ. unfold returns.
  destruct (getword_cases r Hw) as [(more & newline & r' & -> & Hw' & Hs & Hm)|[-> Hn]]; [|auto].
  apply HQ; [|by apply suffix_length|done].
  split; [done|]. intros Hss. exact (harmless_suffix _ _ Hs (Hf Hss)).
Qed.

Lemma returns_next_line fuel newline r :
  reader_ok r -> (size r < fuel)%nat ->
  returns (next_line fuel newline)
    (fun newline' r' => reader_ok r' /\ (size r' <= size r)%nat
       /\ (newline = false -> newline' = true -> (size r' < size r)%nat)) r.
Proof.
  revert newline r. induction fuel as [|fuel IH]; intros newline r Hr Hs; [lia|].
  cbn [next_line]. apply returns_if; intros ->; [by apply returns_ret|].
  apply returns_bind, returns_getword; [done|]. intros more newline r1 Hr1 Hle Hm.
  destruct more; [|subst; by apply returns_ret].
  eapply returns_mono; [apply IH; [done|lia]|]. intros n r2 (Hr2 & Hle2 & _).
  split_and!; [done|lia|lia].
Qed.
Lemma returns_read_addrs fuel r :
  reader_ok r -> (size r < fuel)%nat ->
  returns (read_addrs fuel) (fun _ r' => reader_ok r' /\ (size r' <= size r)%nat) r.
Proof.
  revert r. induction fuel as [|fuel IH]; intros r Hr Hs; [lia|].
  cbn [read_addrs]. apply returns_bind, returns_getword; [done|]. intros more newline r1 Hr1 Hle Hm.
  apply returns_if; intros C; [by apply returns_ret|].
  destruct more; [|done]. apply returns_bind, returns_word, returns_bind.
  eapply returns_mono; [apply IH; [done|lia]|]. intros [l n] r2 (Hr2 & Hle2).
  apply returns_ret. split; [done|lia].
Qed.
Lemma returns_indirect word r :
  reader_ok r ->
  returns (indirect word) (fun _ r' => reader_ok r' /\ size r' = size r) r.
Proof.
  intros [Hw Hf]. unfold indirect. destruct (fopen (drop 1 word)) as [sf|] eqn:E; [|by apply returns_ret].
  unfold returns. destruct (getword_cases (mk_reader sf (r_word r)) Hw)
    as [(more & newline & r' & -> & Hw' & _)|[-> Hn]]; [by split|].
  intros Hss. apply Hn, (HS Hss _ _ E).
Qed.

Lemma returns_scan_loop fuel client server (newline : bool) best r :
  reader_ok r -> (2 * size r + (if newline then 2 else 1) <= fuel)%nat ->
  returns (scan_loop fuel client server newline best) (fun _ _ => True) r.
Proof.
  revert newline best r. induction fuel as [|fuel IH]; intros newline best r Hr Hs;
    [destruct newline; lia|]. cbn [scan_loop].
  apply returns_bind. eapply returns_mono;
    [apply returns_next_line; [done|destruct newline; lia]|]. intros newline' r1 (Hr1 & Hle1 & Hlt1).
  apply returns_if; intros Hn; [by apply returns_ret|]. apply negb_false_iff in Hn as ->.
  assert (Hs1 : (2 * size r1 + 2 <= S fuel)%nat) by (destruct newline; [lia|specialize (Hlt1 eq_refl eq_refl); lia]).
  clear Hs Hlt1 Hle1 Hr r newline.
  apply returns_bind, returns_word, returns_if; intros _; [apply IH; [done|lia]|].
  apply returns_bind, returns_getword; [done|]. intros more newline r2 Hr2 Hle2 Hm2.
  apply returns_if; intros Em; [by apply returns_ret|]. apply negb_false_iff in Em as ->.
  apply returns_if; intros ->; [apply IH; [done|lia]|].
  apply returns_bind, returns_word, returns_if; intros _; [apply IH; [done|lia]|].
  cbv zeta. apply returns_if; intros _; [apply IH; [done|lia]|].
  apply returns_bind, returns_getword; [done|]. intros more newline r3 Hr3 Hle3 Hm3.
  apply returns_if; intros Em; [by apply returns_ret|]. apply negb_false_iff in Em as ->.
  apply returns_if; intros ->; [apply IH; [done|lia]|].
  apply returns_bind, returns_word, returns_bind.
  apply (returns_mono _ (fun _ r' => reader_ok r' /\ size r' = size r3)).
  { destruct (cstring (r_word r3)) as [|c l]; [by apply returns_ret|].
    apply returns_if; intros _; [by apply returns_indirect|by apply returns_ret]. }
  intros ok r4 [Hr4 E4]. apply returns_if; intros _; [apply IH; [done|lia]|].
  apply returns_bind, returns_word, returns_bind.
  eapply returns_mono; [apply returns_read_addrs; [done|lia]|]. intros [addrs newline] r5 [Hr5 Hle5].
  apply returns_if; intros _; [by apply returns_ret|]. apply IH; [done|lia].
Qed.
End Termination.

(** C30: the scan of a secrets file ends, whatever the file holds, within two
    rounds for each of its characters, and it stays within its array if in this
    file and in the files it names nothing is escaped or they are short. *)
Theorem scan_authfile_returns `{Files} client server f word :
  length word = Z.to_nat MAXWORDLEN ->
  scan_authfile client server f word <> Hang
  /\ (harmless f -> (forall name sf, fopen name = Some sf -> harmless sf) ->
      exists r r', scan_authfile client server f word = Ok r r').
Proof.
  intros Hw.
  set (Safe := harmless f /\ forall name sf, fopen name = Some sf -> harmless sf).
  assert (Hr : returns Safe (fun _ => scan_authfile client server f word) (fun _ _ => True)
                (mk_reader f word)).
  { change (returns Safe
      ('(more, _) <- getword ;;
       if negb more then ret None else scan_loop (2 * length f + 2) client server true None)
      (fun _ _ => True) (mk_reader f word)).
    apply returns_bind, (returns_getword Safe); [split; cbn; [done|by intros []]|].
    intros more newline r Hr Hle Hm. apply returns_if; intros _; [by apply returns_ret|].
    apply (returns_scan_loop Safe); [by intros []|done|]. unfold size in *. cbn in Hle. lia. }
  unfold returns in Hr. split.
  - intros E. by rewrite E in Hr.
  - intros Hf Hs. destruct (scan_authfile client server f word) as [a r'|[]| |]; eauto; [|done].
    destruct Hr. by split.
Qed.

(** ** What a file means *)

Record entry := mk_entry {
  e_client : list Z; e_server : list Z; e_secret : list Z; e_addrs : list (list Z) }.

(** Words behind a blank each, and the lines of a file. *)
Definition more_words (ws : list (list Z)) : list Z := concat ((fun w => 32 :: quote w) <$> ws).
Definition rest_of (e : entry) : list (list Z) := e_server e :: e_secret e :: e_addrs e.
Definition line (e : entry) : list Z := quote (e_client e) ++ more_words (rest_of e) ++ [NEWLINE].
Definition file_of (l : list entry) : list Z := concat (line <$> l).

(** The class of an entry, and the first entry of the best class. *)
Definition entry_flag (e : entry) : Z :=
  Z.lor (if ISWILD (e_client e) then 0 else NONWILD_CLIENT)
        (if ISWILD (e_server e) then 0 else NONWILD_SERVER).
Definition entry_matches (client server : option (list Z)) (e : entry) : bool :=
  matches client (e_client e) && matches server (e_server e).
Definition better (client server : option (list Z)) (best : option found) (e : entry) : option found :=
  if entry_matches client server e
     && (match best with Some b => fd_flag b | None => -1 end <? entry_flag e)
  then Some (mk_found (entry_flag e) (e_secret e) (e_addrs e)) else best.
Definition best_entry (client server : option (list Z)) (l : list entry) : option found :=
  foldl (better client server) None l.

(** Words that [getword] can read, and a secret that is not in another file. *)
Definition word_ok (w : list Z) : Prop :=
  Forall (fun c => c <> 0) w /\ Z.of_nat (length w) < MAXWORDLEN - 1.
Record entry_ok (e : entry) : Prop := {
  eo_client : word_ok (e_client e);
  eo_rest : Forall word_ok (rest_of e);
  eo_secret : head (e_secret e) <> Some 64 }.

Section Meaning.
Context `{Files} (client server : option (list Z)).

(** The scan has read the client of the first entry of [l]. *)
Definition at_entry (l : list entry) (r : reader) : Prop :=
  length (r_word r) = Z.to_nat MAXWORDLEN /\
  match l with
  | [] => True
  | e :: l => cstring (r_word r) = e_client e
      /\ r_file r = more_words (rest_of e) ++ NEWLINE :: file_of l
  end.

Lemma separated_words ws f : separated (more_words ws ++ NEWLINE :: f).
Proof. destruct ws; left; reflexivity. Qed.

Lemma more_words_cons w ws f : more_words (w :: ws) ++ f = 32 :: quote w ++ more_words ws ++ f.
Proof. unfold more_words. cbn [fmap list_fmap concat]. by rewrite <- app_assoc. Qed.

Lemma getword_blank w f r :
  word_ok w -> separated f -> length (r_word r) = Z.to_nat MAXWORDLEN ->
  r_file r = 32 :: quote w ++ f ->
  exists r', getword r = Ok (true, false) r' /\ cstring (r_word r') = w /\ r_file r' = f
    /\ length (r_word r') = Z.to_nat MAXWORDLEN.
Proof.
  destruct r as [file b]. cbn. intros [Hz Hl] Hs Hb ->.
  destruct (getword_quoted w [32] f b) as (b' & E & Hw & Hb'); auto.
  eexists. split; [exact E|]. cbn. by rewrite Hb'.
Qed.
Lemma getword_line l r :
  Forall entry_ok l -> length (r_word r) = Z.to_nat MAXWORDLEN ->
  r_file r = NEWLINE :: file_of l ->
  exists r', getword r = Ok (match l with [] => (false, false) | _ => (true, true) end) r'
    /\ at_entry l r'.
Proof.
  destruct r as [file b]. cbn. intros Hl Hb ->. destruct l as [|e l].
  - by exists (mk_reader [] b).
  - apply Forall_cons_iff in Hl as [[[Hz Hlen] _ _] _].
    destruct (getword_quoted (e_client e) [NEWLINE] (more_words (rest_of e) ++ NEWLINE :: file_of l) b)
      as (b' & E & Hw & Hb'); auto using separated_words.
    exists (mk_reader (more_words (rest_of e) ++ NEWLINE :: file_of l) b'). split.
    + replace (NEWLINE :: file_of (e :: l)) with
        ([NEWLINE] ++ quote (e_client e) ++ more_words (rest_of e) ++ NEWLINE :: file_of l); [exact E|].
      unfold file_of. cbn [fmap list_fmap concat]. unfold line. by rewrite <- !app_assoc.
    + split; [cbn; congruence|]. by split.
Qed.

Lemma next_line_words ws l fuel r :
  Forall word_ok ws -> Forall entry_ok l -> length (r_word r) = Z.to_nat MAXWORDLEN ->
  r_file r = more_words ws ++ NEWLINE :: file_of l -> (length ws < fuel)%nat ->
  exists r', next_line fuel false r = Ok (match l with [] => false | _ => true end) r'
    /\ at_entry l r'.
Proof.
  intros Hws Hl. revert fuel r. induction Hws as [|w ws Hw Hws IH]; intros fuel r Hb Hf Hfuel;
    (destruct fuel as [|fuel]; [lia|]); cbn [next_line]; unfold bind.
  - destruct (getword_line l r Hl Hb Hf) as (r' & -> & Hat). exists r'.
    destruct l; [by split|]. destruct fuel; by split.
  - rewrite more_words_cons in Hf.
    destruct (getword_blank w _ r Hw (separated_words ws _) Hb Hf) as (r' & -> & _ & Hf' & Hb').
    apply IH; [done|done|cbn in Hfuel; lia].
Qed.
Lemma read_addrs_words ws l fuel r :
  Forall word_ok ws -> Forall entry_ok l -> length (r_word r) = Z.to_nat MAXWORDLEN ->
  r_file r = more_words ws ++ NEWLINE :: file_of l -> (length ws < fuel)%nat ->
  exists r', read_addrs fuel r = Ok (ws, match l with [] => false | _ => true end) r'
    /\ at_entry l r'.
Proof.
  intros Hws Hl. revert fuel r. induction Hws as [|w ws Hw Hws IH]; intros fuel r Hb Hf Hfuel;
    (destruct fuel as [|fuel]; [lia|]); cbn [read_addrs]; unfold bind.
  - destruct (getword_line l r Hl Hb Hf) as (r' & -> & Hat). exists r'. by destruct l.
  - rewrite more_words_cons in Hf.
    destruct (getword_blank w _ r Hw (separated_words ws _) Hb Hf) as (r' & -> & Hc & Hf' & Hb').
    cbn [negb orb]. unfold the_word, gets.
    destruct (IH fuel r' Hb' Hf') as (r2 & -> & Hat); [cbn in Hfuel; lia|].
    exists r2. by rewrite Hc.
Qed.

(** Going on in the middle of a line. *)
Lemma scan_rest ws l fuel best r :
  Forall word_ok ws -> Forall entry_ok l -> length (r_word r) = Z.to_nat MAXWORDLEN ->
  r_file r = more_words ws ++ NEWLINE :: file_of l -> (length ws < fuel)%nat ->
  exists r', at_entry l r'
    /\ scan_loop fuel client server false best r
       = match l with [] => Ok best r' | _ => scan_loop fuel client server true best r' end.
Proof.
  intros Hws Hl Hb Hf Hfuel. destruct fuel as [|fuel]; [lia|].
  destruct (next_line_words ws l (S fuel) r Hws Hl Hb Hf Hfuel) as (r' & E & Hat).
  exists r'. split; [done|]. cbn [scan_loop]. unfold bind at 1. rewrite E. by destruct l.
Qed.

Lemma scan_entries l fuel best r :
  Forall entry_ok l -> at_entry l r -> (length (concat (rest_of <$> l)) + 1 < fuel)%nat ->
  exists r', match l with [] => Ok best r | _ => scan_loop fuel client server true best r end
    = Ok (foldl (better client server) best l) r'.
Proof.
  revert fuel best r. induction l as [|e l IH]; intros fuel best r Hl Hat Hfuel; [by exists r|].
  apply Forall_cons_iff in Hl as [[Hec Hrest Hsec] Hl].
  destruct fuel as [|fuel]; [lia|]. destruct Hat as (Hb & Hc & Hf).
  cbn [fmap list_fmap concat] in Hfuel. rewrite length_app in Hfuel. cbn [rest_of length] in Hfuel.
  assert (Hskip : forall ws best r, Forall word_ok ws -> (length ws <= length (rest_of e))%nat ->
    length (r_word r) = Z.to_nat MAXWORDLEN -> r_file r = more_words ws ++ NEWLINE :: file_of l ->
    exists r', scan_loop fuel client server false best r = Ok (foldl (better client server) best l) r').
  { intros ws b r1 Hws Hlen Hb1 Hf1. cbn [rest_of length] in Hlen.
    destruct (scan_rest ws l fuel b r1 Hws Hl Hb1 Hf1) as (r' & Hat' & ->); [lia|].
    apply IH; [done|done|lia]. }
  apply Forall_cons_iff in Hrest as Hrest'. destruct Hrest' as [Hserver Hrest'].
  apply Forall_cons_iff in Hrest' as [Hsecret Haddrs].
  cbn [scan_loop next_line foldl]. unfold bind at 1, ret at 1. cbn [negb].
  unfold bind at 1, the_word at 1, gets at 1. rewrite Hc.
  assert (Hfalse : entry_matches client server e = false -> better client server best e = best)
    by (intros Hm; unfold better; by rewrite Hm).
  destruct (matches client (e_client e)) eqn:Hmc; cbn [negb].
  2: { rewrite Hfalse by (unfold entry_matches; by rewrite Hmc). by apply (Hskip (rest_of e)). }
  unfold rest_of in Hf. rewrite more_words_cons in Hf.
  destruct (getword_blank _ _ r Hserver (separated_words (e_secret e :: e_addrs e) _) Hb Hf)
    as (r1 & E1 & Hc1 & Hf1 & Hb1).
  unfold bind at 1. rewrite E1. cbn [negb]. unfold bind at 1, the_word at 1, gets at 1. rewrite Hc1.
  destruct (matches server (e_server e)) eqn:Hms; cbn [negb].
  2: { rewrite Hfalse by (unfold entry_matches; by rewrite Hmc, Hms).
       apply (Hskip (e_secret e :: e_addrs e)); [by constructor|cbn; lia|done|done]. }
  replace (if ISWILD (e_server e) then if ISWILD (e_client e) then 0 else NONWILD_CLIENT
           else Z.lor (if ISWILD (e_client e) then 0 else NONWILD_CLIENT) NONWILD_SERVER)
    with (entry_flag e) by (unfold entry_flag; by destruct (ISWILD _), (ISWILD _)).
  assert (Hbetter : better client server best e
    = if entry_flag e <=? match best with Some b => fd_flag b | None => -1 end then best
      else Some (mk_found (entry_flag e) (e_secret e) (e_addrs e))).
  { unfold better, entry_matches. rewrite Hmc, Hms, Z.leb_antisym. by destruct (_ <? _). }
  rewrite Hbetter. destruct (entry_flag e <=? _).
  { apply (Hskip (e_secret e :: e_addrs e)); [by constructor|cbn; lia|done|done]. }
  rewrite more_words_cons in Hf1.
  destruct (getword_blank _ _ r1 Hsecret (separated_words (e_addrs e) _) Hb1 Hf1)
    as (r2 & E2 & Hc2 & Hf2 & Hb2).
  unfold bind at 1. rewrite E2. cbn [negb]. unfold bind at 1, the_word at 1, gets at 1. rewrite Hc2.
  replace (match e_secret e with
           | c :: _ => if c =? 64 then indirect (e_secret e) else ret true
           | [] => ret true end) with (ret true : M reader Empty_set bool).
  2: { destruct (e_secret e) as [|c s]; [done|]. rewrite (proj2 (Z.eqb_neq _ _)); [done|].
       intros ->. by destruct Hsec. }
  unfold bind at 1, ret at 1. cbn [negb]. unfold bind at 1, the_word at 1, gets at 1. rewrite Hc2.
  destruct (read_addrs_words (e_addrs e) l (S fuel) r2 Haddrs Hl Hb2 Hf2) as (r3 & E3 & Hat3); [lia|].
  unfold bind at 1. rewrite E3.
  destruct (IH fuel (Some (mk_found (entry_flag e) (e_secret e) (e_addrs e))) r3 Hl Hat3) as (r' & E');
    [lia|].
  exists r'. rewrite <- E'. by destruct l.
Qed.
End Meaning.

(** C16: a secrets file that was written with quoted words gives the secret and
    the addresses of the first of its best entries: those that match, and among
    these the ones that name the client, then the ones that name the server. *)
Theorem scan_authfile_best `{Files} client server l word :
  Forall entry_ok l -> length word = Z.to_nat MAXWORDLEN ->
  exists r, scan_authfile client server (file_of l) word = Ok (best_entry client server l) r.
Proof.
  intros Hl Hb. unfold scan_authfile. destruct l as [|e l].
  - by exists (mk_reader [] word).
  - pose proof Hl as Hl'. apply Forall_cons_iff in Hl' as [[[Hz Hlen] _ _] _].
    destruct (getword_quoted (e_client e) [] (more_words (rest_of e) ++ NEWLINE :: file_of l) word)
      as (b' & E & Hw & Hb'); auto using separated_words.
    assert (Hf : file_of (e :: l) = quote (e_client e) ++ more_words (rest_of e) ++ NEWLINE :: file_of l).
    { unfold file_of. cbn [fmap list_fmap concat]. unfold line. by rewrite <- !app_assoc. }
    cbv zeta. remember (2 * length (file_of (e :: l)) + 2)%nat as fuel eqn:Hfuel.
    unfold bind. rewrite Hf. cbn [app] in E. rewrite E. cbn [negb].
    destruct (scan_entries client server (e :: l) fuel None
      (mk_reader (more_words (rest_of e) ++ NEWLINE :: file_of l) b')) as (r & Er); [done| | |by exists r].
    + split; [cbn; congruence|]. by split.
    + assert (Hle : forall l, (length (concat (rest_of <$> l)) <= length (file_of l))%nat).
      { clear. intros l. induction l as [|e l IH]; [done|]. unfold file_of, line in *.
        cbn [fmap list_fmap concat]. rewrite !length_app.
        enough (length (rest_of e) <= length (more_words (rest_of e)))%nat by lia.
        generalize (rest_of e). clear. intros ws. induction ws as [|w ws IH]; [done|].
        unfold more_words in *. cbn [fmap list_fmap concat]. rewrite length_app. cbn. lia. }
      specialize (Hle (e :: l)). lia.
Qed.

(** ** The table in memory *)

(** An entry of the table as a line of a file. *)
Definition as_entry (e : PPP_SECRET) : entry :=
  mk_entry (ps_client e) (ps_server e) (ps_secret e) (strtok (ps_addrs e) []).

Section Table.
Context `{Files} (client server : option (list Z)).

(** The best entry so far, as [pppSecretFind] keeps it and as it is reported. *)
Definition reported (best : option (Z * PPP_SECRET)) : option found :=
  (fun p => mk_found p.1 (ps_secret p.2) (strtok (ps_addrs p.2) [])) <$> best.

Lemma find_loop_best l got best :
  Forall (fun e => ISWILD (ps_client e) = false) l ->
  reported (find_loop client server l got best)
  = foldl (better client server) (reported best) (as_entry <$> l).
Proof.
  intros Hl. revert got best. induction Hl as [|e l He Hl IH]; intros got best; [done|].
  cbn [find_loop fmap list_fmap foldl]. unfold better at 2, entry_matches. cbn [as_entry e_client e_server].
  destruct (matches client (ps_client e)), (matches server (ps_server e)); cbn [negb orb andb]; try apply IH.
  rewrite IH, He. unfold entry_flag. cbn [as_entry e_client e_server e_secret e_addrs]. rewrite He.
  assert (Hb : match reported best with Some b => fd_flag b | None => -1 end
    = match best with Some (b, _) => b | None => -1 end) by (by destruct best as [[]|]).
  rewrite Hb. destruct (ISWILD (ps_server e)); by destruct (_ <? _).
Qed.
End Table.

(** C31: the table gives the first of its best entries, as a file with the same
    entries would, when no entry has a wildcard for its client. *)
Theorem pppSecretFind_best `{Files} client server l :
  Forall (fun e => ISWILD (ps_client e) = false /\ head (ps_secret e) <> Some 64) l ->
  pppSecretFind (mk_lib true l) client server = Some (best_entry client server (as_entry <$> l)).
Proof.
  intros Hl. assert (Hw : Forall (fun e => ISWILD (ps_client e) = false) l)
    by (revert Hl; apply Forall_impl; by intros e []).
  assert (Hin : forall l' got best flag e,
    Forall (fun e => ISWILD (ps_client e) = false /\ head (ps_secret e) <> Some 64) l' ->
    (forall f e, best = Some (f, e) -> head (ps_secret e) <> Some 64) ->
    find_loop client server l' got best = Some (flag, e) -> head (ps_secret e) <> Some 64).
  { intros l' got best flag e Hl'. revert got best.
    induction Hl' as [|d l' [_ Hd] Hl' IH]; intros got best Hb Hf; [eauto|].
    cbn [find_loop] in Hf. destruct (_ || _); [by eapply IH|].
    eapply IH, Hf. destruct (_ <? _); [by intros f' e' [= <- <-]|done]. }
  pose proof (find_loop_best client server l 0 None Hw) as Hbest.
  unfold pppSecretFind, best_entry. cbn [sl_sem sl_table negb].
  change (reported None) with (None : option found) in Hbest. rewrite <- Hbest.
  destruct (find_loop _ _ _ _ _) as [[flag e]|] eqn:E; [|done].
  apply Hin in E; [|done|done]. destruct e as [c s [|x secret] a]; [done|]. cbn in *.
  destruct (decide (x = 64)) as [-> |Hx]; [done|].
  destruct x as [|p|p]; try done. by do 7 (destruct p as [p|p|]; try done).
Qed.

(** With a wildcard for the client, the flag of an earlier entry sticks: an
    entry for any client behind one for a named client is reported as naming the
    client, so that an empty secret in it lets in a peer that refuses to
    authenticate itself, which [null_login] means to exclude ("We don't accept a
    wildcard client"). *)
Theorem null_login_takes_wildcard `{Files} c p a s a' file :
  ISWILD c = false -> ISWILD s = false -> s <> [] ->
  let lib := mk_lib true [mk_secret c [42] p a; mk_secret [42] s [] a'] in
  search_null lib file s = Some (Some (mk_found 3 [] (strtok a' [])))
  /\ best_entry (Some []) (Some s) (as_entry <$> sl_table lib) = Some (mk_found 2 p (strtok a [])).
Proof.
  intros Hc Hs Hne. destruct s as [|x s]; [done|]. cbv zeta.
  assert (Hm : bool_decide ([42] = x :: s) || ISWILD [42] = true) by apply orb_true_r.
  split.
  - unfold search_null, pppSecretFind. cbn [sl_sem sl_table negb find_loop ps_client ps_server].
    unfold matches. rewrite Hm, bool_decide_true by done. cbn [orb negb].
    rewrite Hc, Hs. change (ISWILD [42]) with true. reflexivity.
  - unfold best_entry. cbn [sl_table fmap list_fmap foldl]. unfold better, entry_matches, matches.
    cbn [as_entry e_client e_server ps_client ps_server]. rewrite Hm. cbn [andb orb].
    unfold entry_flag. cbn [as_entry e_client e_server ps_client ps_server].
    rewrite Hc, Hs. change (ISWILD [42]) with true. cbn.
    by rewrite bool_decide_true by done.
Qed.

(** Deleting the secret that was added last gives the table as it was, even
    if it has equal entries further down. *)
Theorem pppSecretDelete_Add client server secret addrs lib :
  sl_sem lib = true ->
  Z.of_nat (length client) < MAXNAMELEN -> Z.of_nat (length server) < MAXNAMELEN ->
  Z.of_nat (length secret) < MAXSECRETLEN ->
  match addrs with Some a => Z.of_nat (length a) < MAXNAMELEN | None => True end ->
  (added <- pppSecretAdd true (Some client) (Some server) (Some secret) addrs ;;
   deleted <- pppSecretDelete client server secret ;; ret (added, deleted)) lib
  = Ok (true, true) lib.
Proof.
  destruct lib as [sem table]. cbn. intros -> Hc Hs Hp Ha. unfold pppSecretAdd, bind, gets.
  cbn [id sl_sem negb sl_table]. unfold strcpy_to.
  rewrite !(proj2 (Z.ltb_lt _ _)) by done. unfold access at 1 2 3, ret.
  destruct addrs as [a|]; [rewrite (proj2 (Z.ltb_lt _ _)) by done|]; cbn -[bool_decide];
    unfold pppSecretDelete, is_entry, gets, bind, put, ret; cbn -[bool_decide];
    unfold is_entry; cbn -[bool_decide]; by rewrite !bool_decide_true.
Qed.

(** ** Witnesses *)

#[local] Instance no_files : Files := fun _ => None.
Definition sample_entry : entry := mk_entry [98] [42] [112] [[45]].

Lemma scan_authfile_returns_witness :
  length (replicate 1024 0) = Z.to_nat MAXWORDLEN
  /\ scan_authfile None None (file_of [sample_entry]) (replicate 1024 0) <> Hang.
Proof.
  split; [reflexivity|].
  exact (proj1 (scan_authfile_returns None None (file_of [sample_entry]) (replicate 1024 0) eq_refl)).
Defined.
Lemma scan_authfile_best_witness :
  best_entry (Some [98]) None [sample_entry] = Some (mk_found 2 [112] [[45]])
  /\ exists r, scan_authfile (Some [98]) None (file_of [sample_entry]) (replicate 1024 0)
    = Ok (best_entry (Some [98]) None [sample_entry]) r.
Proof.
  split; [reflexivity|]. apply (scan_authfile_best (Some [98]) None [sample_entry] (replicate 1024 0)).
  - repeat constructor; discriminate.
  - reflexivity.
Defined.
Lemma pppSecretFind_best_witness :
  pppSecretFind (mk_lib true [mk_secret [98] [42] [112] []]) (Some [98]) None
  = Some (best_entry (Some [98]) None (as_entry <$> [mk_secret [98] [42] [112] []])).
Proof. apply pppSecretFind_best. repeat constructor; discriminate. Defined.
Lemma null_login_takes_wildcard_witness :
  search_null (mk_lib true [mk_secret [98] [42] [112] []; mk_secret [42] [97] [] []]) None [97]
    = Some (Some (mk_found 3 [] []))
  /\ best_entry (Some []) (Some [97])
       (as_entry <$> [mk_secret [98] [42] [112] []; mk_secret [42] [97] [] []])
     = Some (mk_found 2 [112] []).
Proof. apply (null_login_takes_wildcard [98] [112] [] [97] [] None); [reflexivity..|discriminate]. Defined.
Lemma pppSecretDelete_Add_witness :
  (added <- pppSecretAdd true (Some [98]) (Some [42]) (Some [112]) None ;;
   deleted <- pppSecretDelete [98] [42] [112] ;; ret (added, deleted)) (mk_lib true [])
  = Ok (true, true) (mk_lib true []).
Proof. apply pppSecretDelete_Add; reflexivity || exact I. Defined.
