(* ===== verification/Lcp.v ===== *)
(** * lcp.c: the options of the Link Control Protocol

    [lcp_options] and the callbacks that build, check and answer
    configuration options: [lcp_cilen], [lcp_addci], [lcp_ackci], [lcp_nakci],
    [lcp_rejci] and [lcp_reqci].  They are functions of the option records
    (and of the random numbers); Ppp.v gives them the task's records.  The
    macros of the C functions are definitions of the same names. *)

From S2P Require Export Magic.

Definition CI_MRU := 1.
Definition CI_ASYNCMAP := 2.
Definition CI_AUTHTYPE := 3.
Definition CI_QUALITY := 4.
Definition CI_MAGICNUMBER := 5.
Definition CI_PCOMPRESSION := 7.
Definition CI_ACCOMPRESSION := 8.

Definition CILEN_VOID := 2.
Definition CILEN_SHORT := 4.
Definition CILEN_CHAP := 5.
Definition CILEN_LONG := 6.
Definition CILEN_LQR := 8.

Definition DEFMRU := 1500.
Definition MINMRU := 128.
Definition MAXMRU := 16384.
Definition CHAP_DIGEST_MD5 := 5.

(** The one-bit fields are booleans: the code only tests them and copies them. *)
Record lcp_options := mk_lcp_options {
  passive : bool;
  silent : bool;
  restart : bool;
  neg_mru : bool;
  neg_asyncmap : bool;
  neg_upap : bool;
  neg_chap : bool;
  neg_magicnumber : bool;
  neg_pcompression : bool;
  neg_accompression : bool;
  neg_lqr : bool;
  mru : Z;
  chap_mdtype : Z;
  asyncmap : Z;
  magicnumber : Z;
  numloops : Z;
  lqr_period : Z }.

#[export] Instance eta_lcp_options : Eta lcp_options := fun o => {|
  passive := passive o; silent := silent o; restart := restart o;
  neg_mru := neg_mru o; neg_asyncmap := neg_asyncmap o; neg_upap := neg_upap o;
  neg_chap := neg_chap o; neg_magicnumber := neg_magicnumber o;
  neg_pcompression := neg_pcompression o; neg_accompression := neg_accompression o;
  neg_lqr := neg_lqr o; mru := mru o; chap_mdtype := chap_mdtype o;
  asyncmap := asyncmap o; magicnumber := magicnumber o; numloops := numloops o;
  lqr_period := lqr_period o |}.
#[export] Instance set_passive : Setter passive := ltac:(derive_setter).
#[export] Instance set_silent : Setter silent := ltac:(derive_setter).
#[export] Instance set_restart : Setter restart := ltac:(derive_setter).
#[export] Instance set_neg_mru : Setter neg_mru := ltac:(derive_setter).
#[export] Instance set_neg_asyncmap : Setter neg_asyncmap := ltac:(derive_setter).
#[export] Instance set_neg_upap : Setter neg_upap := ltac:(derive_setter).
#[export] Instance set_neg_chap : Setter neg_chap := ltac:(derive_setter).
#[export] Instance set_neg_magicnumber : Setter neg_magicnumber := ltac:(derive_setter).
#[export] Instance set_neg_pcompression : Setter neg_pcompression := ltac:(derive_setter).
#[export] Instance set_neg_accompression : Setter neg_accompression := ltac:(derive_setter).
#[export] Instance set_neg_lqr : Setter neg_lqr := ltac:(derive_setter).
#[export] Instance set_mru : Setter mru := ltac:(derive_setter).
#[export] Instance set_chap_mdtype : Setter chap_mdtype := ltac:(derive_setter).
#[export] Instance set_asyncmap : Setter asyncmap := ltac:(derive_setter).
#[export] Instance set_magicnumber : Setter magicnumber := ltac:(derive_setter).
#[export] Instance set_numloops : Setter numloops := ltac:(derive_setter).
#[export] Instance set_lqr_period : Setter lqr_period := ltac:(derive_setter).

(** [BZERO] of the structure. *)
Definition no_lcp_options : lcp_options :=
  mk_lcp_options false false false false false false false false false false false
    0 0 0 0 0 0.

(** The fields hold values of their C types. *)
Record lcp_options_ok (o : lcp_options) : Prop := {
  mru_ok : is_u16 (mru o);
  chap_mdtype_ok : is_u8 (chap_mdtype o);
  asyncmap_ok : is_u32 (asyncmap o);
  magicnumber_ok : is_u32 (magicnumber o);
  lqr_period_ok : is_u32 (lqr_period o) }.

(** The options [lcp_init] stores in [wo] and [ao], whatever they were. *)
Definition lcp_init_want (wo : lcp_options) : lcp_options :=
  wo <| passive := false |> <| silent := false |> <| restart := false |>
     <| neg_mru := true |> <| mru := DEFMRU |>
     <| neg_asyncmap := false |> <| asyncmap := 0 |>
     <| neg_chap := false |> <| neg_upap := false |>
     <| chap_mdtype := CHAP_DIGEST_MD5 |>
     <| neg_magicnumber := true |> <| neg_pcompression := true |>
     <| neg_accompression := true |> <| neg_lqr := false |>.
Definition lcp_init_allow (ao : lcp_options) : lcp_options :=
  ao <| neg_mru := true |> <| mru := MAXMRU |>
     <| neg_asyncmap := true |> <| asyncmap := 0 |>
     <| neg_chap := true |> <| chap_mdtype := CHAP_DIGEST_MD5 |>
     <| neg_upap := true |> <| neg_magicnumber := true |>
     <| neg_pcompression := true |> <| neg_accompression := true |>
     <| neg_lqr := false |>.

(** ** Our request *)

Definition LENCIVOID (neg : bool) : Z := if neg then CILEN_VOID else 0.
Definition LENCICHAP (neg : bool) : Z := if neg then CILEN_CHAP else 0.
Definition LENCISHORT (neg : bool) : Z := if neg then CILEN_SHORT else 0.
Definition LENCILONG (neg : bool) : Z := if neg then CILEN_LONG else 0.
Definition LENCILQR (neg : bool) : Z := if neg then CILEN_LQR else 0.

Definition lcp_cilen (go : lcp_options) : Z :=
  LENCISHORT (neg_mru go) +
  LENCILONG (neg_asyncmap go) +
  LENCICHAP (neg_chap go) +
  LENCISHORT (negb (neg_chap go) && neg_upap go) +
  LENCILQR (neg_lqr go) +
  LENCILONG (neg_magicnumber go) +
  LENCIVOID (neg_pcompression go) +
  LENCIVOID (neg_accompression go).

Definition ADDCIVOID (opt : Z) (neg : bool) : list Z :=
  if neg then PUTCHAR opt ++ PUTCHAR CILEN_VOID else [].
Definition ADDCISHORT (opt : Z) (neg : bool) (val : Z) : list Z :=
  if neg then PUTCHAR opt ++ PUTCHAR CILEN_SHORT ++ PUTSHORT val else [].
Definition ADDCICHAP (opt : Z) (neg : bool) (val digest : Z) : list Z :=
  if neg then PUTCHAR opt ++ PUTCHAR CILEN_CHAP ++ PUTSHORT val ++ PUTCHAR digest
  else [].
Definition ADDCILONG (opt : Z) (neg : bool) (val : Z) : list Z :=
  if neg then PUTCHAR opt ++ PUTCHAR CILEN_LONG ++ PUTLONG val else [].
Definition ADDCILQR (opt : Z) (neg : bool) (val : Z) : list Z :=
  if neg then PUTCHAR opt ++ PUTCHAR CILEN_LQR ++ PUTSHORT LQR ++ PUTLONG val else [].

(** The bytes put at [ucp]; [*lenp] is only compared with their number. *)
Definition lcp_addci (go : lcp_options) : list Z :=
  ADDCISHORT CI_MRU (neg_mru go) (mru go) ++
  ADDCILONG CI_ASYNCMAP (neg_asyncmap go) (asyncmap go) ++
  ADDCICHAP CI_AUTHTYPE (neg_chap go) CHAP (chap_mdtype go) ++
  ADDCISHORT CI_AUTHTYPE (negb (neg_chap go) && neg_upap go) UPAP ++
  ADDCILQR CI_QUALITY (neg_lqr go) (lqr_period go) ++
  ADDCILONG CI_MAGICNUMBER (neg_magicnumber go) (magicnumber go) ++
  ADDCIVOID CI_PCOMPRESSION (neg_pcompression go) ++
  ADDCIVOID CI_ACCOMPRESSION (neg_accompression go).

(** ** The peer's Ack *)

(** [if ((len -= n) < 0) goto bad;] *)
Definition need (n : Z) : parser unit :=
  take_len n ;; l <- gets len ;; when (l <? 0) bad.

(** The type and length octets, which must be [opt] and [n]. *)
Definition ack_header (opt n : Z) : parser unit :=
  need n ;;
  citype <- GETCHAR ;; cilen <- GETCHAR ;;
  when (negb (cilen =? n) || negb (citype =? u8 opt)) bad.

Definition ACKCIVOID (opt : Z) (neg : bool) : parser unit :=
  when neg (ack_header opt CILEN_VOID).
Definition ACKCISHORT (opt : Z) (neg : bool) (val : Z) : parser unit :=
  when neg (ack_header opt CILEN_SHORT ;;
            cishort <- GETSHORT ;; when (negb (cishort =? u16 val)) bad).
Definition ACKCICHAP (opt : Z) (neg : bool) (val digest : Z) : parser unit :=
  when neg (ack_header opt CILEN_CHAP ;;
            cishort <- GETSHORT ;; when (negb (cishort =? u16 val)) bad ;;
            cichar <- GETCHAR ;; when (negb (cichar =? u8 digest)) bad).
Definition ACKCILONG (opt : Z) (neg : bool) (val : Z) : parser unit :=
  when neg (ack_header opt CILEN_LONG ;;
            cilong <- GETLONG ;; when (negb (cilong =? u32 val)) bad).
Definition ACKCILQR (opt : Z) (neg : bool) (val : Z) : parser unit :=
  when neg (ack_header opt CILEN_LQR ;;
            cishort <- GETSHORT ;; when (negb (cishort =? LQR)) bad ;;
            cilong <- GETLONG ;; when (negb (cilong =? u32 val)) bad).

(** [if (len != 0) goto bad;] *)
Definition no_more : parser unit := l <- gets len ;; when (negb (l =? 0)) bad.

Definition lcp_ackci (go : lcp_options) : parser unit :=
  ACKCISHORT CI_MRU (neg_mru go) (mru go) ;;
  ACKCILONG CI_ASYNCMAP (neg_asyncmap go) (asyncmap go) ;;
  ACKCICHAP CI_AUTHTYPE (neg_chap go) CHAP (chap_mdtype go) ;;
  ACKCISHORT CI_AUTHTYPE (negb (neg_chap go) && neg_upap go) UPAP ;;
  ACKCILQR CI_QUALITY (neg_lqr go) (lqr_period go) ;;
  ACKCILONG CI_MAGICNUMBER (neg_magicnumber go) (magicnumber go) ;;
  ACKCIVOID CI_PCOMPRESSION (neg_pcompression go) ;;
  ACKCIVOID CI_ACCOMPRESSION (neg_accompression go) ;;
  no_more.

(** ** The peer's Reject *)

(** [go->neg && len >= n && p[1] == n && p[0] == opt]; the cursor moves past
    the two octets and [len] past the option when it holds. *)
Definition ci_is (opt : Z) (neg : bool) (n : Z) : parser bool :=
  if neg then
    l <- gets len ;;
    if l <? n then ret false else
    p1 <- peek 1 ;;
    if negb (p1 =? n) then ret false else
    p0 <- peek 0 ;;
    if negb (p0 =? opt) then ret false else
    take_len n ;; INCPTR 2 ;; ret true
  else ret false.

(** Each returns whether the option was found, which is when [try.neg] is
    cleared. *)
Definition REJCIVOID (opt : Z) (neg : bool) : parser bool := ci_is opt neg CILEN_VOID.
Definition REJCISHORT (opt : Z) (neg : bool) (val : Z) : parser bool :=
  found <- ci_is opt neg CILEN_SHORT ;;
  when found (cishort <- GETSHORT ;; when (negb (cishort =? u16 val)) bad) ;;
  ret found.
Definition REJCICHAP (opt : Z) (neg : bool) (val digest : Z) : parser bool :=
  found <- ci_is opt neg CILEN_CHAP ;;
  when found (cishort <- GETSHORT ;; cichar <- GETCHAR ;;
              when (negb (cishort =? u16 val) || negb (cichar =? u8 digest)) bad) ;;
  ret found.
Definition REJCILONG (opt : Z) (neg : bool) (val : Z) : parser bool :=
  found <- ci_is opt neg CILEN_LONG ;;
  when found (cilong <- GETLONG ;; when (negb (cilong =? u32 val)) bad) ;;
  ret found.
Definition REJCILQR (opt : Z) (neg : bool) (val : Z) : parser bool :=
  found <- ci_is opt neg CILEN_LQR ;;
  when found (cishort <- GETSHORT ;; cilong <- GETLONG ;;
              when (negb (cishort =? LQR) || negb (cilong =? val)) bad) ;;
  ret found.

Definition keep (found neg : bool) : bool := negb found && neg.

Definition clear_options (go : lcp_options) (r_mru r_map r_chap r_upap r_lqr r_magic r_pc r_ac : bool)
  : lcp_options :=
  go <| neg_mru ::= keep r_mru |> <| neg_asyncmap ::= keep r_map |>
     <| neg_chap ::= keep r_chap |> <| neg_upap ::= keep r_upap |>
     <| neg_lqr ::= keep r_lqr |> <| neg_magicnumber ::= keep r_magic |>
     <| neg_pcompression ::= keep r_pc |> <| neg_accompression ::= keep r_ac |>.

(** The [try] that replaces [*go] (unless the state is OPENED). *)
Definition lcp_rejci (go : lcp_options) : parser lcp_options :=
  r_mru <- REJCISHORT CI_MRU (neg_mru go) (mru go) ;;
  r_map <- REJCILONG CI_ASYNCMAP (neg_asyncmap go) (asyncmap go) ;;
  r_chap <- REJCICHAP CI_AUTHTYPE (neg_chap go) CHAP (chap_mdtype go) ;;
  r_upap <- (if negb (neg_chap go)
             then REJCISHORT CI_AUTHTYPE (neg_upap go) UPAP else ret false) ;;
  r_lqr <- REJCILQR CI_QUALITY (neg_lqr go) (lqr_period go) ;;
  r_magic <- REJCILONG CI_MAGICNUMBER (neg_magicnumber go) (magicnumber go) ;;
  r_pc <- REJCIVOID CI_PCOMPRESSION (neg_pcompression go) ;;
  r_ac <- REJCIVOID CI_ACCOMPRESSION (neg_accompression go) ;;
  no_more ;;
  ret (clear_options go r_mru r_map r_chap r_upap r_lqr r_magic r_pc r_ac).

(** ** The peer's Nak *)

(** The locals of [lcp_nakci], and the random numbers [magic] draws from. *)
Record nak_locals := mk_nak {
  n_cur : cursor;
  n_no : lcp_options;
  n_try : lcp_options;
  n_looped : bool;
  n_rng : rng }.
#[export] Instance eta_nak_locals : Eta nak_locals := fun s => {|
  n_cur := n_cur s; n_no := n_no s; n_try := n_try s; n_looped := n_looped s;
  n_rng := n_rng s |}.
#[export] Instance set_n_cur : Setter n_cur := ltac:(derive_setter).
#[export] Instance set_n_no : Setter n_no := ltac:(derive_setter).
#[export] Instance set_n_try : Setter n_try := ltac:(derive_setter).
#[export] Instance set_n_looped : Setter n_looped := ltac:(derive_setter).
#[export] Instance set_n_rng : Setter n_rng := ltac:(derive_setter).

Definition nakker := M nak_locals unit.
Definition at_cur {A} (m : parser A) : nakker A :=
  zoom n_cur (fun c s => s <| n_cur := c |>) m.
Definition nak_magic : nakker Z := zoom n_rng (fun g s => s <| n_rng := g |>) magic.
Definition set_no (g : lcp_options -> lcp_options) : nakker unit :=
  modify (fun s => s <| n_no ::= g |>).
Definition set_try (g : lcp_options -> lcp_options) : nakker unit :=
  modify (fun s => s <| n_try ::= g |>).

(** [seen] is the [no.neg = 1] of the macro. *)
Definition NAKCIVOID (opt : Z) (neg : bool) (seen : lcp_options -> lcp_options)
  (code : nakker unit) : nakker unit :=
  found <- at_cur (ci_is opt neg CILEN_VOID) ;;
  when found (set_no seen ;; code).
Definition NAKCICHAP (opt : Z) (neg : bool) (seen : lcp_options -> lcp_options)
  (code : Z -> Z -> nakker unit) : nakker unit :=
  found <- at_cur (ci_is opt neg CILEN_CHAP) ;;
  when found (cishort <- at_cur GETSHORT ;; cichar <- at_cur GETCHAR ;;
              set_no seen ;; code cishort cichar).
Definition NAKCISHORT (opt : Z) (neg : bool) (seen : lcp_options -> lcp_options)
  (code : Z -> nakker unit) : nakker unit :=
  found <- at_cur (ci_is opt neg CILEN_SHORT) ;;
  when found (cishort <- at_cur GETSHORT ;; set_no seen ;; code cishort).
Definition NAKCILONG (opt : Z) (neg : bool) (seen : lcp_options -> lcp_options)
  (code : Z -> nakker unit) : nakker unit :=
  found <- at_cur (ci_is opt neg CILEN_LONG) ;;
  when found (cilong <- at_cur GETLONG ;; set_no seen ;; code cilong).
Definition NAKCILQR (opt : Z) (neg : bool) (seen : lcp_options -> lcp_options)
  (code : Z -> Z -> nakker unit) : nakker unit :=
  found <- at_cur (ci_is opt neg CILEN_LQR) ;;
  when found (cishort <- at_cur GETSHORT ;; cilong <- at_cur GETLONG ;;
              set_no seen ;; code cishort cilong).

(** The [switch] over the options that remain: is this one a deviation? *)
Definition nak_rest_bad (go no : lcp_options) (citype cilen : Z) : bool :=
  if citype =? CI_MRU then neg_mru go || neg_mru no || negb (cilen =? CILEN_SHORT)
  else if citype =? CI_ASYNCMAP then
    neg_asyncmap go || neg_asyncmap no || negb (cilen =? CILEN_LONG)
  else if citype =? CI_AUTHTYPE then
    neg_chap go || neg_chap no || neg_upap go || neg_upap no
  else if citype =? CI_MAGICNUMBER then
    neg_magicnumber go || neg_magicnumber no || negb (cilen =? CILEN_LONG)
  else if citype =? CI_PCOMPRESSION then
    neg_pcompression go || neg_pcompression no || negb (cilen =? CILEN_VOID)
  else if citype =? CI_ACCOMPRESSION then
    neg_accompression go || neg_accompression no || negb (cilen =? CILEN_VOID)
  else if citype =? CI_QUALITY then
    neg_lqr go || neg_lqr no || negb (cilen =? CILEN_LQR)
  else true.

(** One round of [while (len > CILEN_VOID)]; [next] is [cilen] octets after
    the start of the option. *)
Definition nak_rest_step (go no : lcp_options) : parser unit :=
  start <- gets p ;;
  citype <- GETCHAR ;; cilen <- GETCHAR ;;
  need cilen ;;
  when (nak_rest_bad go no citype cilen) bad ;;
  modify (fun c => c <| p := drop (Z.to_nat cilen) start |>).

Fixpoint nak_rest (fuel : nat) (go no : lcp_options) : parser unit :=
  l <- gets len ;;
  if CILEN_VOID <? l then
    match fuel with
    | O => hang
    | S fuel => nak_rest_step go no ;; nak_rest fuel go no
    end
  else ret tt.

(** The part of [lcp_nakci] before that loop. *)
Definition nak_requested (wo go : lcp_options) : nakker unit :=
  NAKCISHORT CI_MRU (neg_mru go) (fun no => no <| neg_mru := true |>)
    (fun cishort =>
       when ((cishort <=? mru wo) || (cishort <? DEFMRU))
         (set_try (fun t => t <| mru := cishort |>))) ;;
  NAKCILONG CI_ASYNCMAP (neg_asyncmap go) (fun no => no <| neg_asyncmap := true |>)
    (fun cilong => set_try (fun t => t <| asyncmap := Z.lor (asyncmap go) cilong |>)) ;;
  NAKCICHAP CI_AUTHTYPE (neg_chap go) (fun no => no <| neg_chap := true |>)
    (fun _ _ => set_try (fun t => t <| neg_chap := false |>)) ;;
  when (negb (neg_chap go))
    (NAKCISHORT CI_AUTHTYPE (neg_upap go) (fun no => no <| neg_upap := true |>)
       (fun _ => set_try (fun t => t <| neg_upap := false |>))) ;;
  NAKCILQR CI_QUALITY (neg_lqr go) (fun no => no <| neg_lqr := true |>)
    (fun cishort cilong =>
       if negb (cishort =? LQR) then set_try (fun t => t <| neg_lqr := false |>)
       else set_try (fun t => t <| lqr_period := cilong |>)) ;;
  NAKCILONG CI_MAGICNUMBER (neg_magicnumber go) (fun no => no <| neg_magicnumber := true |>)
    (fun _ =>
       m <- nak_magic ;;
       set_try (fun t => t <| magicnumber := m |> <| numloops ::= fun n => n + 1 |>) ;;
       modify (fun s => s <| n_looped := true |>)) ;;
  NAKCIVOID CI_PCOMPRESSION (neg_pcompression go) (fun no => no <| neg_pcompression := true |>)
    (set_try (fun t => t <| neg_pcompression := false |>)) ;;
  NAKCIVOID CI_ACCOMPRESSION (neg_accompression go) (fun no => no <| neg_accompression := true |>)
    (set_try (fun t => t <| neg_accompression := false |>)).

(** The [try] that replaces [*go] (unless the state is OPENED); the random
    numbers are drawn even when the Nak turns out to be bad. *)
Definition lcp_nakci (fuel : nat) (wo go : lcp_options) : nakker lcp_options :=
  nak_requested wo go ;;
  no <- gets n_no ;;
  at_cur (nak_rest fuel go no) ;;
  at_cur no_more ;;
  gets n_try.

(** ** The peer's request *)

(** The locals of [lcp_reqci].  Pointers are offsets from [inp]; [q_buf] is the
    packet buffer from [inp] to its end, [q_nak] what has been written to
    [nak_buffer]; [q_ho] is [*ho]. *)
Record req_locals := mk_req {
  q_buf : list Z;
  q_next : nat;
  q_l : Z;
  q_citype : Z;
  q_nak : list Z;
  q_rejp : nat;
  q_rc : Z;
  q_ho : lcp_options;
  q_rng : rng }.
#[export] Instance eta_req_locals : Eta req_locals := fun s => {|
  q_buf := q_buf s; q_next := q_next s; q_l := q_l s; q_citype := q_citype s;
  q_nak := q_nak s; q_rejp := q_rejp s; q_rc := q_rc s; q_ho := q_ho s;
  q_rng := q_rng s |}.
#[export] Instance set_q_buf : Setter q_buf := ltac:(derive_setter).
#[export] Instance set_q_next : Setter q_next := ltac:(derive_setter).
#[export] Instance set_q_l : Setter q_l := ltac:(derive_setter).
#[export] Instance set_q_citype : Setter q_citype := ltac:(derive_setter).
#[export] Instance set_q_nak : Setter q_nak := ltac:(derive_setter).
#[export] Instance set_q_rejp : Setter q_rejp := ltac:(derive_setter).
#[export] Instance set_q_rc : Setter q_rc := ltac:(derive_setter).
#[export] Instance set_q_ho : Setter q_ho := ltac:(derive_setter).
#[export] Instance set_q_rng : Setter q_rng := ltac:(derive_setter).

Definition requester := M req_locals Empty_set.

Definition rd (o : nat) : requester Z :=
  s <- gets q_buf ;; access (s !! o).
Definition rd_short (o : nat) : requester Z :=
  a <- rd o ;; b <- rd (o + 1) ;; ret (be16 a b).
Definition rd_long (o : nat) : requester Z :=
  a <- rd o ;; b <- rd (o + 1) ;; c <- rd (o + 2) ;; d <- rd (o + 3) ;;
  ret (be32 a b c d).
(** Bytes stored into the packet buffer, and through [nakp]. *)
Definition wr (o : nat) (bs : list Z) : requester unit :=
  s <- gets q_buf ;; s <- access (poke_at o bs s) ;;
  modify (fun q => q <| q_buf := s |>).
Definition put_nak (bs : list Z) : requester unit :=
  n <- gets q_nak ;;
  if Z.of_nat (length (n ++ bs)) <=? PPP_MRU
  then modify (fun q => q <| q_nak := n ++ bs |>) else fault.
Definition set_ho (g : lcp_options -> lcp_options) : requester unit :=
  modify (fun q => q <| q_ho ::= g |>).

(** The cases of [switch (citype)]; [cip] is the start of the option.  Each
    returns [orc]. *)
Definition req_mru (ao : lcp_options) (rid : bool) (cip : nat) (cilen : Z) : requester Z :=
  if negb (neg_mru ao) || negb (cilen =? CILEN_SHORT) then ret CONFREJ else
  cishort <- rd_short (cip + 2) ;;
  if cishort <? MINMRU then
    when (negb rid) (wr (cip + 2) (PUTSHORT MINMRU)) ;; ret CONFNAK
  else
    set_ho (fun ho => ho <| neg_mru := true |> <| mru := cishort |>) ;; ret CONFACK.

Definition req_asyncmap (ao : lcp_options) (rid : bool) (cip : nat) (cilen : Z)
  : requester Z :=
  if negb (neg_asyncmap ao) || negb (cilen =? CILEN_LONG) then ret CONFREJ else
  cilong <- rd_long (cip + 2) ;;
  if negb (Z.land (asyncmap ao) (Z.lnot cilong) =? 0) then
    when (negb rid) (wr (cip + 2) (PUTLONG (Z.lor (asyncmap ao) cilong))) ;; ret CONFNAK
  else
    set_ho (fun ho => ho <| neg_asyncmap := true |> <| asyncmap := cilong |>) ;; ret CONFACK.

Definition suggest_chap (ao : lcp_options) : list Z :=
  PUTCHAR CI_AUTHTYPE ++ PUTCHAR CILEN_CHAP ++ PUTSHORT CHAP ++ PUTCHAR (chap_mdtype ao).
Definition suggest_upap : list Z :=
  PUTCHAR CI_AUTHTYPE ++ PUTCHAR CILEN_SHORT ++ PUTSHORT UPAP.

Definition req_authtype (ao : lcp_options) (cip : nat) (cilen : Z) : requester Z :=
  if (cilen <? CILEN_SHORT) || negb (neg_upap ao || neg_chap ao) then ret CONFREJ else
  cishort <- rd_short (cip + 2) ;;
  ho <- gets q_ho ;;
  if cishort =? UPAP then
    if neg_chap ho || negb (cilen =? CILEN_SHORT) then ret CONFREJ else
    if negb (neg_upap ao) then put_nak (suggest_chap ao) ;; ret CONFNAK else
    set_ho (fun ho => ho <| neg_upap := true |>) ;; ret CONFACK
  else if cishort =? CHAP then
    if neg_upap ho || negb (cilen =? CILEN_CHAP) then ret CONFREJ else
    if negb (neg_chap ao) then put_nak suggest_upap ;; ret CONFNAK else
    cichar <- rd (cip + 4) ;;
    if negb (cichar =? u8 (chap_mdtype ao)) then
      put_nak (suggest_chap ao) ;; ret CONFNAK
    else
      set_ho (fun ho => ho <| chap_mdtype := cichar |> <| neg_chap := true |>) ;;
      ret CONFACK
  else
    put_nak (if neg_chap ao then suggest_chap ao else suggest_upap) ;; ret CONFNAK.

Definition req_quality (ao : lcp_options) (cip : nat) (cilen : Z) : requester Z :=
  if negb (neg_lqr ao) || negb (cilen =? CILEN_LQR) then ret CONFREJ else
  cishort <- rd_short (cip + 2) ;;
  _ <- rd_long (cip + 4) ;;
  if negb (cishort =? LQR) then
    put_nak (PUTCHAR CI_QUALITY ++ PUTCHAR CILEN_LQR ++ PUTSHORT LQR
             ++ PUTLONG (lqr_period ao)) ;;
    ret CONFNAK
  else ret CONFACK.

Definition req_magicnumber (ao go : lcp_options) (cip : nat) (cilen : Z) : requester Z :=
  if negb (neg_magicnumber ao || neg_magicnumber go) || negb (cilen =? CILEN_LONG)
  then ret CONFREJ else
  cilong <- rd_long (cip + 2) ;;
  if neg_magicnumber go && (cilong =? magicnumber go) then
    m <- zoom q_rng (fun g q => q <| q_rng := g |>) magic ;;
    put_nak (PUTCHAR CI_MAGICNUMBER ++ PUTCHAR CILEN_LONG ++ PUTLONG m) ;;
    ret CONFNAK
  else
    set_ho (fun ho => ho <| neg_magicnumber := true |> <| magicnumber := cilong |>) ;;
    ret CONFACK.

Definition req_pcompression (ao : lcp_options) (cilen : Z) : requester Z :=
  if negb (neg_pcompression ao) || negb (cilen =? CILEN_VOID) then ret CONFREJ else
  set_ho (fun ho => ho <| neg_pcompression := true |>) ;; ret CONFACK.
Definition req_accompression (ao : lcp_options) (cilen : Z) : requester Z :=
  if negb (neg_accompression ao) || negb (cilen =? CILEN_VOID) then ret CONFREJ else
  set_ho (fun ho => ho <| neg_accompression := true |>) ;; ret CONFACK.

Definition req_switch (ao go : lcp_options) (rid : bool) (citype : Z) (cip : nat)
  (cilen : Z) : requester Z :=
  if citype =? CI_MRU then req_mru ao rid cip cilen
  else if citype =? CI_ASYNCMAP then req_asyncmap ao rid cip cilen
  else if citype =? CI_AUTHTYPE then req_authtype ao cip cilen
  else if citype =? CI_QUALITY then req_quality ao cip cilen
  else if citype =? CI_MAGICNUMBER then req_magicnumber ao go cip cilen
  else if citype =? CI_PCOMPRESSION then req_pcompression ao cilen
  else if citype =? CI_ACCOMPRESSION then req_accompression ao cilen
  else ret CONFREJ.

(** [BCOPY(cip, rejp, cilen)] (when they differ) and [INCPTR(cilen, rejp)]. *)
Definition reject_option (cip : nat) (cilen : Z) : requester unit :=
  rejp <- gets q_rejp ;;
  when (negb (Nat.eqb cip rejp))
    (s <- gets q_buf ;; bs <- access (slice cip (Z.to_nat cilen) s) ;; wr rejp bs) ;;
  modify (fun q => q <| q_rc := CONFREJ |>
                     <| q_rejp := (rejp + Z.to_nat cilen)%nat |>).

(** What happens at [endswitch]. *)
Definition req_verdict (rid : bool) (cip : nat) (cilen orc : Z) : requester unit :=
  rc <- gets q_rc ;;
  citype <- gets q_citype ;;
  if (orc =? CONFACK) && negb (rc =? CONFACK) then ret tt
  else if orc =? CONFNAK then
    if rid && negb (citype =? CI_MAGICNUMBER) then reject_option cip cilen
    else if rc =? CONFREJ then ret tt
    else modify (fun q => q <| q_rc := CONFNAK |>)
  else when (orc =? CONFREJ) (reject_option cip cilen).

(** [l < 2 || p[1] < 2 || p[1] > l] *)
Definition bad_ci_length (cip : nat) (l : Z) : requester bool :=
  if l <? 2 then ret true else
  n <- rd (cip + 1) ;; ret ((n <? 2) || (l <? n)).

(** One round of [while (l)]. *)
Definition req_step (ao go : lcp_options) (rid : bool) : requester unit :=
  cip <- gets q_next ;;
  l <- gets q_l ;;
  short <- bad_ci_length cip l ;;
  if short then
    modify (fun q => q <| q_l := 0 |>) ;;
    req_verdict rid cip (u8 l) CONFREJ
  else
    citype <- rd cip ;;
    cilen <- rd (cip + 1) ;;
    modify (fun q => q <| q_citype := citype |> <| q_l := l - cilen |>
                       <| q_next := (cip + Z.to_nat cilen)%nat |>) ;;
    orc <- req_switch ao go rid citype cip cilen ;;
    req_verdict rid cip cilen orc.

Fixpoint req_loop (fuel : nat) (ao go : lcp_options) (rid : bool) : requester unit :=
  l <- gets q_l ;;
  if l =? 0 then ret tt else
  match fuel with
  | O => hang
  | S fuel => req_step ao go rid ;; req_loop fuel ao go rid
  end.

(** The [switch (rc)] at the end; the new [*lenp]. *)
Definition req_finish : requester Z :=
  rc <- gets q_rc ;;
  if rc =? CONFACK then n <- gets q_next ;; ret (Z.of_nat n)
  else if rc =? CONFNAK then
    nak <- gets q_nak ;; wr 0 nak ;; ret (Z.of_nat (length nak))
  else n <- gets q_rejp ;; ret (Z.of_nat n).

(** [*lenp], [inp], the random numbers in; [rc] and the new [*lenp] out, the
    buffer and [*ho] in the final state. *)
Definition lcp_reqci (ao go : lcp_options) (rid : bool) (inp : list Z) (l : Z) (g : rng)
  : outcome req_locals Empty_set (Z * Z) :=
  (req_loop (Z.to_nat l) ao go rid ;;
   n <- req_finish ;; rc <- gets q_rc ;; ret (rc, n))
    (mk_req inp 0 l 0 [] 0 CONFACK no_lcp_options g).
