(* ===== verification/LcpProps.v ===== *)
(** * Building and checking our LCP options

    What a Configure-Ack and a Configure-Reject must contain to be accepted:
    exactly the request, respectively a part of it. *)

From S2P Require Export Lcp.

(** ** Cursors over received packets *)

(** [len] bytes of the packet remain, and they are there. *)
Definition cursor_ok (c : cursor) : Prop :=
  bytes (p c) /\ 0 <= len c <= Z.of_nat (length (p c)).

(** The bytes of the packet that have not been parsed. *)
Definition rest_of (c : cursor) : list Z := take (Z.to_nat (len c)) (p c).

(** [c'] is [c] after the bytes [b] of the packet. *)
Definition consumed (b : list Z) (c c' : cursor) : Prop :=
  p c = b ++ p c' /\ len c' = len c - Z.of_nat (length b) /\ cursor_ok c'.

Lemma consumed_nil c : cursor_ok c -> consumed [] c c.
Proof. intros H. split_and!; [done|simpl; lia|done]. Qed.

Lemma consumed_trans b b' c c' c'' :
  consumed b c c' -> consumed b' c' c'' -> consumed (b ++ b') c c''.
Proof.
  intros (H1 & H2 & _) (H3 & H4 & H5). split_and!; [|rewrite length_app; lia|done].
  by rewrite H1, H3, app_assoc.
Qed.

Lemma consumed_rest b c c' : consumed b c c' -> rest_of c = b ++ rest_of c'.
Proof.
  intros (H1 & H2 & _ & H3). unfold rest_of. rewrite H1.
  rewrite take_app_ge by lia. repeat f_equal. lia.
Qed.

Lemma rest_of_nil c : cursor_ok c -> rest_of c = [] <-> len c = 0.
Proof.
  intros [_ H]. unfold rest_of. split.
  - intros E. apply (f_equal length) in E. rewrite length_take in E. simpl in E. lia.
  - intros ->. done.
Qed.

Lemma rest_of_length c : cursor_ok c -> Z.of_nat (length (rest_of c)) = len c.
Proof. intros [_ H]. unfold rest_of. rewrite length_take. lia. Qed.

Lemma short_not_prefix b c :
  cursor_ok c -> len c < Z.of_nat (length b) -> ~ b `prefix_of` rest_of c.
Proof.
  intros H L [k E]. apply (f_equal length) in E. rewrite length_app in E.
  apply rest_of_length in H. lia.
Qed.

(** A cursor with [n] bytes left has their list. *)
Lemma cursor_split n c :
  cursor_ok c -> Z.of_nat n <= len c ->
  exists b q, p c = b ++ q /\ length b = n /\ bytes b /\
    consumed b c (mk_cursor (len c - Z.of_nat n) q).
Proof.
  intros [Hb Hl] Hn. exists (take n (p c)), (drop n (p c)).
  assert (L : length (take n (p c)) = n) by (rewrite length_take; lia).
  rewrite <- (take_drop n (p c)) in Hb. apply Forall_app in Hb as [Hb1 Hb2].
  split_and!; [by rewrite take_drop|done|done|].
  split_and!; cbn; [by rewrite take_drop|lia|].
  split; cbn; [done|]. rewrite length_drop. lia.
Qed.

(** ** Parsers that expect given bytes *)

(** [m] accepts exactly the bytes [b] and moves past them. *)
Definition expects (m : parser unit) (b : list Z) : Prop :=
  forall c, cursor_ok c ->
    match m c with
    | Ok _ c' => consumed b c c'
    | Throw _ _ => ~ b `prefix_of` rest_of c
    | Fault | Hang => False
    end.

Lemma expects_nil : expects (ret tt) [].
Proof. intros c H. by apply consumed_nil. Qed.

Lemma expects_bind m k b b' :
  expects m b -> expects k b' -> expects (m ;; k) (b ++ b').
Proof.
  intros Hm Hk c Hc. specialize (Hm c Hc). unfold bind.
  destruct (m c) as [[] c'| |c'|]; [|..|done|done].
  - pose proof (consumed_rest _ _ _ Hm) as E.
    pose proof (Hk c' ltac:(apply Hm)) as Hk'.
    destruct (k c') as [[] c''| | |]; [by eapply consumed_trans| |done|done].
    intros [r R]. apply Hk'. exists r. rewrite E in R. rewrite <- app_assoc in R.
    by apply app_inv_head in R.
  - intros [r R]. apply Hm. exists (b' ++ r). by rewrite app_assoc.
Qed.

Lemma expects_when neg m b :
  expects m b -> expects (when neg m) (if neg then b else []).
Proof. intros H. destruct neg; [done|]. apply expects_nil. Qed.

Lemma need_eq n c :
  need n c = if len c - n <? 0 then Throw tt (mk_cursor (len c - n) (p c))
             else Ok tt (mk_cursor (len c - n) (p c)).
Proof.
  destruct c as [l q]. unfold need, take_len, modify, gets, when, bind, upd, set_len.
  cbn. by destruct (l - n <? 0).
Qed.

(** The bytes after the length check of an option of [n] bytes. *)
Lemma expects_need n m b :
  Z.of_nat (length b) = n ->
  (forall q d, length d = length b -> bytes d ->
     forall l, match m (mk_cursor l (d ++ q)) with
     | Ok _ c' => c' = mk_cursor l q /\ d = b
     | Throw _ _ => d <> b
     | Fault | Hang => False
     end) ->
  expects (need n ;; m) b.
Proof.
  intros Hn H c Hc. unfold bind. rewrite need_eq.
  destruct (Z.ltb_spec (len c - n) 0) as [L|L].
  { apply short_not_prefix; [done|lia]. }
  destruct (cursor_split (length b) c Hc ltac:(lia)) as (d & q & E & Ld & Hd & Hs).
  rewrite E. specialize (H q d Ld Hd (len c - n)). rewrite Hn in Hs.
  destruct (m _) as [[] c'| | |]; [|..|done|done].
  - destruct H as [-> ->]. done.
  - intros [r R]. apply H. apply consumed_rest in Hs. rewrite Hs in R.
    apply app_inj_1 in R as [? _]; [done|lia].
Qed.

(** Split a list of known length into its elements. *)
Ltac elements d H :=
  repeat (destruct d as [|? d]; [discriminate H|cbn in H; apply Nat.succ_inj in H]);
  apply nil_length_inv in H; subst d.
Ltac bytes_inv H := repeat (apply Forall_cons_iff in H as [? H]); clear H.

(** Decide each comparison of the parser, and close the contradictory ones. *)
Ltac compare_bytes :=
  repeat match goal with
  | |- context [?a =? ?b] => destruct (Z.eqb_spec a b); cbn
  end.

Lemma put_short_eq a b s :
  is_u8 a -> is_u8 b -> is_u16 s -> be16 a b = u16 s <-> [a; b] = PUTSHORT s.
Proof. intros. rewrite (u16_id s) by done. by apply be16_inj. Qed.
Lemma put_long_eq a b c d l :
  is_u8 a -> is_u8 b -> is_u8 c -> is_u8 d -> is_u32 l ->
  be32 a b c d = u32 l <-> [a; b; c; d] = PUTLONG l.
Proof. intros. rewrite (u32_id l) by done. by apply be32_inj. Qed.

(** Run a parser over a packet whose bytes are known one by one. *)
Ltac run_parser :=
  unfold ack_header, GETCHAR, GETSHORT, GETLONG, when, bind; cbn;
  compare_bytes.

Lemma expects_meq m m' b : meq m m' -> expects m' b -> expects m b.
Proof. intros E H c Hc. rewrite E. by apply H. Qed.

(** Compare the bytes that were read with those that were expected. *)
Ltac same_bytes :=
  repeat match goal with
  | e : be16 _ _ = LQR |- _ => change LQR with (u16 LQR) in e at 1
  | e : be16 _ _ <> LQR |- _ => change LQR with (u16 LQR) in e at 1
  | e : be16 _ _ = u16 _ |- _ => apply put_short_eq in e; [|assumption..]
  | e : be16 _ _ <> u16 _ |- _ => rewrite put_short_eq in e by assumption
  | e : be32 _ _ _ _ = u32 _ |- _ => apply put_long_eq in e; [|assumption..]
  | e : be32 _ _ _ _ <> u32 _ |- _ => rewrite put_long_eq in e by assumption
  | e : be32 _ _ _ _ = ?v, H : is_u32 ?v |- _ => apply be32_inj in e; [|assumption..]
  | e : be32 _ _ _ _ <> ?v, H : is_u32 ?v |- _ => rewrite be32_inj in e by assumption
  end;
  unfold PUTCHAR, PUTSHORT, PUTLONG in *; cbn [app] in *;
  change (u8 CILEN_VOID) with CILEN_VOID in *;
  change (u8 CILEN_SHORT) with CILEN_SHORT in *;
  change (u8 CILEN_CHAP) with CILEN_CHAP in *;
  change (u8 CILEN_LONG) with CILEN_LONG in *;
  change (u8 CILEN_LQR) with CILEN_LQR in *;
  first [split; [reflexivity|]; congruence | congruence].

Ltac expect_option :=
  apply expects_when; eapply expects_meq; [apply bind_assoc|]; cbv beta;
  apply expects_need; [done|]; intros q d Ld Hd l; elements d Ld; bytes_inv Hd;
  run_parser; same_bytes.

Lemma expects_void opt neg : expects (ACKCIVOID opt neg) (ADDCIVOID opt neg).
Proof.
  apply expects_when, expects_need; [done|].
  intros q d Ld Hd l. elements d Ld. bytes_inv Hd. run_parser; same_bytes.
Qed.
Lemma expects_short opt neg val :
  is_u16 val -> expects (ACKCISHORT opt neg val) (ADDCISHORT opt neg val).
Proof. intros Hv. expect_option. Qed.
Lemma expects_chap opt neg val digest :
  is_u16 val -> expects (ACKCICHAP opt neg val digest) (ADDCICHAP opt neg val digest).
Proof. intros Hv. expect_option. Qed.
Lemma expects_long opt neg val :
  is_u32 val -> expects (ACKCILONG opt neg val) (ADDCILONG opt neg val).
Proof. intros Hv. expect_option. Qed.
Lemma expects_lqr opt neg val :
  is_u32 val -> expects (ACKCILQR opt neg val) (ADDCILQR opt neg val).
Proof. intros Hv. assert (Hq : is_u16 LQR) by done. expect_option. Qed.

(** ** The request and its Ack *)

Ltac each_option go :=
  destruct (neg_mru go), (neg_asyncmap go), (neg_chap go), (neg_upap go), (neg_lqr go),
    (neg_magicnumber go), (neg_pcompression go), (neg_accompression go).

Lemma addci_len go : Z.of_nat (length (lcp_addci go)) = lcp_cilen go.
Proof. unfold lcp_addci, lcp_cilen. by each_option go. Qed.

Lemma bytes_addci go : bytes (lcp_addci go).
Proof.
  unfold lcp_addci, ADDCISHORT, ADDCILONG, ADDCICHAP, ADDCILQR, ADDCIVOID.
  repeat apply bytes_app; case_match; auto 10 with ppp; by constructor.
Qed.

(** C16: [lcp_cilen] is the number of bytes that [lcp_addci] writes, so the
    request that [fsm_sconfreq] sends is the whole list of options; it never
    exceeds 33 bytes. *)
Theorem lcp_addci_length go :
  Z.of_nat (length (lcp_addci go)) = lcp_cilen go /\ 0 <= lcp_cilen go <= 33.
Proof. split; [apply addci_len|]. unfold lcp_cilen. by each_option go. Qed.

(** [m] accepts a packet exactly when what is left of it is [b]. *)
Definition checks (m : parser unit) (b : list Z) : Prop :=
  forall c, cursor_ok c ->
    match m c with
    | Ok _ _ => rest_of c = b
    | Throw _ _ => rest_of c <> b
    | Fault | Hang => False
    end.

Lemma checks_bind m k b b' :
  expects m b -> checks k b' -> checks (m ;; k) (b ++ b').
Proof.
  intros Hm Hk c Hc. specialize (Hm c Hc). unfold bind.
  destruct (m c) as [[] c'| |c'|]; [|..|done|done].
  - rewrite (consumed_rest _ _ _ Hm). specialize (Hk c' ltac:(apply Hm)).
    destruct (k c') as [[] c''| | |]; [by f_equal| |done|done].
    by intros E%app_inv_head.
  - intros E. apply Hm. by exists b'.
Qed.

Lemma checks_no_more : checks no_more [].
Proof.
  intros c Hc. unfold no_more, bind, gets, when. cbn.
  pose proof (rest_of_nil c Hc). destruct (Z.eqb_spec (len c) 0); cbn; tauto.
Qed.

Lemma ackci_checks go : lcp_options_ok go -> checks (lcp_ackci go) (lcp_addci go).
Proof.
  intros [Hm Hc Ha Hg Hl]. assert (Hp : is_u16 CHAP /\ is_u16 UPAP) by done. destruct Hp.
  unfold lcp_ackci, lcp_addci. rewrite <- (app_nil_r (ADDCIVOID CI_ACCOMPRESSION _)).
  do 8 (apply checks_bind;
        [auto using expects_void, expects_short, expects_long, expects_chap, expects_lqr|]).
  apply checks_no_more.
Qed.

(** C22: an Ack is accepted exactly when it carries, byte for byte, the options
    that [lcp_addci] put in the request; no Ack makes the parser read past the
    packet.  ([lcp_ackci] only reads [go]: a bad Ack modifies no state.) *)
Theorem lcp_ackci_spec go c :
  lcp_options_ok go -> cursor_ok c ->
  match lcp_ackci go c with
  | Ok _ _ => rest_of c = lcp_addci go
  | Throw _ _ => rest_of c <> lcp_addci go
  | Fault | Hang => False
  end.
Proof. intros Hgo. by apply ackci_checks. Qed.

(** ** Rejected options *)

(** The options of the request [go] that [try] does not ask for any more. *)
Definition dropped (go try : lcp_options) : lcp_options :=
  let d (neg : lcp_options -> bool) := neg go && negb (neg try) in
  mk_lcp_options (passive go) (silent go) (restart go)
    (d neg_mru) (d neg_asyncmap) (d neg_upap) (d neg_chap) (d neg_magicnumber)
    (d neg_pcompression) (d neg_accompression) (d neg_lqr)
    (mru go) (chap_mdtype go) (asyncmap go) (magicnumber go) (numloops go) (lqr_period go).

(** [try] is [go] with some of the options it asks for cleared. *)
Definition clears (go try : lcp_options) : Prop :=
  exists r_mru r_map r_chap r_upap r_lqr r_magic r_pc r_ac : bool,
    try = clear_options go r_mru r_map r_chap r_upap r_lqr r_magic r_pc r_ac
    /\ (neg_chap go = true -> neg_upap try = neg_upap go).

(** [m] looks for the option [opt] whose bytes are [b], when [neg] says that we
    asked for it. *)
Definition finds (m : parser bool) (neg : bool) (opt : Z) (b : list Z) : Prop :=
  head b = Some opt /\
  forall c, cursor_ok c ->
    match m c with
    | Ok true c' => neg = true /\ consumed b c c'
    | Ok false c' => c' = c /\ (neg = true -> ~ b `prefix_of` rest_of c)
    | Throw _ _ => neg = true /\ ~ b `prefix_of` rest_of c /\ head (rest_of c) = Some opt
    | Fault | Hang => False
    end.

(** [m] accepts the packets [enc a] for the [a] with [wf a], and returns [a]. *)
Definition selects {A} (m : parser A) (wf : A -> Prop) (enc : A -> list Z) : Prop :=
  forall c, cursor_ok c ->
    match m c with
    | Ok a _ => wf a /\ rest_of c = enc a
    | Throw _ _ => forall a, wf a -> rest_of c <> enc a
    | Fault | Hang => False
    end.

Lemma selects_bind {A} (m : parser bool) (k : bool -> parser A) neg opt b
  (R : A -> bool) wf enc :
  finds m neg opt b ->
  (forall a, wf a -> R a = true -> neg = true) ->
  (forall a, wf a -> neg = true -> head (enc a) <> Some opt) ->
  (forall r, (r = true -> neg = true) ->
     selects (k r) (fun a => wf a /\ R a = r) enc) ->
  selects (r <- m ;; k r) wf (fun a => (if R a then b else []) ++ enc a).
Proof.
  intros [Hb Hm] HR Hh Hk c Hc. specialize (Hm c Hc). unfold bind.
  destruct (m c) as [[] c'| |c'|]; [| | |done|done].
  - destruct Hm as [Hn Hs]. rewrite (consumed_rest _ _ _ Hs).
    specialize (Hk true (fun _ => Hn) c' ltac:(apply Hs)).
    destruct (k true c') as [a c''| | |]; [|..|done|done].
    + destruct Hk as [[H1 H2] ->]. by rewrite H2.
    + intros a Ha E. destruct (R a) eqn:Ra.
      * apply app_inv_head in E. by apply (Hk a).
      * apply (Hh a Ha Hn). cbn in E. rewrite <- E. by destruct b.
  - destruct Hm as [-> Hp].
    specialize (Hk false ltac:(done) c Hc).
    destruct (k false c) as [a c''| | |]; [|..|done|done].
    + destruct Hk as [[H1 H2] ->]. by rewrite H2.
    + intros a Ha E. destruct (R a) eqn:Ra.
      * apply (Hp (HR a Ha Ra)). by exists (enc a).
      * by apply (Hk a).
  - destruct Hm as (Hn & Hp & Ho). intros a Ha E. destruct (R a) eqn:Ra.
    + apply Hp. by exists (enc a).
    + apply (Hh a Ha Hn). cbn in E. by rewrite <- E.
Qed.

Lemma ci_is_eq opt neg n c :
  cursor_ok c -> 2 <= n ->
  match ci_is opt neg n c with
  | Ok true c' => neg = true /\ n <= len c /\ take 2 (p c) = [opt; n] /\
      c' = mk_cursor (len c - n) (drop 2 (p c))
  | Ok false c' => c' = c /\ (neg = true -> ~ [opt; n] `prefix_of` rest_of c \/ len c < n)
  | _ => False
  end.
Proof.
  intros Hc Hn. destruct c as [l pk]. unfold ci_is. destruct neg; [|done].
  unfold bind, gets, peek, take_len, INCPTR, modify, upd, set_len, set_p. cbn.
  destruct (Z.ltb_spec l n); cbn; [split; [done|]; intros _; by right|].
  destruct (cursor_split 2 _ Hc ltac:(cbn; lia)) as (d & q & E & Ld & _ & Hs).
  pose proof (consumed_rest _ _ _ Hs) as Hr. cbn in E. subst pk. rewrite Hr.
  elements d Ld. cbn. compare_bytes; subst; cbn; (split; [done|]).
  - done.
  - intros _. left. intros [k [=]]. done.
  - intros _. left. intros [k [=]]. done.
Qed.

Lemma finds_option opt neg n v (body : parser unit) :
  n = 2 + Z.of_nat (length v) ->
  (forall q d, length d = length v -> bytes d ->
     forall l, match body (mk_cursor l (d ++ q)) with
     | Ok _ c' => c' = mk_cursor l q /\ d = v
     | Throw _ _ => d <> v
     | Fault | Hang => False
     end) ->
  finds (found <- ci_is opt neg n ;; when found body ;; ret found) neg opt
    (opt :: n :: v).
Proof.
  intros Hn H. split; [done|]. intros c Hc. unfold bind at 1.
  pose proof (ci_is_eq opt neg n c Hc ltac:(lia)) as E.
  destruct (ci_is opt neg n c) as [[|] c'| | |]; [..|done|done|done].
  - destruct E as (Hneg & Hl & Ht & ->).
    destruct (cursor_split (2 + length v) c Hc ltac:(lia)) as (d & q & E & Ld & Hd & Hs).
    destruct d as [|o [|m d]]; [done|done|]. rewrite E in Ht |- *. cbn in Ht.
    injection Ht as -> ->. cbn in Ld. unfold bind, when. cbn.
    apply Forall_cons_iff in Hd as [_ Hd]. apply Forall_cons_iff in Hd as [_ Hd].
    specialize (H q d ltac:(lia) Hd (len c - n)).
    replace (len c - Z.of_nat (2 + length v)) with (len c - n) in Hs by lia.
    destruct (body _) as [[] c'| | |]; [| |done|done].
    + destruct H as [-> ->]. done.
    + split; [done|]. apply consumed_rest in Hs. rewrite Hs. split; [|done].
      intros [k K]. apply H. cbn in K. injection K as K.
      apply app_inj_1 in K as [? _]; [done|lia].
  - destruct E as [-> Hneg]. unfold bind, when, ret. split; [done|].
    intros E. destruct (Hneg E) as [Hp|Hp].
    + intros [k K]. apply Hp. exists (v ++ k). by rewrite K.
    + intros K%prefix_length. cbn in K. apply rest_of_length in Hc. lia.
Qed.

Ltac find_option :=
  apply finds_option; [done|]; intros q d Ld Hd l; elements d Ld; bytes_inv Hd;
  run_parser; same_bytes.

Lemma finds_void opt neg :
  is_u8 opt -> finds (REJCIVOID opt neg) neg opt (ADDCIVOID opt true).
Proof.
  intros Ho. unfold ADDCIVOID, PUTCHAR. rewrite (u8_id opt) by done. split; [done|].
  pose proof (finds_option opt neg CILEN_VOID [] (ret tt) eq_refl) as [_ F].
  { intros q [|]; [done|discriminate]. }
  intros c Hc. specialize (F c Hc). unfold REJCIVOID, bind, when in *.
  by destruct (ci_is opt neg CILEN_VOID c) as [[]| | |].
Qed.
Lemma finds_short opt neg val :
  is_u8 opt -> is_u16 val ->
  finds (REJCISHORT opt neg val) neg opt (ADDCISHORT opt true val).
Proof.
  intros Ho Hv. unfold ADDCISHORT, PUTCHAR. rewrite (u8_id opt) by done. find_option.
Qed.
Lemma finds_chap opt neg val digest :
  is_u8 opt -> is_u16 val ->
  finds (REJCICHAP opt neg val digest) neg opt (ADDCICHAP opt true val digest).
Proof.
  intros Ho Hv. unfold ADDCICHAP, PUTCHAR at 1. rewrite (u8_id opt) by done. find_option.
Qed.
Lemma finds_long opt neg val :
  is_u8 opt -> is_u32 val ->
  finds (REJCILONG opt neg val) neg opt (ADDCILONG opt true val).
Proof.
  intros Ho Hv. unfold ADDCILONG, PUTCHAR. rewrite (u8_id opt) by done. find_option.
Qed.
Lemma finds_lqr opt neg val :
  is_u8 opt -> is_u32 val ->
  finds (REJCILQR opt neg val) neg opt (ADDCILQR opt true val).
Proof.
  intros Ho Hv. unfold ADDCILQR, PUTCHAR. rewrite (u8_id opt) by done.
  assert (Hq : is_u16 LQR) by done. find_option.
Qed.

(** The first byte of a list of options is above [k]. *)
Definition above (k : Z) (l : list Z) : Prop :=
  match l with [] => True | x :: _ => k < x end.

Lemma above_not_head k l : above k l -> head l <> Some k.
Proof. destruct l; cbn; [done|]. intros H [= ->]. lia. Qed.

Lemma above_app k (neg : bool) (b l : list Z) :
  above k b -> above k l -> above k ((if neg then b else []) ++ l).
Proof. destruct neg, b; done. Qed.

(** What the options that [try] drops look like in a packet. *)
Definition drop_chap (go try : lcp_options) : bool := neg_chap (dropped go try).
Definition drop_upap (go try : lcp_options) : bool :=
  negb (drop_chap go try) && neg_upap (dropped go try).

Ltac find_options :=
  first [apply finds_short | apply finds_long | apply finds_chap | apply finds_lqr
        | apply finds_void]; first [eassumption | done].

(** One option of the request: [R] says whether it was rejected. *)
Ltac select_option R :=
  eapply (selects_bind _ _ _ _ _ R);
  [ find_options
  | intros try _ ?%andb_prop; tauto
  | intros try _ _; apply above_not_head; repeat apply above_app; done
  | intros ? ? ].

Definition dropped_bytes (go try : lcp_options) : list Z :=
  (if neg_mru (dropped go try) then ADDCISHORT CI_MRU true (mru go) else []) ++
  (if neg_asyncmap (dropped go try) then ADDCILONG CI_ASYNCMAP true (asyncmap go) else []) ++
  (if drop_chap go try then ADDCICHAP CI_AUTHTYPE true CHAP (chap_mdtype go) else []) ++
  (if drop_upap go try then ADDCISHORT CI_AUTHTYPE true UPAP else []) ++
  (if neg_lqr (dropped go try) then ADDCILQR CI_QUALITY true (lqr_period go) else []) ++
  (if neg_magicnumber (dropped go try)
   then ADDCILONG CI_MAGICNUMBER true (magicnumber go) else []) ++
  (if neg_pcompression (dropped go try) then ADDCIVOID CI_PCOMPRESSION true else []) ++
  (if neg_accompression (dropped go try) then ADDCIVOID CI_ACCOMPRESSION true else []) ++ [].

Lemma dropped_bytes_eq go try : lcp_addci (dropped go try) = dropped_bytes go try.
Proof.
  unfold lcp_addci, dropped_bytes, drop_upap, drop_chap,
    ADDCISHORT, ADDCILONG, ADDCICHAP, ADDCILQR, ADDCIVOID.
  by rewrite app_nil_r.
Qed.

Lemma selects_no_more {A} (a : A) (wf : A -> Prop) :
  wf a -> selects (no_more ;; ret a) wf (fun _ => []).
Proof.
  intros Ha c Hc. pose proof (checks_no_more c Hc) as N. unfold bind, ret.
  destruct (no_more c) as [[] c'| | |]; [done|..|done|done]. done.
Qed.

(** A protocol that was asked for besides CHAP is not in the request. *)
Lemma clears_upap go try :
  clears go try -> neg_chap go = true -> neg_upap (dropped go try) = false.
Proof.
  intros (?&?&?&?&?&?&?&?&_&H) E. cbn. rewrite (H E). by destruct (neg_upap go).
Qed.

Lemma clears_drop_upap go try :
  clears go try -> drop_upap go try = true -> negb (neg_chap go) && neg_upap go = true.
Proof.
  intros Hc [_ Hd]%andb_prop. pose proof (clears_upap _ _ Hc) as E.
  destruct (neg_chap go); [by rewrite E in Hd|]. cbn in *. by destruct (neg_upap go).
Qed.

Lemma finds_upap go :
  finds (if negb (neg_chap go) then REJCISHORT CI_AUTHTYPE (neg_upap go) UPAP else ret false)
    (negb (neg_chap go) && neg_upap go) CI_AUTHTYPE (ADDCISHORT CI_AUTHTYPE true UPAP).
Proof.
  destruct (neg_chap go); cbn [negb andb]; [|by apply finds_short].
  split; [done|]. intros c Hc. split; [done|]. done.
Qed.

Lemma dropped_flag r n : (r = true -> n = true) -> n && negb (keep r n) = r.
Proof. destruct r, n; naive_solver. Qed.

Lemma clear_flags go r0 r1 r2 r3 r4 r5 r6 r7 :
  let t := clear_options go r0 r1 r2 r3 r4 r5 r6 r7 in
  neg_mru t = keep r0 (neg_mru go) /\ neg_asyncmap t = keep r1 (neg_asyncmap go) /\
  neg_chap t = keep r2 (neg_chap go) /\ neg_upap t = keep r3 (neg_upap go) /\
  neg_lqr t = keep r4 (neg_lqr go) /\ neg_magicnumber t = keep r5 (neg_magicnumber go) /\
  neg_pcompression t = keep r6 (neg_pcompression go) /\
  neg_accompression t = keep r7 (neg_accompression go).
Proof. by split_and!. Qed.

Lemma rejci_selects go :
  lcp_options_ok go -> selects (lcp_rejci go) (clears go) (dropped_bytes go).
Proof.
  intros [Hm Hc Ha Hg Hl].
  assert (Hp : is_u16 CHAP /\ is_u16 UPAP) by done. destruct Hp.
  unfold lcp_rejci, dropped_bytes.
  select_option (fun try => neg_mru (dropped go try)).
  select_option (fun try => neg_asyncmap (dropped go try)).
  eapply (selects_bind _ _ _ _ _ (fun try => drop_chap go try)).
  { find_options. }
  { intros try _ ?%andb_prop; tauto. }
  { intros try [[Hw _] _] E. apply above_not_head. unfold drop_upap.
    rewrite (clears_upap _ _ Hw E), andb_false_r. repeat apply above_app; done. }
  intros ? ?.
  eapply (selects_bind _ _ _ _ _ (fun try => drop_upap go try)).
  { apply finds_upap. }
  { intros try [[[Hw _] _] _]. by apply clears_drop_upap. }
  { intros try _ _. apply above_not_head; repeat apply above_app; done. }
  intros ? ?.
  select_option (fun try => neg_lqr (dropped go try)).
  select_option (fun try => neg_magicnumber (dropped go try)).
  select_option (fun try => neg_pcompression (dropped go try)).
  select_option (fun try => neg_accompression (dropped go try)).
  apply selects_no_more.
  assert (E2 : neg_chap go = true -> r2 = false)
    by (intros E; destruct r2; [|done]; rewrite E in H4; discriminate (H4 eq_refl)).
  destruct (clear_flags go r r0 r1 r2 r3 r4 r5 r6) as (F0&F1&F2&F3&F4&F5&F6&F7).
  split_and!; unfold drop_upap, drop_chap, dropped; cbv zeta;
    cbn [neg_mru neg_asyncmap neg_chap neg_upap neg_lqr neg_magicnumber neg_pcompression
         neg_accompression]; rewrite ?F0, ?F1, ?F2, ?F3, ?F4, ?F5, ?F6, ?F7;
    try by apply dropped_flag.
  - exists r, r0, r1, r2, r3, r4, r5, r6. split; [done|]. rewrite F3. intros E.
    by rewrite (E2 E).
  - clear -E2 H4 H3. destruct r1, r2, (neg_chap go), (neg_upap go); naive_solver.
Qed.

(** C23: a Reject is accepted exactly when it carries, in the order of our
    request, options of that request with the values we asked for; the next
    request is then the old one without these options.  A Reject that is not
    accepted changes nothing, and none makes the parser read past the packet. *)
Theorem lcp_rejci_spec go c :
  lcp_options_ok go -> cursor_ok c ->
  match lcp_rejci go c with
  | Ok try _ => clears go try /\ rest_of c = lcp_addci (dropped go try)
  | Throw _ _ => forall try, clears go try -> rest_of c <> lcp_addci (dropped go try)
  | Fault | Hang => False
  end.
Proof.
  intros Hgo Hc. pose proof (rejci_selects go Hgo c Hc) as H.
  destruct (lcp_rejci go c) as [try c'| | |]; [|..|done|done].
  - by rewrite dropped_bytes_eq.
  - intros try. rewrite dropped_bytes_eq. apply H.
Qed.

(** ** Concrete packets *)

(** What [lcp_init] asks for, with magic number 0x01020304. *)
Definition sample_go : lcp_options :=
  lcp_init_want no_lcp_options <| magicnumber := 0x01020304 |>.

Lemma sample_go_ok : lcp_options_ok sample_go.
Proof. by split. Defined.

Lemma lcp_ackci_spec_witness :
  match lcp_ackci sample_go (mk_cursor 14 [1; 4; 5; 220; 5; 6; 1; 2; 3; 4; 7; 2; 8; 2]) with
  | Ok _ _ => lcp_addci sample_go = [1; 4; 5; 220; 5; 6; 1; 2; 3; 4; 7; 2; 8; 2]
  | _ => False
  end.
Proof.
  assert (Hc : cursor_ok (mk_cursor 14 [1; 4; 5; 220; 5; 6; 1; 2; 3; 4; 7; 2; 8; 2])).
  { split; [repeat constructor; done|done]. }
  exact (lcp_ackci_spec sample_go _ sample_go_ok Hc).
Defined.

Lemma lcp_rejci_spec_witness :
  rest_of (mk_cursor 6 [1; 4; 5; 220; 7; 2; 99]) =
    lcp_addci (dropped sample_go
      (sample_go <| neg_mru := false |> <| neg_pcompression := false |>)).
Proof.
  assert (Hc : cursor_ok (mk_cursor 6 [1; 4; 5; 220; 7; 2; 99])).
  { split; [repeat constructor; done|done]. }
  exact (proj2 (lcp_rejci_spec sample_go _ sample_go_ok Hc)).
Defined.
