(* ===== verification/LcpNak.v ===== *)
(** * The peer's Configure-Nak of our LCP request

    What a Nak can make us ask for, that the parser stays inside the packet,
    and when its loop over unrequested options ends. *)

From S2P Require Export LcpProps.

(** ** Cursors with bytes in hand *)

(** [k] bytes can be read beside the [len] bytes that are still accounted for. *)
Definition has (k : nat) (c : cursor) : Prop :=
  bytes (p c) /\ 0 <= len c /\ len c + Z.of_nat k <= Z.of_nat (length (p c)).

Lemma has_0 c : has 0 c <-> cursor_ok c.
Proof. unfold has, cursor_ok. split; intros H; split_and!; try apply H; lia. Qed.

Lemma wp_GETCHAR k c (Q : Z -> cursor -> Prop) E :
  has (S k) c -> (forall v c', is_u8 v -> has k c' -> len c' = len c -> Q v c') ->
  wp False GETCHAR Q E c.
Proof.
  intros (Hb & Hl & Hk) HQ. unfold wp, GETCHAR.
  destruct c as [l [|a q]]; cbn in *; [lia|].
  apply Forall_cons_iff in Hb as [Ha Hq].
  apply HQ; [done| |done]. split_and!; cbn; [done|lia|lia].
Qed.

Lemma wp_GETSHORT k c (Q : Z -> cursor -> Prop) E :
  has (S (S k)) c -> (forall v c', is_u16 v -> has k c' -> len c' = len c -> Q v c') ->
  wp False GETSHORT Q E c.
Proof.
  intros H HQ. apply wp_bind. eapply wp_GETCHAR; [done|]. intros a c1 Ha H1 E1.
  apply wp_bind. eapply wp_GETCHAR; [done|]. intros b c2 Hb H2 E2.
  apply wp_ret, HQ; [by apply be16_range|done|congruence].
Qed.

Lemma wp_GETLONG k c (Q : Z -> cursor -> Prop) E :
  has (S (S (S (S k)))) c ->
  (forall v c', is_u32 v -> has k c' -> len c' = len c -> Q v c') ->
  wp False GETLONG Q E c.
Proof.
  intros H HQ. apply wp_bind. eapply wp_GETCHAR; [done|]. intros a1 c1 Ha1 H1 E1.
  apply wp_bind. eapply wp_GETCHAR; [done|]. intros a2 c2 Ha2 H2 E2.
  apply wp_bind. eapply wp_GETCHAR; [done|]. intros a3 c3 Ha3 H3 E3.
  apply wp_bind. eapply wp_GETCHAR; [done|]. intros a4 c4 Ha4 H4 E4.
  apply wp_ret, HQ; [by apply be32_range|done|congruence].
Qed.

Lemma wp_ci_is opt neg n c (Q : bool -> cursor -> Prop) E :
  cursor_ok c -> 2 <= n ->
  (forall c', neg = true -> has (Z.to_nat (n - 2)) c' -> len c' = len c - n -> Q true c') ->
  Q false c -> wp False (ci_is opt neg n) Q E c.
Proof.
  intros Hc Hn HQ HQ'. unfold wp. pose proof (ci_is_eq opt neg n c Hc Hn) as H.
  destruct (ci_is opt neg n c) as [[|] c'| | |]; [|..|done|done|done].
  - destruct H as (Hneg & Hl & _ & ->). apply HQ; [done| |done].
    destruct Hc as [Hb Hc]. split_and!; cbn; [by apply Forall_drop|lia|].
    rewrite length_drop. lia.
  - by destruct H as [-> _].
Qed.

Lemma wp_need n c (Q : unit -> cursor -> Prop) (E : unit -> cursor -> Prop) :
  (0 <= len c - n -> Q tt (mk_cursor (len c - n) (p c))) ->
  E tt (mk_cursor (len c - n) (p c)) ->
  wp False (need n) Q E c.
Proof.
  intros HQ HE. unfold wp. rewrite need_eq. destruct (Z.ltb_spec (len c - n) 0); auto.
Qed.

(** ** The options the peer names *)

(** What a Nak may turn the request [go] into. *)
Record naks (wo go try : lcp_options) : Prop := {
  naks_ok : lcp_options_ok try;
  naks_modes : passive try = passive go /\ silent try = silent go /\ restart try = restart go;
  (** values change, but these three are still asked for *)
  naks_keeps : neg_mru try = neg_mru go /\ neg_asyncmap try = neg_asyncmap go
    /\ neg_magicnumber try = neg_magicnumber go;
  (** nothing is asked for that was not *)
  naks_subset : (neg_upap try = true -> neg_upap go = true)
    /\ (neg_chap try = true -> neg_chap go = true)
    /\ (neg_lqr try = true -> neg_lqr go = true)
    /\ (neg_pcompression try = true -> neg_pcompression go = true)
    /\ (neg_accompression try = true -> neg_accompression go = true);
  naks_mru : mru try = mru go \/ mru try <= mru wo \/ mru try < DEFMRU;
  naks_asyncmap : Z.land (asyncmap go) (Z.lnot (asyncmap try)) = 0;
  naks_mdtype : chap_mdtype try = chap_mdtype go }.

Lemma naks_refl wo go : lcp_options_ok go -> naks wo go go.
Proof. intros H. split; auto. apply Z.land_lnot_diag. Qed.

Lemma lor_u32 a b : is_u32 a -> is_u32 b -> is_u32 (Z.lor a b).
Proof.
  intros [Ha Ha'] [Hb Hb'].
  assert (0 <= Z.lor a b) by (apply Z.lor_nonneg; lia). split; [done|].
  destruct (decide (Z.lor a b = 0)) as [->|N]; [done|].
  apply Z.log2_lt_pow2; [lia|]. rewrite Z.log2_lor by lia.
  destruct (decide (a = 0)) as [->|]; destruct (decide (b = 0)) as [->|];
    rewrite ?Z.max_lt_iff, ?Z.max_lub_lt_iff; repeat split; cbn; try lia;
    apply Z.log2_lt_pow2; lia.
Qed.

Lemma land_lnot_lor a b : Z.land a (Z.lnot (Z.lor a b)) = 0.
Proof.
  apply Z.bits_inj'. intros n Hn. rewrite Z.land_spec, Z.lnot_spec, Z.lor_spec, Z.bits_0 by done.
  by destruct (Z.testbit a n).
Qed.

Section Requested.
Context (wo go : lcp_options) (Hgo : lcp_options_ok go) (bound : Z).

Definition nak_inv (s : nak_locals) : Prop :=
  (cursor_ok (n_cur s) /\ len (n_cur s) <= bound) /\ random_ok (n_rng s)
  /\ naks wo go (n_try s).

Definition keeps_naks (m : nakker unit) : Prop :=
  forall s, nak_inv s -> wp False m (fun _ => nak_inv) (fun _ _ => False) s.

Lemma keeps_naks_bind m k : keeps_naks m -> keeps_naks k -> keeps_naks (m ;; k).
Proof.
  intros Hm Hk s Hs. apply wp_bind. eapply wp_mono; [by apply Hm| |done].
  intros [] s'. apply Hk.
Qed.

(** A change of [try] or [no], the cursor being at the end of an option. *)
Lemma keeps_set_try g :
  (forall t, naks wo go t -> naks wo go (g t)) -> keeps_naks (set_try g).
Proof.
  intros Hg s (Hc & Hr & Hn). apply wp_modify. split_and!; [apply Hc..|done|]. by apply Hg.
Qed.

Lemma keeps_set_no g : keeps_naks (set_no g).
Proof. intros s H. by apply wp_modify. Qed.

Lemma keeps_when (c : bool) m : keeps_naks m -> keeps_naks (when c m).
Proof. intros H. destruct c; [done|]. intros s Hs. by apply wp_ret. Qed.

(** An option that is found is read, and its code run, inside the packet. *)
Lemma keeps_found opt neg n (body : nakker unit) :
  2 <= n ->
  (forall s, has (Z.to_nat (n - 2)) (n_cur s) /\ len (n_cur s) <= bound ->
     random_ok (n_rng s) ->
     naks wo go (n_try s) -> neg = true ->
     wp False body (fun _ => nak_inv) (fun _ _ => False) s) ->
  keeps_naks (found <- at_cur (ci_is opt neg n) ;; when found body).
Proof.
  intros Hn Hb s ([Hc Hl] & Hr & Hs). apply wp_bind, wp_zoom.
  apply wp_ci_is; [done|done| |].
  - intros c' Hneg Hh E. apply Hb; [|done..]. split; [done|].
    change (len c' <= bound). lia.
  - by apply wp_ret.
Qed.

Lemma keeps_then (seen : lcp_options -> lcp_options) m s :
  nak_inv s -> keeps_naks m ->
  wp False (set_no seen ;; m) (fun _ => nak_inv) (fun _ _ => False) s.
Proof. intros Hs Hm. by apply (keeps_naks_bind _ _ (keeps_set_no seen) Hm). Qed.

(** Read the last field of an option, and go on behind it. *)
Ltac read_last H L :=
  apply wp_bind, wp_zoom; first
    [ eapply (wp_GETCHAR 0); [exact H|] | eapply (wp_GETSHORT 0); [exact H|]
    | eapply (wp_GETLONG 0); [exact H|] ];
  intros ? c' ? ?%has_0 ?;
  apply keeps_then; [split_and!; try done; change (len c' <= bound); cbv beta delta [upd] in *; cbn in *; lia|].

Lemma keeps_void opt neg seen code :
  keeps_naks code -> keeps_naks (NAKCIVOID opt neg seen code).
Proof.
  intros Hk. apply keeps_found; [done|]. intros s [Hh%has_0 Hl] Hr Hs _.
  by apply keeps_then.
Qed.

Lemma keeps_short opt neg seen code :
  (forall v, is_u16 v -> keeps_naks (code v)) -> keeps_naks (NAKCISHORT opt neg seen code).
Proof.
  intros Hk. apply keeps_found; [done|]. intros s [Hh Hl] Hr Hs _.
  read_last Hh Hl. by apply Hk.
Qed.

Lemma keeps_long opt neg seen code :
  (neg = true -> forall v, is_u32 v -> keeps_naks (code v)) ->
  keeps_naks (NAKCILONG opt neg seen code).
Proof.
  intros Hk. apply keeps_found; [done|]. intros s [Hh Hl] Hr Hs Hn.
  read_last Hh Hl. by apply Hk.
Qed.

Lemma keeps_chap opt neg seen code :
  (forall v d, keeps_naks (code v d)) -> keeps_naks (NAKCICHAP opt neg seen code).
Proof.
  intros Hk. apply keeps_found; [done|]. intros s [Hh Hl] Hr Hs _.
  apply wp_bind, wp_zoom. eapply (wp_GETSHORT 1); [exact Hh|]. intros v c Hv Hc E.
  read_last Hc Hl. by apply Hk.
Qed.

Lemma keeps_lqr opt neg seen code :
  (forall v l, is_u32 l -> keeps_naks (code v l)) -> keeps_naks (NAKCILQR opt neg seen code).
Proof.
  intros Hk. apply keeps_found; [done|]. intros s [Hh Hl] Hr Hs _.
  apply wp_bind, wp_zoom. eapply (wp_GETSHORT 4); [exact Hh|]. intros v c Hv Hc E.
  read_last Hc Hl. by apply Hk.
Qed.

(** One field of [try] changes; what is said of the others stays. *)
Ltac try_field :=
  apply keeps_set_try; intros t [[] ? ? ? ? ?]; split; [split| ..];
  cbv beta delta [upd]; cbn; try tauto; try assumption; auto; try intuition discriminate.

Lemma keeps_magic :
  keeps_naks (m <- nak_magic ;;
    set_try (fun t => t <| magicnumber := m |> <| numloops ::= fun n => n + 1 |>) ;;
    modify (fun s => s <| n_looped := true |>)).
Proof.
  intros s (Hc & Hr & Hs). apply wp_bind, wp_zoom.
  apply random_ok_magic; [done|]. intros g Hg.
  refine (keeps_naks_bind _ _ _ _ _ _); [|by intros ? ?; apply wp_modify|done].
  destruct Hr as [Hn _]. try_field.
Qed.

Lemma keeps_requested : keeps_naks (nak_requested wo go).
Proof.
  unfold nak_requested. repeat apply keeps_naks_bind.
  - apply keeps_short. intros v Hv s Hs. apply wp_when; intros C; [|done].
    revert s Hs. try_field. apply orb_prop in C as [C|C]; lia.
  - apply keeps_long. intros _ v Hv. destruct Hgo. try_field; [by apply lor_u32|].
    apply land_lnot_lor.
  - apply keeps_chap. intros. try_field.
  - apply keeps_when, keeps_short. intros v _. try_field.
  - apply keeps_lqr. intros v l Hl. destruct (negb (v =? LQR)); try_field.
  - apply keeps_long. intros _ _ _. apply keeps_magic.
  - apply keeps_void. try_field.
  - apply keeps_void. try_field.
Qed.
End Requested.

(** ** The options we did not ask for *)

Section Rest.
Context (go no : lcp_options).

Lemma nak_rest_step_eq l ty cl q :
  nak_rest_step go no (mk_cursor l (ty :: cl :: q)) =
  if l - cl <? 0 then Throw tt (mk_cursor (l - cl) q)
  else if nak_rest_bad go no ty cl then Throw tt (mk_cursor (l - cl) q)
  else Ok tt (mk_cursor (l - cl) (drop (Z.to_nat cl) (ty :: cl :: q))).
Proof.
  unfold nak_rest_step, need, take_len, modify, gets, when, bind, upd, set_len, set_p.
  cbn -[nak_rest_bad drop]. destruct (l - cl <? 0); [done|].
  by destruct (nak_rest_bad go no ty cl).
Qed.

(** One round moves forward, or it is an AUTHTYPE option of length 0 and the
    cursor is back where it was. *)
Lemma nak_rest_step_spec c :
  cursor_ok c -> CILEN_VOID < len c ->
  match nak_rest_step go no c with
  | Ok _ c' => cursor_ok c' /\
      (len c' < len c \/ c' = c /\ neg_chap go = false /\ neg_upap go = false)
  | Throw _ _ => True
  | Fault | Hang => False
  end.
Proof.
  intros Hc Hl. destruct c as [l pk]. unfold CILEN_VOID in Hl. cbn in Hl.
  destruct (cursor_split 2 _ Hc ltac:(cbn; lia)) as (d & q & E & Ld & Hd & _).
  cbn in E. subst pk. elements d Ld. bytes_inv Hd. rename z into ty, z0 into cl.
  cbn [app]. rewrite nak_rest_step_eq.
  destruct (Z.ltb_spec (l - cl) 0) as [L|L]; [done|].
  destruct (nak_rest_bad go no ty cl) eqn:Hbad; [done|].
  destruct Hc as [Hb [_ Hlen]]. cbn in Hb, Hlen. unfold is_u8 in H0.
  split.
  - split; cbn; [by apply (Forall_drop _ (Z.to_nat cl)) in Hb|].
    rewrite length_drop. cbn. lia.
  - destruct (decide (cl = 0)) as [->|]; [right|left; cbn; lia].
    split; [f_equal; lia|]. unfold nak_rest_bad in Hbad.
    destruct (ty =? CI_MRU); [by rewrite orb_true_r in Hbad|].
    destruct (ty =? CI_ASYNCMAP); [by rewrite orb_true_r in Hbad|].
    destruct (ty =? CI_AUTHTYPE); [|by repeat case_match; rewrite ?orb_true_r in Hbad].
    destruct (neg_chap go), (neg_upap go); cbn in Hbad; rewrite ?orb_true_r in Hbad; auto.
Qed.

Lemma nak_rest_unfold fuel c :
  nak_rest fuel go no c =
  if CILEN_VOID <? len c then
    match fuel with
    | O => Hang
    | S fuel => (nak_rest_step go no ;; nak_rest fuel go no) c
    end
  else Ok tt c.
Proof. destruct fuel; cbn; unfold bind, gets; by destruct (CILEN_VOID <? len c). Qed.

(** A round that does not move is repeated for ever. *)
Lemma nak_rest_stuck c :
  CILEN_VOID < len c -> nak_rest_step go no c = Ok tt c ->
  forall fuel, nak_rest fuel go no c = Hang.
Proof.
  intros Hl E. induction fuel as [|fuel IH]; rewrite nak_rest_unfold;
    rewrite (proj2 (Z.ltb_lt _ _)) by done; [done|].
  unfold bind. by rewrite E.
Qed.

(** [len] rounds are enough for every packet that some number of rounds is
    enough for. *)
Lemma nak_rest_spec fuel c :
  cursor_ok c -> (Z.to_nat (len c) <= fuel)%nat ->
  match nak_rest fuel go no c with
  | Ok _ c' => cursor_ok c'
  | Throw _ _ => True
  | Fault => False
  | Hang => neg_chap go = false /\ neg_upap go = false /\
      forall fuel, nak_rest fuel go no c = Hang
  end.
Proof.
  revert c. induction fuel as [|fuel IH]; intros c Hc Hf; rewrite nak_rest_unfold.
  { destruct (Z.ltb_spec CILEN_VOID (len c)) as [L|L]; [|done]. unfold CILEN_VOID in L. lia. }
  destruct (Z.ltb_spec CILEN_VOID (len c)) as [L|L]; [|done].
  pose proof (nak_rest_step_spec c Hc L) as S. unfold bind.
  destruct (nak_rest_step go no c) as [[] c'| | |] eqn:Es; [|done..].
  destruct S as [Hc' [Hlt|(-> & H1 & H2)]].
  - destruct Hc' as [Hb' Hl']. specialize (IH c' (conj Hb' Hl') ltac:(lia)).
    destruct (nak_rest fuel go no c') eqn:Er; [done..|].
    destruct IH as (H1 & H2 & H3). split_and!; [done..|]. intros f.
    rewrite nak_rest_unfold, (proj2 (Z.ltb_lt _ _)) by done.
    destruct f; [done|]. unfold bind. rewrite Es. apply H3.
  - pose proof (nak_rest_stuck c L Es) as H3. rewrite H3. split_and!; [done..|].
    apply nak_rest_stuck; done.
Qed.
End Rest.

(** The start of [lcp_nakci] on a packet. *)
Definition nak_start (go : lcp_options) (c : cursor) (g : rng) : nak_locals :=
  mk_nak c no_lcp_options go false g.

(** C24: a Nak never makes the parser read past the packet.  If it is accepted,
    the next request asks for no option that was not asked for, keeps the MRU
    below the one we want or the default, clears no bit of the async map, and
    has new values of the right widths.  As many rounds of its loop as the
    packet has bytes are enough, or no number is; and when we ask for
    authentication the loop always ends. *)
Theorem lcp_nakci_spec fuel wo go c g :
  lcp_options_ok go -> cursor_ok c -> random_ok g -> (Z.to_nat (len c) <= fuel)%nat ->
  match lcp_nakci fuel wo go (nak_start go c g) with
  | Ok try _ => naks wo go try
  | Throw _ _ => True
  | Fault => False
  | Hang => neg_chap go = false /\ neg_upap go = false /\
      forall fuel, lcp_nakci fuel wo go (nak_start go c g) = Hang
  end.
Proof.
  intros Hgo Hc Hg Hf. unfold lcp_nakci. unfold bind at 1.
  assert (Hi : nak_inv wo go (len c) (nak_start go c g))
    by (split_and!; [apply Hc..|done| |done|by apply naks_refl]; done).
  pose proof (keeps_requested wo go Hgo _ _ Hi) as Hr. unfold wp in Hr.
  destruct (nak_requested wo go (nak_start go c g)) as [[] s| | |] eqn:E; [|done..].
  destruct Hr as ([Hc' Hlen] & _ & Hs). unfold bind, gets, at_cur, zoom.
  pose proof (nak_rest_spec go (n_no s) fuel (n_cur s) Hc' ltac:(lia)) as Hn.
  destruct (nak_rest fuel go (n_no s) (n_cur s)) as [[] c'| | |] eqn:Er; [|done|done|].
  - unfold no_more, bind, gets, when. by destruct (negb _).
  - destruct Hn as (H1 & H2 & H3). split_and!; [done..|]. intros f.
    by rewrite E, H3.
Qed.

Lemma lcp_nakci_spec_witness :
  naks sample_go sample_go
    (sample_go <| mru := 512 |> <| neg_accompression := false |>).
Proof.
  pose (c := mk_cursor 6 [1; 4; 2; 0; 8; 2]). pose (g := mk_rng 7 (fun _ => 9)).
  assert (Hc : cursor_ok c) by (split; [repeat constructor; done|done]).
  assert (Hg : random_ok g) by (split; [done|intros; done]).
  pose proof (lcp_nakci_spec 6 sample_go sample_go c g sample_go_ok Hc Hg ltac:(cbn; lia)) as H.
  assert (E : exists s, lcp_nakci 6 sample_go sample_go (nak_start sample_go c g)
    = Ok (sample_go <| mru := 512 |> <| neg_accompression := false |>) s)
    by (eexists; vm_compute; reflexivity).
  destruct E as [s E]. rewrite E in H. exact H.
Defined.

(** An option that is not there leaves everything as it is. *)
Lemma not_found opt neg n body s :
  ci_is opt neg n (n_cur s) = Ok false (n_cur s) ->
  (found <- at_cur (ci_is opt neg n) ;; when found body) s = Ok tt s.
Proof. intros E. unfold bind, at_cur, zoom. rewrite E. by destruct s. Qed.

Lemma bind_ok {W X A B} (m : M W X A) (k : A -> M W X B) a w w' :
  m w = Ok a w' -> bind m k w = k a w'.
Proof. intros E. unfold bind. by rewrite E. Qed.

(** When we do not ask for authentication, a Nak that starts with an
    authentication option of length 0 is parsed for ever: the option is
    accepted as one we did not ask for, and skipping its 0 bytes leads back to
    it. *)
Theorem lcp_nakci_hangs fuel wo go l q g :
  neg_chap go = false -> neg_upap go = false -> 3 <= l ->
  lcp_nakci fuel wo go (nak_start go (mk_cursor l (CI_AUTHTYPE :: 0 :: q)) g) = Hang.
Proof.
  intros H1 H2 Hl.
  assert (Hskip : forall opt neg n, n <> 0 ->
    ci_is opt neg n (mk_cursor l (CI_AUTHTYPE :: 0 :: q))
    = Ok false (mk_cursor l (CI_AUTHTYPE :: 0 :: q))).
  { intros opt neg n Hn. unfold ci_is, bind, gets, peek. cbn.
    destruct neg; [|done]. cbn [len]. destruct (l <? n); [done|].
    simpl. by destruct n. }
  assert (E : forall s, n_cur s = mk_cursor l (CI_AUTHTYPE :: 0 :: q) ->
    nak_requested wo go s = Ok tt s).
  { intros s Es. unfold nak_requested. rewrite H1. cbn [negb when].
    do 7 (erewrite bind_ok by (apply not_found; rewrite Es; by apply Hskip)).
    apply not_found. rewrite Es. by apply Hskip. }
  unfold lcp_nakci, bind. rewrite E by done. cbn [gets nak_start n_no]. unfold at_cur, zoom.
  cbn [n_cur]. rewrite nak_rest_stuck; [done|cbn; unfold CILEN_VOID; lia|].
  unfold nak_start; cbn [n_cur].  rewrite nak_rest_step_eq, (proj2 (Z.ltb_ge _ _)) by lia.
  unfold nak_rest_bad. cbn -[drop]. rewrite H1, H2. cbn. f_equal. f_equal. lia.
Qed.

Lemma lcp_nakci_hangs_witness :
  lcp_nakci 1000 sample_go sample_go
    (nak_start sample_go (mk_cursor 3 [3; 0; 0]) (mk_rng 7 (fun _ => 9))) = Hang.
Proof. by apply (lcp_nakci_hangs 1000 sample_go sample_go 3 [0]). Defined.
