(* ===== verification/LcpReq.v ===== *)
(** * Answering the peer's LCP Configure-Request

    [lcp_reqci]: what it answers, what it does to the packet and to [*ho], and
    the requests for which it stays inside its buffers. *)

From S2P Require Export LcpNak.

(** ** The options of a request *)

(** How the loops of [lcp_reqci] and [ipcp_reqci] cut a request into options: an
    option whose length is wrong ends the list, and the part of it that can be
    rejected is as long as the variable [cilen] says, which [cut] converts the
    length of the rest of the packet to. *)
Section Options.
Context (cut : Z -> Z).

Fixpoint cis (fuel : nat) (l : list Z) : list (list Z) :=
  match fuel with
  | O => []
  | S fuel =>
      match l with
      | [] => []
      | [_] => [l]
      | _ :: n :: _ =>
          if (n <? 2) || (Z.of_nat (length l) <? n)
          then [take (Z.to_nat (cut (Z.of_nat (length l)))) l]
          else take (Z.to_nat n) l :: cis fuel (drop (Z.to_nat n) l)
      end
  end.

Definition options_by (l : list Z) : list (list Z) := cis (length l) l.

Lemma cis_cons f a n l :
  cis (S f) (a :: n :: l) =
  if (n <? 2) || (Z.of_nat (length (a :: n :: l)) <? n)
  then [take (Z.to_nat (cut (Z.of_nat (length (a :: n :: l))))) (a :: n :: l)]
  else take (Z.to_nat n) (a :: n :: l) :: cis f (drop (Z.to_nat n) (a :: n :: l)).
Proof. done. Qed.

Lemma cis_fuel f f' l :
  (length l <= f)%nat -> (length l <= f')%nat -> cis f l = cis f' l.
Proof.
  revert f' l. induction f as [|f IH]; intros [|f'] [|a [|n l]] Hf Hf';
    cbn in Hf, Hf'; try lia; try done.
  rewrite !cis_cons. destruct (_ || _) eqn:E; [done|].
  apply orb_false_iff in E as [E1 E2]. apply Z.ltb_ge in E1.
  f_equal. apply IH; rewrite length_drop, !length_cons; lia.
Qed.

Lemma options_cons a n l :
  2 <= n <= Z.of_nat (length (a :: n :: l)) ->
  options_by (a :: n :: l) =
    take (Z.to_nat n) (a :: n :: l) :: options_by (drop (Z.to_nat n) (a :: n :: l)).
Proof.
  intros Hn. unfold options_by at 1. rewrite length_cons, cis_cons.
  rewrite (proj2 (Z.ltb_ge n 2)), (proj2 (Z.ltb_ge _ n)) by lia. cbn [orb].
  f_equal. apply cis_fuel; rewrite length_drop, ?length_cons in *; lia.
Qed.

Lemma options_bad l n :
  cut 1 = 1 -> bytes l -> (length l < 2)%nat \/ l !! 1%nat = Some n /\ (n < 2 \/ Z.of_nat (length l) < n) ->
  l <> [] -> options_by l = [take (Z.to_nat (cut (Z.of_nat (length l)))) l].
Proof.
  intros Hcut Hb H Hne. unfold options_by.
  destruct l as [|a [|m l]]; [done|change (Z.of_nat (length [a])) with 1; by rewrite Hcut|].
  rewrite length_cons, cis_cons. destruct H as [H|[[= ->] H]]; [cbn in H; lia|].
  destruct (n <? 2) eqn:E; [done|]. apply Z.ltb_ge in E.
  rewrite (proj2 (Z.ltb_lt _ n)) by (rewrite !length_cons in *; lia). done.
Qed.
End Options.

(** In lcp.c [cilen] is a [u_char]. *)
Notation options := (options_by u8).

(** ** What is known of the options that were accepted *)

Record his_ok (ao go ho : lcp_options) : Prop := {
  his_mru : neg_mru ho = true -> neg_mru ao = true /\ MINMRU <= mru ho < 2 ^ 16;
  his_asyncmap : neg_asyncmap ho = true ->
    neg_asyncmap ao = true /\ Z.land (asyncmap ao) (Z.lnot (asyncmap ho)) = 0;
  his_one_auth : neg_upap ho && neg_chap ho = false;
  his_upap : neg_upap ho = true -> neg_upap ao = true;
  his_chap : neg_chap ho = true ->
    neg_chap ao = true /\ chap_mdtype ho = u8 (chap_mdtype ao);
  his_magic : neg_magicnumber ho = true ->
    neg_magicnumber go = true -> magicnumber ho <> magicnumber go;
  his_pc : neg_pcompression ho = true -> neg_pcompression ao = true;
  his_ac : neg_accompression ho = true -> neg_accompression ao = true;
  his_lqr : neg_lqr ho = false }.

Lemma his_ok_none ao go : his_ok ao go no_lcp_options.
Proof. by split. Qed.

Section Reqci.
Context (ao go : lcp_options) (rid : bool).

(** What the [switch] on the option at [cip] does to the locals. *)
Record switched (cip : nat) (cilen orc : Z) (s s' : req_locals) : Prop := {
  sw_next : q_next s' = q_next s;
  sw_l : q_l s' = q_l s;
  sw_citype : q_citype s' = q_citype s;
  sw_rejp : q_rejp s' = q_rejp s;
  sw_rc : q_rc s' = q_rc s;
  sw_orc : orc = CONFACK \/ orc = CONFNAK \/ orc = CONFREJ;
  sw_len : length (q_buf s') = length (q_buf s);
  sw_before : take cip (q_buf s') = take cip (q_buf s);
  sw_after : drop (cip + Z.to_nat cilen) (q_buf s') = drop (cip + Z.to_nat cilen) (q_buf s);
  sw_buf : orc = CONFNAK /\ rid = false \/ q_buf s' = q_buf s;
  sw_bytes : bytes (q_buf s');
  sw_nak_bytes : bytes (q_nak s');
  sw_nak : 4 * Z.of_nat (length (q_nak s')) <= 4 * Z.of_nat (length (q_nak s)) + 5 * cilen;
  sw_ho : his_ok ao go (q_ho s');
  sw_rng : random_ok (q_rng s') }.

(** The option at [cip] is in the buffer and there is room for its Nak. *)
Record in_bounds (cip : nat) (cilen : Z) (s : req_locals) : Prop := {
  ib_len : 2 <= cilen;
  ib_fits : Z.of_nat cip + cilen <= Z.of_nat (length (q_buf s));
  ib_bytes : bytes (q_buf s);
  ib_nak_bytes : bytes (q_nak s);
  ib_room : 4 * Z.of_nat (length (q_nak s)) + 5 * cilen <= 4 * PPP_MRU;
  ib_ho : his_ok ao go (q_ho s);
  ib_rng : random_ok (q_rng s) }.

Definition switches (cip : nat) (cilen : Z) (m : requester Z) : Prop :=
  forall s, in_bounds cip cilen s ->
    wp False m (fun orc s' => switched cip cilen orc s s') (fun _ _ => False) s.

Lemma wp_rd o s (Q : Z -> req_locals -> Prop) E :
  (o < length (q_buf s))%nat -> bytes (q_buf s) ->
  (forall v, q_buf s !! o = Some v -> is_u8 v -> Q v s) -> wp False (rd o) Q E s.
Proof.
  intros Ho Hb HQ. apply wp_bind, wp_gets.
  destruct (lookup_lt_is_Some_2 _ _ Ho) as [v Hv].
  eapply wp_access; [exact Hv|]. apply HQ; [done|]. by eapply Forall_lookup_1.
Qed.

Lemma wp_rd_short o s (Q : Z -> req_locals -> Prop) E :
  (o + 2 <= length (q_buf s))%nat -> bytes (q_buf s) ->
  (forall v, is_u16 v -> Q v s) -> wp False (rd_short o) Q E s.
Proof.
  intros Ho Hb HQ. apply wp_bind, wp_rd; [lia|done|]. intros a _ Ha.
  apply wp_bind, wp_rd; [lia|done|]. intros b _ Hb'.
  apply wp_ret, HQ. by apply be16_range.
Qed.

Lemma wp_rd_long o s (Q : Z -> req_locals -> Prop) E :
  (o + 4 <= length (q_buf s))%nat -> bytes (q_buf s) ->
  (forall v, is_u32 v -> Q v s) -> wp False (rd_long o) Q E s.
Proof.
  intros Ho Hb HQ. apply wp_bind, wp_rd; [lia|done|]. intros a _ Ha.
  apply wp_bind, wp_rd; [lia|done|]. intros b _ Hb'.
  apply wp_bind, wp_rd; [lia|done|]. intros c _ Hc.
  apply wp_bind, wp_rd; [lia|done|]. intros d _ Hd.
  apply wp_ret, HQ. by apply be32_range.
Qed.

Lemma wp_wr o bs s (Q : unit -> req_locals -> Prop) E :
  (o + length bs <= length (q_buf s))%nat ->
  Q tt (s <| q_buf := take o (q_buf s) ++ bs ++ drop (o + length bs) (q_buf s) |>) ->
  wp False (wr o bs) Q E s.
Proof.
  intros Ho HQ. apply wp_bind, wp_gets, wp_bind. eapply wp_access; [by apply poke_at_fits|].
  by apply wp_modify.
Qed.

Lemma wp_put_nak bs s (Q : unit -> req_locals -> Prop) E :
  Z.of_nat (length (q_nak s)) + Z.of_nat (length bs) <= PPP_MRU ->
  Q tt (s <| q_nak := q_nak s ++ bs |>) -> wp False (put_nak bs) Q E s.
Proof.
  intros Hl HQ. apply wp_bind, wp_gets. apply wp_if; [intros _; by apply wp_modify|].
  rewrite length_app. intros L%Z.leb_gt. lia.
Qed.

(** An option that is refused without touching anything. *)
Lemma switched_refl cip cilen orc s :
  in_bounds cip cilen s -> orc = CONFACK \/ orc = CONFNAK \/ orc = CONFREJ ->
  switched cip cilen orc s s.
Proof. intros [] H. split; auto. lia. Qed.

Lemma switched_ho cip cilen g s :
  in_bounds cip cilen s -> his_ok ao go (g (q_ho s)) ->
  switched cip cilen CONFACK s (s <| q_ho ::= g |>).
Proof. intros [] H. split; cbv beta delta [upd]; cbn; auto. lia. Qed.

Lemma switched_nak cip cilen bs s :
  in_bounds cip cilen s -> bytes bs -> 4 * Z.of_nat (length bs) <= 5 * cilen ->
  switched cip cilen CONFNAK s (s <| q_nak := q_nak s ++ bs |>).
Proof.
  intros [] Hb Hl. split; cbv beta delta [upd]; cbn; auto.
  - by apply Forall_app.
  - rewrite length_app. lia.
Qed.

Lemma switched_hint cip cilen bs s :
  in_bounds cip cilen s -> bytes bs -> Z.of_nat (length bs) = cilen - 2 -> rid = false ->
  switched cip cilen CONFNAK s
    (s <| q_buf := take (cip + 2) (q_buf s) ++ bs
                   ++ drop (cip + 2 + length bs) (q_buf s) |>).
Proof.
  intros [] Hb Hl Hr. split; cbv beta delta [upd]; cbn; auto.
  - rewrite !length_app, length_take, length_drop. lia.
  - rewrite take_app_le by (rewrite length_take; lia). rewrite take_take. f_equal. lia.
  - rewrite app_assoc, drop_app_ge by (rewrite length_app, length_take; lia).
    rewrite drop_drop. f_equal. rewrite length_app, length_take. lia.
  - apply Forall_app. split; [by apply Forall_take|].
    apply Forall_app. split; [done|by apply Forall_drop].
  - lia.
Qed.
(** The refusals at the start of each case. *)
Lemma switches_guard cip cilen (c : bool) m :
  (c = false -> switches cip cilen m) ->
  switches cip cilen (if c then ret CONFREJ else m).
Proof.
  intros H s Hs. apply wp_if; intros C; [|by apply H].
  apply wp_ret. apply switched_refl; auto.
Qed.

(** The end of a branch: accept with a change of [*ho], or refuse. *)
Ltac accept_with Hs :=
  apply wp_bind, wp_modify, wp_ret, switched_ho; [exact Hs|];
  destruct (ib_ho _ _ _ Hs); split; cbv beta delta [upd]; cbn; auto.
Ltac refusal := apply switches_guard; intros [?%negb_false_iff ?%negb_false_iff]%orb_false_iff.

Lemma switches_mru cip cilen : switches cip cilen (req_mru ao rid cip cilen).
Proof.
  refusal. intros s Hs. pose proof Hs as []. apply Z.eqb_eq in H0. subst cilen.
  unfold CILEN_SHORT in *. apply wp_bind, wp_rd_short; [lia|done|]. intros v Hv.
  apply wp_if; intros C.
  - apply wp_bind, wp_when; intros R.
    + apply wp_wr; [cbn; lia|]. apply wp_ret, switched_hint; [done|auto with ppp|done|].
      by apply negb_true_iff in R.
    + apply wp_ret, switched_refl; auto.
  - apply Z.ltb_ge in C. accept_with Hs. unfold is_u16 in Hv. auto with lia.
Qed.

Lemma switches_asyncmap cip cilen : switches cip cilen (req_asyncmap ao rid cip cilen).
Proof.
  refusal. intros s Hs. pose proof Hs as []. apply Z.eqb_eq in H0. subst cilen.
  unfold CILEN_LONG in *. apply wp_bind, wp_rd_long; [lia|done|]. intros v Hv.
  apply wp_if; intros C.
  - apply wp_bind, wp_when; intros R.
    + apply wp_wr; [cbn; lia|]. apply wp_ret, switched_hint; [done|auto with ppp|done|].
      by apply negb_true_iff in R.
    + apply wp_ret, switched_refl; auto.
  - apply negb_false_iff, Z.eqb_eq in C. accept_with Hs.
Qed.

Lemma bytes_suggest_chap : bytes (suggest_chap ao).
Proof. unfold suggest_chap. auto 10 with ppp. Qed.
Lemma bytes_suggest_upap : bytes suggest_upap.
Proof. unfold suggest_upap. auto 10 with ppp. Qed.

(** A suggestion put into the Nak. *)
Lemma wp_suggest cip cilen bs s :
  in_bounds cip cilen s -> bytes bs -> 4 * Z.of_nat (length bs) <= 5 * cilen ->
  wp False (put_nak bs ;; ret CONFNAK)
    (fun orc s' => switched cip cilen orc s s') (fun _ _ => False) s.
Proof.
  intros Hs Hb Hl. apply wp_bind, wp_put_nak; [destruct Hs; lia|].
  by apply wp_ret, switched_nak.
Qed.

Lemma switches_authtype cip cilen : switches cip cilen (req_authtype ao cip cilen).
Proof.
  apply switches_guard; intros [L _]%orb_false_iff. apply Z.ltb_ge in L.
  unfold CILEN_SHORT in L. intros s Hs. pose proof Hs as [].
  apply wp_bind, wp_rd_short; [lia|done|]. intros v Hv. apply wp_bind, wp_gets.
  pose proof bytes_suggest_chap. pose proof bytes_suggest_upap.
  apply wp_if; intros _; [|apply wp_if; intros _].
  - apply wp_if; intros C; [apply wp_ret, switched_refl; auto|].
    apply orb_false_iff in C as [Hc _].
    apply wp_if; intros U; [apply wp_suggest; [done|done|cbn; lia]|].
    apply negb_false_iff in U. accept_with Hs.
  - apply wp_if; intros C; [apply wp_ret, switched_refl; auto|].
    apply orb_false_iff in C as [Hu Hl%negb_false_iff%Z.eqb_eq]. unfold CILEN_CHAP in Hl.
    apply wp_if; intros U; [apply wp_suggest; [done|done|cbn; lia]|].
    apply negb_false_iff in U. apply wp_bind, wp_rd; [lia|done|]. intros d _ Hd.
    apply wp_if; intros D; [apply wp_suggest; [done|done|cbn; lia]|].
    apply negb_false_iff, Z.eqb_eq in D. accept_with Hs. by rewrite Hu.
  - destruct (neg_chap ao); apply wp_suggest; auto; cbn; lia.
Qed.

Lemma switches_quality cip cilen : switches cip cilen (req_quality ao cip cilen).
Proof.
  refusal. intros s Hs. pose proof Hs as []. apply Z.eqb_eq in H0. subst cilen.
  unfold CILEN_LQR in *. apply wp_bind, wp_rd_short; [lia|done|]. intros v Hv.
  apply wp_bind, wp_rd_long; [lia|done|]. intros v' Hv'.
  apply wp_if; intros C; [|apply wp_ret, switched_refl; auto].
  apply wp_suggest; [done| |cbn; lia].
  auto 10 with ppp.
Qed.

Lemma switches_magicnumber cip cilen :
  switches cip cilen (req_magicnumber ao go cip cilen).
Proof.
  apply switches_guard; intros [_ L%negb_false_iff%Z.eqb_eq]%orb_false_iff.
  intros s Hs. pose proof Hs as []. subst cilen. unfold CILEN_LONG in *.
  apply wp_bind, wp_rd_long; [lia|done|]. intros v Hv. apply wp_if; intros C.
  - apply wp_bind, wp_zoom, random_ok_magic; [done|]. intros g Hg.
    eapply wp_mono; [apply (wp_suggest cip 6)| |done].
    + by split.
    + auto 10 with ppp.
    + cbn. lia.
    + intros orc s' []. split; auto.
  - accept_with Hs. intros _ E. rewrite E in C. cbn in C. by apply Z.eqb_neq in C.
Qed.

Lemma switches_pcompression cip cilen : switches cip cilen (req_pcompression ao cilen).
Proof. refusal. intros s Hs. accept_with Hs. Qed.
Lemma switches_accompression cip cilen : switches cip cilen (req_accompression ao cilen).
Proof. refusal. intros s Hs. accept_with Hs. Qed.

Lemma switches_switch citype cip cilen :
  switches cip cilen (req_switch ao go rid citype cip cilen).
Proof.
  unfold req_switch. repeat case_match;
    auto using switches_mru, switches_asyncmap, switches_authtype, switches_quality,
      switches_magicnumber, switches_pcompression, switches_accompression.
  intros s Hs. apply wp_ret, switched_refl; auto.
Qed.
End Reqci.

(** ** The loop *)

Section Loop.
Context (ao go : lcp_options) (rid : bool).
(** The packet buffer from [inp] on, and the length of the request. *)
Context (B : list Z) (l0 : Z).

(** The bytes of the request from offset [o] on. *)
Definition tail_from (o : Z) : list Z := take (Z.to_nat (l0 - o)) (drop (Z.to_nat o) B).

(** What holds of the packet buffer when the options [seen] have been parsed
    and [rejd] of them rejected. *)
Record shrunk (s : req_locals) (seen rejd : list (list Z)) : Prop := {
  sh_options : options (take (Z.to_nat l0) B) = seen ++ options (tail_from (l0 - q_l s));
  sh_sub : rejd `sublist_of` seen;
  sh_front : take (q_rejp s) (q_buf s) = concat rejd;
  sh_rejp : q_rejp s = length (concat rejd);
  sh_rc : q_rc s = CONFREJ <-> rejd <> [] }.

Record loop_inv (s : req_locals) : Prop := {
  li_l : 0 <= q_l s <= l0;
  li_len : length (q_buf s) = length B;
  li_bytes : bytes (q_buf s);
  li_nak_bytes : bytes (q_nak s);
  li_nak : 4 * Z.of_nat (length (q_nak s)) <= 5 * (l0 - q_l s);
  li_next : q_l s <> 0 -> Z.of_nat (q_next s) = l0 - q_l s;
  li_rejp : Z.of_nat (q_rejp s) <= l0 - q_l s;
  li_rest : drop (Z.to_nat (l0 - q_l s)) (q_buf s) = drop (Z.to_nat (l0 - q_l s)) B;
  li_rc : q_rc s = CONFACK \/ q_rc s = CONFNAK \/ q_rc s = CONFREJ;
  li_ack : q_rc s = CONFACK -> q_buf s = B /\ Z.of_nat (q_next s) = l0 - q_l s;
  li_shrunk : exists seen rejd, shrunk s seen rejd;
  li_ho : his_ok ao go (q_ho s);
  li_rng : random_ok (q_rng s) }.

(** Moving an option down to [rejp] keeps everything behind it. *)
Lemma move_down (buf : list Z) rejp cip n :
  (rejp <= cip)%nat -> (cip + n <= length buf)%nat ->
  let o := take n (drop cip buf) in
  let buf' := take rejp buf ++ o ++ drop (rejp + length o) buf in
  length o = n /\ length buf' = length buf /\
  take (rejp + n) buf' = take rejp buf ++ o /\
  forall d, (cip + n <= d)%nat -> drop d buf' = drop d buf.
Proof.
  intros Hr Hn o buf'. assert (Ho : length o = n)
    by (unfold o; rewrite length_take, length_drop; lia).
  split; [done|]. unfold buf'. split; [|split].
  - rewrite !length_app, length_take, length_drop. lia.
  - rewrite app_assoc, take_app_le by (rewrite length_app, length_take; lia).
    apply take_ge. rewrite length_app, length_take. lia.
  - intros d Hd. rewrite app_assoc, drop_app_ge by (rewrite length_app, length_take; lia).
    rewrite drop_drop. f_equal. rewrite length_app, length_take. lia.
Qed.

(** The state when the option [o] at [cip] has been judged but not answered. *)
Record judged (cip : nat) (cilen orc : Z) (o : list Z) (seen rejd : list (list Z))
  (s : req_locals) : Prop := {
  ju_l : 0 <= q_l s <= l0;
  ju_cilen : 0 <= cilen;
  ju_o : o = take (Z.to_nat cilen) (drop cip B) /\ Z.of_nat (length o) = cilen;
  ju_fits : Z.of_nat cip + cilen <= l0 - q_l s;
  ju_l0 : l0 <= Z.of_nat (length B);
  ju_len : length (q_buf s) = length B;
  ju_bytes : bytes (q_buf s);
  ju_nak_bytes : bytes (q_nak s);
  ju_nak : 4 * Z.of_nat (length (q_nak s)) <= 5 * (l0 - q_l s);
  ju_next : q_l s <> 0 \/ orc = CONFACK -> Z.of_nat (q_next s) = l0 - q_l s;
  ju_rejp : (q_rejp s <= cip)%nat;
  ju_rest : drop (Z.to_nat (l0 - q_l s)) (q_buf s) = drop (Z.to_nat (l0 - q_l s)) B;
  ju_rc : q_rc s = CONFACK \/ q_rc s = CONFNAK \/ q_rc s = CONFREJ;
  ju_orc : orc = CONFACK \/ orc = CONFNAK \/ orc = CONFREJ;
  ju_ack : q_rc s = CONFACK -> orc = CONFACK -> q_buf s = B;
  ju_same : orc = CONFREJ \/ orc = CONFNAK /\ rid = true ->
    take (Z.to_nat cilen) (drop cip (q_buf s)) = o;
  ju_options : options (take (Z.to_nat l0) B)
    = seen ++ [o] ++ options (tail_from (l0 - q_l s));
  ju_sub : rejd `sublist_of` seen;
  ju_front : take (q_rejp s) (q_buf s) = concat rejd;
  ju_rejd : q_rejp s = length (concat rejd);
  ju_rcrej : q_rc s = CONFREJ <-> rejd <> [];
  ju_ho : his_ok ao go (q_ho s);
  ju_rng : random_ok (q_rng s) }.

Definition step_post (s s' : req_locals) : Prop := loop_inv s' /\ q_l s' = q_l s.

(** The option is passed over; the verdict so far becomes [rc']. *)
Lemma passed_over cip cilen orc o seen rejd s rc' :
  judged cip cilen orc o seen rejd s ->
  rc' = q_rc s /\ (q_rc s = CONFACK -> orc = CONFACK)
  \/ rc' = CONFNAK /\ q_rc s <> CONFREJ ->
  step_post s (s <| q_rc := rc' |>).
Proof.
  intros [] Hrc. split; [|done].
  assert (Hn : rc' = CONFREJ <-> rejd <> []).
  { destruct Hrc as [[-> _]|[-> H]]; [done|]. split; [done|].
    intros R. by apply ju_rcrej0 in R. }
  split; cbv beta delta [upd]; cbn; auto; try lia.
  - destruct Hrc as [[-> Ho]|[-> _]]; [|done]. intros E. auto.
  - exists (seen ++ [o]), rejd. split; cbv beta delta [upd]; cbn; auto.
    + by rewrite ju_options0, <- app_assoc.
    + by apply sublist_inserts_r.
Qed.

(** The option is rejected. *)
Lemma wp_reject cip cilen orc o seen rejd s :
  judged cip cilen orc o seen rejd s ->
  orc = CONFREJ \/ orc = CONFNAK /\ rid = true ->
  wp False (reject_option cip cilen) (fun _ => step_post s) (fun _ _ => False) s.
Proof.
  intros [] Hr. specialize (ju_same0 Hr). destruct ju_o0 as [Ho Hlo].
  assert (Hfront : forall buf, length buf = length B -> bytes buf ->
    take (q_rejp s + Z.to_nat cilen) buf = concat rejd ++ o ->
    drop (Z.to_nat (l0 - q_l s)) buf = drop (Z.to_nat (l0 - q_l s)) B ->
    step_post s (s <| q_buf := buf |> <| q_rc := CONFREJ |>
                   <| q_rejp := (q_rejp s + Z.to_nat cilen)%nat |>)).
  { intros buf Hl Hb Hf Hd. split; [|done].
    split; cbv beta delta [upd]; cbn; auto; try lia.
    - done.
    - exists (seen ++ [o]), (rejd ++ [o]).
      split; cbv beta delta [upd]; cbn; auto.
      + by rewrite ju_options0, <- app_assoc.
      + by apply sublist_app.
      + by rewrite concat_app, Hf; cbn; rewrite app_nil_r.
      + rewrite concat_app, length_app. cbn. rewrite app_nil_r. lia.
      + split; [|done]. intros _. by destruct rejd. }
  apply wp_bind, wp_gets, wp_bind, wp_when; intros E.
  - apply wp_bind, wp_gets, wp_bind.
    destruct (move_down (q_buf s) (q_rejp s) cip (Z.to_nat cilen)) as (M1 & M2 & M3 & M4);
      [lia|lia|]. cbv zeta in M1, M2, M3, M4.
    rewrite ju_same0 in M1, M2, M3, M4. rewrite M1 in M2, M3, M4.
    eapply wp_access; [rewrite slice_fits by lia; by rewrite ju_same0|].
    apply wp_wr; [lia|]. apply wp_modify. rewrite M1.
    apply Hfront; [congruence| |by rewrite M3, ju_front0|rewrite M4 by lia; done].
    apply bytes_app; [by apply Forall_take|]. apply bytes_app; [|by apply Forall_drop].
    rewrite <- ju_same0. by apply Forall_take, Forall_drop.
  - apply wp_modify. apply negb_false_iff, Nat.eqb_eq in E.
    assert (Es : s <| q_buf := q_buf s |> = s) by (by destruct s).
    specialize (Hfront (q_buf s)). rewrite Es in Hfront. apply Hfront; auto.
    rewrite <- take_take_drop, ju_front0, <- E. by rewrite ju_same0.
Qed.
Lemma wp_verdict cip cilen orc o seen rejd s :
  judged cip cilen orc o seen rejd s ->
  wp False (req_verdict rid cip cilen orc) (fun _ => step_post s) (fun _ _ => False) s.
Proof.
  intros H. pose proof (ju_orc _ _ _ _ _ _ _ H) as Ho.
  assert (Es : s <| q_rc := q_rc s |> = s) by (by destruct s).
  apply wp_bind, wp_gets, wp_bind, wp_gets. apply wp_if; intros C1; [|apply wp_if; intros C2].
  - apply wp_ret. rewrite <- Es at 2. eapply passed_over; [exact H|]. left.
    apply andb_prop in C1 as [C1 C3]. apply Z.eqb_eq in C1. auto.
  - apply Z.eqb_eq in C2. apply wp_if; intros C3; [|apply wp_if; intros C4].
    + apply andb_prop in C3 as [C3 _]. eapply wp_reject; [exact H|auto].
    + apply wp_ret. rewrite <- Es at 2. eapply passed_over; [exact H|]. left.
      split; [done|]. intros E. by rewrite E in C4.
    + apply wp_modify. eapply passed_over; [exact H|]. right. split; [done|].
      intros E. by rewrite E in C4.
  - apply wp_when; intros C3.
    + apply Z.eqb_eq in C3. eapply wp_reject; [exact H|auto].
    + rewrite <- Es at 2. eapply passed_over; [exact H|]. left.
      split; [done|]. intros _. apply Z.eqb_neq in C2, C3. by destruct Ho as [|[|]].
Qed.

(** Reading the option at the front of what is left. *)
Lemma tail_front s cip :
  loop_inv s -> l0 <= Z.of_nat (length B) -> q_l s <> 0 -> cip = q_next s ->
  Z.of_nat cip = l0 - q_l s /\ drop cip (q_buf s) = drop cip B /\
  tail_from (l0 - q_l s) = take (Z.to_nat (q_l s)) (drop cip B) /\
  Z.of_nat (length (tail_from (l0 - q_l s))) = q_l s.
Proof.
  intros [] Hl0 Hl ->. specialize (li_next0 Hl).
  assert (E : Z.to_nat (l0 - q_l s) = q_next s) by lia.
  assert (E' : Z.to_nat (l0 - (l0 - q_l s)) = Z.to_nat (q_l s)) by lia.
  unfold tail_from. rewrite E, E' in *. split_and!; [done..|].
  rewrite length_take, length_drop. lia.
Qed.

Lemma wp_bad_ci_length s cip (Q : bool -> req_locals -> Prop) :
  loop_inv s -> l0 <= Z.of_nat (length B) -> q_l s <> 0 -> cip = q_next s ->
  (options (tail_from (l0 - q_l s)) = [take (Z.to_nat (u8 (q_l s))) (drop cip B)] -> Q true s) ->
  (forall a n t, tail_from (l0 - q_l s) = a :: n :: t -> 2 <= n <= q_l s ->
     q_buf s !! cip = Some a -> q_buf s !! (cip + 1)%nat = Some n -> Q false s) ->
  wp False (bad_ci_length cip (q_l s)) Q (fun _ _ => False) s.
Proof.
  intros Hi Hl0 Hl Hc Hbad Hgood.
  destruct (tail_front s cip Hi Hl0 Hl Hc) as (E1 & E2 & E3 & E4).
  assert (Hb : bytes (tail_from (l0 - q_l s)))
    by (rewrite E3, <- E2; apply Forall_take, Forall_drop, Hi).
  pose proof (u8_range (q_l s)) as Hu. pose proof (li_l _ Hi) as Hll.
  assert (Hle : u8 (q_l s) <= q_l s) by int_lia.
  assert (Hne : tail_from (l0 - q_l s) <> []) by (intros E; rewrite E in E4; cbn in E4; lia).
  assert (Hcut : forall n,
    (length (tail_from (l0 - q_l s)) < 2)%nat \/
    tail_from (l0 - q_l s) !! 1%nat = Some n /\
    (n < 2 \/ Z.of_nat (length (tail_from (l0 - q_l s))) < n) -> Q true s).
  { intros n Hn. apply Hbad. rewrite (options_bad u8 _ n eq_refl Hb Hn Hne), E4, E3, take_take.
    unfold is_u8 in Hu. do 2 f_equal. lia. }
  apply wp_if; intros C; [apply wp_ret, (Hcut 0); lia|]. apply Z.ltb_ge in C.
  assert (Hlook : forall i, Z.of_nat i < q_l s ->
    q_buf s !! (cip + i)%nat = tail_from (l0 - q_l s) !! i).
  { intros i Hi'. rewrite E3, lookup_take_lt by lia. rewrite <- E2. by rewrite lookup_drop. }
  destruct (tail_from (l0 - q_l s)) as [|a [|n t]] eqn:Et; [done|cbn in E4; lia|].
  apply wp_bind, wp_rd; [pose proof (li_len _ Hi); lia|apply Hi|].
  intros n' Hn' Hn8. rewrite Hlook in Hn' by lia. injection Hn' as <-. apply wp_ret.
  destruct ((n <? 2) || (q_l s <? n)) eqn:E.
  - apply (Hcut n). right. rewrite E4. split; [done|].
    apply orb_prop in E as [E%Z.ltb_lt|E%Z.ltb_lt]; auto.
  - apply orb_false_iff in E as [E%Z.ltb_ge E'%Z.ltb_ge].
    apply (Hgood a n t); [done|lia| |by rewrite Hlook by lia].
    rewrite <- (Nat.add_0_r cip). by rewrite Hlook by lia.
Qed.

Lemma drop_more (x y : list Z) m n :
  drop m x = drop m y -> (m <= n)%nat -> drop n x = drop n y.
Proof.
  intros H Hn. replace n with (m + (n - m))%nat by lia.
  by rewrite <- !drop_drop, H.
Qed.

Lemma take_less (x y : list Z) m n :
  take m x = take m y -> (n <= m)%nat -> take n x = take n y.
Proof.
  intros H Hn. replace n with (n `min` m)%nat by lia. by rewrite <- !take_take, H.
Qed.

Lemma tail_from_next o n :
  0 <= o -> 0 <= n -> o + n <= l0 ->
  drop (Z.to_nat n) (tail_from o) = tail_from (o + n).
Proof.
  intros Ho Hn Hl. unfold tail_from. rewrite skipn_firstn_comm, drop_drop.
  f_equal; [lia|]. f_equal. lia.
Qed.

Lemma wp_step s :
  loop_inv s -> l0 <= Z.of_nat (length B) -> l0 <= 1200 -> q_l s <> 0 ->
  wp False (req_step ao go rid) (fun _ s' => loop_inv s' /\ q_l s' < q_l s)
    (fun _ _ => False) s.
Proof.
  intros Hi Hl0 Hmax Hl. apply wp_bind, wp_gets, wp_bind, wp_gets, wp_bind.
  destruct (tail_front s _ Hi Hl0 Hl eq_refl) as (E1 & E2 & E3 & E4).
  destruct (li_shrunk _ Hi) as (seen & rejd & Hs).
  apply (wp_bad_ci_length s); [done..| |]; [intros Ho|intros a n t Et Hn Ha Hn1].
  - apply wp_bind, wp_modify. pose proof (u8_range (q_l s)) as Hu. pose proof (li_l _ Hi) as Hll.
    assert (Hle : u8 (q_l s) <= q_l s) by int_lia. unfold is_u8 in Hu.
    eapply wp_mono; [eapply (wp_verdict _ _ _ (take (Z.to_nat (u8 (q_l s))) (drop (q_next s) B))
      seen rejd)|intros ? s' [H1 H2]; split; [done|]; rewrite H2; change (0 < q_l s); lia|done].
    destruct Hi, Hs. split; cbv beta delta [upd]; cbn; auto; try lia.
    + split; [done|]. rewrite length_take, length_drop. lia.
    + intros [?|[=]]; done.
    + eapply drop_more; [exact E2|lia].
    + done.
    + intros _. by rewrite E2.
    + rewrite sh_options0, Ho. unfold tail_from. by rewrite Z.sub_0_r, Z.sub_diag.
  - apply wp_bind, wp_rd; [pose proof (lookup_lt_Some _ _ _ Ha); lia|apply Hi|].
    intros a' Ha' _. rewrite Ha in Ha'. injection Ha' as <-.
    apply wp_bind, wp_rd; [pose proof (lookup_lt_Some _ _ _ Hn1); lia|apply Hi|].
    intros n' Hn' _. rewrite Hn1 in Hn'. injection Hn' as <-.
    apply wp_bind, wp_modify, wp_bind.
    eapply wp_mono; [apply switches_switch| |done].
    { destruct Hi. split; cbv beta delta [upd]; cbn; auto; try lia. unfold PPP_MRU. lia. }
    intros orc s1 []. cbv beta delta [upd] in *. cbn in *.
    eapply wp_mono; [eapply (wp_verdict _ _ _ (take (Z.to_nat n) (drop (q_next s) B))
      seen rejd)|intros ? s' [H1 H2]; split; [done|]; rewrite H2; lia|done].
    destruct Hi, Hs.
    split; rewrite ?sw_l0, ?sw_next0, ?sw_rejp0, ?sw_rc0; auto; try lia.
    + split; [done|]. rewrite length_take, length_drop. lia.
    + apply (drop_more _ _ (q_next s + Z.to_nat n)); [|lia].
      rewrite sw_after0. eapply drop_more; [exact E2|lia].
    + intros Hc Ho. destruct sw_buf0 as [[? _]| ->]; [by subst orc|]. by apply li_ack0.
    + intros Ho. destruct sw_buf0 as [[-> Hr]| ->]; [|by rewrite E2].
      destruct Ho as [?|[_ ?]]; [discriminate|congruence].
    + rewrite sh_options0, Et, options_cons, <- Et, tail_from_next by (rewrite <- ?Et; lia).
      replace (l0 - q_l s + n) with (l0 - (q_l s - n)) by lia. cbn [app].
      rewrite E3, take_take. repeat f_equal. lia.
    + rewrite <- sh_front0. apply (take_less _ _ (q_next s)); [done|lia].
Qed.

(** ** The whole answer *)

Lemma wp_loop fuel s :
  loop_inv s -> l0 <= Z.of_nat (length B) -> l0 <= 1200 -> (Z.to_nat (q_l s) <= fuel)%nat ->
  wp False (req_loop fuel ao go rid) (fun _ s' => loop_inv s' /\ q_l s' = 0)
    (fun _ _ => False) s.
Proof.
  revert s. induction fuel as [|fuel IH]; intros s Hi Hl0 Hmax Hf; cbn [req_loop];
    apply wp_bind, wp_gets; apply wp_if; intros C.
  - apply wp_ret. split; [done|]. by apply Z.eqb_eq.
  - apply Z.eqb_neq in C. pose proof (li_l _ Hi). lia.
  - apply wp_ret. split; [done|]. by apply Z.eqb_eq.
  - apply Z.eqb_neq in C. apply wp_bind. eapply wp_mono; [by apply wp_step| |done].
    intros [] s' [Hi' Hl]. pose proof (li_l _ Hi'). apply IH; auto. lia.
Qed.
End Loop.

(** What [lcp_reqci] leaves in the packet: the code, the new length and the
    buffer, for a request of [l] bytes at the start of [B]. *)
Definition answer_ok (B : list Z) (l rc n : Z) (buf : list Z) : Prop :=
  (rc = CONFACK /\ n = l /\ buf = B)
  \/ (rc = CONFNAK /\ 0 <= 4 * n <= 5 * l)
  \/ (rc = CONFREJ /\ exists rejd, rejd <> [] /\ rejd `sublist_of` options (take (Z.to_nat l) B)
      /\ n = Z.of_nat (length (concat rejd)) /\ take (Z.to_nat n) buf = concat rejd).

Lemma wp_finish ao go B l s :
  loop_inv ao go B l s -> q_l s = 0 -> 5 * l <= 4 * Z.of_nat (length B) ->
  wp False (n <- req_finish ;; rc <- gets q_rc ;; ret (rc, n))
    (fun r s' => answer_ok B l r.1 r.2 (q_buf s') /\ his_ok ao go (q_ho s')
       /\ random_ok (q_rng s') /\ length (q_buf s') = length B)
    (fun _ _ => False) s.
Proof.
  intros Hi Hl HB. pose proof Hi as []. destruct li_shrunk0 as (seen & rejd & []).
  rewrite Hl, Z.sub_0_r in *. apply wp_bind, wp_bind, wp_gets.
  apply wp_if; intros C; [|apply wp_if; intros C'].
  - apply Z.eqb_eq in C. destruct (li_ack0 C) as [E1 E2].
    apply wp_bind, wp_gets, wp_ret, wp_bind, wp_gets, wp_ret. split_and!; [|done..].
    left. cbn. auto.
  - apply Z.eqb_eq in C'. apply wp_bind, wp_gets, wp_bind, wp_wr; [lia|].
    apply wp_ret, wp_bind, wp_gets, wp_ret. split_and!; [|done..|].
    + right; left. cbn. split; [done|lia].
    + cbv beta delta [upd set_q_buf]. cbn [q_buf].
      rewrite !length_app, length_take, length_drop. lia.
  - apply Z.eqb_neq in C, C'. assert (Hr : q_rc s = CONFREJ) by (by destruct li_rc0 as [|[|]]).
    apply wp_bind, wp_gets, wp_ret, wp_bind, wp_gets, wp_ret. split_and!; [|done..].
    right; right. split; [done|]. exists rejd. cbn.
    assert (Hseen : options (take (Z.to_nat l) B) = seen).
    { rewrite sh_options0. unfold tail_from. rewrite Z.sub_diag. apply app_nil_r. }
    rewrite Hseen. split_and!; [by apply sh_rc0|done|lia|by rewrite Nat2Z.id].
Qed.

Lemma loop_inv_start ao go B l g :
  bytes B -> 0 <= l <= Z.of_nat (length B) -> random_ok g ->
  loop_inv ao go B l (mk_req B 0 l 0 [] 0 CONFACK no_lcp_options g).
Proof.
  intros HB Hl Hg. split; cbn; auto; try lia; try by constructor.
  - intros _. split; [done|lia].
  - exists [], []. split; cbn; auto.
    + unfold tail_from. rewrite Z.sub_diag, Z.sub_0_r. done.
    + done.
Qed.

(** C9: a request of up to 1200 bytes that leaves room for an answer a quarter
    longer in the packet buffer (with the 1496 bytes behind the header, one of
    up to 1196 bytes; 1200 are too many, [lcp_reqci_overruns_packet]) is
    answered without leaving the buffers.  A Configure-Ack leaves the packet
    byte for byte as it was; a Configure-Nak is at most a quarter longer than
    the request; a Configure-Reject carries some of the options of the request,
    unchanged and in their order, and at least one.  What is remembered of the
    peer's options is within what we allow. *)
Theorem lcp_reqci_spec ao go rid B l g :
  bytes B -> random_ok g -> 0 <= l <= 1200 -> 5 * l <= 4 * Z.of_nat (length B) ->
  exists rc n s, lcp_reqci ao go rid B l g = Ok (rc, n) s
    /\ answer_ok B l rc n (q_buf s) /\ his_ok ao go (q_ho s)
    /\ random_ok (q_rng s) /\ length (q_buf s) = length B.
Proof.
  intros HB Hg Hl H5. unfold lcp_reqci.
  pose proof (loop_inv_start ao go B l g HB ltac:(lia) Hg) as Hi.
  set (s0 := mk_req _ _ _ _ _ _ _ _ _) in *.
  assert (H : wp False (req_loop (Z.to_nat l) ao go rid ;;
      n <- req_finish ;; rc <- gets q_rc ;; ret (rc, n))
    (fun r s' => answer_ok B l r.1 r.2 (q_buf s') /\ his_ok ao go (q_ho s')
       /\ random_ok (q_rng s') /\ length (q_buf s') = length B) (fun _ _ => False) s0).
  { apply wp_bind. eapply wp_mono; [apply wp_loop; [done|lia|lia|done]| |done].
    intros [] s [Hs E]. by apply wp_finish. }
  unfold wp in H. revert H. set (o := bind _ _ s0). clearbody o.
  destruct o as [[rc n] s|[]| |]; [|done|done]. intros H. by exists rc, n, s.
Qed.

(** ** Concrete requests *)

Definition sample_ao : lcp_options := lcp_init_allow no_lcp_options.
Definition sample_rng : rng := mk_rng 7 (fun _ => 9).

Lemma sample_rng_ok : random_ok sample_rng.
Proof. by split. Defined.

Lemma lcp_reqci_spec_witness :
  exists rc n s, lcp_reqci sample_ao sample_go false
      [1; 4; 5; 220; 17; 3; 0; 7; 2; 99; 99; 99; 99; 99; 99] 9 sample_rng = Ok (rc, n) s
    /\ answer_ok [1; 4; 5; 220; 17; 3; 0; 7; 2; 99; 99; 99; 99; 99; 99] 9 rc n (q_buf s)
    /\ his_ok sample_ao sample_go (q_ho s) /\ random_ok (q_rng s) /\ length (q_buf s) = 15%nat.
Proof.
  apply lcp_reqci_spec; [repeat constructor; done|exact sample_rng_ok|lia|cbn; lia].
Defined.

(** When we want the peer to authenticate with CHAP only, a request of 301
    options asking for PAP, 1204 bytes, makes [lcp_reqci] write past the end of
    [nak_buffer]: each option of 4 bytes is answered by a suggestion of 5. *)
Theorem lcp_reqci_overflows ao go rid rest g :
  neg_chap ao = true -> neg_upap ao = false ->
  lcp_reqci ao go rid (concat (replicate 301 suggest_upap) ++ rest) 1204 g = Fault.
Proof.
  intros H1 H2. destruct ao, rid; cbn in H1, H2; subst; vm_compute; reflexivity.
Qed.

(** With 300 such options, 1200 bytes, [nak_buffer] is exactly filled, and the
    Nak of 1500 bytes is copied over the 1496 bytes that the packet buffer has
    behind the header. *)
Theorem lcp_reqci_overruns_packet ao go g :
  neg_chap ao = true -> neg_upap ao = false ->
  lcp_reqci ao go false (concat (replicate 300 suggest_upap) ++ replicate 296 0) 1200 g = Fault.
Proof.
  intros H1 H2. destruct ao; cbn in H1, H2; subst; vm_compute; reflexivity.
Qed.

Lemma lcp_reqci_overflows_witness :
  lcp_reqci (sample_ao <| neg_upap := false |>) sample_go false
    (concat (replicate 301 suggest_upap) ++ []) 1204 sample_rng = Fault.
Proof. by apply lcp_reqci_overflows. Defined.
