(* ===== verification/LcpNeg.v ===== *)
(** * Two peers: an LCP negotiation end to end

    The request that one end builds with [lcp_addci] is accepted by the
    [lcp_reqci] of the other when it asks for nothing the other forbids, and
    the options the second end remembers are those the first one asked for.
    The file also holds the cases in which [lcp_reqci] does not do what its
    comments say. *)

From S2P Require Export LcpReq.

(** The options [o] ask for nothing that [ao] and [go] forbid. *)
Record acceptable (ao go o : lcp_options) : Prop := {
  acc_mru : neg_mru o = true -> neg_mru ao = true /\ MINMRU <= mru o;
  acc_asyncmap : neg_asyncmap o = true ->
    neg_asyncmap ao = true /\ Z.land (asyncmap ao) (Z.lnot (asyncmap o)) = 0;
  acc_chap : neg_chap o = true ->
    neg_chap ao = true /\ chap_mdtype o = chap_mdtype ao;
  acc_upap : neg_chap o = false -> neg_upap o = true -> neg_upap ao = true;
  acc_lqr : neg_lqr o = true -> neg_lqr ao = true;
  acc_magic : neg_magicnumber o = true ->
    neg_magicnumber ao || neg_magicnumber go = true /\
    (neg_magicnumber go = true -> magicnumber o <> magicnumber go);
  acc_pc : neg_pcompression o = true -> neg_pcompression ao = true;
  acc_ac : neg_accompression o = true -> neg_accompression ao = true }.

(** What the end that receives the request remembers. *)
Definition remembered (o : lcp_options) : lcp_options :=
  mk_lcp_options false false false
    (neg_mru o) (neg_asyncmap o) (negb (neg_chap o) && neg_upap o) (neg_chap o)
    (neg_magicnumber o) (neg_pcompression o) (neg_accompression o) false
    (if neg_mru o then mru o else 0) (if neg_chap o then chap_mdtype o else 0)
    (if neg_asyncmap o then asyncmap o else 0)
    (if neg_magicnumber o then magicnumber o else 0) 0 0.

Section Accept.
Context (ao go : lcp_options) (rid : bool) (g : rng).

(** The locals after the options [pre] have been accepted. *)
Definition accepted (B : list Z) (n : nat) (l ct : Z) (ho : lcp_options) : req_locals :=
  mk_req B n l ct [] 0 CONFACK ho g.

(** The option [o] is accepted, and changes [*ho] by [f]. *)
Definition accepts (o : list Z) (ho ho' : lcp_options) : Prop :=
  (2 <= length o)%nat /\
  forall pre rest l ct, Z.of_nat (length o) <= l ->
    exists ct',
      req_step ao go rid (accepted (pre ++ o ++ rest) (length pre) l ct ho)
      = Ok tt (accepted (pre ++ o ++ rest) (length pre + length o)
                 (l - Z.of_nat (length o)) ct' ho').

(** The loop accepts the options [todo] behind [pre]. *)
Definition accepts_all (pre todo rest : list Z) (ho ho' : lcp_options) : Prop :=
  forall fuel ct, (length todo <= fuel)%nat ->
    exists ct',
      req_loop fuel ao go rid
        (accepted (pre ++ todo ++ rest) (length pre) (Z.of_nat (length todo)) ct ho)
      = Ok tt (accepted (pre ++ todo ++ rest) (length pre + length todo) 0 ct' ho').

Lemma accepts_all_nil pre rest ho : accepts_all pre [] rest ho ho.
Proof. intros fuel ct _. exists ct. rewrite Nat.add_0_r. by destruct fuel. Qed.

Lemma accepts_all_option (neg : bool) o pre todo rest ho ho' :
  (neg = true -> exists f, accepts o ho f /\
     accepts_all (pre ++ o) todo rest f ho') ->
  (neg = false -> accepts_all pre todo rest ho ho') ->
  accepts_all pre ((if neg then o else []) ++ todo) rest ho ho'.
Proof.
  destruct neg; [|auto]. intros H _. destruct (H eq_refl) as (f & [H2 Hs] & Ht).
  intros [|fuel] ct Hf; rewrite length_app in *; [lia|].
  cbn [req_loop]. unfold bind at 1, gets. cbn [accepted q_l].
  rewrite (proj2 (Z.eqb_neq _ 0)) by lia. unfold bind.
  destruct (Hs pre (todo ++ rest) (Z.of_nat (length o + length todo)) ct ltac:(lia)) as [ct' E].
  rewrite <- !app_assoc. rewrite E.
  destruct (Ht fuel ct' ltac:(lia)) as [ct'' E'].
  rewrite length_app, <- !app_assoc in E'.
  replace (Z.of_nat (length o + length todo) - Z.of_nat (length o))
    with (Z.of_nat (length todo)) by lia.
  rewrite E'. exists ct''. f_equal. unfold accepted. f_equal; lia.
Qed.

(** Reading the option behind [pre]. *)
Lemma rd_at pre o rest i v m l ct ho :
  o !! i = Some v ->
  rd (length pre + i) (accepted (pre ++ o ++ rest) m l ct ho)
  = Ok v (accepted (pre ++ o ++ rest) m l ct ho).
Proof.
  intros H. unfold rd, bind, gets, access. cbn [accepted q_buf].
  rewrite lookup_app_r by lia. replace (length pre + i - length pre)%nat with i by lia.
  by rewrite (lookup_app_l_Some _ _ _ _ H).
Qed.

Lemma rd_short_at pre o rest i a b m l ct ho :
  o !! i = Some a -> o !! (i + 1)%nat = Some b ->
  rd_short (length pre + i) (accepted (pre ++ o ++ rest) m l ct ho)
  = Ok (be16 a b) (accepted (pre ++ o ++ rest) m l ct ho).
Proof.
  intros Ha Hb. unfold rd_short, bind. rewrite (rd_at _ _ _ _ _ _ _ _ _ Ha).
  rewrite <- Nat.add_assoc. by rewrite (rd_at _ _ _ _ _ _ _ _ _ Hb).
Qed.

Lemma rd_long_at pre o rest i a b c d m l ct ho :
  o !! i = Some a -> o !! (i + 1)%nat = Some b -> o !! (i + 2)%nat = Some c ->
  o !! (i + 3)%nat = Some d ->
  rd_long (length pre + i) (accepted (pre ++ o ++ rest) m l ct ho)
  = Ok (be32 a b c d) (accepted (pre ++ o ++ rest) m l ct ho).
Proof.
  intros Ha Hb Hc Hd. unfold rd_long, bind. rewrite (rd_at _ _ _ _ _ _ _ _ _ Ha).
  rewrite <- !Nat.add_assoc. rewrite (rd_at _ _ _ _ _ _ _ _ _ Hb).
  rewrite (rd_at _ _ _ _ _ _ _ _ _ Hc). by rewrite (rd_at _ _ _ _ _ _ _ _ _ Hd).
Qed.

(** One round of the loop on a well-formed option. *)
Lemma step_at ty n v pre rest l ct ho :
  n = 2 + Z.of_nat (length v) -> n <= l ->
  req_step ao go rid (accepted (pre ++ (ty :: n :: v) ++ rest) (length pre) l ct ho)
  = (orc <- req_switch ao go rid ty (length pre) n ;; req_verdict rid (length pre) n orc)
      (accepted (pre ++ (ty :: n :: v) ++ rest) (length pre + Z.to_nat n) (l - n) ty ho).
Proof.
  intros Hn Hl. unfold req_step, bad_ci_length, bind, gets. cbn [accepted q_next q_l].
  rewrite (proj2 (Z.ltb_ge l 2)) by lia. fold (accepted (pre ++ (ty :: n :: v) ++ rest) (length pre) l ct ho).
  rewrite (rd_at _ (ty :: n :: v) _ 1 n) by done. cbv beta iota.
  rewrite (proj2 (Z.ltb_ge n 2)), (proj2 (Z.ltb_ge l n)) by lia. cbn [orb ret].
  replace (rd (length pre) _) with (rd (length pre + 0)
    (accepted (pre ++ (ty :: n :: v) ++ rest) (length pre) l ct ho)) by (by rewrite Nat.add_0_r).
  rewrite (rd_at _ (ty :: n :: v) _ 0 ty) by done. cbv beta iota.
  rewrite (rd_at _ (ty :: n :: v) _ 1 n) by done. done.
Qed.

(** An option is accepted when its case of the [switch] says so. *)
Lemma accepts_switch ty n v ho ho' :
  n = 2 + Z.of_nat (length v) ->
  (forall pre rest m l ct,
     req_switch ao go rid ty (length pre) n (accepted (pre ++ (ty :: n :: v) ++ rest) m l ct ho)
     = Ok CONFACK (accepted (pre ++ (ty :: n :: v) ++ rest) m l ct ho')) ->
  accepts (ty :: n :: v) ho ho'.
Proof.
  intros Hn H. split; [cbn; lia|]. intros pre rest l ct Hl.
  rewrite !length_cons in *. exists ty. rewrite step_at by lia. unfold bind.
  rewrite H. cbn. f_equal. unfold accepted. f_equal; lia.
Qed.

(** The guard of a case whose option is allowed and has the right length. *)
Lemma guard_eq n : negb true || negb (n =? n) = false.
Proof. by rewrite Z.eqb_refl. Qed.

Lemma accepts_mru m ho :
  is_u16 m -> neg_mru ao = true -> MINMRU <= m ->
  accepts (ADDCISHORT CI_MRU true m) ho (ho <| neg_mru := true |> <| mru := m |>).
Proof.
  intros Hm Ha Hmin. apply (accepts_switch CI_MRU CILEN_SHORT (PUTSHORT m)); [done|].
  intros. change (req_switch ao go rid CI_MRU) with (req_mru ao rid).
  unfold req_mru. rewrite Ha, guard_eq. unfold bind at 1.
  rewrite (rd_short_at _ (_ :: _ :: PUTSHORT m) _ 2 (u8 (Z.shiftr m 8)) (u8 m)) by done.
  rewrite be16_put, (u16_id m) by done. by rewrite (proj2 (Z.ltb_ge m MINMRU)) by lia.
Qed.

Lemma accepts_asyncmap m ho :
  is_u32 m -> neg_asyncmap ao = true -> Z.land (asyncmap ao) (Z.lnot m) = 0 ->
  accepts (ADDCILONG CI_ASYNCMAP true m) ho
    (ho <| neg_asyncmap := true |> <| asyncmap := m |>).
Proof.
  intros Hm Ha Hmap. apply (accepts_switch CI_ASYNCMAP CILEN_LONG (PUTLONG m)); [done|].
  intros. change (req_switch ao go rid CI_ASYNCMAP) with (req_asyncmap ao rid).
  unfold req_asyncmap. rewrite Ha, guard_eq. unfold bind at 1.
  erewrite (rd_long_at _ (_ :: _ :: PUTLONG m) _ 2) by reflexivity.
  rewrite be32_put, (u32_id m) by done. by rewrite Hmap.
Qed.

Lemma accepts_magic m ho :
  is_u32 m -> neg_magicnumber ao || neg_magicnumber go = true ->
  (neg_magicnumber go = true -> m <> magicnumber go) ->
  accepts (ADDCILONG CI_MAGICNUMBER true m) ho
    (ho <| neg_magicnumber := true |> <| magicnumber := m |>).
Proof.
  intros Hm Ha Hne. apply (accepts_switch CI_MAGICNUMBER CILEN_LONG (PUTLONG m)); [done|].
  intros. change (req_switch ao go rid CI_MAGICNUMBER) with (req_magicnumber ao go).
  unfold req_magicnumber. rewrite Ha, guard_eq. unfold bind at 1.
  erewrite (rd_long_at _ (_ :: _ :: PUTLONG m) _ 2) by reflexivity.
  rewrite be32_put, (u32_id m) by done.
  replace (neg_magicnumber go && (m =? magicnumber go)) with false; [done|].
  destruct (neg_magicnumber go); [|done]. symmetry. by apply Z.eqb_neq, Hne.
Qed.

Lemma accepts_lqr p ho :
  neg_lqr ao = true -> accepts (ADDCILQR CI_QUALITY true p) ho ho.
Proof.
  intros Ha. apply (accepts_switch CI_QUALITY CILEN_LQR (PUTSHORT LQR ++ PUTLONG p)); [done|].
  intros. change (req_switch ao go rid CI_QUALITY) with (req_quality ao).
  unfold req_quality. rewrite Ha, guard_eq. unfold bind.
  erewrite (rd_short_at _ (_ :: _ :: PUTSHORT LQR ++ PUTLONG p) _ 2) by reflexivity.
  by erewrite (rd_long_at _ (_ :: _ :: PUTSHORT LQR ++ PUTLONG p) _ 4) by reflexivity.
Qed.

Lemma accepts_upap ho :
  neg_upap ao = true -> neg_chap ho = false ->
  accepts (ADDCISHORT CI_AUTHTYPE true UPAP) ho (ho <| neg_upap := true |>).
Proof.
  intros Ha Hc. apply (accepts_switch CI_AUTHTYPE CILEN_SHORT (PUTSHORT UPAP)); [done|].
  intros. change (req_switch ao go rid CI_AUTHTYPE) with (req_authtype ao).
  unfold req_authtype. rewrite Ha. cbn [orb negb].
  change ((CILEN_SHORT <? CILEN_SHORT) || false) with false. unfold bind at 1.
  erewrite (rd_short_at _ (_ :: _ :: PUTSHORT UPAP) _ 2) by reflexivity.
  rewrite be16_put. change (u16 UPAP =? UPAP) with true. unfold bind at 1, gets.
  cbn [accepted q_ho]. by rewrite Hc.
Qed.

Lemma accepts_chap m ho :
  neg_chap ao = true -> is_u8 m -> m = chap_mdtype ao -> neg_upap ho = false ->
  accepts (ADDCICHAP CI_AUTHTYPE true CHAP m) ho
    (ho <| chap_mdtype := m |> <| neg_chap := true |>).
Proof.
  intros Ha H8 Hm Hu.
  apply (accepts_switch CI_AUTHTYPE CILEN_CHAP (PUTSHORT CHAP ++ PUTCHAR m)); [done|].
  intros. change (req_switch ao go rid CI_AUTHTYPE) with (req_authtype ao).
  unfold req_authtype. rewrite Ha, orb_true_r. cbn [orb negb].
  change ((CILEN_CHAP <? CILEN_SHORT) || false) with false. unfold bind at 1.
  erewrite (rd_short_at _ (_ :: _ :: PUTSHORT CHAP ++ PUTCHAR m) _ 2) by reflexivity.
  rewrite be16_put. change (u16 CHAP =? UPAP) with false.
  change (u16 CHAP =? CHAP) with true. unfold bind at 1, gets. cbn [accepted q_ho].
  rewrite Hu. change (false || negb (CILEN_CHAP =? CILEN_CHAP)) with false. unfold bind at 1.
  erewrite (rd_at _ (_ :: _ :: PUTSHORT CHAP ++ PUTCHAR m) _ 4) by reflexivity.
  rewrite <- Hm, Z.eqb_refl. cbn [negb]. by rewrite u8_id.
Qed.

Lemma accepts_pcompression ho :
  neg_pcompression ao = true ->
  accepts (ADDCIVOID CI_PCOMPRESSION true) ho (ho <| neg_pcompression := true |>).
Proof.
  intros Ha. apply (accepts_switch CI_PCOMPRESSION CILEN_VOID []); [done|].
  intros. change (req_switch ao go rid CI_PCOMPRESSION (length pre) CILEN_VOID)
    with (req_pcompression ao CILEN_VOID).
  unfold req_pcompression. by rewrite Ha, guard_eq.
Qed.
Lemma accepts_accompression ho :
  neg_accompression ao = true ->
  accepts (ADDCIVOID CI_ACCOMPRESSION true) ho (ho <| neg_accompression := true |>).
Proof.
  intros Ha. apply (accepts_switch CI_ACCOMPRESSION CILEN_VOID []); [done|].
  intros. change (req_switch ao go rid CI_ACCOMPRESSION (length pre) CILEN_VOID)
    with (req_accompression ao CILEN_VOID).
  unfold req_accompression. by rewrite Ha, guard_eq.
Qed.
End Accept.

Lemma addci_options o :
  lcp_addci o =
  (if neg_mru o then ADDCISHORT CI_MRU true (mru o) else []) ++
  (if neg_asyncmap o then ADDCILONG CI_ASYNCMAP true (asyncmap o) else []) ++
  (if neg_chap o then ADDCICHAP CI_AUTHTYPE true CHAP (chap_mdtype o) else []) ++
  (if negb (neg_chap o) && neg_upap o then ADDCISHORT CI_AUTHTYPE true UPAP else []) ++
  (if neg_lqr o then ADDCILQR CI_QUALITY true (lqr_period o) else []) ++
  (if neg_magicnumber o then ADDCILONG CI_MAGICNUMBER true (magicnumber o) else []) ++
  (if neg_pcompression o then ADDCIVOID CI_PCOMPRESSION true else []) ++
  (if neg_accompression o then ADDCIVOID CI_ACCOMPRESSION true else []) ++ [].
Proof. unfold lcp_addci. by rewrite app_nil_r. Qed.

Section Negotiate.
Context (ao go : lcp_options) (rid : bool) (g : rng).

(** One option of the request is there and accepted, or it is not there. *)
Ltac take_option H :=
  apply accepts_all_option; intros ->;
  [ eexists; split; [apply H; naive_solver|] | ].

Lemma accepts_all_addci o rest :
  lcp_options_ok o -> acceptable ao go o ->
  accepts_all ao go rid g [] (lcp_addci o) rest no_lcp_options (remembered o).
Proof.
  intros [] []. rewrite addci_options. unfold remembered.
  destruct o as [p s r nm na nu nc ng np ac nl m d a mg lo lp].
  cbn [neg_mru neg_asyncmap neg_upap neg_chap neg_magicnumber neg_pcompression
       neg_accompression neg_lqr mru chap_mdtype asyncmap magicnumber lqr_period] in *.
  take_option accepts_mru; take_option accepts_asyncmap; take_option accepts_chap;
    apply accepts_all_option; intros E; cbn [negb andb] in E |- *;
    (discriminate E || subst nu || clear E);
    try (eexists; split; [apply accepts_upap; naive_solver|]);
    take_option accepts_lqr; take_option accepts_magic; take_option accepts_pcompression;
    take_option accepts_accompression; apply accepts_all_nil.
Qed.
End Negotiate.

(** C2: two ends agree.  When the options [o] ask for nothing that the other
    end forbids, the request built from them is acknowledged unchanged,
    whatever follows it in the packet buffer; the end that acknowledges
    remembers exactly the options of [o]; and the Ack it sends is accepted by
    the end that asked. *)
Theorem lcp_negotiation ao go o rid rest g :
  lcp_options_ok o -> acceptable ao go o -> bytes rest ->
  exists s ack, lcp_reqci ao go rid (lcp_addci o ++ rest) (lcp_cilen o) g
      = Ok (CONFACK, lcp_cilen o) s
    /\ q_buf s = lcp_addci o ++ rest /\ q_ho s = remembered o /\ q_rng s = g
    /\ lcp_ackci o (mk_cursor (lcp_cilen o) (q_buf s)) = Ok tt ack.
Proof.
  intros Ho Hacc Hr. pose proof (addci_len o) as Hl.
  destruct (accepts_all_addci ao go rid g o rest Ho Hacc (Z.to_nat (lcp_cilen o)) 0 ltac:(lia))
    as [ct E].
  assert (Ea : exists ack, lcp_ackci o (mk_cursor (lcp_cilen o) (lcp_addci o ++ rest)) = Ok tt ack).
  { pose proof (ackci_checks o Ho (mk_cursor (lcp_cilen o) (lcp_addci o ++ rest))) as Hk.
    assert (Hrest : rest_of (mk_cursor (lcp_cilen o) (lcp_addci o ++ rest)) = lcp_addci o).
    { unfold rest_of. cbn. rewrite take_app_le by lia. apply take_ge. lia. }
    assert (Hc : cursor_ok (mk_cursor (lcp_cilen o) (lcp_addci o ++ rest))).
    { split; [apply bytes_app; [apply bytes_addci|done]|].
      cbn [len p]. rewrite length_app. lia. }
    rewrite Hrest in Hk. specialize (Hk Hc).
    destruct (lcp_ackci o _) as [[] ack| | |]; [by exists ack|done..]. }
  destruct Ea as [ack Ea].
  exists (accepted g (lcp_addci o ++ rest) (length (lcp_addci o)) 0 ct (remembered o)), ack.
  split_and!; [|done..]. unfold lcp_reqci. unfold bind at 1.
  rewrite Hl in E. change (mk_req ?B 0 ?l 0 [] 0 CONFACK no_lcp_options g)
    with (accepted g ([] ++ B) (length (@nil Z)) l 0 no_lcp_options).
  rewrite E. cbn. by rewrite Hl.
Qed.

Lemma sample_acceptable :
  acceptable sample_ao (sample_go <| magicnumber := 1 |>) sample_go.
Proof. split; vm_compute; intuition discriminate. Defined.

Lemma lcp_negotiation_witness :
  exists s ack,
    lcp_reqci sample_ao (sample_go <| magicnumber := 1 |>) false
      (lcp_addci sample_go ++ [0; 0]) (lcp_cilen sample_go) sample_rng
      = Ok (CONFACK, lcp_cilen sample_go) s
    /\ q_buf s = lcp_addci sample_go ++ [0; 0] /\ q_ho s = remembered sample_go
    /\ q_rng s = sample_rng
    /\ lcp_ackci sample_go (mk_cursor (lcp_cilen sample_go) (q_buf s)) = Ok tt ack.
Proof.
  apply (lcp_negotiation sample_ao (sample_go <| magicnumber := 1 |>) sample_go false
    [0; 0] sample_rng sample_go_ok sample_acceptable). by repeat constructor.
Defined.

(** ** Where [lcp_reqci] does not do what its comments say *)

(** A request for too small an MRU is answered by an empty Configure-Nak.
    The hint is written into the packet, but a Nak is copied from
    [nak_buffer], where no option was put. *)
Theorem lcp_mru_nak_empty ao go v rest g :
  neg_mru ao = true -> 0 <= v < MINMRU ->
  exists s, lcp_reqci ao go false ([CI_MRU; CILEN_SHORT] ++ PUTSHORT v ++ rest) 4 g
      = Ok (CONFNAK, 0) s
    /\ q_buf s = [CI_MRU; CILEN_SHORT] ++ PUTSHORT MINMRU ++ rest.
Proof.
  intros Ha [Hv Hv']. assert (Hv16 : u16 v = v) by (unfold MINMRU in *; apply u16_id; int_lia).
  exists (mk_req ([CI_MRU; CILEN_SHORT] ++ PUTSHORT MINMRU ++ rest) 4 0 CI_MRU [] 0 CONFNAK
       no_lcp_options g).
  split; [|done]. unfold lcp_reqci. change (Z.to_nat 4) with 4%nat.
  etransitivity; [eapply bind_ok|].
  { cbn [req_loop]. etransitivity; [eapply bind_ok; done|]. cbn [q_l Z.eqb].
    etransitivity; [eapply bind_ok|].
    { change (mk_req _ _ _ _ _ _ _ _ _) with
      (accepted g ([] ++ (CI_MRU :: CILEN_SHORT :: PUTSHORT v) ++ rest) (length (@nil Z)) 4 0
         no_lcp_options) at 1.
    rewrite step_at by done. change (req_switch ao go false CI_MRU) with (req_mru ao false).
    unfold req_mru. rewrite Ha, guard_eq. unfold bind.
    erewrite (rd_short_at _ [] (_ :: _ :: PUTSHORT v) _ 2) by reflexivity.
    rewrite be16_put, Hv16, (proj2 (Z.ltb_lt v MINMRU)) by lia. reflexivity. }
    reflexivity. }
  reflexivity.
Qed.

Lemma lcp_mru_nak_empty_witness :
  exists s, lcp_reqci sample_ao sample_go false [1; 4; 0; 64] 4 sample_rng = Ok (CONFNAK, 0) s
    /\ q_buf s = [1; 4; 0; 128].
Proof. apply (lcp_mru_nak_empty sample_ao sample_go 64 [] sample_rng eq_refl). by split. Defined.

(** An option with a length below 2 is rejected "till end of packet", but
    the number of rejected bytes is kept in a [u_char]: the Configure-Reject of
    a request of [l] bytes carries [l] modulo 256 of them, none at all when the
    request has 256. *)
Theorem lcp_reject_truncated ao go rid ty n rest l g :
  n < 2 -> 2 <= l -> l <= 2 + Z.of_nat (length rest) ->
  exists s, lcp_reqci ao go rid (ty :: n :: rest) l g = Ok (CONFREJ, u8 l) s
    /\ q_buf s = ty :: n :: rest.
Proof.
  intros Hn Hl Hlen.
  exists (mk_req (ty :: n :: rest) 0 0 0 [] (Z.to_nat (u8 l)) CONFREJ no_lcp_options g).
  split; [|done]. unfold lcp_reqci. replace (Z.to_nat l) with (S (Z.to_nat (l - 1))) by lia.
  pose proof (u8_range l) as Hu. unfold is_u8 in Hu.
  etransitivity; [eapply bind_ok|].
  { cbn [req_loop]. etransitivity; [eapply bind_ok; done|]. cbn [q_l].
    rewrite (proj2 (Z.eqb_neq l 0)) by lia. etransitivity; [eapply bind_ok|].
    { unfold req_step, bad_ci_length, rd, bind, gets. cbn [q_next q_l].
      rewrite (proj2 (Z.ltb_ge l 2)) by lia. cbn [q_buf access lookup list_lookup plus ret].
      rewrite (proj2 (Z.ltb_lt n 2)) by lia. reflexivity. }
    by destruct (Z.to_nat (l - 1)). }
  etransitivity; [reflexivity|]. cbn [q_rejp plus upd]. unfold upd. cbn -[u8 Z.to_nat Z.of_nat].
  by rewrite Z2Nat.id by lia.
Qed.

Lemma lcp_reject_truncated_witness :
  exists s, lcp_reqci sample_ao sample_go false (9 :: 0 :: replicate 254 7) 256 sample_rng
      = Ok (CONFREJ, 0) s
    /\ q_buf s = 9 :: 0 :: replicate 254 7.
Proof.
  exact (lcp_reject_truncated sample_ao sample_go false 9 0 (replicate 254 7) 256 sample_rng
    ltac:(lia) ltac:(lia) ltac:(cbn; lia)).
Defined.

(** A request with our own magic number is answered with a
    Configure-Nak even when the automaton has asked for no more Naks
    ([reject_if_disagree]); the comment of the function excludes it. *)
Theorem lcp_magic_naks_anyway ao go rest g :
  neg_magicnumber go = true -> is_u32 (magicnumber go) ->
  exists s, lcp_reqci ao go true
      ([CI_MAGICNUMBER; CILEN_LONG] ++ PUTLONG (magicnumber go) ++ rest) 6 g
      = Ok (CONFNAK, 6) s
    /\ take 6 (q_buf s) = [CI_MAGICNUMBER; CILEN_LONG] ++ PUTLONG (g_next g).
Proof.
  intros Hn Hm. unfold lcp_reqci. change (Z.to_nat 6) with 6%nat.
  set (B := [CI_MAGICNUMBER; CILEN_LONG] ++ PUTLONG (magicnumber go) ++ rest).
  set (nak := [CI_MAGICNUMBER; CILEN_LONG] ++ PUTLONG (g_next g)).
  set (g' := {| g_next := u32 (g_random g 0); g_random := fun i => g_random g (S i) |}).
  exists (mk_req (nak ++ rest) 6 0 CI_MAGICNUMBER nak 0 CONFNAK no_lcp_options g').
  split; [|done]. etransitivity; [eapply bind_ok|].
  { cbn [req_loop]. etransitivity; [eapply bind_ok; done|]. cbn [q_l Z.eqb].
    etransitivity; [eapply bind_ok|].
    { change (mk_req _ _ _ _ _ _ _ _ _) with
      (accepted g ([] ++ (CI_MAGICNUMBER :: CILEN_LONG :: PUTLONG (magicnumber go)) ++ rest)
         (length (@nil Z)) 6 0 no_lcp_options) at 1.
    rewrite step_at by done.
    change (req_switch ao go true CI_MAGICNUMBER) with (req_magicnumber ao go).
    unfold req_magicnumber. rewrite Hn, orb_true_r, guard_eq. unfold bind.
    erewrite (rd_long_at _ [] (_ :: _ :: PUTLONG (magicnumber go)) _ 2) by reflexivity.
    rewrite be32_put, (u32_id (magicnumber go)) by done. rewrite Z.eqb_refl. reflexivity. }
    reflexivity. }
  reflexivity.
Qed.

Lemma lcp_magic_naks_anyway_witness :
  exists s, lcp_reqci sample_ao sample_go true [5; 6; 1; 2; 3; 4] 6 sample_rng
      = Ok (CONFNAK, 6) s
    /\ take 6 (q_buf s) = [5; 6; 0; 0; 0; 7].
Proof. apply (lcp_magic_naks_anyway sample_ao sample_go [] sample_rng); done. Defined.
