(* ===== verification/Ipcp.v ===== *)
(** * ipcp.c: the options of the IP Control Protocol

    [ipcp_options] and the callbacks [ipcp_resetci], [ipcp_cilen],
    [ipcp_addci], [ipcp_ackci], [ipcp_nakci], [ipcp_rejci] and [ipcp_reqci], as
    functions of the option records; Ppp.v gives them the task's records.
    The macros of the C functions are definitions of the same names; where
    lcp.c has one of the same name and shape it is shared. *)

From S2P Require Export Lcp.

Definition CI_ADDRS := 1.
Definition CI_COMPRESSTYPE := 2.
Definition CI_ADDR := 3.
Definition MAX_STATES := 16.
Definition IPCP_VJ_COMP := 0x002d.
Definition IPCP_VJ_COMP_OLD := 0x0037.

Definition CILEN_COMPRESS := 4.
Definition CILEN_VJ := 6.
Definition CILEN_ADDR := 6.
Definition CILEN_ADDRS := 10.

Record ipcp_options := mk_ipcp_options {
  neg_addr : bool;
  old_addrs : bool;
  req_addr : bool;
  default_route : bool;
  proxy_arp : bool;
  neg_vj : bool;
  old_vj : bool;
  accept_local : bool;
  accept_remote : bool;
  vj_protocol : Z;
  maxslotindex : Z;
  cflag : Z;
  ouraddr : Z;
  hisaddr : Z }.

#[export] Instance eta_ipcp_options : Eta ipcp_options := fun o => {|
  neg_addr := neg_addr o; old_addrs := old_addrs o; req_addr := req_addr o;
  default_route := default_route o; proxy_arp := proxy_arp o; neg_vj := neg_vj o;
  old_vj := old_vj o; accept_local := accept_local o; accept_remote := accept_remote o;
  vj_protocol := vj_protocol o; maxslotindex := maxslotindex o; cflag := cflag o;
  ouraddr := ouraddr o; hisaddr := hisaddr o |}.
#[export] Instance set_neg_addr : Setter neg_addr := ltac:(derive_setter).
#[export] Instance set_old_addrs : Setter old_addrs := ltac:(derive_setter).
#[export] Instance set_req_addr : Setter req_addr := ltac:(derive_setter).
#[export] Instance set_default_route : Setter default_route := ltac:(derive_setter).
#[export] Instance set_proxy_arp : Setter proxy_arp := ltac:(derive_setter).
#[export] Instance set_neg_vj : Setter neg_vj := ltac:(derive_setter).
#[export] Instance set_old_vj : Setter old_vj := ltac:(derive_setter).
#[export] Instance set_accept_local : Setter accept_local := ltac:(derive_setter).
#[export] Instance set_accept_remote : Setter accept_remote := ltac:(derive_setter).
#[export] Instance set_vj_protocol : Setter vj_protocol := ltac:(derive_setter).
#[export] Instance set_maxslotindex : Setter maxslotindex := ltac:(derive_setter).
#[export] Instance set_cflag : Setter cflag := ltac:(derive_setter).
#[export] Instance set_ouraddr : Setter ouraddr := ltac:(derive_setter).
#[export] Instance set_hisaddr : Setter hisaddr := ltac:(derive_setter).

Definition no_ipcp_options : ipcp_options :=
  mk_ipcp_options false false false false false false false false false 0 0 0 0 0.

Record ipcp_options_ok (o : ipcp_options) : Prop := {
  vj_protocol_ok : is_u16 (vj_protocol o);
  maxslotindex_ok : is_u8 (maxslotindex o);
  cflag_ok : is_u8 (cflag o);
  ouraddr_ok : is_u32 (ouraddr o);
  hisaddr_ok : is_u32 (hisaddr o) }.

(** Byte order of the target: whether a long is stored most significant byte
    first. *)
Class Endian := big_endian : bool.

Section Ipcp.
Context `{Endian}.

Definition swap32 (l : Z) : Z :=
  be32 (u8 l) (u8 (Z.shiftr l 8)) (u8 (Z.shiftr l 16)) (u8 (Z.shiftr l 24)).
Definition htonl (l : Z) : Z := if big_endian then u32 l else swap32 l.
Definition ntohl (l : Z) : Z := if big_endian then u32 l else swap32 l.

(** What [ipcp_init] stores in [wo] and [ao], whatever they were. *)
Definition ipcp_init_want (wo : ipcp_options) : ipcp_options :=
  wo <| neg_addr := true |> <| old_addrs := false |> <| ouraddr := 0 |> <| hisaddr := 0 |>
     <| neg_vj := true |> <| old_vj := false |> <| vj_protocol := IPCP_VJ_COMP |>
     <| maxslotindex := MAX_STATES - 1 |> <| cflag := 1 |>.
Definition ipcp_init_allow (ao : ipcp_options) : ipcp_options :=
  ao <| neg_addr := true |> <| neg_vj := true |>
     <| maxslotindex := MAX_STATES - 1 |> <| cflag := 1 |>.

(** The new [*wo]; [*go] becomes a copy of it, [cis_received] 0. *)
Definition ipcp_resetci (ao wo : ipcp_options) : ipcp_options :=
  let wo := wo <| req_addr := neg_addr wo && neg_addr ao |> in
  let wo := if ouraddr wo =? 0 then wo <| accept_local := true |> else wo in
  if hisaddr wo =? 0 then wo <| accept_remote := true |> else wo.

(** ** Our request *)

Definition LENCIVJ (neg old : bool) : Z :=
  if neg then (if old then CILEN_COMPRESS else CILEN_VJ) else 0.
Definition LENCIADDR (neg old : bool) : Z :=
  if neg then (if old then CILEN_ADDRS else CILEN_ADDR) else 0.
Definition ipcp_cilen (go : ipcp_options) : Z :=
  LENCIADDR (neg_addr go) (old_addrs go) + LENCIVJ (neg_vj go) (old_vj go).

(** Each macro returns the bytes, the remaining [len] and the new [neg]. *)
Definition ADDCIVJ (opt : Z) (neg : bool) (val : Z) (old : bool) (maxslot cflag : Z)
  (len : Z) : list Z * Z * bool :=
  if neg then
    let vjlen := if old then CILEN_COMPRESS else CILEN_VJ in
    if vjlen <=? len then
      (PUTCHAR opt ++ PUTCHAR vjlen ++ PUTSHORT val ++
       (if old then [] else PUTCHAR maxslot ++ PUTCHAR cflag), len - vjlen, neg)
    else ([], len, false)
  else ([], len, neg).

Definition ADDCIADDR (opt : Z) (neg old : bool) (val1 val2 : Z) (len : Z)
  : list Z * Z * bool :=
  if neg then
    let addrlen := if old then CILEN_ADDRS else CILEN_ADDR in
    if addrlen <=? len then
      (PUTCHAR opt ++ PUTCHAR addrlen ++ PUTLONG (ntohl val1) ++
       (if old then PUTLONG (ntohl val2) else []), len - addrlen, neg)
    else ([], len, false)
  else ([], len, neg).

(** The change to older forms of the options at the start of [ipcp_addci]. *)
Definition older_forms (wo ho go : ipcp_options) (cis_received : Z) : ipcp_options :=
  let go := if neg_addr wo && negb (neg_addr go) && negb (old_addrs go)
            then go <| neg_addr := true |> <| old_addrs := true |> else go in
  if neg_vj wo && negb (neg_vj go) && negb (old_vj go) then
    if cis_received =? 0 then go <| neg_vj := true |>
    else if neg_vj ho && old_vj ho then
      go <| neg_vj := true |> <| old_vj := true |> <| vj_protocol := vj_protocol ho |>
    else go
  else go.

(** The bytes at [ucp], the new [*lenp] and the new [*go]. *)
Definition ipcp_addci (wo ho go : ipcp_options) (cis_received lenp : Z)
  : list Z * Z * ipcp_options :=
  let go := older_forms wo ho go cis_received in
  let '(addr, len, n_addr) :=
    ADDCIADDR (if old_addrs go then CI_ADDRS else CI_ADDR) (neg_addr go) (old_addrs go)
      (ouraddr go) (hisaddr go) lenp in
  let go := go <| neg_addr := n_addr |> in
  let '(vj, len, n_vj) :=
    ADDCIVJ CI_COMPRESSTYPE (neg_vj go) (vj_protocol go) (old_vj go) (maxslotindex go)
      (cflag go) len in
  (addr ++ vj, lenp - len, go <| neg_vj := n_vj |>).

(** ** The peer's Ack *)

Definition ack_ci_header (opt n : Z) : parser unit :=
  need n ;;
  citype <- GETCHAR ;; cilen <- GETCHAR ;;
  when (negb (cilen =? n) || negb (citype =? opt)) bad.

Definition ACKCIVJ (opt : Z) (neg : bool) (val : Z) (old : bool) (maxslot cflag : Z)
  : parser unit :=
  when neg
    (ack_ci_header opt (if old then CILEN_COMPRESS else CILEN_VJ) ;;
     cishort <- GETSHORT ;; when (negb (cishort =? val)) bad ;;
     when (negb old)
       (cimaxslotindex <- GETCHAR ;; when (negb (cimaxslotindex =? maxslot)) bad ;;
        cicflag <- GETCHAR ;; when (negb (cicflag =? cflag)) bad)).

Definition ACKCIADDR (opt : Z) (neg old : bool) (val1 val2 : Z) : parser unit :=
  when neg
    (ack_ci_header opt (if old then CILEN_ADDRS else CILEN_ADDR) ;;
     l <- GETLONG ;; when (negb (val1 =? htonl l)) bad ;;
     when old (l <- GETLONG ;; when (negb (val2 =? htonl l)) bad)).

Definition ipcp_ackci (go : ipcp_options) : parser unit :=
  ACKCIADDR (if old_addrs go then CI_ADDRS else CI_ADDR) (neg_addr go) (old_addrs go)
    (ouraddr go) (hisaddr go) ;;
  ACKCIVJ CI_COMPRESSTYPE (neg_vj go) (vj_protocol go) (old_vj go) (maxslotindex go)
    (cflag go) ;;
  no_more.

(** ** The peer's Reject *)

(** [REJCIADDR] calls [die] before it reads the option, so it runs in the
    parser and the task at once: [W] is the state of the task, [get_go] its
    [*go], and the parser leaves with [inl] for [goto bad] and [inr] for the
    task's exit. *)
Section Rejci.
Context {W : Type} (die : M W Z unit) (get_go : W -> ipcp_options).

Definition rejecter := M (cursor * W) (unit + Z).
Definition in_packet {A} (m : parser A) : rejecter A := fun s =>
  match m s.1 with
  | Ok a c => Ok a (c, s.2)
  | Throw e c => Throw (inl e) (c, s.2)
  | Fault => Fault
  | Hang => Hang
  end.
Definition in_task (m : M W Z unit) : rejecter unit := fun s =>
  match m s.2 with
  | Ok a w => Ok a (s.1, w)
  | Throw e w => Throw (inr e) (s.1, w)
  | Fault => Fault
  | Hang => Hang
  end.
Definition get_options : rejecter ipcp_options := gets (fun s => get_go s.2).

(** Each returns whether the option was found, which is when [try.neg] is
    cleared.  The values are those of [*go] after [die]. *)
Definition REJCIADDR : rejecter bool :=
  go <- get_options ;;
  let old := old_addrs go in
  found <- in_packet (ci_is (if old then CI_ADDRS else CI_ADDR) (neg_addr go)
                        (if old then CILEN_ADDRS else CILEN_ADDR)) ;;
  when found
    (in_task die ;;
     go <- get_options ;;
     in_packet
       (l <- GETLONG ;; when (negb (htonl l =? ouraddr go)) bad ;;
        when (old_addrs go) (l <- GETLONG ;; when (negb (htonl l =? hisaddr go)) bad))) ;;
  ret found.

(** [go->neg_vj && p[1] == vjlen && len >= p[1] && p[0] == opt]: the length is
    read before it is known that the packet has it. *)
Definition vj_is (opt : Z) (neg : bool) (vjlen : Z) : parser bool :=
  if neg then
    p1 <- peek 1 ;;
    if negb (p1 =? vjlen) then ret false else
    l <- gets len ;;
    if l <? p1 then ret false else
    p0 <- peek 0 ;;
    if negb (p0 =? opt) then ret false else
    take_len p1 ;; INCPTR 2 ;; ret true
  else ret false.

Definition REJCIVJ : rejecter bool :=
  go <- get_options ;;
  in_packet
    (found <- vj_is CI_COMPRESSTYPE (neg_vj go)
                (if old_vj go then CILEN_COMPRESS else CILEN_VJ) ;;
     when found
       (cishort <- GETSHORT ;; when (negb (cishort =? vj_protocol go)) bad ;;
        when (negb (old_vj go))
          (cimaxslotindex <- GETCHAR ;; when (negb (cimaxslotindex =? maxslotindex go)) bad ;;
           ciflag <- GETCHAR ;; when (negb (ciflag =? cflag go)) bad)) ;;
     ret found).

(** The [try] that replaces [*go] (unless the state is OPENED). *)
Definition ipcp_rejci : rejecter ipcp_options :=
  try <- get_options ;;
  r_addr <- REJCIADDR ;;
  r_vj <- REJCIVJ ;;
  in_packet no_more ;;
  ret (try <| neg_addr ::= keep r_addr |> <| neg_vj ::= keep r_vj |>).
End Rejci.

(** ** The peer's Nak *)

Record ipcp_nak := mk_ipcp_nak {
  i_cur : cursor;
  i_no : ipcp_options;
  i_try : ipcp_options }.
#[export] Instance eta_ipcp_nak : Eta ipcp_nak := fun s => {|
  i_cur := i_cur s; i_no := i_no s; i_try := i_try s |}.
#[export] Instance set_i_cur : Setter i_cur := ltac:(derive_setter).
#[export] Instance set_i_no : Setter i_no := ltac:(derive_setter).
#[export] Instance set_i_try : Setter i_try := ltac:(derive_setter).

Definition ip_nakker := M ipcp_nak unit.
Definition at_ip {A} (m : parser A) : ip_nakker A :=
  zoom i_cur (fun c s => s <| i_cur := c |>) m.
Definition ip_no (g : ipcp_options -> ipcp_options) : ip_nakker unit :=
  modify (fun s => s <| i_no ::= g |>).
Definition ip_try (g : ipcp_options -> ipcp_options) : ip_nakker unit :=
  modify (fun s => s <| i_try ::= g |>).

(** An address the peer names for us or for itself, and whether we take it. *)
Definition take_local (go : ipcp_options) (ciaddr1 : Z) : ip_nakker unit :=
  when (accept_local go && negb (ciaddr1 =? 0)) (ip_try (fun t => t <| ouraddr := ciaddr1 |>)).
Definition take_remote (go : ipcp_options) (ciaddr2 : Z) : ip_nakker unit :=
  when (accept_remote go && negb (ciaddr2 =? 0)) (ip_try (fun t => t <| hisaddr := ciaddr2 |>)).

(** The macro with its code; [opt] is [CI_ADDR] whatever [old] is. *)
Definition NAKCIADDR (go : ipcp_options) (opt : Z) (old : bool) : ip_nakker unit :=
  found <- at_ip (ci_is opt (neg_addr go) (if old then CILEN_ADDRS else CILEN_ADDR)) ;;
  when found
    (l <- at_ip GETLONG ;;
     let ciaddr1 := htonl l in
     ciaddr2 <- (if old then
                   l <- at_ip GETLONG ;; ip_no (fun no => no <| old_addrs := true |>) ;;
                   ret (htonl l)
                 else ret 0) ;;
     ip_no (fun no => no <| neg_addr := true |>) ;;
     take_local go ciaddr1 ;; take_remote go ciaddr2).

(** The condition of [NAKCIVJ]; [Some cilen] when the option is there. *)
Definition nak_vj_is (go : ipcp_options) (opt : Z) : parser (option Z) :=
  if neg_vj go then
    cilen <- peek 1 ;;
    if negb ((cilen =? CILEN_COMPRESS) || (cilen =? CILEN_VJ)) then ret None else
    l <- gets len ;;
    if l <? cilen then ret None else
    p0 <- peek 0 ;;
    if negb (p0 =? opt) then ret None else
    take_len cilen ;; INCPTR 2 ;; ret (Some cilen)
  else ret None.

Definition NAKCIVJ (go : ipcp_options) (opt : Z) : ip_nakker unit :=
  found <- at_ip (nak_vj_is go opt) ;;
  match found with
  | None => ret tt
  | Some cilen =>
      cishort <- at_ip GETSHORT ;;
      ip_no (fun no => no <| neg_vj := true |>) ;;
      if cilen =? CILEN_VJ then
        cimaxslotindex <- at_ip GETCHAR ;; cicflag <- at_ip GETCHAR ;;
        if cishort =? IPCP_VJ_COMP then
          ip_try (fun t => t <| old_vj := false |>) ;;
          when (cimaxslotindex <? maxslotindex go)
            (ip_try (fun t => t <| maxslotindex := cimaxslotindex |>)) ;;
          when (cicflag =? 0) (ip_try (fun t => t <| cflag := 0 |>))
        else ip_try (fun t => t <| neg_vj := false |>)
      else if (cishort =? IPCP_VJ_COMP) || (cishort =? IPCP_VJ_COMP_OLD) then
        ip_try (fun t => t <| old_vj := true |> <| vj_protocol := cishort |>)
      else ip_try (fun t => t <| neg_vj := false |>)
  end.

(** The cases of the [switch] over the options that remain. *)
Definition nak_more_vj (go : ipcp_options) (cilen : Z) : ip_nakker unit :=
  no <- gets i_no ;;
  when (neg_vj go || neg_vj no
        || negb (cilen =? CILEN_VJ) && negb (cilen =? CILEN_COMPRESS)) (throw tt) ;;
  ip_no (fun no => no <| neg_vj := true |>).
Definition nak_more_addrs (go : ipcp_options) (cilen : Z) : ip_nakker unit :=
  no <- gets i_no ;;
  when ((neg_addr go && old_addrs go) || old_addrs no || negb (cilen =? CILEN_ADDRS))
    (throw tt) ;;
  ip_try (fun t => t <| neg_addr := true |> <| old_addrs := true |>) ;;
  l <- at_ip GETLONG ;; take_local go (htonl l) ;;
  l <- at_ip GETLONG ;; take_remote go (htonl l) ;;
  ip_no (fun no => no <| old_addrs := true |>).
Definition nak_more_addr (go : ipcp_options) (cilen : Z) : ip_nakker unit :=
  no <- gets i_no ;;
  when (neg_addr go || neg_addr no || negb (cilen =? CILEN_ADDR)) (throw tt) ;;
  ip_try (fun t => t <| neg_addr := true |> <| old_addrs := false |>) ;;
  l <- at_ip GETLONG ;; take_local go (htonl l) ;;
  ip_no (fun no => no <| neg_addr := true |>).

(** One round of [while (len > CILEN_VOID)]. *)
Definition nak_more_step (go : ipcp_options) : ip_nakker unit :=
  start <- at_ip (gets p) ;;
  citype <- at_ip GETCHAR ;; cilen <- at_ip GETCHAR ;;
  at_ip (need cilen) ;;
  (if citype =? CI_COMPRESSTYPE then nak_more_vj go cilen
   else if citype =? CI_ADDRS then nak_more_addrs go cilen
   else if citype =? CI_ADDR then nak_more_addr go cilen
   else throw tt) ;;
  at_ip (modify (fun c => c <| p := drop (Z.to_nat cilen) start |>)).

Fixpoint nak_more (fuel : nat) (go : ipcp_options) : ip_nakker unit :=
  l <- at_ip (gets len) ;;
  if CILEN_VOID <? l then
    match fuel with
    | O => hang
    | S fuel => nak_more_step go ;; nak_more fuel go
    end
  else ret tt.

(** The [try] that replaces [*go] (unless the state is OPENED). *)
Definition ipcp_nakci (fuel : nat) (go : ipcp_options) : ip_nakker ipcp_options :=
  NAKCIADDR go CI_ADDR (old_addrs go) ;;
  NAKCIVJ go CI_COMPRESSTYPE ;;
  nak_more fuel go ;;
  at_ip no_more ;;
  gets i_try.
(** ** The peer's request *)

(** The locals of [ipcp_reqci] and the option records it changes; pointers are
    offsets from [inp]. *)
Record ipcp_req := mk_ipcp_req {
  r_buf : list Z;
  r_next : nat;
  r_l : Z;
  r_ucp : nat;
  r_rc : Z;
  r_wo : ipcp_options;
  r_go : ipcp_options;
  r_ho : ipcp_options }.
#[export] Instance eta_ipcp_req : Eta ipcp_req := fun s => {|
  r_buf := r_buf s; r_next := r_next s; r_l := r_l s; r_ucp := r_ucp s; r_rc := r_rc s;
  r_wo := r_wo s; r_go := r_go s; r_ho := r_ho s |}.
#[export] Instance set_r_buf : Setter r_buf := ltac:(derive_setter).
#[export] Instance set_r_next : Setter r_next := ltac:(derive_setter).
#[export] Instance set_r_l : Setter r_l := ltac:(derive_setter).
#[export] Instance set_r_ucp : Setter r_ucp := ltac:(derive_setter).
#[export] Instance set_r_rc : Setter r_rc := ltac:(derive_setter).
#[export] Instance set_r_wo : Setter r_wo := ltac:(derive_setter).
#[export] Instance set_r_go : Setter r_go := ltac:(derive_setter).
#[export] Instance set_r_ho : Setter r_ho := ltac:(derive_setter).

Definition ip_requester := M ipcp_req Empty_set.

Definition ip_rd (o : nat) : ip_requester Z :=
  s <- gets r_buf ;; access (s !! o).
Definition ip_rd_short (o : nat) : ip_requester Z :=
  a <- ip_rd o ;; b <- ip_rd (o + 1) ;; ret (be16 a b).
Definition ip_rd_long (o : nat) : ip_requester Z :=
  a <- ip_rd o ;; b <- ip_rd (o + 1) ;; c <- ip_rd (o + 2) ;; d <- ip_rd (o + 3) ;;
  ret (be32 a b c d).
Definition ip_wr (o : nat) (bs : list Z) : ip_requester unit :=
  s <- gets r_buf ;; s <- access (poke_at o bs s) ;;
  modify (fun q => q <| r_buf := s |>).
Definition ip_ho (g : ipcp_options -> ipcp_options) : ip_requester unit :=
  modify (fun q => q <| r_ho ::= g |>).

(** The peer's own address at offset [o] against our idea of it: [orc]. *)
Definition req_hisaddr (rid : bool) (o : nat) (ciaddr1 : Z) : ip_requester Z :=
  wo <- gets r_wo ;;
  if negb (ciaddr1 =? hisaddr wo) && ((ciaddr1 =? 0) || negb (accept_remote wo)) then
    when (negb rid) (ip_wr o (PUTLONG (ntohl (hisaddr wo)))) ;; ret CONFNAK
  else ret CONFACK.

(** Our address as the peer sees it; [orc] so far is [orc]. *)
Definition req_ouraddr (rid : bool) (o : nat) (ciaddr2 orc : Z) : ip_requester Z :=
  wo <- gets r_wo ;;
  if ciaddr2 =? ouraddr wo then ret orc
  else if (ciaddr2 =? 0) || negb (accept_local wo) then
    when (negb rid) (ip_wr o (PUTLONG (ntohl (ouraddr wo)))) ;; ret CONFNAK
  else modify (fun q => q <| r_go ::= fun go => go <| ouraddr := ciaddr2 |> |>) ;; ret orc.

Definition ip_req_addrs (ao : ipcp_options) (rid : bool) (cip : nat) (cilen : Z)
  : ip_requester Z :=
  if negb (neg_addr ao) || negb (cilen =? CILEN_ADDRS) then ret CONFREJ else
  tl <- ip_rd_long (cip + 2) ;;
  let ciaddr1 := htonl tl in
  orc <- req_hisaddr rid (cip + 2) ciaddr1 ;;
  tl <- ip_rd_long (cip + 6) ;;
  let ciaddr2 := htonl tl in
  orc <- req_ouraddr rid (cip + 6) ciaddr2 orc ;;
  ip_ho (fun ho => ho <| neg_addr := true |> <| old_addrs := true |>
                      <| hisaddr := ciaddr1 |> <| ouraddr := ciaddr2 |>) ;;
  ret orc.

Definition ip_req_addr (ao : ipcp_options) (rid : bool) (cip : nat) (cilen : Z)
  : ip_requester Z :=
  if negb (neg_addr ao) || negb (cilen =? CILEN_ADDR) then ret CONFREJ else
  tl <- ip_rd_long (cip + 2) ;;
  let ciaddr1 := htonl tl in
  orc <- req_hisaddr rid (cip + 2) ciaddr1 ;;
  ip_ho (fun ho => ho <| neg_addr := true |> <| hisaddr := ciaddr1 |>) ;;
  ret orc.

Definition ip_req_vj (ao : ipcp_options) (rid : bool) (cip : nat) (cilen : Z)
  : ip_requester Z :=
  if negb (neg_vj ao) || (negb (cilen =? CILEN_VJ) && negb (cilen =? CILEN_COMPRESS))
  then ret CONFREJ else
  cishort <- ip_rd_short (cip + 2) ;;
  if negb ((cishort =? IPCP_VJ_COMP)
           || ((cishort =? IPCP_VJ_COMP_OLD) && (cilen =? CILEN_COMPRESS)))
  then ret CONFREJ else
  ip_ho (fun ho => ho <| neg_vj := true |> <| vj_protocol := cishort |>) ;;
  if cilen =? CILEN_VJ then
    wo <- gets r_wo ;;
    maxslot <- ip_rd (cip + 4) ;;
    orc <- (if maxslotindex ao <? maxslot then
              when (negb rid) (ip_wr (cip + 4) (PUTCHAR (maxslotindex ao))) ;; ret CONFNAK
            else ret CONFACK) ;;
    flag <- ip_rd (cip + 5) ;;
    orc <- (if negb (flag =? 0) && (cflag ao =? 0) then
              when (negb rid) (ip_wr (cip + 5) (PUTCHAR (cflag wo))) ;; ret CONFNAK
            else ret orc) ;;
    ip_ho (fun ho => ho <| maxslotindex := maxslot |> <| cflag := cflag wo |>) ;;
    ret orc
  else
    ip_ho (fun ho => ho <| old_vj := true |> <| maxslotindex := MAX_STATES - 1 |>
                        <| cflag := 1 |>) ;;
    ret CONFACK.

Definition ip_req_switch (ao : ipcp_options) (rid : bool) (citype : Z) (cip : nat)
  (cilen : Z) : ip_requester Z :=
  if citype =? CI_ADDRS then ip_req_addrs ao rid cip cilen
  else if citype =? CI_ADDR then ip_req_addr ao rid cip cilen
  else if citype =? CI_COMPRESSTYPE then ip_req_vj ao rid cip cilen
  else ret CONFREJ.

(** [if (ucp != cip) BCOPY(cip, ucp, cilen); INCPTR(cilen, ucp)] *)
Definition put_option (cip : nat) (cilen : Z) : ip_requester unit :=
  ucp <- gets r_ucp ;;
  when (negb (Nat.eqb ucp cip))
    (s <- gets r_buf ;; bs <- access (slice cip (Z.to_nat cilen) s) ;; ip_wr ucp bs) ;;
  modify (fun q => q <| r_ucp := (ucp + Z.to_nat cilen)%nat |>).

(** [rc = c; ucp = inp] *)
Definition restart_with (c : Z) : ip_requester unit :=
  modify (fun q => q <| r_rc := c |> <| r_ucp := 0%nat |>).

(** What happens at [endswitch]. *)
Definition ip_req_verdict (rid : bool) (cip : nat) (cilen orc : Z) : ip_requester unit :=
  rc <- gets r_rc ;;
  if (orc =? CONFACK) && negb (rc =? CONFACK) then ret tt
  else if (orc =? CONFNAK) && negb rid && (rc =? CONFREJ) then ret tt
  else
    let orc := if (orc =? CONFNAK) && rid then CONFREJ else orc in
    when ((orc =? CONFNAK) && (rc =? CONFACK)) (restart_with CONFNAK) ;;
    when ((orc =? CONFREJ) && negb (rc =? CONFREJ)) (restart_with CONFREJ) ;;
    put_option cip cilen.

Definition ip_bad_ci_length (cip : nat) (l : Z) : ip_requester bool :=
  if l <? 2 then ret true else
  n <- ip_rd (cip + 1) ;; ret ((n <? 2) || (l <? n)).

(** One round of [while (l)]. *)
Definition ip_req_step (ao : ipcp_options) (rid : bool) : ip_requester unit :=
  cip <- gets r_next ;;
  l <- gets r_l ;;
  short <- ip_bad_ci_length cip l ;;
  if short then
    modify (fun q => q <| r_l := 0 |>) ;;
    ip_req_verdict rid cip (u16 l) CONFREJ
  else
    citype <- ip_rd cip ;;
    cilen <- ip_rd (cip + 1) ;;
    modify (fun q => q <| r_l := l - cilen |> <| r_next := (cip + Z.to_nat cilen)%nat |>) ;;
    orc <- ip_req_switch ao rid citype cip cilen ;;
    ip_req_verdict rid cip cilen orc.

Fixpoint ip_req_loop (fuel : nat) (ao : ipcp_options) (rid : bool) : ip_requester unit :=
  l <- gets r_l ;;
  if l =? 0 then ret tt else
  match fuel with
  | O => hang
  | S fuel => ip_req_step ao rid ;; ip_req_loop fuel ao rid
  end.

(** The option appended when we want the peer's address and it sent none. *)
Definition ip_req_finish (rid : bool) : ip_requester unit :=
  rc <- gets r_rc ;; ho <- gets r_ho ;; wo <- gets r_wo ;;
  when (negb (rc =? CONFREJ) && negb (neg_addr ho) && req_addr wo && negb rid)
    (when (rc =? CONFACK)
       (restart_with CONFNAK ;;
        modify (fun q => q <| r_wo ::= fun wo => wo <| req_addr := false |> |>)) ;;
     ucp <- gets r_ucp ;; wo <- gets r_wo ;;
     ip_wr ucp (PUTCHAR CI_ADDR ++ PUTCHAR CILEN_ADDR ++ PUTLONG (ntohl (hisaddr wo))) ;;
     modify (fun q => q <| r_ucp := (ucp + 6)%nat |>)).

(** [rc] and the new [*len]; the buffer and the options in the final state. *)
Definition ipcp_reqci (ao wo go : ipcp_options) (rid : bool) (inp : list Z) (l : Z)
  : outcome ipcp_req Empty_set (Z * Z) :=
  (ip_req_loop (Z.to_nat l) ao rid ;;
   ip_req_finish rid ;;
   rc <- gets r_rc ;; n <- gets r_ucp ;; ret (rc, Z.of_nat n))
    (mk_ipcp_req inp 0 l 0 CONFACK wo go no_ipcp_options).
End Ipcp.
