(* ===== verification/IpcpProps.v ===== *)
(** * IPCP: our request, and the peer's Ack, Nak and Reject of it *)

From S2P Require Export LcpNeg Ipcp.

Section IpcpProps.
Context `{Endian}.

(** ** Byte order *)

Lemma swap32_range l : is_u32 (swap32 l).
Proof. unfold swap32. apply be32_range; apply u8_range. Qed.

Lemma htonl_range l : is_u32 (htonl l).
Proof. unfold htonl. destruct big_endian; auto using u32_range, swap32_range. Qed.
Lemma ntohl_range l : is_u32 (ntohl l).
Proof. unfold ntohl. destruct big_endian; auto using u32_range, swap32_range. Qed.

Lemma swap32_bytes a b c d :
  is_u8 a -> is_u8 b -> is_u8 c -> is_u8 d -> swap32 (be32 a b c d) = be32 d c b a.
Proof.
  intros Ha Hb Hc Hd. pose proof (put_be32 a b c d Ha Hb Hc Hd) as E.
  unfold PUTLONG in E. injection E as E1 E2 E3 E4. unfold swap32. by rewrite E1, E2, E3, E4.
Qed.

Lemma swap32_swap32 l : is_u32 l -> swap32 (swap32 l) = l.
Proof.
  intros Hl. unfold swap32 at 2. rewrite swap32_bytes by apply u8_range.
  rewrite be32_put. by apply u32_id.
Qed.

Lemma htonl_ntohl l : is_u32 l -> htonl (ntohl l) = l.
Proof.
  intros Hl. unfold htonl, ntohl. destruct big_endian; [|by apply swap32_swap32].
  by rewrite !u32_id by (rewrite ?u32_id by done; done).
Qed.
Lemma ntohl_htonl l : is_u32 l -> ntohl (htonl l) = l.
Proof. apply htonl_ntohl. Qed.

(** ** The request *)

(** The bytes of an IPCP request for the options [go]. *)
Definition addr_bytes (go : ipcp_options) : list Z :=
  PUTCHAR (if old_addrs go then CI_ADDRS else CI_ADDR) ++
  PUTCHAR (if old_addrs go then CILEN_ADDRS else CILEN_ADDR) ++ PUTLONG (ntohl (ouraddr go)) ++
  (if old_addrs go then PUTLONG (ntohl (hisaddr go)) else []).
Definition vj_bytes (go : ipcp_options) : list Z :=
  PUTCHAR CI_COMPRESSTYPE ++ PUTCHAR (if old_vj go then CILEN_COMPRESS else CILEN_VJ) ++
  PUTSHORT (vj_protocol go) ++
  (if old_vj go then [] else PUTCHAR (maxslotindex go) ++ PUTCHAR (cflag go)).
Definition ipcp_request (go : ipcp_options) : list Z :=
  (if neg_addr go then addr_bytes go else []) ++ (if neg_vj go then vj_bytes go else []).

Lemma ipcp_request_len go : Z.of_nat (length (ipcp_request go)) = ipcp_cilen go.
Proof.
  unfold ipcp_request, ipcp_cilen, addr_bytes, vj_bytes.
  by destruct (neg_addr go), (neg_vj go), (old_addrs go), (old_vj go).
Qed.

(** Given the length that [fsm_sconfreq] computed, [ipcp_addci] writes
    exactly the options that were already being asked for.  In particular
    the older forms of the options that it turns to after a Reject are never
    sent: the length was computed before and has no room for them. *)
Theorem ipcp_addci_spec wo ho go cis :
  let '(bs, n, go') := ipcp_addci wo ho go cis (ipcp_cilen go) in
  bs = ipcp_request go /\ n = ipcp_cilen go /\ Z.of_nat (length bs) = n
  /\ neg_addr go' = neg_addr go /\ neg_vj go' = neg_vj go
  /\ ipcp_request go' = ipcp_request go.
Proof.
  pose proof (ipcp_request_len go) as Hl. revert Hl.
  unfold ipcp_addci, older_forms, ipcp_cilen, ipcp_request, addr_bytes, vj_bytes.
  destruct go as [na oa ra dr pa nv ov al ar vp ms cf our his]; cbn in *.
  destruct na, oa, nv, ov, (neg_addr wo), (neg_vj wo), (cis =? 0), (neg_vj ho && old_vj ho);
    cbn; intros Hl; split_and!; done.
Qed.

Lemma ipcp_bytes go : bytes (ipcp_request go).
Proof.
  unfold ipcp_request, addr_bytes, vj_bytes.
  destruct (neg_addr go), (neg_vj go), (old_addrs go), (old_vj go); auto 15 with ppp.
Qed.

(** ** The Ack *)

#[local] Arguments htonl : simpl never.
#[local] Arguments ntohl : simpl never.
#[local] Arguments be16 : simpl never.
#[local] Arguments be32 : simpl never.

Lemma addr_eq a b c d v :
  is_u8 a -> is_u8 b -> is_u8 c -> is_u8 d -> is_u32 v ->
  v = htonl (be32 a b c d) <-> [a; b; c; d] = PUTLONG (ntohl v).
Proof.
  intros Ha Hb Hc Hd Hv. rewrite <- be32_inj by (auto using ntohl_range).
  split; intros ->.
  - rewrite ntohl_htonl; [done|by apply be32_range].
  - by rewrite htonl_ntohl.
Qed.

Ltac same_addrs :=
  repeat match goal with
  | e : ?v = htonl (be32 _ _ _ _) |- _ => apply addr_eq in e; [|assumption..]
  | e : ?v <> htonl (be32 _ _ _ _) |- _ => rewrite addr_eq in e by assumption
  | e : be16 _ _ = ?v, H : is_u16 ?v |- _ => apply be16_inj in e; [|assumption..]
  | e : be16 _ _ <> ?v, H : is_u16 ?v |- _ => rewrite be16_inj in e by assumption
  | e : _ = maxslotindex _, H : is_u8 (maxslotindex ?g) |- _ =>
      rewrite <- (u8_id (maxslotindex g)) in e by exact H; revert H
  | e : _ <> maxslotindex _, H : is_u8 (maxslotindex ?g) |- _ =>
      rewrite <- (u8_id (maxslotindex g)) in e by exact H; revert H
  | e : _ = cflag _, H : is_u8 (cflag ?g) |- _ =>
      rewrite <- (u8_id (cflag g)) in e by exact H; revert H
  | e : _ <> cflag _, H : is_u8 (cflag ?g) |- _ =>
      rewrite <- (u8_id (cflag g)) in e by exact H; revert H
  end; intros;
  unfold PUTCHAR, PUTSHORT, PUTLONG in *; cbn [app] in *;
  change (u8 CI_ADDRS) with CI_ADDRS in *; change (u8 CI_ADDR) with CI_ADDR in *;
  change (u8 CI_COMPRESSTYPE) with CI_COMPRESSTYPE in *;
  change (u8 CILEN_ADDRS) with CILEN_ADDRS in *; change (u8 CILEN_ADDR) with CILEN_ADDR in *;
  change (u8 CILEN_COMPRESS) with CILEN_COMPRESS in *; change (u8 CILEN_VJ) with CILEN_VJ in *;
  first [split; [reflexivity|]; congruence | congruence].

Ltac expect_ip :=
  apply expects_when; eapply expects_meq; [apply bind_assoc|]; cbv beta;
  case_match; (apply expects_need; [done|]);
    intros q d Ld Hd l; elements d Ld; bytes_inv Hd;
    unfold GETCHAR, GETSHORT, GETLONG, when, bind; cbn; compare_bytes; same_addrs.

Lemma expects_addr go :
  ipcp_options_ok go ->
  expects (ACKCIADDR (if old_addrs go then CI_ADDRS else CI_ADDR) (neg_addr go)
             (old_addrs go) (ouraddr go) (hisaddr go))
    (if neg_addr go then addr_bytes go else []).
Proof. intros []. unfold addr_bytes. expect_ip. Qed.

Lemma expects_vj go :
  ipcp_options_ok go ->
  expects (ACKCIVJ CI_COMPRESSTYPE (neg_vj go) (vj_protocol go) (old_vj go)
             (maxslotindex go) (cflag go))
    (if neg_vj go then vj_bytes go else []).
Proof. intros []. unfold vj_bytes. expect_ip. Qed.

(** C28: an Ack of our IPCP request is accepted exactly when it repeats the
    options that are being asked for, byte for byte and in network order
    whatever the byte order of the target; none makes the parser read past
    the packet. *)
Theorem ipcp_ackci_spec go c :
  ipcp_options_ok go -> cursor_ok c ->
  match ipcp_ackci go c with
  | Ok _ _ => rest_of c = ipcp_request go
  | Throw _ _ => rest_of c <> ipcp_request go
  | Fault | Hang => False
  end.
Proof.
  intros Hgo Hc. revert c Hc. change (checks (ipcp_ackci go) (ipcp_request go)).
  unfold ipcp_ackci, ipcp_request. rewrite <- (app_nil_r (if neg_vj go then _ else _)).
  apply checks_bind; [by apply expects_addr|].
  apply checks_bind; [by apply expects_vj|apply checks_no_more].
Qed.
End IpcpProps.
