(* ===== verification/IpcpNak.v ===== *)
(** * IPCP: the peer's Nak

    What a Nak can make us ask for next, that the parser ends and stays in the
    packet buffer, and the one Nak that is never understood. *)

From S2P Require Export IpcpProps.

(** A cursor with [k] bytes behind the packet keeps them while it moves. *)
Lemma has_ok k c : has k c -> cursor_ok c.
Proof. intros (H1 & H2 & H3). split; [done|]. lia. Qed.

Lemma wp_ci_is_spare k opt neg n c (Q : bool -> cursor -> Prop) E :
  has k c -> 2 <= n ->
  (forall c', neg = true -> has (Z.to_nat (n - 2) + k) c' -> len c' <= len c -> Q true c') ->
  Q false c -> wp False (ci_is opt neg n) Q E c.
Proof.
  intros Hc Hn HQ HQ'. unfold wp. pose proof (ci_is_eq opt neg n c (has_ok _ _ Hc) Hn) as H.
  destruct (ci_is opt neg n c) as [[|] c'| | |]; [|..|done|done|done].
  - destruct H as (Hneg & Hl & _ & ->). apply HQ; [done| |cbn; lia].
    destruct Hc as (Hb & Hc & Hk). split_and!; cbn; [by apply Forall_drop|lia|].
    rewrite length_drop. lia.
  - by destruct H as [-> _].
Qed.

Lemma wp_peek i c (Q : Z -> cursor -> Prop) E :
  bytes (p c) -> (i < length (p c))%nat ->
  (forall v, is_u8 v -> Q v c) -> wp False (peek i) Q E c.
Proof.
  intros Hb Hi HQ. unfold wp, peek. destruct (lookup_lt_is_Some_2 _ _ Hi) as [v Hv].
  rewrite Hv. apply HQ. by eapply Forall_lookup_1.
Qed.

Section IpcpNak.
Context `{Endian} (go : ipcp_options) (Hgo : ipcp_options_ok go) (bound : Z).

(** What a Nak may turn the request [go] into. *)
Record ip_naks (try : ipcp_options) : Prop := {
  ipn_ok : ipcp_options_ok try;
  ipn_same : req_addr try = req_addr go /\ default_route try = default_route go
    /\ proxy_arp try = proxy_arp go /\ accept_local try = accept_local go
    /\ accept_remote try = accept_remote go;
  ipn_vj : neg_vj try = true -> neg_vj go = true;
  ipn_slots : maxslotindex try <= maxslotindex go;
  ipn_cflag : cflag try = cflag go \/ cflag try = 0;
  ipn_protocol : vj_protocol try = vj_protocol go
    \/ vj_protocol try = IPCP_VJ_COMP \/ vj_protocol try = IPCP_VJ_COMP_OLD;
  ipn_local : ouraddr try = ouraddr go \/ accept_local go = true /\ ouraddr try <> 0;
  ipn_remote : hisaddr try = hisaddr go \/ accept_remote go = true /\ hisaddr try <> 0 }.

Lemma ip_naks_refl : ip_naks go.
Proof. split; auto with lia. Qed.

Definition ip_inv (k : nat) (s : ipcp_nak) : Prop :=
  (has k (i_cur s) /\ len (i_cur s) <= bound) /\ ip_naks (i_try s).

(** [m] consumes [j] of the bytes in hand. *)
Definition ip_keeps (j k : nat) (m : ip_nakker unit) : Prop :=
  forall s, ip_inv (j + k) s -> wp False m (fun _ => ip_inv k) (fun _ _ => True) s.

Lemma ip_keeps_bind j k l m n :
  ip_keeps j (k + l) m -> ip_keeps k l n -> ip_keeps (j + k) l (m ;; n).
Proof.
  intros Hm Hn s Hs. apply wp_bind. rewrite <- Nat.add_assoc in Hs.
  eapply wp_mono; [by apply Hm| |done]. intros [] s'. apply Hn.
Qed.

Lemma ip_keeps_seq k m n : ip_keeps 0 k m -> ip_keeps 0 k n -> ip_keeps 0 k (m ;; n).
Proof. intros Hm Hn. by apply (ip_keeps_bind 0 0). Qed.

Lemma ip_keeps_ret k : ip_keeps 0 k (ret tt).
Proof. intros s Hs. by apply wp_ret. Qed.

Lemma ip_keeps_throw k : ip_keeps 0 k (throw tt).
Proof. intros s Hs. by apply wp_throw. Qed.

Lemma ip_keeps_no k g : ip_keeps 0 k (ip_no g).
Proof. intros s Hs. by apply wp_modify. Qed.

Lemma ip_keeps_try k g :
  (forall t, ip_naks t -> ip_naks (g t)) -> ip_keeps 0 k (ip_try g).
Proof. intros Hg s [Hc Hs]. apply wp_modify. split; [done|]. by apply Hg. Qed.

Lemma ip_keeps_when j k (c : bool) m :
  (c = true -> ip_keeps 0 k m) -> j = 0%nat -> ip_keeps j k (when c m).
Proof. intros Hm ->. destruct c; [by apply Hm|apply ip_keeps_ret]. Qed.

Lemma ip_keeps_if k (c : bool) m n :
  (c = true -> ip_keeps 0 k m) -> (c = false -> ip_keeps 0 k n) ->
  ip_keeps 0 k (if c then m else n).
Proof. destruct c; auto. Qed.

Lemma ip_keeps_char k (f : Z -> ip_nakker unit) j :
  (forall v, is_u8 v -> ip_keeps j k (f v)) -> ip_keeps (S j) k (v <- at_ip GETCHAR ;; f v).
Proof.
  intros Hf s [[Hc Hl] Hs]. apply wp_bind, wp_zoom. eapply wp_GETCHAR; [exact Hc|].
  intros v c Hv Hc' E. apply Hf; [done|]. split; [split; [done|]|done]. by rewrite <- E in Hl.
Qed.
Lemma ip_keeps_short k (f : Z -> ip_nakker unit) j :
  (forall v, is_u16 v -> ip_keeps j k (f v)) -> ip_keeps (2 + j) k (v <- at_ip GETSHORT ;; f v).
Proof.
  intros Hf s [[Hc Hl] Hs]. apply wp_bind, wp_zoom. eapply wp_GETSHORT; [exact Hc|].
  intros v c Hv Hc' E. apply Hf; [done|]. split; [split; [done|]|done]. by rewrite <- E in Hl.
Qed.
Lemma ip_keeps_long k (f : Z -> ip_nakker unit) j :
  (forall v, is_u32 v -> ip_keeps j k (f v)) -> ip_keeps (4 + j) k (v <- at_ip GETLONG ;; f v).
Proof.
  intros Hf s [[Hc Hl] Hs]. apply wp_bind, wp_zoom. eapply wp_GETLONG; [exact Hc|].
  intros v c Hv Hc' E. apply Hf; [done|]. split; [split; [done|]|done]. by rewrite <- E in Hl.
Qed.

(** A change of one field of [try]. *)
Ltac ip_field :=
  apply ip_keeps_try; intros t [[] ? ? ? ? ? ? ?]; split; [split| ..];
  cbv beta delta [upd]; cbn; try assumption; auto using htonl_range.

Lemma keeps_take_local k l : is_u32 l -> ip_keeps 0 k (take_local go l).
Proof.
  intros Hl. apply ip_keeps_when; [|done]. intros [Ha Hz]%andb_prop.
  apply negb_true_iff, Z.eqb_neq in Hz. ip_field.
Qed.
Lemma keeps_take_remote k l : is_u32 l -> ip_keeps 0 k (take_remote go l).
Proof.
  intros Hl. apply ip_keeps_when; [|done]. intros [Ha Hz]%andb_prop.
  apply negb_true_iff, Z.eqb_neq in Hz. ip_field.
Qed.

Lemma keeps_nakciaddr old : ip_keeps 0 2 (NAKCIADDR go CI_ADDR old).
Proof.
  intros s [[Hc Hl] Hs]. apply wp_bind, wp_zoom.
  apply (wp_ci_is_spare 2); [done|by destruct old| |by apply wp_ret].
  intros c _ Hc' El. cbn [when]. set (s' := s <| i_cur := c |>).
  assert (Hs' : ip_inv (4 + ((if old then 4 else 0) + 2)) s')
    by (split; [split; [by destruct old|]|done]; change (len c <= bound); lia).
  clearbody s'. revert s' Hs'. change (ip_keeps (4 + (if old then 4 else 0)) 2
    (l <- at_ip GETLONG ;;
     ciaddr2 <- (if old then
                   l <- at_ip GETLONG ;; ip_no (fun no => no <| old_addrs := true |>) ;;
                   ret (htonl l)
                 else ret 0) ;;
     ip_no (fun no => no <| neg_addr := true |>) ;;
     take_local go (htonl l) ;; take_remote go ciaddr2)).
  apply ip_keeps_long. intros l _.
  assert (Hend : forall a, is_u32 a -> ip_keeps 0 2
    (ip_no (fun no => no <| neg_addr := true |>) ;;
     take_local go (htonl l) ;; take_remote go a)).
  { intros a Ha. apply ip_keeps_seq; [apply ip_keeps_no|].
    apply ip_keeps_seq; [apply keeps_take_local, htonl_range|by apply keeps_take_remote]. }
  destruct old.
  - intros s' [[Hc1 Hb1] Hs1]. apply wp_bind, wp_bind, wp_zoom.
    eapply wp_GETLONG; [exact Hc1|]. intros l' c' Hl' Hc2 E.
    apply wp_bind, wp_modify, wp_ret. apply Hend; [apply htonl_range|].
    split; [split; [done|]|done]. by rewrite <- E in Hb1.
  - intros s' Hs1. apply wp_bind, wp_ret. by apply Hend.
Qed.

(** The option with its length in [4] or [6] that [NAKCIVJ] looks for. *)
Lemma keeps_nakcivj : ip_keeps 0 2 (NAKCIVJ go CI_COMPRESSTYPE).
Proof.
  intros s [[Hc Hbound] Hs]. apply wp_bind, wp_zoom. unfold nak_vj_is.
  destruct (neg_vj go); [|by apply wp_ret, wp_ret].
  pose proof Hc as (Hb & Hl & Hk).
  apply wp_bind, wp_peek; [done|lia|]. intros cilen Hcl.
  apply wp_if; intros C; [by apply wp_ret, wp_ret|].
  apply negb_false_iff, orb_prop in C.
  assert (Hcl' : cilen = 4 \/ cilen = 6) by (destruct C as [C|C]; apply Z.eqb_eq in C; auto).
  apply wp_bind, wp_gets, wp_if; intros L; [by apply wp_ret, wp_ret|]. apply Z.ltb_ge in L.
  apply wp_bind, wp_peek; [done|lia|]. intros p0 _.
  apply wp_if; intros P; [by apply wp_ret, wp_ret|].
  apply wp_bind, wp_modify, wp_bind, wp_modify, wp_ret.
  set (s' := _ <| i_cur := _ |>).
  assert (Hs' : has (Z.to_nat (cilen - 2) + 2) (i_cur s') /\ len (i_cur s') <= bound).
  { split; [|change (len (i_cur s) - cilen <= bound); lia].
    split_and!; cbv beta delta [upd s']; cbn; [by apply Forall_drop|lia|].
    rewrite length_drop. lia. }
  assert (Ht : ip_naks (i_try s')) by done. clearbody s'. clear C.
  destruct Hcl' as [-> | ->].
  - change (4 =? CILEN_VJ) with false. cbv iota. revert s' Hs' Ht.
    refine (fun s' Hs' Ht => ip_keeps_short 2 (fun cishort =>
      ip_no (fun no => no <| neg_vj := true |>) ;;
      if (cishort =? IPCP_VJ_COMP) || (cishort =? IPCP_VJ_COMP_OLD) then
        ip_try (fun t => t <| old_vj := true |> <| vj_protocol := cishort |>)
      else ip_try (fun t => t <| neg_vj := false |>)) 0 _ s' (conj Hs' Ht)).
    intros v Hv. apply ip_keeps_seq; [apply ip_keeps_no|].
    apply ip_keeps_if; [|intros _; ip_field; done].
    intros V%orb_prop. ip_field. rewrite !Z.eqb_eq in V. tauto.
  - change (6 =? CILEN_VJ) with true. cbv iota. revert s' Hs' Ht.
    refine (fun s' Hs' Ht => ip_keeps_short 2 (fun cishort =>
      ip_no (fun no => no <| neg_vj := true |>) ;;
      cimaxslotindex <- at_ip GETCHAR ;; cicflag <- at_ip GETCHAR ;;
        if cishort =? IPCP_VJ_COMP then
          ip_try (fun t => t <| old_vj := false |>) ;;
          when (cimaxslotindex <? maxslotindex go)
            (ip_try (fun t => t <| maxslotindex := cimaxslotindex |>)) ;;
          when (cicflag =? 0) (ip_try (fun t => t <| cflag := 0 |>))
        else ip_try (fun t => t <| neg_vj := false |>)) 2 _ s' (conj Hs' Ht)).
    intros v Hv. apply (ip_keeps_bind 0 2 2); [apply ip_keeps_no|].
    apply ip_keeps_char. intros ms Hms. apply ip_keeps_char. intros cf Hcf.
    apply ip_keeps_if; intros V; [|ip_field; done].
    apply ip_keeps_seq; [ip_field|]. apply ip_keeps_seq.
    + apply ip_keeps_when; [|done]. intros M%Z.ltb_lt. ip_field. lia.
    + apply ip_keeps_when; [|done]. intros _. ip_field. done.
Qed.
(** A case of the loop, with the rest of its option of [n] bytes in hand. *)
Definition more_case (n : Z) (m : ip_nakker unit) : Prop :=
  forall s, ip_inv (Z.to_nat (n - 2)) s ->
    wp False m (fun _ s' => ip_inv 0 s' /\ 4 <= n) (fun _ _ => True) s.

(** The guard of a case, which fixes the length of its option. *)
Lemma more_guard n (c : ip_nakker ipcp_options) (g : ipcp_options -> bool) (m : ip_nakker unit) :
  c = gets i_no ->
  (forall no, g no = false -> 4 <= n /\ ip_keeps (Z.to_nat (n - 2)) 0 m) ->
  more_case n (no <- c ;; when (g no) (throw tt) ;; m).
Proof.
  intros -> Hg s Hs. apply wp_bind, wp_gets, wp_bind, wp_when; [intros _; by apply wp_throw|].
  intros G. destruct (Hg _ G) as [Hn Hm]. rewrite <- (Nat.add_0_r (Z.to_nat _)) in Hs.
  eapply wp_mono; [by apply Hm| |done]. by intros [] s' Hs'.
Qed.

(** Bytes in hand may be left unread. *)
Lemma ip_inv_less j k s : (k <= j)%nat -> ip_inv j s -> ip_inv k s.
Proof. intros Hk [[(H1 & H2 & H3) Hl] Hs]. split; [split; [|done]|done]. split_and!; [done..|lia]. Qed.

Lemma ip_keeps_less j k m : ip_keeps 0 k m -> ip_keeps j k m.
Proof. intros Hm s Hs. apply Hm. eapply ip_inv_less; [|exact Hs]. lia. Qed.

Lemma more_vj n : more_case n (nak_more_vj go n).
Proof.
  apply more_guard; [done|]. intros no [_ G]%orb_false_iff. split.
  - destruct (Z.eqb_spec n CILEN_VJ), (Z.eqb_spec n CILEN_COMPRESS);
      try discriminate; unfold CILEN_VJ, CILEN_COMPRESS in *; lia.
  - apply ip_keeps_less, ip_keeps_no.
Qed.

Lemma more_addrs n : more_case n (nak_more_addrs go n).
Proof.
  apply more_guard; [done|]. intros no [_ G%negb_false_iff%Z.eqb_eq]%orb_false_iff.
  subst n. split; [done|]. apply (ip_keeps_bind 0 8 0); [ip_field|].
  apply (ip_keeps_long 0 _ 4). intros l _.
  apply (ip_keeps_bind 0 4 0); [apply keeps_take_local, htonl_range|].
  apply (ip_keeps_long 0 _ 0). intros l' _.
  apply ip_keeps_seq; [apply keeps_take_remote, htonl_range|apply ip_keeps_no].
Qed.

Lemma more_addr n : more_case n (nak_more_addr go n).
Proof.
  apply more_guard; [done|]. intros no [_ G%negb_false_iff%Z.eqb_eq]%orb_false_iff.
  subst n. split; [done|]. apply (ip_keeps_bind 0 4 0); [ip_field|].
  apply (ip_keeps_long 0 _ 0). intros l _.
  apply ip_keeps_seq; [apply keeps_take_local, htonl_range|apply ip_keeps_no].
Qed.
End IpcpNak.

Section IpcpNakLoop.
Context `{Endian} (go : ipcp_options) (Hgo : ipcp_options_ok go).

(** Two bytes behind the packet, and a good [try]. *)
Definition ip_state (s : ipcp_nak) : Prop := has 2 (i_cur s) /\ ip_naks go (i_try s).

Lemma wp_more_step s :
  ip_state s -> CILEN_VOID < len (i_cur s) ->
  wp False (nak_more_step go)
    (fun _ s' => ip_state s' /\ len (i_cur s') < len (i_cur s)) (fun _ _ => True) s.
Proof.
  intros [Hc Ht] Hl. unfold CILEN_VOID in Hl.
  destruct s as [[l pk] no t]. cbn in *. destruct Hc as (Hb & Hl0 & Hk). cbn in *.
  destruct pk as [|a [|n q]]; [cbn in Hk; lia|cbn in Hk; lia|].
  pose proof Hb as Hbq. apply Forall_cons_iff in Hbq as [_ Hbq].
  apply Forall_cons_iff in Hbq as [Hn8 Hbq]. unfold is_u8 in Hn8. cbn [length] in Hk.
  apply wp_bind, wp_zoom, wp_gets. apply wp_bind, wp_zoom. unfold wp at 1; cbn.
  apply wp_bind, wp_zoom. unfold wp at 1; cbn. apply wp_bind, wp_zoom, wp_need; [intros Hn|done].
  change (0 <= l - n) in Hn. apply wp_bind.
  assert (Hi : ip_inv go (l - n) (Z.to_nat (n - 2)) (mk_ipcp_nak (mk_cursor (l - n) q) no t)).
  { split; [|done]. cbn. split; [|lia]. split_and!; cbn [len p]; [done|lia|lia]. }
  eapply (wp_mono _ (fun _ s' => ip_inv go (l - n) 0 s' /\ 4 <= n)); [| |done].
  - repeat (apply wp_if; intros _);
      [by apply more_vj|by apply more_addrs|by apply more_addr|by apply wp_throw].
  - intros [] [[l' p'] no' t'] [[[(_ & Hl1 & _) Hl2] Ht'] Hn4]. cbn [i_cur i_try len] in *. apply wp_zoom, wp_modify.
    split; [|cbv beta delta [upd]; cbn; lia].
    split; [|done]. cbv beta delta [upd]; cbn.
    split_and!; cbv [set_p set_len]; cbn [len p]; [by apply Forall_drop|done|].
    rewrite length_drop. cbn [length]. lia.
Qed.

Lemma wp_more fuel s :
  ip_state s -> (Z.to_nat (len (i_cur s)) <= fuel)%nat ->
  wp False (nak_more fuel go) (fun _ => ip_state) (fun _ _ => True) s.
Proof.
  revert s. induction fuel as [|fuel IH]; intros s Hs Hf; cbn [nak_more];
    apply wp_bind, wp_zoom, wp_gets; apply wp_if; intros L.
  - apply Z.ltb_lt in L. unfold CILEN_VOID in L. cbn in L. lia.
  - apply wp_ret. by destruct s.
  - apply Z.ltb_lt in L. assert (Es : s <| i_cur := i_cur s |> = s) by (by destruct s).
    rewrite Es. apply wp_bind. eapply wp_mono; [by apply wp_more_step| |done].
    intros [] s' [Hs' Hl]. destruct Hs' as [[Hb [Hl' Hk]] Ht]. apply IH; [done|lia].
  - apply wp_ret. by destruct s.
Qed.

(** C27: the parser of a Nak ends, within as many rounds as the packet has
    bytes, and with two bytes behind the packet it never reads past the
    buffer.  When the Nak is accepted, an address changes only if we said we
    would take one and then to a non-zero one, the number of VJ slots never
    grows, and compression is not turned on. *)
Theorem ipcp_nakci_spec fuel c :
  has 2 c -> (Z.to_nat (len c) <= fuel)%nat ->
  match ipcp_nakci fuel go (mk_ipcp_nak c no_ipcp_options go) with
  | Ok try _ => ip_naks go try
  | Throw _ _ => True
  | Fault | Hang => False
  end.
Proof.
  intros Hc Hf.
  assert (W : wp False (ipcp_nakci fuel go) (fun try _ => ip_naks go try) (fun _ _ => True)
    (mk_ipcp_nak c no_ipcp_options go)).
  { assert (Hi : ip_inv go (len c) 2 (mk_ipcp_nak c no_ipcp_options go))
      by (split; [split; [done|cbn; lia]|by apply ip_naks_refl]).
    apply wp_bind. eapply wp_mono; [by apply keeps_nakciaddr| |done]. intros [] s1 H1.
    apply wp_bind. eapply wp_mono; [by apply keeps_nakcivj| |done]. intros [] s2 [[H2 L2] T2].
    apply wp_bind. eapply wp_mono; [apply wp_more; [done|lia]| |done]. intros [] s3 [H3 T3].
    apply wp_bind, wp_zoom, wp_bind, wp_gets, wp_when; intros _; [by apply wp_throw|].
    by apply wp_gets. }
  unfold wp in W. by destruct (ipcp_nakci _ _ _).
Qed.
End IpcpNakLoop.

(** ** Concrete Naks *)

#[export] Instance little_endian : Endian := false.

Definition sample_ip_go : ipcp_options :=
  mk_ipcp_options true false true false false true false true true
    IPCP_VJ_COMP 15 1 (htonl (be32 10 0 0 1)) (htonl (be32 10 0 0 2)).

Lemma sample_ip_go_ok : ipcp_options_ok sample_ip_go.
Proof. split; vm_compute; split; congruence. Defined.

Lemma ipcp_ackci_spec_witness :
  match ipcp_ackci sample_ip_go (mk_cursor 12 (ipcp_request sample_ip_go ++ [9])) with
  | Ok _ _ => rest_of (mk_cursor 12 (ipcp_request sample_ip_go ++ [9]))
      = ipcp_request sample_ip_go
  | Throw _ _ => rest_of (mk_cursor 12 (ipcp_request sample_ip_go ++ [9]))
      <> ipcp_request sample_ip_go
  | Fault | Hang => False
  end.
Proof.
  apply ipcp_ackci_spec; [exact sample_ip_go_ok|]. split; [|vm_compute; split; congruence].
  apply bytes_app; [apply ipcp_bytes|]. repeat constructor; done.
Defined.

Lemma ipcp_nakci_spec_witness :
  match ipcp_nakci 6 sample_ip_go (mk_ipcp_nak (mk_cursor 6 [3; 6; 10; 0; 0; 9; 0; 0])
          no_ipcp_options sample_ip_go) with
  | Ok try _ => ip_naks sample_ip_go try
  | Throw _ _ => True
  | Fault | Hang => False
  end.
Proof.
  apply ipcp_nakci_spec; [exact sample_ip_go_ok| |cbn; lia].
  split_and!; [repeat constructor; done|done|cbn; lia].
Defined.

(** When we ask for the addresses in their old form, a Nak that suggests
    other addresses in the same form is never understood: the macro looks for
    the option CI_ADDR, whatever the form, and the loop over the other options
    takes CI_ADDRS for one that was not asked for. *)
Theorem ipcp_old_addrs_nak `{Endian} fuel go a b c d a' b' c' d' rest :
  neg_addr go = true -> old_addrs go = true ->
  exists s, ipcp_nakci (S fuel) go
    (mk_ipcp_nak (mk_cursor CILEN_ADDRS
       ([CI_ADDRS; CILEN_ADDRS; a; b; c; d; a'; b'; c'; d'] ++ rest)) no_ipcp_options go)
  = Throw tt s.
Proof. intros H1 H2. destruct go. cbn in H1, H2. subst. destruct neg_vj; eexists; reflexivity. Qed.

Lemma ipcp_old_addrs_nak_witness :
  exists s, ipcp_nakci 10 (sample_ip_go <| old_addrs := true |>)
    (mk_ipcp_nak (mk_cursor CILEN_ADDRS
       ([CI_ADDRS; CILEN_ADDRS; 10; 0; 0; 9; 10; 0; 0; 2] ++ [0])) no_ipcp_options
       (sample_ip_go <| old_addrs := true |>)) = Throw tt s.
Proof. by apply ipcp_old_addrs_nak. Defined.
