(* ===== verification/IpcpReq.v ===== *)
(** * Answering the peer's IPCP Configure-Request

    [ipcp_reqci]: what it answers, what it does to the packet and to the
    option records, and the requests for which it leaves its buffer. *)

From S2P Require Export LcpReq IpcpNak.

(** In ipcp.c [cilen] is a [u_short]. *)
Notation ip_options := (options_by u16).

Section Switch.
Context `{Endian} (ao wo go : ipcp_options) (rid : bool).
Context (Hwo : ipcp_options_ok wo).

(** What is known of the peer's options while all of them are accepted. *)
Record peer_ok (ho : ipcp_options) : Prop := {
  po_addr : neg_addr ho = true -> neg_addr ao = true /\
    (hisaddr ho = hisaddr wo \/ hisaddr ho <> 0 /\ accept_remote wo = true);
  po_old : old_addrs ho = true -> neg_addr ho = true /\
    (ouraddr ho = ouraddr wo \/ ouraddr ho <> 0 /\ accept_local wo = true);
  po_vj : neg_vj ho = true -> neg_vj ao = true
    /\ (vj_protocol ho = IPCP_VJ_COMP \/ vj_protocol ho = IPCP_VJ_COMP_OLD)
    /\ (old_vj ho = false -> maxslotindex ho <= maxslotindex ao) }.

Lemma peer_ok_none : peer_ok no_ipcp_options.
Proof. by split. Qed.

(** Our own request changes in our address only, and only where we may take
    the peer's idea of it. *)
Definition own_ok (go' : ipcp_options) : Prop :=
  go' = go \/ exists a, a <> 0 /\ accept_local wo = true /\ go' = go <| ouraddr := a |>.

Lemma own_ok_take go' a :
  own_ok go' -> a <> 0 -> accept_local wo = true -> own_ok (go' <| ouraddr := a |>).
Proof.
  intros H0 Ha Hl. right. exists a. split_and!; [done..|].
  destruct H0 as [->|(b & _ & _ & ->)]; [done|]. by destruct go.
Qed.

(** What the [switch] on the option at [cip] does to the locals. *)
Record ip_switched (cip : nat) (cilen orc : Z) (s s' : ipcp_req) : Prop := {
  is_next : r_next s' = r_next s;
  is_l : r_l s' = r_l s;
  is_ucp : r_ucp s' = r_ucp s;
  is_rc : r_rc s' = r_rc s;
  is_wo : r_wo s' = r_wo s;
  is_orc : orc = CONFACK \/ orc = CONFNAK \/ orc = CONFREJ;
  is_len : length (r_buf s') = length (r_buf s);
  is_before : take cip (r_buf s') = take cip (r_buf s);
  is_after : drop (cip + Z.to_nat cilen) (r_buf s') = drop (cip + Z.to_nat cilen) (r_buf s);
  is_buf : orc = CONFNAK /\ rid = false \/ r_buf s' = r_buf s;
  is_bytes : bytes (r_buf s');
  is_peer : orc = CONFACK -> peer_ok (r_ho s) -> peer_ok (r_ho s');
  is_own : own_ok (r_go s');
  is_ho : ipcp_options_ok (r_ho s') }.

(** The option at [cip] is in the buffer. *)
Record ip_bounds (cip : nat) (cilen : Z) (s : ipcp_req) : Prop := {
  ibb_len : 2 <= cilen;
  ibb_fits : Z.of_nat cip + cilen <= Z.of_nat (length (r_buf s));
  ibb_bytes : bytes (r_buf s);
  ibb_wo : r_wo s = wo;
  ibb_own : own_ok (r_go s);
  ibb_ho : ipcp_options_ok (r_ho s) }.

Definition ip_switches (cip : nat) (cilen : Z) (m : ip_requester Z) : Prop :=
  forall s, ip_bounds cip cilen s ->
    wp False m (fun orc s' => ip_switched cip cilen orc s s') (fun _ _ => False) s.

Lemma wp_ip_rd o s (Q : Z -> ipcp_req -> Prop) E :
  (o < length (r_buf s))%nat -> bytes (r_buf s) ->
  (forall v, r_buf s !! o = Some v -> is_u8 v -> Q v s) -> wp False (ip_rd o) Q E s.
Proof.
  intros Ho Hb HQ. apply wp_bind, wp_gets.
  destruct (lookup_lt_is_Some_2 _ _ Ho) as [v Hv].
  eapply wp_access; [exact Hv|]. apply HQ; [done|]. by eapply Forall_lookup_1.
Qed.

Lemma wp_ip_rd_short o s (Q : Z -> ipcp_req -> Prop) E :
  (o + 2 <= length (r_buf s))%nat -> bytes (r_buf s) ->
  (forall v, is_u16 v -> Q v s) -> wp False (ip_rd_short o) Q E s.
Proof.
  intros Ho Hb HQ. apply wp_bind, wp_ip_rd; [lia|done|]. intros a _ Ha.
  apply wp_bind, wp_ip_rd; [lia|done|]. intros b _ Hb'.
  apply wp_ret, HQ. by apply be16_range.
Qed.

Lemma wp_ip_rd_long o s (Q : Z -> ipcp_req -> Prop) E :
  (o + 4 <= length (r_buf s))%nat -> bytes (r_buf s) ->
  (forall v, is_u32 v -> Q v s) -> wp False (ip_rd_long o) Q E s.
Proof.
  intros Ho Hb HQ. apply wp_bind, wp_ip_rd; [lia|done|]. intros a _ Ha.
  apply wp_bind, wp_ip_rd; [lia|done|]. intros b _ Hb'.
  apply wp_bind, wp_ip_rd; [lia|done|]. intros c _ Hc.
  apply wp_bind, wp_ip_rd; [lia|done|]. intros d _ Hd.
  apply wp_ret, HQ. by apply be32_range.
Qed.

(** [buf] with bytes written at [o], within the option at [cip]. *)
Record hinted (cip : nat) (cilen : Z) (buf buf' : list Z) : Prop := {
  hi_len : length buf' = length buf;
  hi_before : take cip buf' = take cip buf;
  hi_after : drop (cip + Z.to_nat cilen) buf' = drop (cip + Z.to_nat cilen) buf;
  hi_bytes : bytes buf' }.

Lemma hinted_refl cip cilen buf : bytes buf -> hinted cip cilen buf buf.
Proof. by split. Qed.

Lemma hinted_trans cip cilen x y z :
  hinted cip cilen x y -> hinted cip cilen y z -> hinted cip cilen x z.
Proof. intros [] []. split; congruence. Qed.

Lemma wp_ip_wr cip cilen o bs s (Q : unit -> ipcp_req -> Prop) E :
  bytes (r_buf s) -> bytes bs -> (cip <= o)%nat ->
  (o + length bs <= cip + Z.to_nat cilen)%nat ->
  (cip + Z.to_nat cilen <= length (r_buf s))%nat ->
  (forall buf, hinted cip cilen (r_buf s) buf -> Q tt (s <| r_buf := buf |>)) ->
  wp False (ip_wr o bs) Q E s.
Proof.
  intros Hb Hbs Hc Ho Hl HQ. apply wp_bind, wp_gets, wp_bind.
  eapply wp_access; [apply poke_at_fits; lia|]. apply wp_modify, HQ. split.
  - rewrite !length_app, length_take, length_drop. lia.
  - rewrite take_app_le by (rewrite length_take; lia). rewrite take_take. f_equal. lia.
  - rewrite app_assoc, drop_app_ge by (rewrite length_app, length_take; lia).
    rewrite drop_drop. f_equal. rewrite length_app, length_take. lia.
  - apply bytes_app; [by apply Forall_take|]. apply bytes_app; [done|by apply Forall_drop].
Qed.

(** Composing what the parts of a case do. *)
Lemma ip_switched_refl cip cilen orc s :
  ip_bounds cip cilen s -> orc = CONFACK \/ orc = CONFNAK \/ orc = CONFREJ ->
  ip_switched cip cilen orc s s.
Proof. intros [] H0. by split; auto. Qed.

Lemma ip_switched_bounds cip cilen orc s s' :
  ip_bounds cip cilen s -> ip_switched cip cilen orc s s' -> ip_bounds cip cilen s'.
Proof. intros [] []. split; auto; congruence. Qed.

Lemma ip_switched_nak cip cilen orc s s' :
  ip_switched cip cilen orc s s' -> ip_switched cip cilen CONFNAK s s'.
Proof. intros []. split; auto; [naive_solver|discriminate]. Qed.

Lemma ip_switched_hint cip cilen orc s s' buf :
  ip_switched cip cilen orc s s' -> hinted cip cilen (r_buf s') buf -> rid = false ->
  ip_switched cip cilen CONFNAK s (s' <| r_buf := buf |>).
Proof. intros [] [] Hr. split; cbv beta delta [upd]; cbn; auto; try congruence; try discriminate. Qed.

Lemma ip_switched_go cip cilen orc s s' g :
  ip_switched cip cilen orc s s' -> own_ok (g (r_go s')) ->
  ip_switched cip cilen orc s (s' <| r_go ::= g |>).
Proof. intros [] Hg. split; cbv beta delta [upd]; cbn; auto. Qed.

Lemma ip_switched_ho cip cilen orc s s' g :
  ip_switched cip cilen orc s s' -> ipcp_options_ok (g (r_ho s')) ->
  (orc = CONFACK -> peer_ok (r_ho s') -> peer_ok (g (r_ho s'))) ->
  ip_switched cip cilen orc s (s' <| r_ho ::= g |>).
Proof. intros [] Hg Hp. split; cbv beta delta [upd]; cbn; auto. Qed.

(** The hint of a Nak, when there may be one, and the verdict. *)
Lemma wp_ip_nak cip cilen orc o bs s s' (Q : Z -> ipcp_req -> Prop) :
  ip_bounds cip cilen s -> ip_switched cip cilen orc s s' -> bytes bs -> (cip <= o)%nat ->
  (o + length bs <= cip + Z.to_nat cilen)%nat ->
  (forall buf, ip_switched cip cilen CONFNAK s (s' <| r_buf := buf |>) ->
     Q CONFNAK (s' <| r_buf := buf |>)) ->
  wp False (when (negb rid) (ip_wr o bs) ;; ret CONFNAK) Q (fun _ _ => False) s'.
Proof.
  intros Hb Hs Hbs Hc Ho HQ. destruct (ip_switched_bounds _ _ _ _ _ Hb Hs).
  assert (Es : s' <| r_buf := r_buf s' |> = s') by (by destruct s').
  apply wp_bind, wp_when; intros R.
  - apply negb_true_iff in R. eapply (wp_ip_wr cip cilen); [done..|lia|].
    intros buf Hh. apply wp_ret, HQ. by eapply ip_switched_hint.
  - rewrite <- Es. apply wp_ret, HQ. rewrite Es. by eapply ip_switched_nak.
Qed.

Definition his_rule (ciaddr1 : Z) : Prop :=
  ciaddr1 = hisaddr wo \/ ciaddr1 <> 0 /\ accept_remote wo = true.
Definition our_rule (ciaddr2 : Z) : Prop :=
  ciaddr2 = ouraddr wo \/ ciaddr2 <> 0 /\ accept_local wo = true.

Lemma wp_hisaddr cip cilen orc o a s s' :
  ip_bounds cip cilen s -> ip_switched cip cilen orc s s' ->
  (orc = CONFACK) -> (cip <= o)%nat -> (o + 4 <= cip + Z.to_nat cilen)%nat ->
  wp False (req_hisaddr rid o a)
    (fun orc' s'' => ip_switched cip cilen orc' s s'' /\ (orc' = CONFACK -> his_rule a)
       /\ (orc' = CONFACK \/ orc' = CONFNAK) /\ r_ho s'' = r_ho s')
    (fun _ _ => False) s'.
Proof.
  intros Hb Hs Ho Hc Hl. apply wp_bind, wp_gets.
  rewrite (is_wo _ _ _ _ _ Hs), (ibb_wo _ _ _ Hb). apply wp_if; intros C.
  - eapply (wp_ip_nak cip cilen); [done..|auto with ppp|done|cbn; lia|].
    intros buf Hs'. split_and!; auto. discriminate.
  - apply wp_ret. split_and!; [by rewrite <- Ho|intros _|auto|done].
    apply andb_false_iff in C as [C%negb_false_iff%Z.eqb_eq|C]; [by left|].
    apply orb_false_iff in C as [C%Z.eqb_neq C'%negb_false_iff]. by right.
Qed.

Lemma wp_ouraddr cip cilen orc o a s s' :
  ip_bounds cip cilen s -> ip_switched cip cilen orc s s' ->
  orc = CONFACK \/ orc = CONFNAK -> (cip <= o)%nat -> (o + 4 <= cip + Z.to_nat cilen)%nat ->
  wp False (req_ouraddr rid o a orc)
    (fun orc' s'' => ip_switched cip cilen orc' s s''
       /\ (orc' = CONFACK -> orc = CONFACK /\ our_rule a) /\ r_ho s'' = r_ho s')
    (fun _ _ => False) s'.
Proof.
  intros Hb Hs Ho Hc Hl. apply wp_bind, wp_gets.
  rewrite (is_wo _ _ _ _ _ Hs), (ibb_wo _ _ _ Hb).
  apply wp_if; intros C; [|apply wp_if; intros C'].
  - apply Z.eqb_eq in C. apply wp_ret. split_and!; [done| |done]. intros ->. split; [done|by left].
  - eapply (wp_ip_nak cip cilen); [done..|auto with ppp|done|cbn; lia|].
    intros buf Hs'. split_and!; auto. discriminate.
  - apply orb_false_iff in C' as [C1%Z.eqb_neq C2%negb_false_iff].
    apply wp_bind, wp_modify, wp_ret. split_and!; [| |done].
    + apply ip_switched_go; [done|]. apply own_ok_take; [by destruct Hs|done..].
    + intros ->. split; [done|by right].
Qed.

(** The refusals at the start of each case. *)
Lemma ip_switches_guard cip cilen (c : bool) m :
  (c = false -> ip_switches cip cilen m) ->
  ip_switches cip cilen (if c then ret CONFREJ else m).
Proof.
  intros H0 s Hs. apply wp_if; intros C; [|by apply H0].
  apply wp_ret. apply ip_switched_refl; auto.
Qed.

(** The end of a branch: a change of [*ho]. *)
Ltac store_ho :=
  apply ip_switched_ho; [eassumption| |];
  [match goal with
   | Hs : ip_switched _ _ _ _ ?s |- ipcp_options_ok _ => destruct (is_ho _ _ _ _ _ Hs)
   end; split; cbv beta delta [upd]; cbn; auto using htonl_range with ppp
  |intros ? []; split; cbv beta delta [upd]; cbn; auto].

Lemma ip_switches_addrs cip cilen : ip_switches cip cilen (ip_req_addrs ao rid cip cilen).
Proof.
  apply ip_switches_guard; intros [Ha%negb_false_iff Hl%negb_false_iff%Z.eqb_eq]%orb_false_iff.
  intros s Hb. pose proof Hb as []. subst cilen. unfold CILEN_ADDRS in *.
  assert (Hs : ip_switched cip 10 CONFACK s s) by (by apply ip_switched_refl; auto).
  apply wp_bind, wp_ip_rd_long; [lia|done|]. intros v Hv. apply wp_bind.
  eapply wp_mono; [eapply wp_hisaddr; [done|exact Hs|done|lia|cbn; lia]| |done].
  intros orc s1 (Hs1 & Hr1 & Ho1 & _). destruct (ip_switched_bounds _ _ _ _ _ Hb Hs1).
  apply wp_bind, wp_ip_rd_long; [lia|done|]. intros v' Hv'. apply wp_bind.
  eapply wp_mono; [eapply wp_ouraddr; [done|exact Hs1|done|lia|cbn; lia]| |done].
  intros orc' s2 (Hs2 & Hr2 & _). apply wp_bind, wp_modify, wp_ret. store_ho.
  - intros _. split; [done|]. apply Hr1. by apply Hr2.
  - intros _. split; [done|]. by apply Hr2.
Qed.

Lemma ip_switches_addr cip cilen : ip_switches cip cilen (ip_req_addr ao rid cip cilen).
Proof.
  apply ip_switches_guard; intros [Ha%negb_false_iff Hl%negb_false_iff%Z.eqb_eq]%orb_false_iff.
  intros s Hb. pose proof Hb as []. subst cilen. unfold CILEN_ADDR in *.
  assert (Hs : ip_switched cip 6 CONFACK s s) by (by apply ip_switched_refl; auto).
  apply wp_bind, wp_ip_rd_long; [lia|done|]. intros v Hv. apply wp_bind.
  eapply wp_mono; [eapply wp_hisaddr; [done|exact Hs|done|lia|cbn; lia]| |done].
  intros orc s1 (Hs1 & Hr1 & _ & _). apply wp_bind, wp_modify, wp_ret. store_ho.
  - intros _. split; [done|by apply Hr1].
  - intros O. split; [done|by apply po_old0].
Qed.

(** Between the two stores of the VJ case: the verdict so far is [orc]; nothing
    is claimed of [*ho] as a whole. *)
Definition halfway (cip : nat) (cilen orc : Z) (s s' : ipcp_req) : Prop :=
  orc = CONFACK /\ ip_switched cip cilen CONFREJ s s'
  \/ orc = CONFNAK /\ ip_switched cip cilen CONFNAK s s'.

Lemma halfway_switched cip cilen orc s s' :
  halfway cip cilen orc s s' -> exists X, ip_switched cip cilen X s s'.
Proof. intros [[_ Hs]|[_ Hs]]; eauto. Qed.

Lemma wp_vj_part cip cilen (c : bool) o bs orc s s' :
  ip_bounds cip cilen s -> halfway cip cilen orc s s' -> bytes bs -> (cip <= o)%nat ->
  (o + length bs <= cip + Z.to_nat cilen)%nat ->
  wp False (if c then when (negb rid) (ip_wr o bs) ;; ret CONFNAK else ret orc)
    (fun orc' s'' => halfway cip cilen orc' s s''
       /\ (orc' = CONFACK -> c = false /\ orc = CONFACK) /\ r_ho s'' = r_ho s')
    (fun _ _ => False) s'.
Proof.
  intros Hb Hs Hbs Hc Ho. apply wp_if; intros C; [|by apply wp_ret].
  destruct (halfway_switched _ _ _ _ _ Hs) as [X HX].
  eapply (wp_ip_nak cip cilen); [done..|]. intros buf Hs'. split_and!; [by right| |done].
  discriminate.
Qed.

Lemma halfway_done cip cilen orc s s' g :
  halfway cip cilen orc s s' -> ipcp_options_ok (g (r_ho s')) ->
  (orc = CONFACK -> peer_ok (r_ho s) -> peer_ok (g (r_ho s'))) ->
  ip_switched cip cilen orc s (s' <| r_ho ::= g |>).
Proof.
  intros [[-> []]|[-> []]] Hg Hp; split; cbv beta delta [upd]; cbn; auto.
  destruct is_buf0 as [[[=] _]|]; auto.
Qed.

Lemma ip_switches_vj cip cilen : ip_switches cip cilen (ip_req_vj ao rid cip cilen).
Proof.
  apply ip_switches_guard; intros [Ha%negb_false_iff Hl]%orb_false_iff.
  intros s Hb. pose proof Hb as [].
  assert (Hc : cilen = 6 \/ cilen = 4).
  { apply andb_false_iff in Hl as [Hl%negb_false_iff%Z.eqb_eq|Hl%negb_false_iff%Z.eqb_eq];
      [left|right]; exact Hl. }
  apply wp_bind, wp_ip_rd_short; [lia|done|]. intros v Hv. apply wp_if; intros C.
  { apply wp_ret, ip_switched_refl; auto. }
  assert (Hp : v = IPCP_VJ_COMP \/ v = IPCP_VJ_COMP_OLD).
  { apply negb_false_iff, orb_prop in C as [C%Z.eqb_eq|[C%Z.eqb_eq _]%andb_prop]; auto. }
  apply wp_bind, wp_modify. set (s1 := s <| r_ho ::= _ |>).
  assert (Hs1 : halfway cip cilen CONFACK s s1).
  { left. split; [done|]. apply ip_switched_ho; [apply ip_switched_refl; auto| |discriminate].
    destruct ibb_ho0. by split. }
  assert (Hok1 : ipcp_options_ok (r_ho s1)) by (destruct ibb_ho0; by split).
  assert (Hp1 : peer_ok (r_ho s) -> neg_addr (r_ho s1) = neg_addr (r_ho s)
    /\ old_addrs (r_ho s1) = old_addrs (r_ho s) /\ hisaddr (r_ho s1) = hisaddr (r_ho s)
    /\ ouraddr (r_ho s1) = ouraddr (r_ho s) /\ vj_protocol (r_ho s1) = v) by done.
  assert (Hw1 : r_wo s1 = wo /\ r_buf s1 = r_buf s) by done.
  clearbody s1. destruct Hw1 as [Hw1 Hb1]. apply wp_if; intros C'.
  - apply Z.eqb_eq in C'. change (cilen = 6) in C'. subst cilen.
    apply wp_bind, wp_gets. rewrite Hw1. apply wp_bind, wp_ip_rd; [rewrite Hb1; lia|by rewrite Hb1|].
    intros m _ Hm. apply wp_bind.
    eapply wp_mono; [apply wp_vj_part; [done|exact Hs1|auto with ppp|lia|cbn; lia]| |done].
    intros orc s2 (Hs2 & Hr2 & Ho2). destruct (halfway_switched _ _ _ _ _ Hs2) as [X HX].
    destruct (ip_switched_bounds _ _ _ _ _ Hb HX) as [_ Hf2 Hb2 _ _ _].
    apply wp_bind, wp_ip_rd; [lia|done|]. intros fl _ _. apply wp_bind.
    eapply wp_mono; [apply wp_vj_part; [done|exact Hs2|auto with ppp|lia|cbn; lia]| |done].
    intros orc' s3 (Hs3 & Hr3 & Ho3). apply wp_bind, wp_modify, wp_ret.
    apply halfway_done; [done| |].
    + rewrite Ho3, Ho2. destruct Hok1, Hwo. split; cbv beta delta [upd]; cbn; auto.
    + intros Ho Hpeer. rewrite Ho3, Ho2. destruct (Hp1 Hpeer) as (E1 & E2 & E3 & E4 & E5).
      destruct Hpeer. split; cbv beta delta [upd]; cbn; rewrite ?E1, ?E2, ?E3, ?E4, ?E5; auto.
      intros _. split_and!; [done..|]. intros _. destruct (Hr3 Ho) as [_ Ho'].
      by apply Z.ltb_ge, Hr2.
  - apply wp_bind, wp_modify, wp_ret. apply halfway_done; [done| |].
    + destruct Hok1. split; cbv beta delta [upd]; cbn; auto; vm_compute; split; congruence.
    + intros _ Hpeer. destruct (Hp1 Hpeer) as (E1 & E2 & E3 & E4 & E5).
      destruct Hpeer. split; cbv beta delta [upd]; cbn; rewrite ?E1, ?E2, ?E3, ?E4, ?E5; auto.
      intros _. split_and!; [done..|discriminate].
Qed.

Lemma ip_switches_switch citype cip cilen :
  ip_switches cip cilen (ip_req_switch ao rid citype cip cilen).
Proof.
  unfold ip_req_switch. repeat case_match;
    auto using ip_switches_addrs, ip_switches_addr, ip_switches_vj.
  intros s Hs. apply wp_ret, ip_switched_refl; auto.
Qed.
End Switch.

(** ** The loop *)

Section IpLoop.
Context `{Endian} (ao wo go : ipcp_options) (rid : bool).
Context (Hwo : ipcp_options_ok wo).
(** The packet buffer from [inp] on, and the length of the request. *)
Context (B : list Z) (l0 : Z) (Hl0 : l0 <= Z.of_nat (length B)) (Hmax : l0 < 2 ^ 16).

(** What holds of the packet buffer when the options [seen] have been parsed
    and [rejd] of them rejected. *)
Record ip_shrunk (s : ipcp_req) (seen rejd : list (list Z)) : Prop := {
  ish_options : ip_options (take (Z.to_nat l0) B)
    = seen ++ ip_options (tail_from B l0 (l0 - r_l s));
  ish_sub : rejd `sublist_of` seen;
  ish_rej : r_rc s = CONFREJ ->
    rejd <> [] /\ take (r_ucp s) (r_buf s) = concat rejd /\ r_ucp s = length (concat rejd);
  ish_none : r_rc s <> CONFREJ -> rejd = [] }.

Record ip_loop_inv (s : ipcp_req) : Prop := {
  il_l : 0 <= r_l s <= l0;
  il_len : length (r_buf s) = length B;
  il_bytes : bytes (r_buf s);
  il_next : r_l s <> 0 -> Z.of_nat (r_next s) = l0 - r_l s;
  il_ucp : Z.of_nat (r_ucp s) <= l0 - r_l s;
  il_rest : drop (Z.to_nat (l0 - r_l s)) (r_buf s) = drop (Z.to_nat (l0 - r_l s)) B;
  il_rc : r_rc s = CONFACK \/ r_rc s = CONFNAK \/ r_rc s = CONFREJ;
  il_ack : r_rc s = CONFACK -> r_buf s = B /\ Z.of_nat (r_ucp s) = l0 - r_l s
    /\ peer_ok ao wo (r_ho s);
  il_nak : r_rc s = CONFNAK -> rid = false;
  il_shrunk : exists seen rejd, ip_shrunk s seen rejd;
  il_wo : r_wo s = wo;
  il_own : own_ok wo go (r_go s);
  il_ho : ipcp_options_ok (r_ho s) }.

(** The state when the option [o] at [cip] has been judged but not answered. *)
Record ip_judged (cip : nat) (cilen orc : Z) (o : list Z) (seen rejd : list (list Z))
  (s : ipcp_req) : Prop := {
  ij_l : 0 <= r_l s <= l0;
  ij_cilen : 0 <= cilen;
  ij_o : o = take (Z.to_nat cilen) (drop cip B) /\ Z.of_nat (length o) = cilen;
  ij_fits : Z.of_nat cip + cilen = l0 - r_l s;
  ij_len : length (r_buf s) = length B;
  ij_bytes : bytes (r_buf s);
  ij_next : r_l s <> 0 -> Z.of_nat (r_next s) = l0 - r_l s;
  ij_ucp : (r_ucp s <= cip)%nat;
  ij_rest : drop (Z.to_nat (l0 - r_l s)) (r_buf s) = drop (Z.to_nat (l0 - r_l s)) B;
  ij_rc : r_rc s = CONFACK \/ r_rc s = CONFNAK \/ r_rc s = CONFREJ;
  ij_orc : orc = CONFACK \/ orc = CONFNAK \/ orc = CONFREJ;
  ij_ack : r_rc s = CONFACK -> r_ucp s = cip /\
    (orc = CONFACK -> r_buf s = B /\ peer_ok ao wo (r_ho s));
  ij_nak : r_rc s = CONFNAK -> rid = false;
  ij_same : orc = CONFREJ \/ orc = CONFNAK /\ rid = true ->
    take (Z.to_nat cilen) (drop cip (r_buf s)) = o;
  ij_options : ip_options (take (Z.to_nat l0) B)
    = seen ++ [o] ++ ip_options (tail_from B l0 (l0 - r_l s));
  ij_sub : rejd `sublist_of` seen;
  ij_rej : r_rc s = CONFREJ ->
    rejd <> [] /\ take (r_ucp s) (r_buf s) = concat rejd /\ r_ucp s = length (concat rejd);
  ij_none : r_rc s <> CONFREJ -> rejd = [];
  ij_wo : r_wo s = wo;
  ij_own : own_ok wo go (r_go s);
  ij_ho : ipcp_options_ok (r_ho s) }.

Definition ip_step_post (s s' : ipcp_req) : Prop := ip_loop_inv s' /\ r_l s' = r_l s.

(** The buffer after [put_option]. *)
Record moved (cip n ucp : nat) (buf buf' : list Z) : Prop := {
  mv_len : length buf' = length buf;
  mv_bytes : bytes buf';
  mv_front : take (ucp + n) buf' = take ucp buf ++ take n (drop cip buf);
  mv_rest : forall d, (cip + n <= d)%nat -> drop d buf' = drop d buf;
  mv_same : ucp = cip -> buf' = buf }.

Lemma wp_put_option cip cilen s (Q : unit -> ipcp_req -> Prop) E :
  (r_ucp s <= cip)%nat -> (cip + Z.to_nat cilen <= length (r_buf s))%nat -> bytes (r_buf s) ->
  (forall buf, moved cip (Z.to_nat cilen) (r_ucp s) (r_buf s) buf ->
     Q tt (s <| r_buf := buf |> <| r_ucp := (r_ucp s + Z.to_nat cilen)%nat |>)) ->
  wp False (put_option cip cilen) Q E s.
Proof.
  intros Hu Hc Hb HQ. apply wp_bind, wp_gets, wp_bind, wp_when; intros D.
  - apply negb_true_iff, Nat.eqb_neq in D.
    destruct (move_down (r_buf s) (r_ucp s) cip (Z.to_nat cilen) Hu Hc) as (M1 & M2 & M3 & M4).
    cbv zeta in M1, M2, M3, M4. apply wp_bind, wp_gets, wp_bind.
    eapply wp_access; [apply slice_fits; lia|]. apply wp_bind, wp_gets, wp_bind.
    eapply wp_access; [apply poke_at_fits; lia|]. apply wp_modify, wp_modify, HQ.
    split; [done| |done..]. apply bytes_app; [by apply Forall_take|].
    apply bytes_app; [by apply Forall_take, Forall_drop|by apply Forall_drop].
  - apply negb_false_iff, Nat.eqb_eq in D. apply wp_modify.
    assert (Es : s <| r_buf := r_buf s |> = s) by (by destruct s).
    specialize (HQ (r_buf s)). rewrite Es in HQ. apply HQ. split; [done..| |done|done].
    by rewrite D, take_take_drop.
Qed.

(** The option is passed over. *)
Lemma ip_passed_over cip cilen orc o seen rejd s :
  ip_judged cip cilen orc o seen rejd s -> r_rc s <> CONFACK -> ip_step_post s s.
Proof.
  intros [] Hrc. split; [|done]. split; auto; try lia.
  exists (seen ++ [o]), rejd. split; auto.
  - by rewrite ij_options0, <- app_assoc.
  - by apply sublist_inserts_r.
Qed.

(** The option is answered with [put_option]. *)
Lemma ip_answered cip cilen orc o seen rejd s rc ucp :
  ip_judged cip cilen orc o seen rejd s ->
  rc = CONFACK /\ orc = CONFACK /\ ucp = r_ucp s /\ r_rc s = CONFACK
  \/ rc = CONFNAK /\ (ucp = r_ucp s \/ ucp = 0%nat) /\ r_rc s <> CONFREJ /\ rid = false
  \/ rc = CONFREJ /\ (orc = CONFREJ \/ orc = CONFNAK /\ rid = true)
     /\ (r_rc s = CONFREJ /\ ucp = r_ucp s \/ r_rc s <> CONFREJ /\ ucp = 0%nat) ->
  wp False (put_option cip cilen) (fun _ => ip_step_post s) (fun _ _ => False)
    (s <| r_rc := rc |> <| r_ucp := ucp |>).
Proof.
  intros [] Hrc. destruct ij_o0 as [Ho Hlo].
  assert (Hu : (ucp <= cip)%nat).
  { destruct Hrc as [(_ & _ & -> & _)|[(_ & [-> | ->] & _)|(_ & _ & [[_ ->]|[_ ->]])]]; lia. }
  apply wp_put_option; [done|change (cip + Z.to_nat cilen <= length (r_buf s))%nat; lia|done|].
  intros buf [Ml Mb Mf Mr Ms].
  change (length buf = length (r_buf s)) in Ml.
  change (take (ucp + Z.to_nat cilen) buf
    = take ucp (r_buf s) ++ take (Z.to_nat cilen) (drop cip (r_buf s))) in Mf.
  change (forall d, (cip + Z.to_nat cilen <= d)%nat -> drop d buf = drop d (r_buf s)) in Mr.
  change (ucp = cip -> buf = r_buf s) in Ms.
  split; [|done]. split; cbv beta delta [upd]; cbn; auto; try lia.
  - rewrite Mr by lia. done.
  - intros ->. destruct Hrc as [(_ & Horc & -> & E)|[[? _]|[? _]]]; [|done..].
    destruct (ij_ack0 E) as [E1 E2]. destruct (E2 Horc) as [E3 E4].
    split_and!; [by rewrite Ms|lia|done].
  - intros ->. by destruct Hrc as [[? _]|[(_ & _ & _ & ?)|[? _]]].
  - destruct Hrc as [(-> & _ & _ & E)|[(-> & _ & E & _)|(-> & Horc & E)]].
    + exists (seen ++ [o]), []. split; cbn; [by rewrite ij_options0, <- app_assoc| |done|done].
      apply sublist_nil_l.
    + exists (seen ++ [o]), []. split; cbn; [by rewrite ij_options0, <- app_assoc| |done|done].
      apply sublist_nil_l.
    + exists (seen ++ [o]), (rejd ++ [o]).
      assert (Hf : take ucp (r_buf s) = concat rejd /\ ucp = length (concat rejd)).
      { destruct E as [[E ->]|[E ->]]; [by destruct (ij_rej0 E)|]. by rewrite (ij_none0 E). }
      destruct Hf as [Hf1 Hf2].
      split; cbn; [by rewrite ij_options0, <- app_assoc|by apply sublist_app| |done].
      intros _. split; [by destruct rejd|]. rewrite concat_app. cbn. rewrite app_nil_r.
      split; [by rewrite Mf, Hf1, (ij_same0 Horc)|]. rewrite length_app. lia.
Qed.

(** The three cases of [ip_answered]. *)
#[local] Ltac one_verdict :=
  solve [left; split_and!; auto; done | right; left; split_and!; auto; done
        |right; right; split_and!; auto 6; done].

Lemma wp_ip_verdict cip cilen orc o seen rejd s :
  ip_judged cip cilen orc o seen rejd s ->
  wp False (ip_req_verdict rid cip cilen orc) (fun _ => ip_step_post s) (fun _ _ => False) s.
Proof.
  intros Hj. pose proof (fun rc ucp => ip_answered _ _ _ _ _ _ _ rc ucp Hj) as Hput.
  pose proof (Hput (r_rc s) (r_ucp s)) as Hsame.
  assert (Es : s <| r_rc := r_rc s |> <| r_ucp := r_ucp s |> = s) by (by destruct s).
  rewrite Es in Hsame.
  pose proof (ip_passed_over _ _ _ _ _ _ _ Hj) as Hpass.
  pose proof (ij_rc _ _ _ _ _ _ _ Hj) as Hrc. pose proof (ij_orc _ _ _ _ _ _ _ Hj) as Horc.
  apply wp_bind, wp_gets. unfold wp, bind, when, ret, restart_with, modify in *.
  destruct Horc as [-> | [-> | ->]]; destruct Hrc as [E|[E|E]]; rewrite E in *; cbn;
    destruct rid; cbn;
    first [apply Hpass; done
          |apply Hsame; one_verdict
          |apply (Hput CONFNAK 0%nat); one_verdict
          |apply (Hput CONFREJ 0%nat); one_verdict].
Qed.

(** Reading the option at the front of what is left. *)
Lemma ip_tail_front s cip :
  ip_loop_inv s -> r_l s <> 0 -> cip = r_next s ->
  Z.of_nat cip = l0 - r_l s /\ drop cip (r_buf s) = drop cip B /\
  tail_from B l0 (l0 - r_l s) = take (Z.to_nat (r_l s)) (drop cip B) /\
  Z.of_nat (length (tail_from B l0 (l0 - r_l s))) = r_l s.
Proof.
  intros [] Hl ->. specialize (il_next0 Hl).
  assert (E : Z.to_nat (l0 - r_l s) = r_next s) by lia.
  assert (E' : Z.to_nat (l0 - (l0 - r_l s)) = Z.to_nat (r_l s)) by lia.
  unfold tail_from. rewrite E, E' in *. split_and!; [done..|].
  rewrite length_take, length_drop. lia.
Qed.

Lemma wp_ip_bad_ci_length s cip (Q : bool -> ipcp_req -> Prop) :
  ip_loop_inv s -> r_l s <> 0 -> cip = r_next s ->
  (ip_options (tail_from B l0 (l0 - r_l s)) = [tail_from B l0 (l0 - r_l s)] -> Q true s) ->
  (forall a n t, tail_from B l0 (l0 - r_l s) = a :: n :: t -> 2 <= n <= r_l s ->
     r_buf s !! cip = Some a -> r_buf s !! (cip + 1)%nat = Some n -> Q false s) ->
  wp False (ip_bad_ci_length cip (r_l s)) Q (fun _ _ => False) s.
Proof.
  intros Hi Hl Hc Hbad Hgood.
  destruct (ip_tail_front s cip Hi Hl Hc) as (E1 & E2 & E3 & E4).
  assert (Hb : bytes (tail_from B l0 (l0 - r_l s)))
    by (rewrite E3, <- E2; apply Forall_take, Forall_drop, Hi).
  pose proof (il_l _ Hi) as Hll.
  assert (Hlook : forall i, Z.of_nat i < r_l s ->
    r_buf s !! (cip + i)%nat = tail_from B l0 (l0 - r_l s) !! i).
  { intros i Hi'. rewrite E3, lookup_take_lt by lia. rewrite <- E2. by rewrite lookup_drop. }
  set (t := tail_from B l0 (l0 - r_l s)) in *. clearbody t. clear E3.
  assert (Hne : t <> []) by (intros E; rewrite E in E4; cbn in E4; lia).
  assert (Hcut : forall n,
    (length t < 2)%nat \/ t !! 1%nat = Some n /\ (n < 2 \/ Z.of_nat (length t) < n) -> Q true s).
  { intros n Hn. apply Hbad. rewrite (options_bad u16 _ n eq_refl Hb Hn Hne).
    rewrite E4, u16_id by (split; lia). rewrite take_ge by lia. done. }
  apply wp_if; intros C; [apply wp_ret, (Hcut 0); lia|]. apply Z.ltb_ge in C.
  destruct t as [|a [|n t]]; [done|cbn in E4; lia|].
  apply wp_bind, wp_ip_rd; [pose proof (il_len _ Hi); lia|apply Hi|].
  intros n' Hn' Hn8. rewrite Hlook in Hn' by lia. injection Hn' as <-. apply wp_ret.
  destruct ((n <? 2) || (r_l s <? n)) eqn:E.
  - apply (Hcut n). right. rewrite E4. split; [done|].
    apply orb_prop in E as [E%Z.ltb_lt|E%Z.ltb_lt]; auto.
  - apply orb_false_iff in E as [E%Z.ltb_ge E'%Z.ltb_ge].
    apply (Hgood a n t); [done|lia| |by rewrite Hlook by lia].
    rewrite <- (Nat.add_0_r cip). by rewrite Hlook by lia.
Qed.

Lemma wp_ip_step s :
  ip_loop_inv s -> r_l s <> 0 ->
  wp False (ip_req_step ao rid) (fun _ s' => ip_loop_inv s' /\ r_l s' < r_l s)
    (fun _ _ => False) s.
Proof.
  intros Hi Hl. apply wp_bind, wp_gets, wp_bind, wp_gets, wp_bind.
  destruct (ip_tail_front s _ Hi Hl eq_refl) as (E1 & E2 & E3 & E4).
  destruct (il_shrunk _ Hi) as (seen & rejd & Hs).
  assert (Hack : r_rc s = CONFACK -> r_ucp s = r_next s).
  { intros E. destruct (il_ack _ Hi E) as (_ & ? & _). lia. }
  apply (wp_ip_bad_ci_length s); [done..| |]; [intros Ho|intros a n t Et Hn Ha Hn1].
  - apply wp_bind, wp_modify. pose proof (il_l _ Hi) as Hll.
    rewrite u16_id by (split; lia).
    eapply wp_mono; [eapply (wp_ip_verdict _ _ _ (tail_from B l0 (l0 - r_l s)) seen rejd)
      |intros ? s' [H1 H2]; split; [done|]; rewrite H2; change (0 < r_l s); lia|done].
    destruct Hi, Hs. split; cbv beta delta [upd]; cbn; auto; try lia.
    + eapply drop_more; [exact E2|lia].
    + intros E. split; [by apply Hack|done].
    + intros _. by rewrite E3, E2.
    + rewrite ish_options0, Ho. do 2 f_equal. unfold tail_from. by rewrite Z.sub_0_r, Z.sub_diag.
  - apply wp_bind, wp_ip_rd; [pose proof (lookup_lt_Some _ _ _ Ha); lia|apply Hi|].
    intros a' Ha' _. rewrite Ha in Ha'. injection Ha' as <-.
    apply wp_bind, wp_ip_rd; [pose proof (lookup_lt_Some _ _ _ Hn1); lia|apply Hi|].
    intros n' Hn' _. rewrite Hn1 in Hn'. injection Hn' as <-.
    apply wp_bind, wp_modify, wp_bind.
    eapply wp_mono; [apply (ip_switches_switch ao wo go); [done..|]| |done].
    { destruct Hi. split; cbv beta delta [upd]; cbn; auto; lia. }
    intros orc s1 []. cbv beta delta [upd] in *. cbn in *.
    eapply wp_mono; [eapply (wp_ip_verdict _ _ _ (take (Z.to_nat n) (drop (r_next s) B)) seen rejd)
      |intros ? s' [H1 H2]; split; [done|]; rewrite H2; lia|done].
    destruct Hi, Hs.
    split; rewrite ?is_l0, ?is_next0, ?is_ucp0, ?is_rc0; auto; try lia; try congruence.
    + split; [done|]. rewrite length_take, length_drop. lia.
    + apply (drop_more _ _ (r_next s + Z.to_nat n)); [|lia].
      rewrite is_after0. eapply drop_more; [exact E2|lia].
    + intros Hr. split; [by apply Hack|]. intros Ho. destruct (il_ack0 Hr) as (? & _ & ?).
      destruct is_buf0 as [[? _]| ->]; [by subst orc|]. auto.
    + intros Ho. destruct is_buf0 as [[-> Hr]| ->]; [|by rewrite E2].
      destruct Ho as [?|[_ ?]]; [discriminate|congruence].
    + rewrite ish_options0, Et, options_cons, <- Et, tail_from_next by (rewrite <- ?Et; lia).
      replace (l0 - r_l s + n) with (l0 - (r_l s - n)) by lia. cbn [app].
      rewrite E3, take_take. repeat f_equal. lia.
    + intros Hr. destruct (ish_rej0 Hr) as (? & <- & ?). split_and!; [done| |done].
      apply (take_less _ _ (r_next s)); [done|lia].
Qed.

Lemma wp_ip_loop fuel s :
  ip_loop_inv s -> (Z.to_nat (r_l s) <= fuel)%nat ->
  wp False (ip_req_loop fuel ao rid) (fun _ s' => ip_loop_inv s' /\ r_l s' = 0)
    (fun _ _ => False) s.
Proof.
  revert s. induction fuel as [|fuel IH]; intros s Hi Hf; cbn [ip_req_loop];
    apply wp_bind, wp_gets; apply wp_if; intros C;
    try (apply wp_ret; split; [done|by apply Z.eqb_eq]).
  - apply Z.eqb_neq in C. pose proof (il_l _ Hi). lia.
  - apply Z.eqb_neq in C. apply wp_bind. eapply wp_mono; [by apply wp_ip_step| |done].
    intros [] s' [Hi' Hl]. apply IH; [done|]. pose proof (il_l _ Hi'). lia.
Qed.
End IpLoop.

(** What [ipcp_reqci] answers a request of [l] bytes at the start of [B]. *)
Definition ip_answer_ok (ao wo : ipcp_options) (rid : bool) (B : list Z) (l rc n : Z)
  (buf : list Z) (ho : ipcp_options) : Prop :=
  (rc = CONFACK /\ n = l /\ buf = B /\ peer_ok ao wo ho
   /\ (req_addr wo = true -> rid = false -> neg_addr ho = true))
  \/ (rc = CONFNAK /\ rid = false /\ 0 <= n <= l + CILEN_ADDR)
  \/ (rc = CONFREJ /\ exists rejd, rejd <> []
      /\ rejd `sublist_of` ip_options (take (Z.to_nat l) B)
      /\ n = Z.of_nat (length (concat rejd)) /\ take (Z.to_nat n) buf = concat rejd).

(** What it does to the other option records. *)
Definition ip_records_ok (wo go : ipcp_options) (rc : Z) (s : ipcp_req) : Prop :=
  (r_wo s = wo \/ rc = CONFNAK /\ r_wo s = wo <| req_addr := false |>)
  /\ own_ok wo go (r_go s) /\ ipcp_options_ok (r_ho s).

Section IpFinish.
Context `{Endian} (ao wo go : ipcp_options) (rid : bool).
Context (Hwo : ipcp_options_ok wo).
Context (B : list Z) (l : Z) (Hl : 0 <= l) (Hroom : l + CILEN_ADDR <= Z.of_nat (length B)).

Definition ip_done (r : Z * Z) (s : ipcp_req) : Prop :=
  ip_answer_ok ao wo rid B l r.1 r.2 (r_buf s) (r_ho s)
  /\ ip_records_ok wo go r.1 s /\ length (r_buf s) = length B.

(** The appended option. *)
Lemma wp_append s (Q : unit -> ipcp_req -> Prop) bs :
  (r_ucp s + length bs <= length (r_buf s))%nat ->
  (forall buf, length buf = length (r_buf s) -> Q tt (s <| r_buf := buf |>)) ->
  wp False (ip_wr (r_ucp s) bs) Q (fun _ _ => False) s.
Proof.
  intros Hr HQ. apply wp_bind, wp_gets, wp_bind. eapply wp_access; [apply poke_at_fits; lia|].
  apply wp_modify, HQ. rewrite !length_app, length_take, length_drop. lia.
Qed.

Lemma wp_ip_finish s :
  ip_loop_inv ao wo go rid B l s -> r_l s = 0 ->
  wp False (ip_req_finish rid ;; rc <- gets r_rc ;; n <- gets r_ucp ;; ret (rc, Z.of_nat n))
    ip_done (fun _ _ => False) s.
Proof.
  intros [] E0. rewrite E0, Z.sub_0_r in *. unfold CILEN_ADDR in Hroom.
  apply wp_bind, wp_bind, wp_gets, wp_bind, wp_gets, wp_bind, wp_gets, wp_when; intros C.
  - apply andb_prop in C as [[[C1 C2]%andb_prop C3]%andb_prop C4].
    apply negb_true_iff in C1, C2, C4. apply Z.eqb_neq in C1.
    assert (Hafter : forall s1, r_rc s1 = CONFNAK -> Z.of_nat (r_ucp s1) <= l ->
      length (r_buf s1) = length B -> ip_records_ok wo go CONFNAK s1 ->
      wp False (ucp <- gets r_ucp ;; wo <- gets r_wo ;;
          ip_wr ucp (PUTCHAR CI_ADDR ++ PUTCHAR CILEN_ADDR ++ PUTLONG (ntohl (hisaddr wo))) ;;
          modify (fun q => q <| r_ucp := (ucp + 6)%nat |>))
        (fun _ => wp False (rc <- gets r_rc ;; n <- gets r_ucp ;; ret (rc, Z.of_nat n))
           ip_done (fun (_ : Empty_set) _ => False)) (fun _ _ => False) s1).
    { intros s1 Hr1 Hu1 Hl1 Hw1. apply wp_bind, wp_gets, wp_bind, wp_gets, wp_bind.
      apply wp_append; [cbn; lia|]. intros buf Hb.
      apply wp_modify, wp_bind, wp_gets, wp_bind, wp_gets, wp_ret.
      cbv beta delta [upd]; cbn. rewrite Hr1. split_and!; [|done|cbn; congruence].
      right; left. cbn. unfold CILEN_ADDR. split_and!; [done..|lia|lia]. }
    apply wp_bind, wp_when; intros C5.
    + apply wp_bind, wp_modify, wp_modify. apply Hafter; [done|done|done|].
      split_and!; [right; split; [done|]|done..]. by rewrite <- il_wo0.
    + apply Hafter; [|done|done|].
      * apply Z.eqb_neq in C5. by destruct il_rc0 as [|[|]].
      * split_and!; [by left|done..].
  - apply wp_bind, wp_gets, wp_bind, wp_gets, wp_ret. split; [|split; [|done]].
    + destruct il_rc0 as [E|[E|E]]; cbn; rewrite E in *.
      * left. destruct (il_ack0 eq_refl) as (? & ? & ?). split_and!; [done..|].
        intros R1 R2. rewrite il_wo0, R1, R2 in C. cbn in C. by destruct (neg_addr (r_ho s)).
      * right; left. unfold CILEN_ADDR. split_and!; [done|auto|lia|lia].
      * right; right. split; [done|]. destruct il_shrunk0 as (seen & rejd & []).
        destruct (ish_rej0 E) as (R1 & R2 & R3). exists rejd.
        assert (Hseen : ip_options (take (Z.to_nat l) B) = seen).
        { rewrite ish_options0, E0. unfold tail_from. rewrite Z.sub_0_r, Z.sub_diag.
          apply app_nil_r. }
        rewrite Hseen, Nat2Z.id. split_and!; [done|done|lia|done].
    + split_and!; [by left|done..].
Qed.
End IpFinish.

(** C26: a request that leaves room for one more address option in the packet
    buffer is answered without leaving the buffer.  A Configure-Ack leaves the
    packet byte for byte as it was, and then the peer's address is ours to
    accept or the one we know, its compression is one we allow, and it did
    name an address when we want one.  A Configure-Nak is never sent once we
    are fed up with Naks and is longer than the request by one address option
    at most.  A Configure-Reject carries some of the options of the request,
    unchanged and in their order, and at least one.  Our own request changes in
    our address only, and only where the peer may name it. *)
Theorem ipcp_reqci_spec `{Endian} ao wo go rid B l :
  ipcp_options_ok wo -> bytes B ->
  0 <= l < 2 ^ 16 - CILEN_ADDR -> l + CILEN_ADDR <= Z.of_nat (length B) ->
  exists rc n s, ipcp_reqci ao wo go rid B l = Ok (rc, n) s
    /\ ip_answer_ok ao wo rid B l rc n (r_buf s) (r_ho s)
    /\ ip_records_ok wo go rc s /\ length (r_buf s) = length B.
Proof.
  intros Hwo HB Hl Hroom. unfold CILEN_ADDR in *. unfold ipcp_reqci.
  assert (Hi : ip_loop_inv ao wo go rid B l
    (mk_ipcp_req B 0 l 0 CONFACK wo go no_ipcp_options)).
  { split; cbn; auto; try lia.
    - intros _. split_and!; [done|lia|by split].
    - done.
    - exists [], []. split; cbn; try done. unfold tail_from.
      by rewrite Z.sub_diag, Z.sub_0_r.
    - by left.
    - split; vm_compute; split; congruence. }
  set (s0 := mk_ipcp_req _ _ _ _ _ _ _ _) in *.
  assert (W : wp False (ip_req_loop (Z.to_nat l) ao rid ;; ip_req_finish rid ;;
      rc <- gets r_rc ;; n <- gets r_ucp ;; ret (rc, Z.of_nat n))
    (ip_done ao wo go rid B l) (fun _ _ => False) s0).
  { apply wp_bind. eapply wp_mono; [eapply (wp_ip_loop ao wo go); [exact Hwo| | |exact Hi|done]; lia| |done].
    intros [] s [Hs E]. apply wp_ip_finish; [lia|exact Hroom|exact Hs|exact E]. }
  unfold wp in W. revert W. set (o := bind _ _ s0). clearbody o.
  destruct o as [[rc n] s|[]| |]; [|done|done]. intros [H1 [H2 H3]]. by exists rc, n, s.
Qed.

(** ** Concrete requests *)

Definition sample_ip_wo : ipcp_options :=
  (ipcp_init_want no_ipcp_options) <| req_addr := true |> <| hisaddr := htonl (be32 10 0 0 2) |>.
Definition sample_ip_ao : ipcp_options := ipcp_init_allow no_ipcp_options.

Lemma sample_ip_wo_ok : ipcp_options_ok sample_ip_wo.
Proof. split; vm_compute; split; congruence. Defined.

Definition sample_ip_packet : list Z :=
  [2; 6; 0; 45; 15; 1; 3; 6; 0; 0; 0; 0; 99; 4; 1; 2] ++ repeat 0 10.

Lemma ipcp_reqci_spec_witness :
  exists rc n s, ipcp_reqci sample_ip_ao sample_ip_wo sample_ip_go false sample_ip_packet 16
      = Ok (rc, n) s
    /\ ip_answer_ok sample_ip_ao sample_ip_wo false sample_ip_packet 16 rc n (r_buf s) (r_ho s)
    /\ ip_records_ok sample_ip_wo sample_ip_go rc s /\ length (r_buf s) = length sample_ip_packet.
Proof.
  apply ipcp_reqci_spec; [exact sample_ip_wo_ok| |vm_compute; split; congruence|vm_compute; congruence].
  repeat constructor; done.
Defined.

Definition vj_too_large : list Z := [CI_COMPRESSTYPE; CILEN_VJ; 0; 45; 255; 0].

(** When we want the peer's address, a request of 249 compression options
    with too many slots (1494 bytes, the 1500 of a PPP packet less its two
    headers hold it) makes [ipcp_reqci] append its address option past the end
    of [inpacket_buf], of which 1496 bytes are behind [inp]. *)
Theorem ipcp_reqci_overflows `{Endian} ao wo go a b :
  neg_vj ao = true -> maxslotindex ao = MAX_STATES - 1 -> req_addr wo = true ->
  ipcp_reqci ao wo go false (concat (replicate 249 vj_too_large) ++ [a; b]) 1494 = Fault.
Proof.
  intros H1 H2 H3. destruct ao, wo. cbn in H1, H2, H3. subst. vm_compute. reflexivity.
Qed.

Lemma ipcp_reqci_overflows_witness :
  ipcp_reqci sample_ip_ao sample_ip_wo sample_ip_go false
    (concat (replicate 249 vj_too_large) ++ [0; 0]) 1494 = Fault.
Proof. by apply ipcp_reqci_overflows. Defined.

(** The peer's wish that slot numbers be sent uncompressed is
    acknowledged but not remembered: the option carries the flag 0, [*ho] gets
    our own. *)
Theorem ipcp_vj_cflag_ignored `{Endian} ao wo go rid rest :
  neg_vj ao = true -> maxslotindex ao = MAX_STATES - 1 -> req_addr wo = false ->
  exists s, ipcp_reqci ao wo go rid ([CI_COMPRESSTYPE; CILEN_VJ; 0; 45; 15; 0] ++ rest) 6
    = Ok (CONFACK, 6) s /\ neg_vj (r_ho s) = true /\ cflag (r_ho s) = cflag wo.
Proof.
  intros H1 H2 H3. destruct ao, wo. cbn in H1, H2, H3. subst.
  eexists. split; [vm_compute; reflexivity|]. split; reflexivity.
Qed.

Lemma ipcp_vj_cflag_ignored_witness :
  exists s, ipcp_reqci sample_ip_ao (sample_ip_wo <| req_addr := false |>) sample_ip_go false
      ([CI_COMPRESSTYPE; CILEN_VJ; 0; 45; 15; 0] ++ []) 6 = Ok (CONFACK, 6) s
    /\ neg_vj (r_ho s) = true /\ cflag (r_ho s) = cflag (sample_ip_wo <| req_addr := false |>).
Proof. by apply ipcp_vj_cflag_ignored. Defined.
