(* ===== verification/Callout.v ===== *)
(** * The callout list of pppLib.c

    [ppp_timeout], [ppp_untimeout], [adjtimeout] and the list handling of the
    SIGALRM handler [alrm]: timeouts are kept in a list ordered by expiry in
    which each entry holds the seconds after its predecessor.  The abstract
    specification is the list of absolute deadlines. *)

From S2P Require Export Prelude.

Section Callout.
(** A timeout is identified by its routine and its argument. *)
Context {K : Type} `{EqDecision K}.
Implicit Types k : K.

Record callout := mk_callout { c_time : Z; c_fun : K }.

(** [callout] is the list, [schedtime] the time at which the interval timer
    was last programmed and [itimer] the seconds it was programmed with. *)
Record timers := mk_timers
  { callouts : list callout; schedtime : Z; itimer : Z }.

(** ** The operations *)

(** The list walk of [ppp_timeout]: skip the entries that expire no later,
    subtracting their times; the successor's time is decremented. *)
Fixpoint callout_insert (seconds : Z) k (l : list callout) : list callout :=
  match l with
  | c :: l' =>
      if c_time c <=? seconds
      then c :: callout_insert (seconds - c_time c) k l'
      else mk_callout seconds k :: mk_callout (c_time c - seconds) (c_fun c) :: l'
  | [] => [mk_callout seconds k]
  end.

(** [ppp_if[ppp_unit]->callout == newp]: the new entry went to the front. *)
Definition goes_first (seconds : Z) (l : list callout) : bool :=
  match l with
  | c :: _ => negb (c_time c <=? seconds)
  | [] => true
  end.

Definition ppp_timeout (now : Z) k (seconds : Z) (t : timers) : timers :=
  let l := callout_insert seconds k (callouts t) in
  if goes_first seconds (callouts t)
  then mk_timers l now seconds
  else mk_timers l (schedtime t) (itimer t).

(** Unlink the first matching entry; its time goes to its successor. *)
Fixpoint callout_remove k (l : list callout) : list callout :=
  match l with
  | c :: l' =>
      if decide (c_fun c = k) then
        match l' with
        | d :: l'' => mk_callout (c_time d + c_time c) (c_fun d) :: l''
        | [] => []
        end
      else c :: callout_remove k l'
  | [] => []
  end.

Definition ppp_untimeout (now : Z) k (t : timers) : timers :=
  let l := callout_remove k (callouts t) in
  let reschedule :=
    match callouts t with
    | c :: _ => bool_decide (c_fun c = k)
    | [] => false
    end in
  if reschedule
  then mk_timers l now (match l with c :: _ => c_time c | [] => 0 end)
  else mk_timers l (schedtime t) (itimer t).

Definition adjtimeout (now : Z) (t : timers) : timers :=
  match callouts t with
  | [] => t
  | c :: l' =>
      let timediff := now - schedtime t in
      if (timediff <? 0) || (c_time c <=? timediff) then t
      else mk_timers (mk_callout (c_time c - timediff) (c_fun c) :: l')
                     (schedtime t) (itimer t)
  end.

(** The leading entries that [alrm] detaches: the first and those that
    follow it with time 0. *)
Fixpoint zeros (l : list callout) : list callout * list callout :=
  match l with
  | c :: l' =>
      if c_time c =? 0 then let '(e, r) := zeros l' in (c :: e, r) else ([], l)
  | [] => ([], [])
  end.

Definition alrm_expire (now : Z) (t : timers) : list K * timers :=
  match callouts t with
  | [] => ([], t)
  | c :: l' =>
      let '(e, r) := zeros l' in
      (c_fun <$> c :: e,
       match r with
       | d :: _ => mk_timers r now (c_time d)
       | [] => mk_timers r (schedtime t) (itimer t)
       end)
  end.

(** ** Specification: absolute deadlines *)

Fixpoint deadlines (base : Z) (l : list callout) : list (Z * K) :=
  match l with
  | c :: l' => (base + c_time c, c_fun c) :: deadlines (base + c_time c) l'
  | [] => []
  end.

(** Insert after every entry with a deadline no later. *)
Fixpoint insert_deadline (d : Z * K) (l : list (Z * K)) : list (Z * K) :=
  match l with
  | e :: l' => if e.1 <=? d.1 then e :: insert_deadline d l' else d :: l
  | [] => [d]
  end.

(** Remove the first entry for [k]. *)
Fixpoint remove_deadline k (l : list (Z * K)) : list (Z * K) :=
  match l with
  | e :: l' => if decide (e.2 = k) then l' else e :: remove_deadline k l'
  | [] => []
  end.

Definition nonneg (l : list callout) : Prop := Forall (fun c => 0 <= c_time c) l.

Definition pending k (t : timers) : Prop := Exists (fun c => c_fun c = k) (callouts t).

(** How many entries wait for [k]. *)
Definition armed_count k (l : list callout) : nat :=
  length (filter (fun c => c_fun c = k) l).

(** ** Lemmas *)

Lemma deadlines_shift base l :
  deadlines base l = (fun e => (base + e.1, e.2)) <$> deadlines 0 l.
Proof.
  revert base. induction l as [|c l IH]; intros base; [done|].
  cbn. rewrite (IH (base + c_time c)), (IH (0 + c_time c)). f_equal.
  rewrite <- list_fmap_compose. apply list_fmap_ext. intros ? e ?. cbn.
  f_equal. lia.
Qed.

Lemma insert_deadline_shift base d l :
  insert_deadline (base + d.1, d.2) ((fun e => (base + e.1, e.2)) <$> l)
  = (fun e => (base + e.1, e.2)) <$> insert_deadline d l.
Proof.
  induction l as [|e l IH]; [done|]. cbn.
  destruct (Z.leb_spec e.1 d.1).
  - rewrite (proj2 (Z.leb_le _ _)) by lia. cbn. by rewrite <- IH.
  - rewrite (proj2 (Z.leb_gt _ _)) by lia. done.
Qed.

Lemma deadlines_insert base seconds k l :
  deadlines base (callout_insert seconds k l)
  = insert_deadline (base + seconds, k) (deadlines base l).
Proof.
  revert base seconds. induction l as [|c l IH]; intros base seconds; [done|].
  cbn. destruct (Z.leb_spec (c_time c) seconds) as [H|H]; cbn.
  - rewrite (proj2 (Z.leb_le _ _)) by lia. rewrite IH.
    by replace (base + c_time c + (seconds - c_time c)) with (base + seconds) by lia.
  - rewrite (proj2 (Z.leb_gt _ _)) by lia.
    replace (base + seconds + (c_time c - seconds)) with (base + c_time c) by lia.
    done.
Qed.

Lemma deadlines_remove base k l :
  deadlines base (callout_remove k l) = remove_deadline k (deadlines base l).
Proof.
  revert base. induction l as [|c l IH]; intros base; [done|].
  cbn. case_decide.
  - destruct l as [|d l]; [done|]. cbn.
    by replace (base + (c_time d + c_time c)) with (base + c_time c + c_time d) by lia.
  - cbn. by rewrite IH.
Qed.

Lemma nonneg_insert seconds k l :
  0 <= seconds -> nonneg l -> nonneg (callout_insert seconds k l).
Proof.
  intros Hs Hl. revert seconds Hs. induction Hl as [|c l Hc Hl IH]; intros s Hs; cbn.
  - by repeat constructor.
  - destruct (Z.leb_spec (c_time c) s).
    + constructor; [done|]. apply IH. lia.
    + repeat constructor; cbn; [lia|lia|done].
Qed.

Lemma nonneg_remove k l : nonneg l -> nonneg (callout_remove k l).
Proof.
  induction 1 as [|c l Hc Hl IH]; cbn; [constructor|].
  case_decide; [|by constructor].
  destruct Hl as [|d l Hd Hl]; [constructor|]. constructor; [cbn; lia|done].
Qed.

Lemma zeros_app l : let '(e, r) := zeros l in l = e ++ r.
Proof.
  induction l as [|c l IH]; cbn; [done|].
  destruct (c_time c =? 0); [|done].
  destruct (zeros l) as [e r]. cbn. by rewrite <- IH.
Qed.

Lemma zeros_zero l : Forall (fun c => c_time c = 0) (zeros l).1.
Proof.
  induction l as [|c l IH]; cbn; [constructor|].
  destruct (Z.eqb_spec (c_time c) 0) as [Hc|Hc]; [|constructor].
  destruct (zeros l) as [es rs]. by constructor.
Qed.

Lemma zeros_head l c r : (zeros l).2 = c :: r -> c_time c <> 0.
Proof.
  induction l as [|d l IH]; cbn; [done|].
  destruct (Z.eqb_spec (c_time d) 0) as [Hd|Hd].
  - destruct (zeros l) as [es rs]. exact IH.
  - by intros [= -> _].
Qed.

Lemma deadlines_app base l l' :
  deadlines base (l ++ l')
  = deadlines base l ++ deadlines (base + foldr Z.add 0 (c_time <$> l)) l'.
Proof.
  revert base. induction l as [|c l IH]; intros base; cbn.
  - by rewrite Z.add_0_r.
  - rewrite IH, Z.add_assoc. done.
Qed.

Lemma deadlines_zero base l :
  Forall (fun c => c_time c = 0) l ->
  deadlines base l = (fun c => (base, c_fun c)) <$> l.
Proof.
  induction 1 as [|c l Hc Hl IH]; cbn; [done|].
  rewrite Hc, Z.add_0_r. by rewrite IH.
Qed.

Lemma deadlines_pos base l :
  0 < base -> nonneg l -> Forall (fun e => 0 < e.1) (deadlines base l).
Proof.
  intros Hb Hl. revert base Hb. induction Hl as [|x l Hx Hl IH]; intros b Hb; cbn.
  - constructor.
  - cbn in Hx. assert (0 < b + c_time x) by lia. constructor; [done|]. by apply IH.
Qed.

Lemma sum_zero l :
  Forall (fun c => c_time c = 0) l -> foldr Z.add 0 (c_time <$> l) = 0.
Proof. induction 1 as [|c l Hc Hl IH]; cbn; [done|]. lia. Qed.

Lemma adjtimeout_cons now c l s i :
  0 <= now - s < c_time c ->
  adjtimeout now (mk_timers (c :: l) s i)
  = mk_timers (mk_callout (c_time c - (now - s)) (c_fun c) :: l) s i.
Proof.
  intros H. unfold adjtimeout. cbn.
  by rewrite (proj2 (Z.ltb_ge _ _)), (proj2 (Z.leb_gt _ _)) by lia.
Qed.

(** *** Which timeouts are pending *)

Lemma pending_insert k k' seconds l :
  Exists (fun c => c_fun c = k) (callout_insert seconds k' l)
  <-> k' = k \/ Exists (fun c => c_fun c = k) l.
Proof.
  revert seconds. induction l as [|c l IH]; intros s; cbn.
  - rewrite Exists_cons, Exists_nil. naive_solver.
  - destruct (c_time c <=? s); rewrite !Exists_cons; cbn; [rewrite IH|]; naive_solver.
Qed.

Lemma pending_remove_ne k k' l :
  k' <> k ->
  Exists (fun c => c_fun c = k) (callout_remove k' l)
  <-> Exists (fun c => c_fun c = k) l.
Proof.
  intros Hne. induction l as [|c l IH]; cbn; [done|].
  case_decide; [|by rewrite !Exists_cons, IH].
  rewrite Exists_cons. destruct l as [|d l].
  - rewrite Exists_nil. naive_solver.
  - rewrite !Exists_cons. cbn. naive_solver.
Qed.

Lemma pending_timeout now k k' seconds t :
  pending k (ppp_timeout now k' seconds t) <-> k' = k \/ pending k t.
Proof.
  unfold pending, ppp_timeout.
  destruct (goes_first _ _); apply pending_insert.
Qed.

Lemma pending_untimeout_ne now k k' t :
  k' <> k -> pending k (ppp_untimeout now k' t) <-> pending k t.
Proof.
  intros. unfold pending, ppp_untimeout.
  destruct (match callouts t with [] => _ | _ => _ end); by apply pending_remove_ne.
Qed.

Lemma pending_adjtimeout now k t : pending k (adjtimeout now t) <-> pending k t.
Proof.
  unfold pending, adjtimeout. destruct (callouts t) as [|c l] eqn:E; [by rewrite E|].
  case_match; [by rewrite E|]. cbn. by rewrite !Exists_cons.
Qed.

(** What [alrm] takes off the list it runs. *)
Lemma pending_alrm now k t :
  pending k t -> let '(expired, t') := alrm_expire now t in pending k t' \/ k ∈ expired.
Proof.
  unfold pending, alrm_expire. destruct (callouts t) as [|c l] eqn:E; [by intros Hp%Exists_nil|].
  pose proof (zeros_app l) as Hz. destruct (zeros l) as [e r]. subst l. intros Hp.
  change (c :: e ++ r) with ((c :: e) ++ r) in Hp. apply Exists_app in Hp as [Hp|Hp].
  - right. apply Exists_exists in Hp as (d & Hd & <-). by apply (list_elem_of_fmap_2 c_fun (c :: e) d),
      list_elem_of_In.
  - left. destruct r; [by apply Exists_nil in Hp|exact Hp].
Qed.

Lemma armed_count_insert k k' seconds l :
  armed_count k (callout_insert seconds k' l)
  = ((if decide (k' = k) then 1 else 0) + armed_count k l)%nat.
Proof.
  unfold armed_count. revert seconds.
  induction l as [|c l IH]; intros s; cbn [callout_insert].
  - rewrite filter_cons, filter_nil. cbn. by case_decide.
  - destruct (c_time c <=? s); rewrite !filter_cons; cbn.
    + destruct (decide (c_fun c = k)); cbn; rewrite IH; lia.
    + destruct (decide (k' = k)), (decide (c_fun c = k)); cbn; lia.
Qed.

Lemma armed_count_remove k l :
  armed_count k (callout_remove k l) = (armed_count k l - 1)%nat.
Proof.
  unfold armed_count. induction l as [|c l IH]; [done|].
  cbn [callout_remove]. rewrite (filter_cons _ c l).
  destruct (decide (c_fun c = k)) as [<-|Hne].
  - destruct l as [|d l]; [done|].
    rewrite !filter_cons. cbn. case_decide; cbn; lia.
  - rewrite filter_cons, decide_False by done. exact IH.
Qed.

(** ** Properties *)

(** C18: scheduling a timeout puts its deadline into the list of absolute
    deadlines, after those that are no later, and changes no other deadline;
    the interval timer is reprogrammed exactly when the new entry is the
    first, with its delay. *)
Theorem ppp_timeout_deadlines now k seconds t :
  deadlines 0 (callouts (ppp_timeout now k seconds t))
    = insert_deadline (seconds, k) (deadlines 0 (callouts t))
  /\ (if goes_first seconds (callouts t)
      then itimer (ppp_timeout now k seconds t) = seconds
           /\ schedtime (ppp_timeout now k seconds t) = now
      else itimer (ppp_timeout now k seconds t) = itimer t
           /\ schedtime (ppp_timeout now k seconds t) = schedtime t).
Proof.
  unfold ppp_timeout. pose proof (deadlines_insert 0 seconds k (callouts t)) as H.
  destruct (goes_first _ _); cbn; rewrite H; done.
Qed.

(** Cancelling a timeout removes the first deadline of that routine and
    argument, changes no other deadline, and reprograms the interval timer
    with the new first delay (0 when none is left) exactly when the first
    entry was the one removed. *)
Theorem ppp_untimeout_deadlines now k t :
  let t' := ppp_untimeout now k t in
  deadlines 0 (callouts t') = remove_deadline k (deadlines 0 (callouts t))
  /\ match deadlines 0 (callouts t) with
     | e :: _ =>
         if decide (e.2 = k) then
           itimer t' = match deadlines 0 (callouts t') with d :: _ => d.1 | [] => 0 end
         else itimer t' = itimer t
     | [] => t' = t
     end.
Proof.
  cbn zeta. unfold ppp_untimeout.
  pose proof (deadlines_remove 0 k (callouts t)) as H.
  destruct t as [[|c l] s i]; cbn -[callout_remove remove_deadline] in *; [done|].
  destruct (decide (c_fun c = k)) as [Hk|Hk].
  - rewrite bool_decide_true by done. cbn -[callout_remove]. split; [exact H|].
    by destruct (callout_remove k (c :: l)).
  - rewrite bool_decide_false by done. cbn -[callout_remove]. done.
Qed.

(** C17: the alarm handler fires exactly the timeouts with the earliest
    deadline, in the order they were scheduled, and the remaining entries
    keep their deadlines relative to the one that expired; all of them are
    strictly later, and the interval timer is set to the next of them. *)
Theorem alrm_fires_earliest now t :
  nonneg (callouts t) ->
  let '(fired, t') := alrm_expire now t in
  match deadlines 0 (callouts t) with
  | [] => fired = [] /\ t' = t
  | (d, _) :: _ =>
      deadlines 0 (callouts t)
        = ((fun k => (d, k)) <$> fired)
          ++ ((fun e => (d + e.1, e.2)) <$> deadlines 0 (callouts t'))
      /\ Forall (fun e => 0 < e.1) (deadlines 0 (callouts t'))
      /\ match deadlines 0 (callouts t') with
         | (d', _) :: _ => itimer t' = d'
         | [] => True
         end
  end.
Proof.
  destruct t as [l s i]. unfold alrm_expire. cbn [callouts].
  destruct l as [|c l]; [done|]. unfold nonneg. intros Hn.
  pose proof (zeros_app l) as Happ. pose proof (zeros_zero l) as Hz.
  pose proof (zeros_head l) as Hh.
  destruct (zeros l) as [es rs]. cbn in *. subst l.
  apply Forall_cons_iff in Hn as [_ Hn]. apply Forall_app in Hn as [_ Hn].
  assert (E : callouts (match rs with
            | [] => mk_timers rs s i | d :: _ => mk_timers rs now (c_time d) end) = rs)
    by (by destruct rs).
  rewrite E. split; [|split].
  - rewrite deadlines_app, (deadlines_zero _ es) by done.
    rewrite sum_zero, Z.add_0_r, (deadlines_shift (0 + c_time c) rs) by done.
    cbn. by rewrite <- list_fmap_compose.
  - destruct rs as [|d rs]; [constructor|].
    specialize (Hh d rs eq_refl). apply Forall_cons_iff in Hn as [Hd Hn].
    assert (Hpos : 0 < 0 + c_time d) by lia. cbn. constructor; [exact Hpos|].
    by apply deadlines_pos.
  - destruct rs as [|d rs]; done.
Qed.

(** [adjtimeout] is not idempotent: it does not move [schedtime], so a
    second call subtracts the time already accounted for once more, and the
    first delay becomes shorter than the time that is really left. *)
Theorem adjtimeout_counts_twice now1 now2 c l s i :
  s < now1 <= now2 -> now2 - s < c_time c - (now1 - s) ->
  let t := mk_timers (c :: l) s i in
  match callouts (adjtimeout now2 (adjtimeout now1 t)) with
  | c' :: _ => c_time c' = c_time c - (now2 - s) - (now1 - s)
               /\ c_time c' < c_time c - (now2 - s)
  | [] => False
  end.
Proof.
  intros H1 H2. cbn zeta.
  rewrite (adjtimeout_cons now1), (adjtimeout_cons now2) by (cbn; lia). cbn. lia.
Qed.
End Callout.


Arguments callout : clear implicits.
Arguments timers : clear implicits.

(** Witnesses of the properties with hypotheses. *)

Definition sample_callouts : list (callout nat) :=
  [mk_callout 2 1%nat; mk_callout 0 2%nat; mk_callout 3 3%nat].

Lemma alrm_fires_earliest_witness :
  nonneg sample_callouts
  /\ deadlines 0 sample_callouts
     = ((fun k => (2, k)) <$> [1%nat; 2%nat]) ++ [(5, 3%nat)]
  /\ Forall (fun e : Z * nat => 0 < e.1) [(3, 3%nat)] /\ 3 = 3.
Proof.
  assert (H : nonneg sample_callouts) by (repeat constructor; cbn; lia).
  split; [exact H|]. exact (alrm_fires_earliest 10 (mk_timers sample_callouts 8 2) H).
Defined.

Lemma adjtimeout_counts_twice_witness :
  match callouts (adjtimeout 4 (adjtimeout 2 (mk_timers [mk_callout 10 0%nat] 0 10))) with
  | c' :: _ => c_time c' = 10 - (4 - 0) - (2 - 0) /\ c_time c' < 10 - (4 - 0)
  | [] => False
  end.
Proof.
  apply (adjtimeout_counts_twice 2 4 (mk_callout 10 0%nat) [] 0 10); cbn; lia.
Defined.
