(* ===== verification/Fsm.v ===== *)
(** * fsm.c: the {Link, IP} Control Protocol finite state machine

    The automaton is written once, over an interface [FsmHost] that says what
    it needs from the PPP task it lives in (its own [struct fsm], the packet
    output, the timeouts), and over the table of callbacks of the protocol
    ([struct fsm_callbacks]).  Lcp and Ipcp are its two instances.

    The callback table is split in two records, because the C callbacks call
    back into the automaton: [fsm_lower_cb] are those that [fsm_lowerup],
    [fsm_lowerdown], [fsm_open] and [fsm_close] use, [fsm_callbacks] adds the
    rest, whose implementations may call those four entry points. *)

From S2P Require Export Wire.

(** ** struct fsm *)

Inductive fsm_state :=
  | INITIAL | STARTING | CLOSED | STOPPED | CLOSING | STOPPING
  | REQSENT | ACKRCVD | ACKSENT | OPENED.

#[export] Instance fsm_state_eq_dec : EqDecision fsm_state.
Proof. solve_decision. Defined.

Definition OPT_PASSIVE := 1.
Definition OPT_RESTART := 2.
Definition OPT_SILENT := 4.

Definition DEFTIMEOUT := 3.
Definition DEFMAXTERMREQS := 2.
Definition DEFMAXCONFREQS := 10.
Definition DEFMAXNAKLOOPS := 10.

Record fsm := mk_fsm {
  f_unit : Z;
  f_protocol : Z;
  f_state : fsm_state;
  f_flags : Z;
  f_id : Z;
  f_reqid : Z;
  f_timeouttime : Z;
  f_maxconfreqtransmits : Z;
  f_retransmits : Z;
  f_maxtermtransmits : Z;
  f_nakloops : Z;
  f_maxnakloops : Z }.

#[export] Instance eta_fsm : Eta fsm := fun f => {|
  f_unit := f_unit f; f_protocol := f_protocol f; f_state := f_state f;
  f_flags := f_flags f; f_id := f_id f; f_reqid := f_reqid f;
  f_timeouttime := f_timeouttime f;
  f_maxconfreqtransmits := f_maxconfreqtransmits f;
  f_retransmits := f_retransmits f;
  f_maxtermtransmits := f_maxtermtransmits f;
  f_nakloops := f_nakloops f; f_maxnakloops := f_maxnakloops f |}.
#[export] Instance set_f_unit : Setter f_unit := ltac:(derive_setter).
#[export] Instance set_f_protocol : Setter f_protocol := ltac:(derive_setter).
#[export] Instance set_f_state : Setter f_state := ltac:(derive_setter).
#[export] Instance set_f_flags : Setter f_flags := ltac:(derive_setter).
#[export] Instance set_f_id : Setter f_id := ltac:(derive_setter).
#[export] Instance set_f_reqid : Setter f_reqid := ltac:(derive_setter).
#[export] Instance set_f_timeouttime : Setter f_timeouttime := ltac:(derive_setter).
#[export] Instance set_f_maxconf : Setter f_maxconfreqtransmits := ltac:(derive_setter).
#[export] Instance set_f_retransmits : Setter f_retransmits := ltac:(derive_setter).
#[export] Instance set_f_maxterm : Setter f_maxtermtransmits := ltac:(derive_setter).
#[export] Instance set_f_nakloops : Setter f_nakloops := ltac:(derive_setter).
#[export] Instance set_f_maxnakloops : Setter f_maxnakloops := ltac:(derive_setter).

(** [f->flags & opt] as a condition. *)
Definition has_flag (opt : Z) (f : fsm) : bool := negb (Z.land (f_flags f) opt =? 0).

(** ** What the automaton needs from its task *)

Class FsmHost (W : Type) := {
  (** the [struct fsm] that [f] points to *)
  h_fsm : W -> fsm;
  h_put_fsm : fsm -> W -> W;
  (** [ppp_if[f->unit]->peer_mru] *)
  h_peer_mru : W -> Z;
  (** the [passive == 1 || silent == 1] test of [fsm_sconfreq] *)
  h_probing : W -> bool;
  (** [output(f->unit, outpacket_buf, n)], with the [n] bytes *)
  h_output : list Z -> M W Z unit;
  (** [taskDelay(sysClkRateGet())] *)
  h_taskDelay : M W Z unit;
  (** [PPP_TIMEOUT(fsm_timeout, f, seconds)] and [PPP_UNTIMEOUT(fsm_timeout, f)] *)
  h_timeout : Z -> M W Z unit;
  h_untimeout : M W Z unit;
  (** [random()] *)
  h_random : M W Z Z }.

(** ** struct fsm_callbacks; [None] is a NULL pointer *)

Record fsm_lower_cb (W : Type) := mk_lower_cb {
  cb_resetci : option (M W Z unit);
  cb_cilen : option (M W Z Z);
  (** given [*lenp], the bytes put at [outp] and the new [*lenp] *)
  cb_addci : option (Z -> M W Z (list Z * Z));
  cb_down : option (M W Z unit);
  cb_starting : option (M W Z unit) }.
Arguments mk_lower_cb {W}.
Arguments cb_resetci {W}. Arguments cb_cilen {W}. Arguments cb_addci {W}.
Arguments cb_down {W}. Arguments cb_starting {W}.

Record fsm_callbacks (W : Type) := mk_callbacks {
  cb_lower : fsm_lower_cb W;
  cb_ackci : option (list Z -> Z -> M W Z bool);
  cb_nakci : option (list Z -> Z -> M W Z bool);
  cb_rejci : option (list Z -> Z -> M W Z bool);
  (** given [inp], [len] and [reject_if_disagree]: the code, the buffer as
      modified and the new [len] *)
  cb_reqci : option (list Z -> Z -> bool -> M W Z (Z * list Z * Z));
  cb_up : option (M W Z unit);
  cb_finished : option (M W Z unit);
  cb_retransmit : option (M W Z unit);
  (** given code, id, [inp] and [len] *)
  cb_extcode : option (Z -> Z -> list Z -> Z -> M W Z bool) }.
Arguments mk_callbacks {W}.
Arguments cb_lower {W}. Arguments cb_ackci {W}. Arguments cb_nakci {W}.
Arguments cb_rejci {W}. Arguments cb_reqci {W}. Arguments cb_up {W}.
Arguments cb_finished {W}. Arguments cb_retransmit {W}. Arguments cb_extcode {W}.

(** [if (f->callbacks->cb) ( *f->callbacks->cb)(f);] *)
Definition call {W} (cb : option (M W Z unit)) : M W Z unit :=
  match cb with Some m => m | None => ret tt end.

(** The header every control packet starts with: code, id, length. *)
Definition read_header {W X} (inpacket : list Z) : M W X (Z * Z * Z) :=
  code <- access (inpacket !! 0%nat) ;;
  id <- access (inpacket !! 1%nat) ;;
  h <- access (inpacket !! 2%nat) ;;
  l <- access (inpacket !! 3%nat) ;;
  ret (code, id, be16 h l).

(** ** The operations *)

Section Fsm.
Context {W : Type} `{H : FsmHost W}.
Implicit Types (f : fsm) (s : fsm_state).

Definition get_f : M W Z fsm := gets h_fsm.
Definition upd_f (g : fsm -> fsm) : M W Z unit :=
  modify (fun w => h_put_fsm (g (h_fsm w)) w).
Definition set_state s : M W Z unit := upd_f (fun f => f <| f_state := s |>).

(** [++f->id] *)
Definition next_id : M W Z Z :=
  upd_f (fun f => f <| f_id ::= fun i => u8 (i + 1) |>) ;;
  f <- get_f ;; ret (f_id f).
(** [f->reqid = ++f->id] *)
Definition next_reqid : M W Z Z :=
  i <- next_id ;; upd_f (fun f => f <| f_reqid := i |>) ;; ret i.

Definition fsm_init : M W Z unit :=
  upd_f (fun f => f <| f_state := INITIAL |> <| f_flags := 0 |>) ;;
  r <- h_random ;;
  upd_f (fun f => f <| f_id := u8 r |>
                    <| f_timeouttime := DEFTIMEOUT |>
                    <| f_maxconfreqtransmits := DEFMAXCONFREQS |>
                    <| f_maxtermtransmits := DEFMAXTERMREQS |>
                    <| f_maxnakloops := DEFMAXNAKLOOPS |>).

(** [data] is what the data pointer points to; the packet is built in
    [outpacket_buf], an object of MTU + DLLHEADERLEN bytes. *)
Definition fsm_sdata (code id : Z) (data : list Z) (datalen : Z) : M W Z unit :=
  mru <- gets h_peer_mru ;;
  f <- get_f ;;
  let datalen := if mru - HEADERLEN <? datalen then mru - HEADERLEN else datalen in
  content <- (if datalen =? 0 then ret []
              else if datalen <? 0 then fault
              else if MTU + DLLHEADERLEN <? DLLHEADERLEN + HEADERLEN + datalen
              then fault
              else access (slice 0 (Z.to_nat datalen) data)) ;;
  let outlen := datalen + HEADERLEN in
  h_output (MAKEHEADER (f_protocol f) ++ PUTCHAR code ++ PUTCHAR id
            ++ PUTSHORT outlen ++ content).

(** [f->retransmits = f->maxtermtransmits] and the first Terminate-Request *)
Definition send_termreq : M W Z unit :=
  i <- next_reqid ;;
  fsm_sdata TERMREQ i [] 0 ;;
  f <- get_f ;;
  h_timeout (f_timeouttime f) ;;
  upd_f (fun f => f <| f_retransmits ::= fun r => r - 1 |>).
Definition init_termreq : M W Z unit :=
  upd_f (fun f => f <| f_retransmits := f_maxtermtransmits f |>) ;;
  send_termreq.

Section Lower.
Context (L : fsm_lower_cb W).

Definition CLIENT : list Z := [67; 76; 73; 69; 78; 84].

Definition fsm_sconfreq (retransmit : bool) : M W Z unit :=
  f <- get_f ;;
  when (match f_state f with REQSENT | ACKRCVD | ACKSENT => false | _ => true end)
    (call (cb_resetci L) ;;
     upd_f (fun f => f <| f_nakloops := 0 |>)) ;;
  when (negb retransmit)
    (upd_f (fun f => f <| f_retransmits := f_maxconfreqtransmits f |>) ;;
     next_reqid ;; ret tt) ;;
  probing <- gets h_probing ;;
  when probing (h_output CLIENT ;; h_taskDelay) ;;
  '(outp, cilen) <-
    match cb_cilen L, cb_addci L with
    | Some m_cilen, Some m_addci =>
        cilen <- m_cilen ;;
        mru <- gets h_peer_mru ;;
        let cilen := if mru - HEADERLEN <? cilen then mru - HEADERLEN else cilen in
        m_addci cilen
    | _, _ => ret ([], 0)
    end ;;
  f <- get_f ;;
  fsm_sdata CONFREQ (f_reqid f) outp cilen ;;
  upd_f (fun f => f <| f_retransmits ::= fun r => r - 1 |>) ;;
  f <- get_f ;;
  h_timeout (f_timeouttime f).

Definition fsm_lowerup : M W Z unit :=
  f <- get_f ;;
  match f_state f with
  | INITIAL => set_state CLOSED
  | STARTING =>
      if has_flag OPT_SILENT f then set_state STOPPED
      else fsm_sconfreq false ;; set_state REQSENT
  | _ => ret tt
  end.

Definition fsm_lowerdown : M W Z unit :=
  f <- get_f ;;
  match f_state f with
  | CLOSED => set_state INITIAL
  | STOPPED => set_state STARTING ;; call (cb_starting L)
  | CLOSING => set_state INITIAL ;; h_untimeout
  | STOPPING | REQSENT | ACKRCVD | ACKSENT => set_state STARTING ;; h_untimeout
  | OPENED => call (cb_down L) ;; set_state STARTING
  | _ => ret tt
  end.

Definition fsm_restart : M W Z unit :=
  f <- get_f ;;
  when (has_flag OPT_RESTART f) (fsm_lowerdown ;; fsm_lowerup).

Definition fsm_open : M W Z unit :=
  f <- get_f ;;
  match f_state f with
  | INITIAL => set_state STARTING ;; call (cb_starting L)
  | CLOSED =>
      if has_flag OPT_SILENT f then set_state STOPPED
      else fsm_sconfreq false ;; set_state REQSENT
  | CLOSING => set_state STOPPING ;; fsm_restart
  | STOPPED | OPENED => fsm_restart
  | _ => ret tt
  end.

Definition fsm_close : M W Z unit :=
  f <- get_f ;;
  match f_state f with
  | STARTING => set_state INITIAL
  | STOPPED => set_state CLOSED
  | STOPPING => set_state CLOSING
  | REQSENT | ACKRCVD | ACKSENT => h_untimeout ;; init_termreq ;; set_state CLOSING
  | OPENED => call (cb_down L) ;; init_termreq ;; set_state CLOSING
  | _ => ret tt
  end.
End Lower.

Section Handlers.
Context (C : fsm_callbacks W).

Definition fsm_timeout : M W Z unit :=
  f <- get_f ;;
  match f_state f with
  | CLOSING | STOPPING =>
      if f_retransmits f <=? 0 then
        set_state (if decide (f_state f = CLOSING) then CLOSED else STOPPED) ;;
        call (cb_finished C)
      else send_termreq
  | REQSENT | ACKRCVD | ACKSENT =>
      if f_retransmits f <=? 0 then
        set_state STOPPED ;;
        when (negb (has_flag OPT_PASSIVE f)) (call (cb_finished C))
      else
        call (cb_retransmit C) ;;
        fsm_sconfreq (cb_lower C) true ;;
        f <- get_f ;;
        when (bool_decide (f_state f = ACKRCVD)) (set_state REQSENT)
  | _ => ret tt
  end.

(** The part of [fsm_rconfreq] after the [switch]: check the peer's
    options, answer, and move on. *)
Definition fsm_rconfreq_check (id : Z) (inp : list Z) (len : Z) : M W Z unit :=
  '(code, inp, len) <-
    match cb_reqci C with
    | Some reqci =>
        f <- get_f ;;
        reqci inp len (f_maxnakloops f <=? f_nakloops f)
    | None => ret (if len =? 0 then CONFACK else CONFREJ, inp, len)
    end ;;
  fsm_sdata code id inp len ;;
  f <- get_f ;;
  if code =? CONFACK then
    (if decide (f_state f = ACKRCVD)
     then h_untimeout ;; set_state OPENED ;; call (cb_up C)
     else set_state ACKSENT) ;;
    upd_f (fun f => f <| f_nakloops := 0 |>)
  else
    when (negb (bool_decide (f_state f = ACKRCVD))) (set_state REQSENT) ;;
    when (code =? CONFNAK) (upd_f (fun f => f <| f_nakloops ::= fun n => n + 1 |>)).

Definition fsm_rconfreq (id : Z) (inp : list Z) (len : Z) : M W Z unit :=
  f <- get_f ;;
  match f_state f with
  | CLOSED => fsm_sdata TERMACK id [] 0
  | CLOSING | STOPPING => ret tt
  | OPENED =>
      call (cb_down (cb_lower C)) ;;
      fsm_sconfreq (cb_lower C) false ;;
      fsm_rconfreq_check id inp len
  | STOPPED =>
      fsm_sconfreq (cb_lower C) false ;;
      set_state REQSENT ;;
      fsm_rconfreq_check id inp len
  | _ => fsm_rconfreq_check id inp len
  end.

Definition fsm_rconfack (id : Z) (inp : list Z) (len : Z) : M W Z unit :=
  f <- get_f ;;
  if negb (id =? f_reqid f) then ret tt else
  ok <- match cb_ackci C with
        | Some ackci => ackci inp len
        | None => ret (len =? 0)
        end ;;
  if negb ok then ret tt else
  upd_f (fun f => f <| f_reqid := u8 (-1) |>) ;;
  f <- get_f ;;
  match f_state f with
  | CLOSED | STOPPED => fsm_sdata TERMACK id [] 0
  | REQSENT =>
      set_state ACKRCVD ;;
      upd_f (fun f => f <| f_retransmits := f_maxconfreqtransmits f |>)
  | ACKRCVD => fsm_sconfreq (cb_lower C) false ;; set_state REQSENT
  | ACKSENT =>
      h_untimeout ;; set_state OPENED ;;
      upd_f (fun f => f <| f_retransmits := f_maxconfreqtransmits f |>) ;;
      call (cb_up C)
  | OPENED =>
      call (cb_down (cb_lower C)) ;;
      fsm_sconfreq (cb_lower C) false ;; set_state REQSENT
  | _ => ret tt
  end.

Definition fsm_rconfnakrej (code id : Z) (inp : list Z) (len : Z) : M W Z unit :=
  f <- get_f ;;
  if negb (id =? f_reqid f) then ret tt else
  ok <- match (if code =? CONFNAK then cb_nakci C else cb_rejci C) with
        | Some proc => proc inp len
        | None => ret false
        end ;;
  if negb ok then ret tt else
  upd_f (fun f => f <| f_reqid := u8 (-1) |>) ;;
  f <- get_f ;;
  match f_state f with
  | CLOSED | STOPPED => fsm_sdata TERMACK id [] 0
  | REQSENT | ACKSENT => h_untimeout ;; fsm_sconfreq (cb_lower C) false
  | ACKRCVD => fsm_sconfreq (cb_lower C) false ;; set_state REQSENT
  | OPENED =>
      call (cb_down (cb_lower C)) ;;
      fsm_sconfreq (cb_lower C) false ;; set_state REQSENT
  | _ => ret tt
  end.

Definition fsm_rtermreq (id : Z) : M W Z unit :=
  f <- get_f ;;
  match f_state f with
  | ACKRCVD | ACKSENT => set_state REQSENT
  | OPENED =>
      call (cb_down (cb_lower C)) ;;
      upd_f (fun f => f <| f_retransmits := 0 |>) ;;
      set_state STOPPING ;;
      f <- get_f ;;
      h_timeout (f_timeouttime f)
  | _ => ret tt
  end ;;
  fsm_sdata TERMACK id [] 0.

Definition fsm_rtermack : M W Z unit :=
  f <- get_f ;;
  match f_state f with
  | CLOSING => set_state CLOSED ;; call (cb_finished C)
  | STOPPING => set_state STOPPED ;; call (cb_finished C)
  | ACKRCVD => set_state REQSENT
  | OPENED => call (cb_down (cb_lower C)) ;; fsm_sconfreq (cb_lower C) false
  | _ => ret tt
  end.

Definition fsm_rcoderej (inp : list Z) (len : Z) : M W Z unit :=
  if len <? HEADERLEN then ret tt else
  access (inp !! 0%nat) ;; access (inp !! 1%nat) ;;
  f <- get_f ;;
  when (bool_decide (f_state f = ACKRCVD)) (set_state REQSENT).

Definition fsm_protreject : M W Z unit :=
  f <- get_f ;;
  match f_state f with
  | CLOSING => h_untimeout ;; set_state CLOSED ;; call (cb_finished C)
  | CLOSED => set_state CLOSED ;; call (cb_finished C)
  | STOPPING | REQSENT | ACKRCVD | ACKSENT =>
      h_untimeout ;; set_state STOPPED ;; call (cb_finished C)
  | STOPPED => set_state STOPPED ;; call (cb_finished C)
  | OPENED =>
      call (cb_down (cb_lower C)) ;; init_termreq ;; set_state STOPPING
  | _ => ret tt
  end.

(** The [switch (code)] of [fsm_input]. *)
Definition fsm_dispatch (inpacket : list Z) (code id : Z) (inp : list Z)
  (len : Z) : M W Z unit :=
  if code =? CONFREQ then fsm_rconfreq id inp len
  else if code =? CONFACK then fsm_rconfack id inp len
  else if (code =? CONFNAK) || (code =? CONFREJ) then fsm_rconfnakrej code id inp len
  else if code =? TERMREQ then fsm_rtermreq id
  else if code =? TERMACK then fsm_rtermack
  else if code =? CODEREJ then fsm_rcoderej inp len
  else
    handled <- match cb_extcode C with
               | Some extcode => extcode code id inp len
               | None => ret false
               end ;;
    when (negb handled)
      (i <- next_id ;; fsm_sdata CODEREJ i inpacket (len + HEADERLEN)).

Definition fsm_input (inpacket : list Z) (l : Z) : M W Z unit :=
  if l <? HEADERLEN then ret tt else
  '(code, id, len) <- read_header inpacket ;;
  if len <? HEADERLEN then ret tt else
  if l <? len then ret tt else
  let len := len - HEADERLEN in
  f <- get_f ;;
  match f_state f with
  | INITIAL | STARTING => ret tt
  | _ => fsm_dispatch inpacket code id (drop 4 inpacket) len
  end.
End Handlers.
End Fsm.
