(* ===== verification/FsmTimer.v ===== *)
(** * The restart timer of the automaton

    The liveness invariant of fsm.c: whenever the automaton waits for the peer
    (Closing, Stopping, Req-Sent, Ack-Rcvd, Ack-Sent) a timeout is pending, so
    it cannot wait for ever.  It is proved here for every entry point of fsm.c
    against the interfaces [FsmHostLaws] and [FsmCbLaws]; the two instances of
    the automaton discharge them. *)

From S2P Require Export Fsm.

Definition waiting (s : fsm_state) : bool :=
  match s with
  | CLOSING | STOPPING | REQSENT | ACKRCVD | ACKSENT => true
  | _ => false
  end.

(** What holds of the rest of the task ([J]) and whether the timeout of this
    automaton is pending ([armed]), and how the host's operations treat them.
    A run that faults or that ends in [exit] carries no claim. *)
Class FsmHostLaws {W : Type} (H : FsmHost W) (armed J : W -> Prop) := {
  hl_get_put f w : h_fsm (h_put_fsm f w) = f;
  hl_armed_put f w : armed w -> armed (h_put_fsm f w);
  hl_J_put f w : J w -> J (h_put_fsm f w);
  hl_output bs w : J w ->
    wp True (h_output bs)
      (fun _ w' => h_fsm w' = h_fsm w /\ (armed w -> armed w') /\ J w')
      (fun _ _ => True) w;
  hl_delay w : J w ->
    wp True h_taskDelay
      (fun _ w' => h_fsm w' = h_fsm w /\ (armed w -> armed w') /\ J w')
      (fun _ _ => True) w;
  hl_timeout t w : J w ->
    wp True (h_timeout t)
      (fun _ w' => h_fsm w' = h_fsm w /\ armed w' /\ J w') (fun _ _ => True) w;
  hl_untimeout w : J w ->
    wp True h_untimeout
      (fun _ w' => h_fsm w' = h_fsm w /\ J w') (fun _ _ => True) w }.

Section Timer.
Context {W : Type} {H : FsmHost W} {armed J : W -> Prop}
  {HL : FsmHostLaws H armed J}.

Definition timer_inv (w : W) : Prop :=
  waiting (f_state (h_fsm w)) = true -> armed w.

(** A computation that leaves this automaton and its timeout alone. *)
Definition frames {A} (m : M W Z A) : Prop :=
  forall w, J w ->
    wp True m (fun _ w' => h_fsm w' = h_fsm w /\ (armed w -> armed w') /\ J w')
      (fun _ _ => True) w.

(** A computation that keeps the invariant. *)
Definition keeps {A} (m : M W Z A) : Prop :=
  forall w, J w -> timer_inv w ->
    wp True m (fun _ w' => timer_inv w' /\ J w') (fun _ _ => True) w.

(** The contract of the callbacks.  [rejci], [up], [finished] and [extcode]
    may re-enter the automaton. *)
Class FsmLowerLaws (L : fsm_lower_cb W) := {
  ll_resetci m : cb_resetci L = Some m -> frames m;
  ll_cilen m : cb_cilen L = Some m -> frames m;
  ll_addci m n : cb_addci L = Some m -> frames (m n);
  ll_down m : cb_down L = Some m -> frames m;
  ll_starting m : cb_starting L = Some m -> frames m }.

Class FsmCbLaws (C : fsm_callbacks W) := {
  cl_lower :: FsmLowerLaws (cb_lower C);
  cl_ackci m p n : cb_ackci C = Some m -> frames (m p n);
  cl_nakci m p n : cb_nakci C = Some m -> frames (m p n);
  cl_rejci m p n : cb_rejci C = Some m -> keeps (m p n);
  cl_reqci m p n r : cb_reqci C = Some m -> frames (m p n r);
  cl_retransmit m : cb_retransmit C = Some m -> frames m;
  cl_up m w : cb_up C = Some m -> J w -> f_state (h_fsm w) = OPENED ->
    wp True m (fun _ w' => timer_inv w' /\ J w') (fun _ _ => True) w;
  cl_finished m w : cb_finished C = Some m -> J w ->
    f_state (h_fsm w) = CLOSED \/ f_state (h_fsm w) = STOPPED ->
    wp True m (fun _ w' => timer_inv w' /\ J w') (fun _ _ => True) w;
  cl_extcode m c i p n : cb_extcode C = Some m -> keeps (m c i p n) }.

(** ** Symbolic execution of the primitives *)

Lemma wp_upd_f (g : fsm -> fsm) Q w :
  J w ->
  (forall w', h_fsm w' = g (h_fsm w) -> (armed w -> armed w') -> J w' -> Q tt w') ->
  wp True (upd_f g) Q (fun _ _ => True) w.
Proof.
  intros HJ HQ. apply wp_modify, HQ; [apply hl_get_put| |by apply hl_J_put].
  apply hl_armed_put.
Qed.

Lemma wp_get_f Q w : Q (h_fsm w) w -> wp True get_f Q (fun (_ : Z) _ => True) w.
Proof. done. Qed.

Lemma wp_frames {A} (m : M W Z A) Q w :
  frames m -> J w ->
  (forall a w', h_fsm w' = h_fsm w -> (armed w -> armed w') -> J w' -> Q a w') ->
  wp True m Q (fun _ _ => True) w.
Proof. intros Hm HJ HQ. wp_use Hm; [done| |done]. intros a w' (?&?&?); auto. Qed.

Lemma wp_keeps {A} (m : M W Z A) Q w :
  keeps m -> J w -> timer_inv w ->
  (forall a w', timer_inv w' -> J w' -> Q a w') ->
  wp True m Q (fun _ _ => True) w.
Proof. intros Hm HJ HT HQ. wp_use Hm; [done..| |done]. intros a w' [? ?]; auto. Qed.

Lemma frames_ret {A} (a : A) : frames (ret a).
Proof. intros w HJ. by apply wp_ret. Qed.

Lemma frames_fault {A} : frames (@fault W Z A).
Proof. done. Qed.

Lemma frames_access {A} (o : option A) : frames (access o).
Proof. intros w HJ. by apply wp_access'. Qed.

Lemma frames_call (cb : option (M W Z unit)) :
  (forall m, cb = Some m -> frames m) -> frames (call cb).
Proof. destruct cb as [m|]; [auto|]. intros _. apply frames_ret. Qed.

Lemma frames_bind {A B} (m : M W Z A) (k : A -> M W Z B) :
  frames m -> (forall a, frames (k a)) -> frames (bind m k).
Proof.
  intros Hm Hk w HJ. apply wp_bind. apply wp_frames; [done..|].
  intros a w' E1 A1 HJ'. wp_use (Hk a w' HJ'); [|done].
  intros b w'' (E2 & A2 & ?). split_and!; [congruence|auto|done].
Qed.

Lemma frames_gets {A} (g : W -> A) : frames (gets g).
Proof. intros w HJ. by apply wp_gets. Qed.

Lemma frames_if {A} (b : bool) (m n : M W Z A) :
  frames m -> frames n -> frames (if b then m else n).
Proof. by destruct b. Qed.

Lemma frames_sdata code id data n : frames (fsm_sdata code id data n).
Proof.
  unfold fsm_sdata, get_f.
  apply frames_bind; [apply frames_gets|intros mru].
  apply frames_bind; [apply frames_gets|intros f].
  apply frames_bind; [|intros content; exact (hl_output _)].
  repeat apply frames_if; eauto using @frames_ret, @frames_fault, @frames_access.
Qed.

Lemma frames_output bs : frames (h_output bs).
Proof. exact (hl_output bs). Qed.
Lemma frames_delay : frames h_taskDelay.
Proof. exact hl_delay. Qed.

Lemma keeps_frames {A} (m : M W Z A) : frames m -> keeps m.
Proof.
  intros Hm w HJ HT. apply wp_frames; [done..|]. intros a w' E A' HJ'.
  split; [|done]. unfold timer_inv. rewrite E. auto.
Qed.

Lemma wp_timeout t Q w :
  J w -> (forall w', h_fsm w' = h_fsm w -> armed w' -> J w' -> Q tt w') ->
  wp True (h_timeout t) Q (fun _ _ => True) w.
Proof.
  intros HJ HQ. wp_use (hl_timeout t w HJ); [|done]. intros [] w' (?&?&?); auto.
Qed.

Lemma wp_untimeout Q w :
  J w -> (forall w', h_fsm w' = h_fsm w -> J w' -> Q tt w') ->
  wp True h_untimeout Q (fun _ _ => True) w.
Proof.
  intros HJ HQ. wp_use (hl_untimeout w HJ); [|done]. intros [] w' (?&?); auto.
Qed.

Lemma wp_set_state s Q w :
  J w ->
  (forall w', f_state (h_fsm w') = s -> f_flags (h_fsm w') = f_flags (h_fsm w) ->
     (armed w -> armed w') -> J w' -> Q tt w') ->
  wp True (set_state s) Q (fun _ _ => True) w.
Proof.
  intros HJ HQ. apply wp_upd_f; [done|]. intros w' E ? ?.
  apply HQ; [by rewrite E..|done|done].
Qed.

(** Updates of the other fields of the structure. *)
Lemma wp_upd_counter (g : fsm -> fsm) Q w :
  (forall f, f_state (g f) = f_state f) -> J w ->
  (forall w', f_state (h_fsm w') = f_state (h_fsm w) -> (armed w -> armed w') ->
     J w' -> Q tt w') ->
  wp True (upd_f g) Q (fun _ _ => True) w.
Proof.
  intros Hg HJ HQ. apply wp_upd_f; [done|]. intros w' E ? ?.
  apply HQ; [by rewrite E|done|done].
Qed.

Lemma wp_next_reqid Q w :
  J w ->
  (forall i w', f_state (h_fsm w') = f_state (h_fsm w) -> (armed w -> armed w') ->
     J w' -> Q i w') ->
  wp True next_reqid Q (fun _ _ => True) w.
Proof.
  intros HJ HQ. unfold next_reqid, next_id.
  do 2 apply wp_bind. apply wp_upd_counter; [done..|]. intros w1 E1 A1 J1.
  apply wp_bind, wp_get_f, wp_ret, wp_bind.
  apply wp_upd_counter; [done..|]. intros w2 E2 A2 J2.
  apply wp_ret, HQ; [congruence|tauto|done].
Qed.

Lemma wp_send_termreq Q w :
  J w ->
  (forall w', f_state (h_fsm w') = f_state (h_fsm w) -> armed w' -> J w' -> Q tt w') ->
  wp True send_termreq Q (fun _ _ => True) w.
Proof.
  intros HJ HQ. unfold send_termreq.
  apply wp_bind, wp_next_reqid; [done|]. intros i w1 E1 A1 J1.
  apply wp_bind, wp_frames; [apply frames_sdata|done|]. intros _ w2 E2 A2 J2.
  apply wp_bind, wp_get_f, wp_bind, wp_timeout; [done|]. intros w3 E3 A3 J3.
  apply wp_upd_counter; [done..|]. intros w4 E4 A4 J4.
  apply HQ; [congruence|auto|done].
Qed.

Lemma wp_init_termreq Q w :
  J w ->
  (forall w', f_state (h_fsm w') = f_state (h_fsm w) -> armed w' -> J w' -> Q tt w') ->
  wp True init_termreq Q (fun _ _ => True) w.
Proof.
  intros HJ HQ. unfold init_termreq. apply wp_bind.
  apply wp_upd_counter; [done..|]. intros w1 E1 A1 J1.
  apply wp_send_termreq; [done|]. intros w2 E2 A2 J2. apply HQ; [congruence|done..].
Qed.

(** One step of symbolic execution of an operation of fsm.c. *)
Ltac fstep :=
  lazymatch goal with
  | |- wp _ (bind _ _) _ _ _ => apply wp_bind
  | |- wp _ (ret _) _ _ _ => apply wp_ret
  | |- wp _ get_f _ _ _ => apply wp_get_f
  | |- wp _ (gets _) _ _ _ => apply wp_gets
  | |- wp _ (set_state _) _ _ _ => apply wp_set_state; [assumption|intros ? ? ? ? ?]
  | |- wp _ (upd_f _) _ _ _ => apply wp_upd_counter; [done|assumption|intros ? ? ? ?]
  | |- wp _ next_reqid _ _ _ => apply wp_next_reqid; [assumption|intros ? ? ? ? ?]
  | |- wp _ h_untimeout _ _ _ => apply wp_untimeout; [assumption|intros ? ? ?]
  | |- wp _ (h_timeout _) _ _ _ => apply wp_timeout; [assumption|intros ? ? ? ?]
  | |- wp _ init_termreq _ _ _ => apply wp_init_termreq; [assumption|intros ? ? ? ?]
  | |- wp _ send_termreq _ _ _ => apply wp_send_termreq; [assumption|intros ? ? ? ?]
  | |- wp _ (fsm_sdata _ _ _ _) _ _ _ =>
      apply wp_frames; [apply frames_sdata|assumption|intros ? ? ? ? ?]
  | |- wp _ (when _ _) _ _ _ => apply wp_when; intros ?
  | |- wp _ (if _ then _ else _) _ _ _ => apply wp_if; intros ?
  end; cbv beta.

(** Close a goal about the final state from the facts collected on the way. *)
Ltac chase :=
  repeat match goal with
  | E : h_fsm ?w = h_fsm _ |- context [h_fsm ?w] => rewrite E
  | E : f_state (h_fsm ?w) = _ |- context [f_state (h_fsm ?w)] => rewrite E
  end.
Ltac settle_inv :=
  unfold timer_inv in *; chase;
  first [ assumption | done
        | solve [let Hw := fresh in intros Hw; discriminate Hw]
        | try (let Hw := fresh "Hw" in intros Hw);
          repeat match goal with A : armed ?u -> armed ?v |- armed ?v => apply A end;
          first [ assumption
                | match goal with T : waiting _ = true -> armed ?u |- armed ?u =>
                    apply T; chase; first [done | assumption] end ] ].
Ltac settle :=
  lazymatch goal with
  | |- timer_inv _ /\ _ => split; [settle_inv|assumption]
  | |- _ => settle_inv
  end.

(** A computation that keeps the state of the automaton and its timeout. *)
Definition quiet {A} (m : M W Z A) : Prop :=
  forall w, J w ->
    wp True m (fun _ w' => f_state (h_fsm w') = f_state (h_fsm w)
                           /\ (armed w -> armed w') /\ J w') (fun _ _ => True) w.

Lemma wp_quiet {A} (m : M W Z A) Q w :
  quiet m -> J w ->
  (forall a w', f_state (h_fsm w') = f_state (h_fsm w) -> (armed w -> armed w') ->
     J w' -> Q a w') ->
  wp True m Q (fun _ _ => True) w.
Proof. intros Hm HJ HQ. wp_use Hm; [done| |done]. intros a w' (?&?&?); auto. Qed.

Lemma quiet_frames {A} (m : M W Z A) : frames m -> quiet m.
Proof.
  intros Hm w HJ. apply wp_frames; [done..|]. intros a w' E ? ?. by rewrite E.
Qed.

Lemma quiet_bind {A B} (m : M W Z A) (k : A -> M W Z B) :
  quiet m -> (forall a, quiet (k a)) -> quiet (bind m k).
Proof.
  intros Hm Hk w HJ. apply wp_bind, wp_quiet; [done..|].
  intros a w1 E1 A1 J1. apply wp_quiet; [done..|].
  intros b w2 E2 A2 J2. split_and!; [congruence|auto|done].
Qed.

Lemma quiet_when b (m : M W Z unit) : quiet m -> quiet (when b m).
Proof. destruct b; [done|]. intros _. apply quiet_frames, frames_ret. Qed.

Lemma quiet_counter (g : fsm -> fsm) :
  (forall f, f_state (g f) = f_state f) -> quiet (upd_f g).
Proof. intros Hg w HJ. apply wp_upd_counter; [done..|]. auto. Qed.

Lemma quiet_next_reqid : quiet next_reqid.
Proof. intros w HJ. apply wp_next_reqid; [done..|]. auto. Qed.

Lemma quiet_next_id : quiet next_id.
Proof.
  apply quiet_bind; [by apply quiet_counter|intros _].
  apply quiet_frames, frames_bind; [apply frames_gets|intros f; apply frames_ret].
Qed.

Section Lower.
Context (L : fsm_lower_cb W) {LL : FsmLowerLaws L}.

Lemma quiet_resetci : quiet (call (cb_resetci L)).
Proof. apply quiet_frames, frames_call, ll_resetci. Qed.

Lemma frames_makereq :
  frames (match cb_cilen L, cb_addci L with
          | Some m_cilen, Some m_addci =>
              cilen <- m_cilen ;;
              mru <- gets h_peer_mru ;;
              m_addci (if mru - HEADERLEN <? cilen then mru - HEADERLEN else cilen)
          | _, _ => ret ([], 0)
          end).
Proof.
  destruct (cb_cilen L) eqn:E1, (cb_addci L) eqn:E2; try apply frames_ret.
  apply frames_bind; [by eapply ll_cilen|intros n].
  apply frames_bind; [apply frames_gets|intros mru]. by eapply ll_addci.
Qed.

Lemma wp_sconfreq r Q w :
  J w ->
  (forall w', f_state (h_fsm w') = f_state (h_fsm w) -> armed w' -> J w' -> Q tt w') ->
  wp True (fsm_sconfreq L r) Q (fun _ _ => True) w.
Proof.
  intros HJ HQ. unfold fsm_sconfreq. do 2 fstep.
  fstep. apply wp_quiet; [|done|intros _ w1 E1 A1 J1].
  { apply quiet_when, quiet_bind; [apply quiet_resetci|intros _].
    by apply quiet_counter. }
  fstep. apply wp_quiet; [|done|intros _ w2 E2 A2 J2].
  { apply quiet_when, quiet_bind; [by apply quiet_counter|intros _].
    apply quiet_bind; [apply quiet_next_reqid|intros i].
    apply quiet_frames, frames_ret. }
  do 3 fstep. apply wp_quiet; [|done|intros _ w3 E3 A3 J3].
  { apply quiet_when, quiet_frames, frames_bind; [apply frames_output|].
    intros _. apply frames_delay. }
  fstep. apply wp_frames; [apply frames_makereq|done|intros [outp n] w4 E4 A4 J4].
  repeat fstep. apply HQ; [|done..]. congruence.
Qed.

(** [fsm_sconfreq] in a sequence, and a callback that frames. *)
Ltac lstep :=
  lazymatch goal with
  | |- wp _ (fsm_sconfreq _ _) _ _ _ =>
      apply wp_sconfreq; [assumption|intros ? ? ? ?]
  | |- wp _ (call (cb_down _)) _ _ _ =>
      apply wp_frames; [apply frames_call, ll_down|assumption|intros ? ? ? ? ?]
  | |- wp _ (call (cb_starting _)) _ _ _ =>
      apply wp_frames; [apply frames_call, ll_starting|assumption|intros ? ? ? ? ?]
  | _ => fstep
  end.

Lemma keeps_lowerup : keeps (fsm_lowerup L).
Proof.
  intros w HJ HT. unfold fsm_lowerup. do 2 lstep.
  destruct (f_state (h_fsm w)) eqn:E; repeat lstep; settle.
Qed.

Lemma keeps_lowerdown : keeps (fsm_lowerdown L).
Proof.
  intros w HJ HT. unfold fsm_lowerdown. do 2 lstep.
  destruct (f_state (h_fsm w)) eqn:E; repeat lstep; settle.
Qed.

Lemma keeps_restart : keeps (fsm_restart L).
Proof.
  intros w HJ HT. unfold fsm_restart. do 3 lstep; [|done].
  lstep. apply wp_keeps; [apply keeps_lowerdown|done..|intros _ w1 T1 J1].
  by apply keeps_lowerup.
Qed.

Lemma keeps_open : keeps (fsm_open L).
Proof.
  intros w HJ HT. unfold fsm_open. do 2 lstep.
  destruct (f_state (h_fsm w)) eqn:E; repeat lstep;
    try (apply keeps_restart; [assumption|]); settle.
Qed.

Lemma keeps_close : keeps (fsm_close L).
Proof.
  intros w HJ HT. unfold fsm_close. do 2 lstep.
  destruct (f_state (h_fsm w)) eqn:E; repeat lstep; settle.
Qed.
End Lower.

Section Handlers.
Context (C : fsm_callbacks W) {CL : FsmCbLaws C}.

Lemma wp_up Q w :
  J w -> f_state (h_fsm w) = OPENED ->
  (forall w', timer_inv w' -> J w' -> Q tt w') ->
  wp True (call (cb_up C)) Q (fun _ _ => True) w.
Proof.
  intros HJ HS HQ. destruct (cb_up C) as [m|] eqn:E; cbn [call].
  - wp_use (cl_up m w E HJ HS); [|done]. intros [] w' [? ?]; auto.
  - apply wp_ret, HQ; [|done]. unfold timer_inv. by rewrite HS.
Qed.

Lemma wp_finished Q w :
  J w -> f_state (h_fsm w) = CLOSED \/ f_state (h_fsm w) = STOPPED ->
  (forall w', timer_inv w' -> J w' -> Q tt w') ->
  wp True (call (cb_finished C)) Q (fun _ _ => True) w.
Proof.
  intros HJ HS HQ. destruct (cb_finished C) as [m|] eqn:E; cbn [call].
  - wp_use (cl_finished m w E HJ HS); [|done]. intros [] w' [? ?]; auto.
  - apply wp_ret, HQ; [|done]. unfold timer_inv. by destruct HS as [-> | ->].
Qed.

Ltac hstep :=
  lazymatch goal with
  | |- wp _ (fsm_sconfreq _ _) _ _ _ =>
      apply wp_sconfreq; [apply _|assumption|intros ? ? ? ?]
  | |- wp _ (call (cb_down _)) _ _ _ =>
      apply wp_frames; [apply frames_call, ll_down|assumption|intros ? ? ? ? ?]
  | |- wp _ (call (cb_retransmit _)) _ _ _ =>
      apply wp_frames; [apply frames_call, cl_retransmit|assumption|intros ? ? ? ? ?]
  | |- wp _ (call (cb_up _)) _ _ _ =>
      apply wp_up; [assumption|chase; done|intros ? ? ?]
  | |- wp _ (call (cb_finished _)) _ _ _ =>
      apply wp_finished; [assumption|chase; tauto|intros ? ? ?]
  | _ => fstep
  end.

Lemma keeps_timeout (w : W) :
  J w -> wp True (fsm_timeout C) (fun _ w' => timer_inv w' /\ J w') (fun _ _ => True) w.
Proof.
  intros HJ. unfold fsm_timeout. do 2 hstep.
  destruct (f_state (h_fsm w)) eqn:E; repeat hstep; settle.
Qed.

(** Case analysis on the state the automaton was in at the start. *)
Ltac on_state :=
  repeat match goal with
  | E : f_state (h_fsm ?v) = _ |- wp _ (match f_state (h_fsm ?v) with _ => _ end) _ _ _ =>
      rewrite E
  | E : h_fsm ?v = _ |- wp _ (match f_state (h_fsm ?v) with _ => _ end) _ _ _ =>
      rewrite E
  end;
  match goal with
  | |- wp _ (match f_state (h_fsm ?v) with _ => _ end) _ _ _ =>
      let E := fresh "E" in destruct (f_state (h_fsm v)) eqn:E
  end.

(** The checking part of [fsm_rconfreq] needs the timeout to be pending. *)
Lemma wp_rconfreq_check id inp len (w : W) :
  J w -> armed w ->
  wp True (fsm_rconfreq_check C id inp len)
    (fun _ w' => timer_inv w' /\ J w') (fun _ _ => True) w.
Proof.
  intros HJ HA. unfold fsm_rconfreq_check. hstep.
  apply wp_frames; [|done|intros [[code inp'] len'] w1 E1 A1 J1].
  { destruct (cb_reqci C) eqn:E; [|apply frames_ret].
    apply frames_bind; [apply frames_gets|intros f]. by eapply cl_reqci. }
  do 4 hstep. hstep.
  - hstep. destruct (decide _) as [Es|Es]; repeat hstep.
    + match goal with T : timer_inv ?u, E : f_state (h_fsm ?v) = f_state (h_fsm ?u)
        |- timer_inv ?v /\ _ => split; [|done]; unfold timer_inv in *; rewrite E; auto
      end.
    + settle.
  - repeat hstep; settle.
Qed.

Lemma keeps_rconfreq id inp len (w : W) :
  J w -> timer_inv w -> f_state (h_fsm w) <> INITIAL ->
  f_state (h_fsm w) <> STARTING ->
  wp True (fsm_rconfreq C id inp len)
    (fun _ w' => timer_inv w' /\ J w') (fun _ _ => True) w.
Proof.
  intros HJ HT H1 H2. unfold fsm_rconfreq. do 2 hstep.
  destruct (f_state (h_fsm w)) eqn:E; try done; repeat hstep;
    try (apply wp_rconfreq_check; [assumption|]); settle.
Qed.

Lemma keeps_rconfack id inp len : keeps (fsm_rconfack C id inp len).
Proof.
  intros w HJ HT. unfold fsm_rconfack. do 3 hstep; [hstep; settle|].
  hstep. apply wp_frames; [|done|intros ok w1 E1 A1 J1].
  { destruct (cb_ackci C) eqn:E; [by eapply cl_ackci|apply frames_ret]. }
  hstep; [hstep; settle|]. do 4 hstep.
  on_state; repeat hstep; settle.
Qed.

Lemma keeps_proc code p n :
  keeps (match (if code =? CONFNAK then cb_nakci C else cb_rejci C) with
         | Some proc => proc p n
         | None => ret false
         end).
Proof.
  destruct (code =? CONFNAK).
  - destruct (cb_nakci C) eqn:E; apply keeps_frames;
      [by eapply cl_nakci|apply frames_ret].
  - destruct (cb_rejci C) eqn:E; [by eapply cl_rejci|apply keeps_frames, frames_ret].
Qed.

Lemma keeps_rconfnakrej code id inp len : keeps (fsm_rconfnakrej C code id inp len).
Proof.
  intros w HJ HT. unfold fsm_rconfnakrej. do 3 hstep; [hstep; settle|].
  hstep. apply wp_keeps; [apply keeps_proc|done..|intros ok w1 T1 J1].
  hstep; [by hstep|]. do 4 hstep. on_state; repeat hstep; settle.
Qed.

Lemma keeps_rtermreq id : keeps (fsm_rtermreq C id).
Proof.
  intros w HJ HT. unfold fsm_rtermreq. do 3 hstep.
  on_state; repeat hstep; settle.
Qed.

Lemma keeps_rtermack : keeps (fsm_rtermack C).
Proof.
  intros w HJ HT. unfold fsm_rtermack. do 2 hstep.
  on_state; repeat hstep; settle.
Qed.

Lemma keeps_rcoderej inp len : keeps (fsm_rcoderej inp len).
Proof.
  intros w HJ HT. unfold fsm_rcoderej. hstep; [by hstep|].
  hstep. apply wp_frames; [apply frames_access|done|intros ? w1 E1 A1 J1].
  hstep. apply wp_frames; [apply frames_access|done|intros ? w2 E2 A2 J2].
  do 2 hstep. apply wp_when; intros Hb; [|settle].
  apply bool_decide_eq_true_1 in Hb. rewrite E2, E1 in Hb. hstep. settle.
Qed.

Lemma keeps_protreject : keeps (fsm_protreject C).
Proof.
  intros w HJ HT. unfold fsm_protreject. do 2 hstep.
  on_state; repeat hstep; settle.
Qed.

Lemma keeps_dispatch pkt code id inp len (w : W) :
  J w -> timer_inv w -> f_state (h_fsm w) <> INITIAL ->
  f_state (h_fsm w) <> STARTING ->
  wp True (fsm_dispatch C pkt code id inp len)
    (fun _ w' => timer_inv w' /\ J w') (fun _ _ => True) w.
Proof.
  intros HJ HT H1 H2. unfold fsm_dispatch.
  fstep; [by apply keeps_rconfreq|]. fstep; [by apply keeps_rconfack|].
  fstep; [by apply keeps_rconfnakrej|]. fstep; [by apply keeps_rtermreq|].
  fstep; [by apply keeps_rtermack|]. fstep; [by apply keeps_rcoderej|].
  fstep. apply wp_keeps; [|done..|intros handled w1 T1 J1].
  { destruct (cb_extcode C) eqn:E; [by eapply cl_extcode|].
    apply keeps_frames, frames_ret. }
  fstep; [|done]. fstep. apply wp_quiet; [apply quiet_next_id|done|].
  intros i w2 E2 A2 J2. fstep. settle.
Qed.

Lemma keeps_input pkt l : keeps (fsm_input C pkt l).
Proof.
  intros w HJ HT. unfold fsm_input. fstep; [by fstep|].
  fstep. apply wp_frames; [|done|intros [[code id] len] w1 E1 A1 J1].
  { unfold read_header. repeat (apply frames_bind; [apply frames_access|intros ?]).
    apply frames_ret. }
  assert (T1 : timer_inv w1) by settle.
  fstep; [by fstep|]. fstep; [by fstep|]. do 2 fstep.
  destruct (f_state (h_fsm w1)) eqn:E; try (by fstep);
    by apply keeps_dispatch; rewrite ?E.
Qed.
End Handlers.

(** ** The entry points *)

Inductive fsm_event :=
  | Ev_lowerup | Ev_lowerdown | Ev_open | Ev_close | Ev_timeout
  | Ev_input (inpacket : list Z) (l : Z) | Ev_protreject.

Definition fsm_handle (C : fsm_callbacks W) (e : fsm_event) : M W Z unit :=
  match e with
  | Ev_lowerup => fsm_lowerup (cb_lower C)
  | Ev_lowerdown => fsm_lowerdown (cb_lower C)
  | Ev_open => fsm_open (cb_lower C)
  | Ev_close => fsm_close (cb_lower C)
  | Ev_timeout => fsm_timeout C
  | Ev_input pkt l => fsm_input C pkt l
  | Ev_protreject => fsm_protreject C
  end.

Lemma keeps_handle C {CL : FsmCbLaws C} e : keeps (fsm_handle C e).
Proof.
  destruct e; cbn [fsm_handle].
  - apply keeps_lowerup, _.
  - apply keeps_lowerdown, _.
  - apply keeps_open, _.
  - apply keeps_close, _.
  - intros w HJ _. by apply keeps_timeout.
  - by apply keeps_input.
  - by apply keeps_protreject.
Qed.
End Timer.
