(* ===== verification/FsmRfc.v ===== *)
(** * The automaton of fsm.c against the option negotiation automaton of RFC 1661

    The table of section 4.1 of the RFC, with its options and its restart
    counter, is the abstract specification of the state machine: for each state
    and event, the actions and the next state.  The code of Fsm.v is run on a
    task that records the layers it informs and the packets it sends, over a
    protocol whose verdicts on options are arbitrary, and is compared with the
    table for every entry point and every packet. *)

From S2P Require Export Fsm.

(** ** The table *)

Inductive rfc_action := tlu | tld | tls | tlf | irc | zrc | scr | sca | scn | str | sta | scj.

#[export] Instance rfc_action_eq_dec : EqDecision rfc_action.
Proof. solve_decision. Defined.

Inductive rfc_event :=
  | Up | Down | Open | Close | TO_plus | TO_minus
  | RCR_plus | RCR_minus | RCA | RCN | RTR | RTA | RUC | RXJ_plus | RXJ_minus.

#[export] Instance rfc_event_eq_dec : EqDecision rfc_event.
Proof. solve_decision. Defined.

(** [None] where the RFC has no entry. *)
Definition rfc_table (s : fsm_state) (e : rfc_event) : option (list rfc_action * fsm_state) :=
  match e, s with
  | Up, INITIAL => Some ([], CLOSED)
  | Up, STARTING => Some ([irc; scr], REQSENT)
  | Up, _ => None
  | Down, CLOSED | Down, CLOSING => Some ([], INITIAL)
  | Down, STOPPED => Some ([tls], STARTING)
  | Down, STOPPING | Down, REQSENT | Down, ACKRCVD | Down, ACKSENT => Some ([], STARTING)
  | Down, OPENED => Some ([tld], STARTING)
  | Down, _ => None
  | Open, INITIAL => Some ([tls], STARTING)
  | Open, CLOSED => Some ([irc; scr], REQSENT)
  | Open, CLOSING => Some ([], STOPPING)
  | Open, s => Some ([], s)
  | Close, STARTING => Some ([tlf], INITIAL)
  | Close, STOPPED => Some ([], CLOSED)
  | Close, STOPPING => Some ([], CLOSING)
  | Close, REQSENT | Close, ACKRCVD | Close, ACKSENT => Some ([irc; str], CLOSING)
  | Close, OPENED => Some ([tld; irc; str], CLOSING)
  | Close, s => Some ([], s)
  | TO_plus, CLOSING => Some ([str], CLOSING)
  | TO_plus, STOPPING => Some ([str], STOPPING)
  | TO_plus, REQSENT | TO_plus, ACKRCVD => Some ([scr], REQSENT)
  | TO_plus, ACKSENT => Some ([scr], ACKSENT)
  | TO_plus, _ => None
  | TO_minus, CLOSING => Some ([tlf], CLOSED)
  | TO_minus, STOPPING | TO_minus, REQSENT | TO_minus, ACKRCVD | TO_minus, ACKSENT =>
      Some ([tlf], STOPPED)
  | TO_minus, _ => None
  | _, INITIAL | _, STARTING => None
  | RCR_plus, CLOSED | RCR_minus, CLOSED => Some ([sta], CLOSED)
  | RCR_plus, STOPPED => Some ([irc; scr; sca], ACKSENT)
  | RCR_minus, STOPPED => Some ([irc; scr; scn], REQSENT)
  | RCR_plus, REQSENT | RCR_plus, ACKSENT => Some ([sca], ACKSENT)
  | RCR_minus, REQSENT | RCR_minus, ACKSENT => Some ([scn], REQSENT)
  | RCR_plus, ACKRCVD => Some ([sca; tlu], OPENED)
  | RCR_minus, ACKRCVD => Some ([scn], ACKRCVD)
  | RCR_plus, OPENED => Some ([tld; scr; sca], ACKSENT)
  | RCR_minus, OPENED => Some ([tld; scr; scn], REQSENT)
  | RCA, CLOSED | RCN, CLOSED => Some ([sta], CLOSED)
  | RCA, STOPPED | RCN, STOPPED => Some ([sta], STOPPED)
  | RCA, REQSENT => Some ([irc], ACKRCVD)
  | RCA, ACKSENT => Some ([irc; tlu], OPENED)
  | RCN, REQSENT => Some ([irc; scr], REQSENT)
  | RCN, ACKSENT => Some ([irc; scr], ACKSENT)
  | RCA, ACKRCVD | RCN, ACKRCVD => Some ([scr], REQSENT)
  | RCA, OPENED | RCN, OPENED => Some ([tld; scr], REQSENT)
  | RTR, ACKRCVD | RTR, ACKSENT => Some ([sta], REQSENT)
  | RTR, OPENED => Some ([tld; zrc; sta], STOPPING)
  | RTR, s => Some ([sta], s)
  | RTA, CLOSING => Some ([tlf], CLOSED)
  | RTA, STOPPING => Some ([tlf], STOPPED)
  | RTA, ACKRCVD => Some ([], REQSENT)
  | RTA, OPENED => Some ([tld; scr], REQSENT)
  | RUC, s => Some ([scj], s)
  | RXJ_plus, ACKRCVD => Some ([], REQSENT)
  | RXJ_minus, CLOSED | RXJ_minus, CLOSING => Some ([tlf], CLOSED)
  | RXJ_minus, OPENED => Some ([tld; irc; str], STOPPING)
  | RXJ_minus, _ => Some ([tlf], STOPPED)
  | _, s => Some ([], s)
  end.

(** Events that cannot occur have no effect. *)
Definition rfc_cell (s : fsm_state) (e : rfc_event) : list rfc_action * fsm_state :=
  default ([], s) (rfc_table s e).

(** The options of the automaton.  The restart option of the RFC: an Open that
    would change nothing is a Down and an Up; the passive option: no tlf when
    the requests run out.  Silent: where the table sends the first request the
    automaton waits for one in Stopped. *)
Record rfc_options := mk_rfc_options { o_passive : bool; o_restart : bool; o_silent : bool }.
Definition is_negotiating (s : fsm_state) : bool :=
  match s with REQSENT | ACKRCVD | ACKSENT => true | _ => false end.
Definition is_first (s : fsm_state) (e : rfc_event) : bool :=
  match s, e with STARTING, Up | CLOSED, Open => true | _, _ => false end.
Definition restarts (s : fsm_state) : bool :=
  match s with STOPPED | CLOSING | STOPPING | OPENED => true | _ => false end.
Definition rfc_silent (o : rfc_options) (s : fsm_state) (e : rfc_event) : list rfc_action * fsm_state :=
  if o_silent o && is_first s e then ([], STOPPED) else rfc_cell s e.
Definition rfc_step (o : rfc_options) (s : fsm_state) (e : rfc_event) : list rfc_action * fsm_state :=
  let '(a1, s1) := rfc_silent o s e in
  if o_restart o && bool_decide (e = Open) && restarts s then
    let '(a2, s2) := rfc_silent o s1 Down in
    let '(a3, s3) := rfc_silent o s2 Up in (a1 ++ a2 ++ a3, s3)
  else if o_passive o && bool_decide (e = TO_minus) && is_negotiating s then ([], s1)
  else (a1, s1).

(** The restart counter: [irc] sets it for the requests that follow, each
    request counts. *)
Fixpoint rfc_counter (max_conf max_term r : Z) (acts : list rfc_action) : Z :=
  match acts with
  | [] => r
  | irc :: rest => rfc_counter max_conf max_term (match rest with str :: _ => max_term | _ => max_conf end) rest
  | zrc :: rest => rfc_counter max_conf max_term 0 rest
  | scr :: rest | str :: rest => rfc_counter max_conf max_term (r - 1) rest
  | _ :: rest => rfc_counter max_conf max_term r rest
  end.
(** What others see of the actions. *)
Definition rfc_visible (a : rfc_action) : bool := match a with irc | zrc => false | _ => true end.

(** ** The automaton on a recording task *)

Record recorder := mk_recorder_full
  { r_mru : Z; r_probing : bool; r_fsm : fsm; r_log : list rfc_action }.

(** A unit that is not passive, and a peer that did not ask for an MRU of its
    own. *)
Notation mk_recorder_mru m := (mk_recorder_full m false).
Notation mk_recorder := (mk_recorder_mru MTU).

Definition logged (l : list rfc_action) (r : recorder) : recorder :=
  mk_recorder_full (r_mru r) (r_probing r) (r_fsm r) (r_log r ++ l).
Definition record (a : rfc_action) : M recorder Z unit := modify (logged [a]).

(** The action behind a packet, from its code field. *)
Definition action_of_code (c : Z) : option rfc_action :=
  if c =? CONFREQ then Some scr else if c =? CONFACK then Some sca
  else if (c =? CONFNAK) || (c =? CONFREJ) then Some scn
  else if c =? TERMREQ then Some str else if c =? TERMACK then Some sta
  else if c =? CODEREJ then Some scj else None.

#[export] Instance recorder_host : FsmHost recorder := {|
  h_fsm := r_fsm;
  h_put_fsm := fun f r => mk_recorder_full (r_mru r) (r_probing r) f (r_log r);
  h_peer_mru := r_mru;
  h_probing := r_probing;
  h_output := fun bs =>
    match bs !! 4%nat ≫= action_of_code with Some a => record a | None => ret tt end;
  h_taskDelay := ret tt;
  h_timeout := fun _ => ret tt;
  h_untimeout := ret tt;
  h_random := ret 0 |}.

(** A protocol: the options it asks for, its verdicts on those of the peer and
    on the answers to its own, the further codes it knows. *)
Record replies := mk_replies {
  rp_cilen : Z;
  rp_addci : Z -> list Z * Z;
  rp_ackci : list Z -> Z -> bool;
  rp_nakci : list Z -> Z -> bool;
  rp_rejci : list Z -> Z -> bool;
  rp_reqci : list Z -> Z -> bool -> Z * list Z * Z;
  rp_extcode : Z -> Z -> list Z -> Z -> bool }.
Definition is_answer (c : Z) : Prop := c = CONFACK \/ c = CONFNAK \/ c = CONFREJ.
(** Options lie within their buffers, a request is answered with an Ack, a Nak
    or a Reject. *)
Record sound_replies (R : replies) : Prop := {
  sr_addci n : let '(p, k) := rp_addci R n in 0 <= k <= Z.of_nat (length p);
  sr_reqci p n r : 0 <= n <= Z.of_nat (length p) ->
    let '(c, p', n') := rp_reqci R p n r in is_answer c /\ 0 <= n' <= Z.of_nat (length p') }.

Definition replying_lower (R : replies) : fsm_lower_cb recorder := {|
  cb_resetci := Some (ret tt);
  cb_cilen := Some (ret (rp_cilen R));
  cb_addci := Some (fun n => ret (rp_addci R n));
  cb_down := Some (record tld);
  cb_starting := Some (record tls) |}.
Definition replying (R : replies) : fsm_callbacks recorder := {|
  cb_lower := replying_lower R;
  cb_ackci := Some (fun p n => ret (rp_ackci R p n));
  cb_nakci := Some (fun p n => ret (rp_nakci R p n));
  cb_rejci := Some (fun p n => ret (rp_rejci R p n));
  cb_reqci := Some (fun p n r => ret (rp_reqci R p n r));
  cb_up := Some (record tlu);
  cb_finished := Some (record tlf);
  cb_retransmit := None;
  cb_extcode := Some (fun c i p n => ret (rp_extcode R c i p n)) |}.

(** ** The entry points, and their events *)

Inductive entry :=
  | E_lowerup | E_lowerdown | E_open | E_close | E_timeout | E_protreject | E_input (p : list Z).
Definition run_entry (R : replies) (e : entry) : M recorder Z unit :=
  match e with
  | E_lowerup => fsm_lowerup (replying_lower R)
  | E_lowerdown => fsm_lowerdown (replying_lower R)
  | E_open => fsm_open (replying_lower R)
  | E_close => fsm_close (replying_lower R)
  | E_timeout => fsm_timeout (replying R)
  | E_protreject => fsm_protreject (replying R)
  | E_input p => fsm_input (replying R) p (Z.of_nat (length p))
  end.

(** The Naks since the negotiation began. *)
Definition naks (f : fsm) : Z := if is_negotiating (f_state f) then f_nakloops f else 0.
(** [None] for a packet that is discarded: one that is not whole, an answer to
    another request or with other options, a code of the protocol's own. *)
Definition packet_event (R : replies) (f : fsm) (p : list Z) : option rfc_event :=
  match p with
  | code :: id :: h :: l :: data =>
      let n := be16 h l - HEADERLEN in
      if (n <? 0) || (Z.of_nat (length p) <? n + HEADERLEN) then None
      else if code =? CONFREQ then
        let '(c, _, _) := rp_reqci R data n (f_maxnakloops f <=? naks f) in
        Some (if c =? CONFACK then RCR_plus else RCR_minus)
      else if code =? CONFACK then if (id =? f_reqid f) && rp_ackci R data n then Some RCA else None
      else if code =? CONFNAK then if (id =? f_reqid f) && rp_nakci R data n then Some RCN else None
      else if code =? CONFREJ then if (id =? f_reqid f) && rp_rejci R data n then Some RCN else None
      else if code =? TERMREQ then Some RTR
      else if code =? TERMACK then Some RTA
      else if code =? CODEREJ then if n <? HEADERLEN then None else Some RXJ_plus
      else if rp_extcode R code id data n then None else Some RUC
  | _ => None
  end.
Definition event_of (R : replies) (f : fsm) (e : entry) : option rfc_event :=
  match e with
  | E_lowerup => Some Up
  | E_lowerdown => Some Down
  | E_open => Some Open
  | E_close => Some Close
  | E_timeout => Some (if f_retransmits f <=? 0 then TO_minus else TO_plus)
  | E_protreject => Some RXJ_minus
  | E_input p => packet_event R f p
  end.

Definition options_of (f : fsm) : rfc_options :=
  mk_rfc_options (has_flag OPT_PASSIVE f) (has_flag OPT_RESTART f) (has_flag OPT_SILENT f).
(** The actions and the next state for an entry; none where no event is. *)
Definition rfc_next (R : replies) (f : fsm) (e : entry) : list rfc_action * fsm_state :=
  match event_of R f e with
  | Some ev => rfc_step (options_of f) (f_state f) ev
  | None => ([], f_state f)
  end.

(** The cells in which the code does not do what the table says. *)
Definition diverges (f : fsm) (e : option rfc_event) : bool :=
  match f_state f, e with
  | STARTING, Some Close => true
  | OPENED, Some RTA => true
  | STOPPING, Some Open => has_flag OPT_RESTART f
  | _, _ => false
  end.
(** The counter is full where the table sends a request without [irc]. *)
Definition full_counter (f : fsm) : Prop :=
  match f_state f with ACKRCVD | OPENED => f_retransmits f = f_maxconfreqtransmits f | _ => True end.

(** ** What the packets are *)

Section Refines.
Context (R : replies) (HR : sound_replies R) (mru : Z) (Hmru : HEADERLEN <= mru <= MTU) (pr : bool).
#[local] Notation rec f l := (mk_recorder_full mru pr f l).
#[local] Notation noE := (fun _ _ => False).

Lemma wp_sdata code id p n f l (Q : unit -> recorder -> Prop) :
  0 <= n <= Z.of_nat (length p) ->
  Q tt (rec f (l ++ match action_of_code (u8 code) with Some a => [a] | None => [] end)) ->
  wp False (fsm_sdata code id p n) Q noE (rec f l).
Proof.
  intros Hn HQ. unfold HEADERLEN, MTU in *. unfold fsm_sdata, get_f. do 2 apply wp_bind, wp_gets.
  cbn [h_peer_mru recorder_host r_mru h_fsm r_fsm].
  set (k := if mru - HEADERLEN <? n then mru - HEADERLEN else n).
  assert (Hk : 0 <= k <= n /\ k <= mru - 4) by (unfold k, HEADERLEN; destruct (Z.ltb_spec (mru - 4) n); lia).
  apply wp_bind.
  assert (Hout : forall c : list Z, wp False (h_output (MAKEHEADER (f_protocol f) ++ PUTCHAR code ++ PUTCHAR id
      ++ PUTSHORT (k + HEADERLEN) ++ c)) Q noE (rec f l)).
  { intros c. change ((MAKEHEADER (f_protocol f) ++ PUTCHAR code ++ PUTCHAR id
      ++ PUTSHORT (k + HEADERLEN) ++ c) !! 4%nat) with (Some (u8 code)).
    unfold h_output, recorder_host. 
    change ((MAKEHEADER (f_protocol f) ++ PUTCHAR code ++ PUTCHAR id
      ++ PUTSHORT (k + HEADERLEN) ++ c) !! 4%nat) with (Some (u8 code)). cbn [mbind option_bind].
    destruct (action_of_code (u8 code)); [by apply wp_modify|]. rewrite app_nil_r in HQ. by apply wp_ret. }
  apply wp_if; intros C1; [by apply wp_ret|]. apply wp_if; intros C2; [lia|].
  apply wp_if; intros C3; [unfold MTU, DLLHEADERLEN, HEADERLEN in C3; lia|].
  eapply wp_access; [apply slice_fits; lia|]. done.
Qed.

(** A request: the counter, which is set unless this is a retransmission. *)
Definition after_request (again : bool) (f : fsm) (f' : fsm) : Prop :=
  f_state f' = f_state f /\ f_flags f' = f_flags f /\ f_maxconfreqtransmits f' = f_maxconfreqtransmits f
  /\ f_maxtermtransmits f' = f_maxtermtransmits f /\ f_maxnakloops f' = f_maxnakloops f /\ f_nakloops f' = naks f
  /\ f_retransmits f' = (if again then f_retransmits f else f_maxconfreqtransmits f) - 1.
Lemma wp_sconfreq_rfc again f l (Q : unit -> recorder -> Prop) : (again = true -> is_negotiating (f_state f) = true) ->
  (forall f', after_request again f f' -> Q tt (rec f' (l ++ [scr]))) ->
  wp False (fsm_sconfreq (replying_lower R) again) Q noE (rec f l).
Proof.
  intros Hag HQ. unfold fsm_sconfreq, get_f, upd_f, next_reqid, next_id, get_f, upd_f.
  apply wp_bind, wp_gets. apply wp_bind.
  cbn [h_fsm recorder_host r_fsm].
  apply (wp_mono _ (fun _ w => w = rec (f <| f_nakloops := naks f |>) l) _ noE); [|intros [] ? ->|done].
  { apply wp_when; intros C; unfold naks.
    - apply wp_bind, wp_ret, wp_modify. destruct (f_state f); try done.
    - destruct (f_state f); try done; by destruct f. }
  apply wp_bind. set (f1 := f <| f_nakloops := naks f |>).
  apply (wp_mono _ (fun _ w => exists f2, w = rec f2 l /\ f_state f2 = f_state f /\ f_flags f2 = f_flags f
    /\ f_maxconfreqtransmits f2 = f_maxconfreqtransmits f /\ f_maxtermtransmits f2 = f_maxtermtransmits f
    /\ f_maxnakloops f2 = f_maxnakloops f /\ f_nakloops f2 = naks f
    /\ f_retransmits f2 = if again then f_retransmits f else f_maxconfreqtransmits f) _ noE);
    [|intros [] ? (f2 & -> & H2)|done].
  { apply wp_when; intros C; destruct again; try done.
    - wp_go. eexists. split; [reflexivity|done].
    - eexists. split; [reflexivity|done]. }
  apply wp_bind, wp_gets, wp_bind.
  apply (wp_mono _ (fun _ w => w = rec f2 l) _ noE); [|intros [] ? ->|done].
  { apply wp_when; intros C; [|done]. apply wp_bind. unfold h_output, recorder_host.
  change (CLIENT !! 4%nat) with (Some 78).
    cbn [mbind option_bind]. change (action_of_code 78) with (@None rfc_action). apply wp_ret. by apply wp_ret. }
  apply wp_bind. cbn [cb_cilen cb_addci replying_lower]. do 2 wp_step. wp_step. wp_step.
  cbn [h_peer_mru recorder_host r_mru].
  set (n := if _ <? _ then _ else _). pose proof (sr_addci R HR n) as Ha. apply wp_ret.
  destruct (rp_addci R n) as [outp k]. do 2 wp_step. wp_step. apply wp_sdata; [done|].
  change (action_of_code (u8 CONFREQ)) with (Some scr). do 4 wp_step. apply wp_ret. apply HQ.
  destruct H2 as (E1 & E2 & E3 & E4 & E5 & E6 & E7). unfold after_request. cbv beta delta [upd]. cbn.
  by rewrite E1, E2, E3, E4, E5, E6, E7.
Qed.

(** The automaton [f] has taken the actions [x.1] and is in the state [x.2]. *)
Record stepped (f : fsm) (x : list rfc_action * fsm_state) (f' : fsm) : Prop := {
  st_state : f_state f' = x.2;
  st_flags : f_flags f' = f_flags f;
  st_conf : f_maxconfreqtransmits f' = f_maxconfreqtransmits f;
  st_term : f_maxtermtransmits f' = f_maxtermtransmits f;
  st_counter : f_retransmits f'
    = rfc_counter (f_maxconfreqtransmits f) (f_maxtermtransmits f) (f_retransmits f) x.1 }.
Definition visible (acts : list rfc_action) : list rfc_action := List.filter rfc_visible acts.
Definition gives f l x (Q : unit -> recorder -> Prop) : Prop :=
  forall f' l', stepped f x f' -> l' = l ++ visible x.1 -> Q tt (rec f' l').

#[local] Ltac fsm_cbn := cbv beta delta [upd]; cbn [h_put_fsm h_fsm recorder_host r_mru r_probing r_fsm
  r_log h_peer_mru
  logged replying_lower replying cb_lower cb_resetci cb_cilen cb_addci cb_down cb_starting cb_ackci cb_nakci cb_rejci
  cb_reqci cb_up cb_finished cb_retransmit cb_extcode call].
#[local] Ltac fsm_step :=
  lazymatch goal with
  | |- wp _ (fsm_sconfreq _ _) _ _ _ => apply wp_sconfreq_rfc;
      [first [done|intros _; match goal with H : f_state ?f = _ |- is_negotiating (f_state ?f) = _ => by
        rewrite H end]
      |intros ? (?&?&?&?&?&?&?)]
  | |- wp _ (fsm_sdata _ _ [] 0) _ _ _ => apply wp_sdata; [done|]
  | |- wp _ (set_state _) _ _ _ => apply wp_modify
  | |- wp _ (upd_f _) _ _ _ => apply wp_modify
  | |- wp _ get_f _ _ _ => apply wp_gets
  | |- wp _ (record _) _ _ _ => apply wp_modify
  | |- wp _ (h_timeout _) _ _ _ => apply wp_ret
  | |- wp _ h_untimeout _ _ _ => apply wp_ret
  | |- wp _ send_termreq _ _ _ => unfold send_termreq, next_reqid, next_id
  | |- wp _ init_termreq _ _ _ => unfold init_termreq
  | |- _ => wp_step
  end; fsm_cbn.
#[local] Ltac tidy :=
  repeat match goal with
  | H : negb _ = true |- _ => apply negb_true_iff in H
  | H : negb _ = false |- _ => apply negb_false_iff in H
  | H : bool_decide _ = true |- _ => apply bool_decide_eq_true in H
  | H : bool_decide _ = false |- _ => apply bool_decide_eq_false in H
  end; repeat case_decide; try (exfalso; congruence).
(** The step is that of the cell, whatever the options that do not matter. *)
#[local] Ltac stepped_to HQ :=
  tidy; eapply HQ; unfold rfc_step, rfc_silent, options_of; cbn [o_silent o_restart o_passive];
  repeat match goal with H : has_flag _ _ = _ |- _ => rewrite H end;
  rewrite ?andb_false_r, ?andb_true_r; cbn;
  first [solve [split; cbn in *; congruence || lia]|by rewrite <- ?app_assoc, ?app_nil_r].

Lemma wp_lowerup f l Q : gives f l (rfc_silent (options_of f) (f_state f) Up) Q ->
  wp False (fsm_lowerup (replying_lower R)) Q noE (rec f l).
Proof.
  intros HQ. unfold fsm_lowerup. do 2 fsm_step. destruct (f_state f) eqn:Hs; repeat fsm_step; stepped_to HQ.
Qed.
Lemma wp_lowerdown f l Q : gives f l (rfc_cell (f_state f) Down) Q ->
  wp False (fsm_lowerdown (replying_lower R)) Q noE (rec f l).
Proof.
  intros HQ. unfold fsm_lowerdown. do 2 fsm_step. destruct (f_state f) eqn:Hs; repeat fsm_step; stepped_to HQ.
Qed.

Lemma stepped_options f x f' : stepped f x f' -> options_of f' = options_of f.
Proof. intros []. unfold options_of, has_flag. by rewrite st_flags0. Qed.
Lemma counter_app mc mt a b : Forall (fun x => x <> irc) a -> forall r,
  rfc_counter mc mt r (a ++ b) = rfc_counter mc mt (rfc_counter mc mt r a) b.
Proof. induction 1 as [|x a Hx _ IH]; intros r; [done|]. by destruct x; cbn [app rfc_counter]. Qed.
Lemma stepped_trans f x f1 y f2 : Forall (fun x => x <> irc) x.1 -> stepped f x f1 -> stepped f1 y f2 ->
  stepped f (x.1 ++ y.1, y.2) f2.
Proof. intros Hx [] []. split; cbn; [congruence..|]. rewrite counter_app by done. congruence. Qed.
(** A Down and an Up. *)
Lemma wp_restart f l Q :
  gives f l (if has_flag OPT_RESTART f then
    let '(a2, s2) := rfc_cell (f_state f) Down in let '(a3, s3) := rfc_silent (options_of f) s2 Up in (a2 ++ a3, s3)
    else ([], f_state f)) Q ->
  wp False (fsm_restart (replying_lower R)) Q noE (rec f l).
Proof.
  intros HQ. unfold fsm_restart. do 2 fsm_step. apply wp_when; intros C; rewrite C in HQ.
  - apply wp_bind, wp_lowerdown. intros f1 l1 H1 ->. apply wp_lowerup. intros f2 l2 H2 ->.
    pose proof H1 as []. rewrite st_state0, (stepped_options _ _ _ H1) in H2 |- *.
    assert (Ha : Forall (fun x => x <> irc) (rfc_cell (f_state f) Down).1)
      by (destruct (f_state f); cbn; repeat constructor; done).
    destruct (rfc_cell (f_state f) Down) as [a2 s2]. cbn [fst snd] in *.
    destruct (rfc_silent (options_of f) s2 Up) as [a3 s3]. eapply HQ.
    + exact (stepped_trans f (a2, s2) f1 (a3, s3) f2 Ha H1 H2).
    + unfold visible. cbn [fst]. by rewrite List.filter_app, app_assoc.
  - eapply HQ; [by split|by rewrite app_nil_r].
Qed.
(** What [fsm_open] falls through to. *)
Lemma wp_open_restart f g l s Q : f_state g = s -> restarts (f_state f) = true ->
  rfc_cell (f_state f) Open = ([], s) ->
  f_flags g = f_flags f /\ f_maxconfreqtransmits g = f_maxconfreqtransmits f
    /\ f_maxtermtransmits g = f_maxtermtransmits f /\ f_retransmits g = f_retransmits f ->
  gives f l (rfc_step (options_of f) (f_state f) Open) Q -> wp False (fsm_restart (replying_lower R)) Q noE (rec g l).
Proof.
  intros Hg Hr Ho (E1 & E2 & E3 & E4) HQ.
  assert (Hsil : rfc_silent (options_of f) (f_state f) Open = ([], s)).
  { unfold rfc_silent. rewrite Ho. by destruct (f_state f); rewrite ?andb_false_r. }
  assert (Hopt : options_of g = options_of f) by (unfold options_of, has_flag; by rewrite E1).
  assert (Hx : (if has_flag OPT_RESTART g then let '(a2, s2) := rfc_cell (f_state g) Down in
      let '(a3, s3) := rfc_silent (options_of g) s2 Up in (a2 ++ a3, s3) else ([], f_state g))
    = rfc_step (options_of f) (f_state f) Open).
  { unfold rfc_step. rewrite Hsil, Hr, Hopt, Hg, bool_decide_true by done. rewrite !andb_true_r.
    rewrite bool_decide_false, andb_false_r by done. cbn [andb].
    assert (has_flag OPT_RESTART g = o_restart (options_of f)) as -> by (unfold has_flag; by rewrite E1).
    assert (rfc_silent (options_of f) s Down = rfc_cell s Down) as ->
      by (unfold rfc_silent; by destruct s; rewrite andb_false_r).
    done. }
  apply wp_restart. rewrite Hx. intros f' l' [] ->. eapply HQ; [|done]. split; congruence.
Qed.
Lemma wp_open f l Q : diverges f (Some Open) = false -> gives f l (rfc_step (options_of f) (f_state f) Open) Q ->
  wp False (fsm_open (replying_lower R)) Q noE (rec f l).
Proof.
  intros Hd HQ. unfold fsm_open. do 2 fsm_step. unfold diverges in Hd.
  destruct (f_state f) eqn:Hs; repeat fsm_step.
  all: lazymatch goal with
    | |- wp _ (fsm_restart _) _ _ _ => eapply (wp_open_restart f);
      [reflexivity|by rewrite Hs|by rewrite Hs|done|by rewrite Hs]
    | _ => stepped_to HQ
    end.
Qed.
Lemma wp_close f l Q : diverges f (Some Close) = false -> gives f l (rfc_step (options_of f) (f_state f) Close) Q ->
  wp False (fsm_close (replying_lower R)) Q noE (rec f l).
Proof.
  intros Hd HQ. unfold fsm_close. do 2 fsm_step. unfold diverges in Hd.
  destruct (f_state f) eqn:Hs; [..|]; try done; repeat fsm_step; stepped_to HQ.
Qed.
Lemma wp_fsm_timeout f l Q :
  gives f l (rfc_step (options_of f) (f_state f) (if f_retransmits f <=? 0 then TO_minus else TO_plus)) Q ->
  wp False (fsm_timeout (replying R)) Q noE (rec f l).
Proof.
  intros HQ. unfold fsm_timeout. do 2 fsm_step.
  destruct (f_state f) eqn:Hs; destruct (f_retransmits f <=? 0) eqn:Hr; repeat fsm_step; stepped_to HQ.
Qed.
Lemma wp_protreject f l Q : gives f l (rfc_step (options_of f) (f_state f) RXJ_minus) Q ->
  wp False (fsm_protreject (replying R)) Q noE (rec f l).
Proof.
  intros HQ. unfold fsm_protreject. do 2 fsm_step. destruct (f_state f) eqn:Hs; repeat fsm_step; stepped_to HQ.
Qed.
Lemma wp_rtermreq id f l Q : f_state f <> INITIAL -> f_state f <> STARTING ->
  gives f l (rfc_step (options_of f) (f_state f) RTR) Q -> wp False (fsm_rtermreq (replying R) id) Q noE (rec f l).
Proof.
  intros H1 H2 HQ. unfold fsm_rtermreq. do 3 fsm_step. destruct (f_state f) eqn:Hs; try done;
    repeat fsm_step; stepped_to HQ.
Qed.
Lemma wp_rtermack f l Q : diverges f (Some RTA) = false -> f_state f <> INITIAL -> f_state f <> STARTING ->
  gives f l (rfc_step (options_of f) (f_state f) RTA) Q -> wp False (fsm_rtermack (replying R)) Q noE (rec f l).
Proof.
  intros Hd H1 H2 HQ. unfold diverges in Hd. unfold fsm_rtermack. do 2 fsm_step.
  destruct (f_state f) eqn:Hs; try done; repeat fsm_step; stepped_to HQ.
Qed.
Lemma wp_rcoderej p n f l Q : HEADERLEN <= n <= Z.of_nat (length p) -> f_state f <> INITIAL ->
  f_state f <> STARTING ->
  gives f l (rfc_step (options_of f) (f_state f) RXJ_plus) Q -> wp False (fsm_rcoderej p n) Q noE (rec f l).
Proof.
  intros Hn H1 H2 HQ. unfold fsm_rcoderej, HEADERLEN in *. rewrite (proj2 (Z.ltb_ge _ _)) by lia.
  destruct p as [|a [|b p]]; cbn [length] in Hn; try lia. apply wp_bind, (wp_access _ a); [done|].
  apply wp_bind, (wp_access _ b); [done|]. do 2 fsm_step.
  destruct (f_state f) eqn:Hs; try done; repeat fsm_step; stepped_to HQ.
Qed.
(** The answers to our own request. *)
Lemma wp_rconfack id p n f l Q : full_counter f -> f_state f <> INITIAL -> f_state f <> STARTING ->
  gives f l (if (id =? f_reqid f) && rp_ackci R p n then rfc_step (options_of f) (f_state f) RCA else ([],
    f_state f)) Q ->
  wp False (fsm_rconfack (replying R) id p n) Q noE (rec f l).
Proof.
  intros Hc H1 H2 HQ. unfold full_counter in Hc. unfold fsm_rconfack. do 2 fsm_step.
  destruct (id =? f_reqid f); cbn [negb andb] in *.
  2: { apply wp_ret. eapply HQ; [by split|by rewrite app_nil_r]. }
  do 2 fsm_step. destruct (rp_ackci R p n); cbn [negb].
  2: { apply wp_ret. eapply HQ; [by split|by rewrite app_nil_r]. }
  do 4 fsm_step. change (f_state (set_f_reqid _ f)) with (f_state f).
  destruct (f_state f) eqn:Hs; try done; repeat fsm_step; stepped_to HQ.
Qed.
Lemma wp_rconfnakrej code id p n f l Q : code = CONFNAK \/ code = CONFREJ -> full_counter f ->
  f_state f <> INITIAL -> f_state f <> STARTING ->
  gives f l (if (id =? f_reqid f) && (if code =? CONFNAK then rp_nakci R p n else rp_rejci R p n)
    then rfc_step (options_of f) (f_state f) RCN else ([], f_state f)) Q ->
  wp False (fsm_rconfnakrej (replying R) code id p n) Q noE (rec f l).
Proof.
  intros Hcode Hc H1 H2 HQ. unfold full_counter in Hc. unfold fsm_rconfnakrej. do 2 fsm_step.
  destruct (id =? f_reqid f); cbn [negb andb] in *.
  2: { apply wp_ret. eapply HQ; [by split|by rewrite app_nil_r]. }
  set (ok := if code =? CONFNAK then rp_nakci R p n else rp_rejci R p n) in *.
  apply wp_bind. apply (wp_mono _ (fun b w => b = ok /\ w = rec f l) _ noE); [|intros ? ? [-> ->]|done].
  { destruct Hcode as [-> | ->]; by apply wp_ret. }
  destruct ok; cbn [negb].
  2: { apply wp_ret. eapply HQ; [by split|by rewrite app_nil_r]. }
  do 4 fsm_step. change (f_state (set_f_reqid _ f)) with (f_state f).
  destruct (f_state f) eqn:Hs; try done; repeat fsm_step; stepped_to HQ.
Qed.
(** The verdict on a request, and where it leads. *)
Definition verdict (p : list Z) (n : Z) (f : fsm) : Z := (rp_reqci R p n (f_maxnakloops f <=? naks f)).1.1.
Definition checked (c : Z) (s : fsm_state) : list rfc_action * fsm_state :=
  if c =? CONFACK then (if decide (s = ACKRCVD) then ([sca; tlu], OPENED) else ([sca], ACKSENT))
  else ([scn], if decide (s = ACKRCVD) then ACKRCVD else REQSENT).
Lemma wp_rconfreq_verdict id p n f g l Q : 0 <= n <= Z.of_nat (length p) ->
  f_maxnakloops g = f_maxnakloops f -> f_nakloops g = naks f ->
  gives g l (checked (verdict p n f) (f_state g)) Q ->
  wp False (fsm_rconfreq_check (replying R) id p n) Q noE (rec g l).
Proof.
  intros Hn Hm Hk HQ. unfold fsm_rconfreq_check. fsm_cbn. do 2 fsm_step. fsm_step. apply wp_ret. rewrite Hm, Hk.
  pose proof (sr_reqci R HR p n (f_maxnakloops f <=? naks f) Hn) as Hc. unfold verdict in HQ.
  destruct (rp_reqci R p n (f_maxnakloops f <=? naks f)) as [[c p'] n']. destruct Hc as [Hc Hn'].
  cbn [fst] in HQ. unfold checked in HQ. apply wp_bind, wp_sdata; [done|]. do 2 fsm_step.
  destruct Hc as [-> |[-> | ->]]; cbn [Z.eqb CONFACK CONFNAK CONFREJ] in *; repeat fsm_step; stepped_to HQ.
Qed.
Lemma wp_rconfreq id p n f l Q : 0 <= n <= Z.of_nat (length p) -> full_counter f ->
  f_state f <> INITIAL -> f_state f <> STARTING ->
  gives f l (rfc_step (options_of f) (f_state f) (if verdict p n f =? CONFACK then RCR_plus else RCR_minus)) Q ->
  wp False (fsm_rconfreq (replying R) id p n) Q noE (rec f l).
Proof.
  intros Hn Hc H1 H2 HQ. unfold full_counter in Hc. unfold fsm_rconfreq. do 2 fsm_step.
  assert (Hnaks : is_negotiating (f_state f) = true -> f_nakloops f = naks f) by (unfold naks; by intros ->).
  destruct (f_state f) eqn:Hs; try done; repeat fsm_step.
  all: lazymatch goal with
    | |- wp _ (fsm_rconfreq_check _ _ _ _) _ _ _ => idtac
    | _ => destruct (verdict p n f =? CONFACK); stepped_to HQ
    end.
  all: eapply (wp_rconfreq_verdict _ _ _ f); [done|cbn in *; congruence|cbn in *; (congruence || by apply Hnaks)|].
  all: intros g' l' [] ->; cbn in *.
  all: unfold checked in *; destruct (verdict p n f =? CONFACK).
  all: try (exfalso; congruence); stepped_to HQ.
Qed.

(** ** Every packet *)

Lemma wp_nothing f l Q : gives f l ([], f_state f) Q -> wp False (ret tt : M recorder Z unit) Q noE (rec f l).
Proof. intros HQ. apply wp_ret. eapply HQ; [by split|by rewrite app_nil_r]. Qed.
Lemma wp_unknown code id p n f l Q : 0 <= n + HEADERLEN <= Z.of_nat (length p) -> f_state f <> INITIAL ->
  f_state f <> STARTING ->
  gives f l (if rp_extcode R code id (drop 4 p) n then ([],
    f_state f) else rfc_step (options_of f) (f_state f) RUC) Q ->
  wp False (handled <- ret (rp_extcode R code id (drop 4 p) n) ;;
    when (negb handled) (i <- next_id ;; fsm_sdata CODEREJ i p (n + HEADERLEN)) : M recorder Z unit) Q noE (rec f l).
Proof.
  intros Hn H1 H2 HQ. fsm_step. fsm_step. destruct (rp_extcode R code id (drop 4 p) n); cbn [negb when].
  - by apply wp_nothing.
  - unfold next_id. repeat fsm_step. apply wp_sdata; [done|]. change (action_of_code (u8 CODEREJ)) with (Some scj).
    destruct (f_state f) eqn:Hs; try done; stepped_to HQ.
Qed.
(** A packet in a state without a lower layer has no event. *)
Lemma no_layer f ev : f_state f = INITIAL \/ f_state f = STARTING ->
  match ev with RCR_plus | RCR_minus | RCA | RCN | RTR | RTA | RUC | RXJ_plus => True | _ => False end ->
  rfc_step (options_of f) (f_state f) ev = ([], f_state f).
Proof.
  intros [Hs|Hs] He; unfold rfc_step, rfc_silent; rewrite Hs; destruct ev; try done; cbn; by rewrite !andb_false_r.
Qed.
Lemma wp_input p f l Q : full_counter f -> diverges f (packet_event R f p) = false -> 
  gives f l (rfc_next R f (E_input p)) Q ->
  wp False (fsm_input (replying R) p (Z.of_nat (length p))) Q noE (rec f l).
Proof.
  intros Hc Hd HQ. unfold rfc_next, event_of in HQ. unfold fsm_input. apply wp_if; intros Hlen.
  { apply wp_nothing. unfold HEADERLEN in Hlen. apply Z.ltb_lt in Hlen.
  destruct p as [|? [|? [|? [|? p]]]]; cbn [length] in Hlen; try lia; exact HQ. }
  unfold HEADERLEN in Hlen. apply Z.ltb_ge in Hlen. destruct p as [|code [|id [|h [|lo data]]]];
    cbn [length] in Hlen; try lia.
  set (pkt := code :: id :: h :: lo :: data) in *. unfold read_header. apply wp_bind.
  do 4 (apply wp_bind; eapply wp_access; [done|]).
  apply wp_ret. unfold packet_event, pkt in HQ, Hd. cbv iota beta zeta in HQ, Hd. fold pkt in HQ, Hd.
  set (n := be16 h lo - HEADERLEN) in *.
  apply wp_if; intros C1.
  { apply wp_nothing. by rewrite (proj2 (Z.ltb_lt n 0)) in HQ by (unfold n, HEADERLEN in *; lia). }
  apply wp_if; intros C2.
  { apply wp_nothing. rewrite (proj2 (Z.ltb_lt (Z.of_nat (length pkt)) (n + HEADERLEN))), orb_true_r in HQ; [done|].
    unfold n. lia. }
  apply Z.ltb_ge in C1, C2. assert (Hn0 : 0 <= n) by (unfold n, HEADERLEN in *; lia).
  assert (Hn1 : n + HEADERLEN <= Z.of_nat (length pkt)) by (unfold n, HEADERLEN in *; lia).
  rewrite (proj2 (Z.ltb_ge n 0) Hn0), (proj2 (Z.ltb_ge _ (n + HEADERLEN)) Hn1) in HQ, Hd.
  cbn [orb] in HQ, Hd.
  assert (Hn : 0 <= n <= Z.of_nat (length data)) by (unfold pkt, HEADERLEN in *; cbn [length] in *; lia).
  change (drop 4 pkt) with data. do 2 fsm_step.
  destruct (decide (f_state f = INITIAL \/ f_state f = STARTING)) as [Hs|Hs].
  - assert (Hret : wp False (ret tt : M recorder Z unit) Q noE (rec f l)).
    { apply wp_nothing. revert HQ. repeat (case_match; try done); intros HQ;
        rewrite no_layer in HQ by done; exact HQ. }
    destruct Hs as [-> | ->]; exact Hret.
  - assert (H1 : f_state f <> INITIAL) by tauto. assert (H2 : f_state f <> STARTING) by tauto.
    assert (Hrun : wp False (fsm_dispatch (replying R) pkt code id data n) Q noE (rec f l)).
    2: { destruct (f_state f); try done; exact Hrun. }
    unfold fsm_dispatch. destruct (code =? CONFREQ).
    { apply wp_rconfreq; [done..|]. unfold verdict. revert HQ.
      destruct (rp_reqci R data n (f_maxnakloops f <=? naks f)) as [[c p'] n']. done. }
    destruct (code =? CONFACK).
    { apply wp_rconfack; [done..|]. by destruct (_ && _). }
    destruct (Z.eqb_spec code CONFNAK) as [Hk|Hk]; cbn [orb].
    { apply wp_rconfnakrej; [by left|done..|]. rewrite Hk. change (CONFNAK =? CONFNAK) with true.
    by destruct (_ && _). }
    destruct (Z.eqb_spec code CONFREJ) as [Hj|Hj]; cbn [orb].
    { apply wp_rconfnakrej; [by right|done..|]. rewrite Hj. change (CONFREJ =? CONFNAK) with false.
    by destruct (_ && _). }
    destruct (code =? TERMREQ); [by apply wp_rtermreq|].
    destruct (code =? TERMACK); [by apply wp_rtermack|].
    destruct (code =? CODEREJ).
    { destruct (Z.ltb_spec n HEADERLEN); [|by apply wp_rcoderej; [lia|..]].
      unfold fsm_rcoderej. rewrite (proj2 (Z.ltb_lt _ _)) by done. by apply wp_nothing. }
    cbn [cb_extcode replying]. apply (wp_unknown code id pkt n); [unfold pkt, HEADERLEN in *;
      cbn [length] in *; lia|done|done|].
    change (drop 4 pkt) with data. by destruct (rp_extcode R code id data n).
Qed.

Lemma wp_entry e f l Q : full_counter f -> diverges f (event_of R f e) = false -> gives f l (rfc_next R f e) Q ->
  wp False (run_entry R e) Q noE (rec f l).
Proof.
  intros Hc Hd HQ. destruct e; cbn [run_entry].
  - assert (E : rfc_next R f E_lowerup = rfc_silent (options_of f) (f_state f) Up).
    { unfold rfc_next, event_of, rfc_step. rewrite !bool_decide_false, !andb_false_r by done.
      cbn [andb]. by destruct (rfc_silent _ _ _). }
    rewrite E in HQ. by apply wp_lowerup.
  - assert (E : rfc_next R f E_lowerdown = rfc_cell (f_state f) Down).
    { unfold rfc_next, event_of, rfc_step, rfc_silent. rewrite !bool_decide_false, !andb_false_r by done.
      cbn [andb]. destruct (f_state f); by rewrite ?andb_false_r. }
    rewrite E in HQ. by apply wp_lowerdown.
  - by apply wp_open.
  - by apply wp_close.
  - by apply wp_fsm_timeout.
  - by apply wp_protreject.
  - by apply wp_input.
Qed.

(** The table keeps the counter full where it has to be. *)
Lemma full_counter_next e f f' : full_counter f -> diverges f (event_of R f e) = false ->
  stepped f (rfc_next R f e) f' -> full_counter f'.
Proof.
  intros Hc Hd [Hs _ Hcf _ Hr]. unfold full_counter in *. rewrite Hs, Hcf, Hr. clear Hs Hcf Hr. unfold rfc_next.
  destruct (event_of R f e) as [ev|]; [|done]. unfold diverges in Hd. unfold rfc_step, rfc_silent.
  destruct (options_of f) as [p r s]. cbn [o_passive o_restart o_silent].
  destruct (f_state f), ev; try done; destruct p, r, s; cbn in *; try done.
Qed.

Lemma wp_termack_opened id f l Q : f_state f = OPENED -> gives f l ([tld; irc; scr], OPENED) Q ->
  wp False (run_entry R (E_input [TERMACK; id; 0; 4])) Q noE (rec f l).
Proof.
  intros Hs HQ. cbn [run_entry]. unfold fsm_input. change (if _ <? HEADERLEN then _ else ?m) with m.
  unfold read_header. apply wp_bind. do 4 (apply wp_bind; eapply wp_access; [done|]). apply wp_ret.
  do 2 (apply wp_if; intros ?; [done|]). do 2 fsm_step. rewrite Hs. cbn [fsm_dispatch TERMACK Z.eqb].
  unfold fsm_dispatch. change (wp False (fsm_rtermack (replying R)) Q noE (rec f l)).
  unfold fsm_rtermack. do 2 fsm_step. rewrite Hs. repeat fsm_step. stepped_to HQ.
Qed.
Lemma wp_close_starting f l Q : f_state f = STARTING -> gives f l ([], INITIAL) Q ->
  wp False (run_entry R E_close) Q noE (rec f l).
Proof. intros Hs HQ. cbn [run_entry]. unfold fsm_close. do 2 fsm_step. rewrite Hs. fsm_step. stepped_to HQ. Qed.
End Refines.

(** C1: every entry point of fsm.c and every packet, from any state and with any
    option flags, peer's MRU up to 1500 and verdicts of the protocol on options:
    the automaton takes exactly the actions of the RFC 1661 table for the event
    that the call or the packet is, in their order, moves to the next state of
    the table and counts as the table does; a packet that is no event, and an
    event without an entry, change nothing.  The callbacks only record, the
    restart counter is full in Ack-Rcvd and Opened, as every such step leaves
    it, and three cells are excepted (see [fsm_rfc1661_divergences]). *)
Theorem fsm_refines_rfc1661 R mru probing f e :
  sound_replies R -> HEADERLEN <= mru <= MTU -> full_counter f -> diverges f (event_of R f e) = false ->
  let '(acts, s') := rfc_next R f e in
  exists f', run_entry R e (mk_recorder_full mru probing f []) = Ok tt (mk_recorder_full mru probing f'
    (visible acts))
  /\ f_state f' = s'
  /\ f_retransmits f' = rfc_counter (f_maxconfreqtransmits f) (f_maxtermtransmits f) (f_retransmits f) acts
  /\ full_counter f'.
Proof.
  intros HR Hm Hc Hd. pose proof (fun f' => full_counter_next R e f f' Hc Hd) as Hkeep.
  assert (Hw : wp False (run_entry R e) (fun _ w => exists f',
    w = mk_recorder_full mru probing f' (visible (rfc_next R f e).1)
    /\ stepped f (rfc_next R f e) f') (fun _ _ => False) (mk_recorder_full mru probing f [])).
  { apply wp_entry; [done..|]. intros f' l' Hs ->. by exists f'. }
  destruct (rfc_next R f e) as [acts s']. unfold wp in Hw.
  destruct (run_entry R e _) as [[] w|? ?| |]; [|done..]. destruct Hw as (f' & -> & Hs). exists f'. split; [done|].
  specialize (Hkeep f' Hs). by destruct Hs.
Qed.

(** The cells in which the code is not the table.  A Terminate-Ack in Opened
    brings the upper layers down and sends a new request but leaves the automaton
    in Opened, where the table says Req-Sent; a Close in Starting does not tell
    the lower layer that it is no longer needed (tlf); an Open in Stopping does
    not restart, with the restart option either. *)
Theorem fsm_rfc1661_divergences R mru probing f id : sound_replies R -> HEADERLEN <= mru <= MTU ->
  (f_state f = OPENED -> exists f', run_entry R (E_input [TERMACK; id; 0; 4]) (mk_recorder_full mru probing f [])
      = Ok tt (mk_recorder_full mru probing f' [tld; scr]) /\ f_state f' = OPENED
      /\ (rfc_next R f (E_input [TERMACK; id; 0; 4])) = ([tld; scr], REQSENT))
  /\ (f_state f = STARTING -> exists f', run_entry R E_close (mk_recorder_full mru probing f [])
      = Ok tt (mk_recorder_full mru probing f' []) /\ f_state f' = INITIAL /\ rfc_next R f E_close = ([tlf], INITIAL))
  /\ (f_state f = STOPPING -> has_flag OPT_RESTART f = true -> has_flag OPT_SILENT f = false ->
      run_entry R E_open (mk_recorder_full mru probing f []) = Ok tt (mk_recorder_full mru probing f [])
      /\ rfc_next R f E_open = ([irc; scr], REQSENT)).
Proof.
  intros HR Hm. split; [|split].
  - intros Hs. assert (Hw : wp False (run_entry R (E_input [TERMACK; id; 0; 4]))
      (fun _ w => exists f', w = mk_recorder_full mru probing f' [tld; scr] /\ f_state f' = OPENED)
      (fun _ _ => False) (mk_recorder_full mru probing f [])).
    { apply wp_termack_opened; [done..|]. intros f' l' [] ->. by exists f'. }
    unfold wp in Hw. destruct (run_entry _ _ _) as [[] w|? ?| |]; [|done..]. destruct Hw as (f' & -> & Hs').
    exists f'. split; [done|]. split; [done|]. unfold rfc_next. change (event_of _ _ _) with (Some RTA).
    cbv iota. unfold rfc_step, rfc_silent. rewrite Hs. by destruct (options_of f) as [[] [] []].
  - intros Hs. unfold rfc_next. cbn [event_of run_entry]. unfold fsm_close, get_f, bind, gets.
    cbn [h_fsm recorder_host r_fsm].
    rewrite Hs. eexists. split; [reflexivity|]. split; [done|]. unfold rfc_step, rfc_silent.
    by destruct (options_of f) as [[] [] []].
  - intros Hs Hr Hsil. unfold rfc_next. cbn [event_of run_entry]. unfold fsm_open, get_f, bind, gets.
    cbn [h_fsm recorder_host r_fsm].
    rewrite Hs. split; [done|]. unfold rfc_step, rfc_silent, options_of. cbn. rewrite Hr, Hsil. done.
Qed.

(** ** Concrete automata *)

(** A protocol without options that gives every request the same answer. *)
Definition plain_replies (answer : Z) : replies := {|
  rp_cilen := 0; rp_addci := fun _ => ([], 0); rp_ackci := fun _ _ => true; rp_nakci := fun _ _ => true;
  rp_rejci := fun _ _ => true; rp_reqci := fun p n _ => (answer, p, n); rp_extcode := fun _ _ _ _ => false |}.
Definition recorder_callbacks (answer : Z) : fsm_callbacks recorder := replying (plain_replies answer).
Lemma plain_sound answer : is_answer answer -> sound_replies (plain_replies answer).
Proof. intros Ha. split; [by intros n|]. intros p n r Hn. by split. Qed.
Definition result_of (o : outcome recorder Z unit) : option (list rfc_action * fsm_state) :=
  match o with
  | Ok _ r => Some (r_log r, f_state (r_fsm r))
  | _ => None
  end.

Definition sample_fsm (s : fsm_state) : fsm := {|
  f_unit := 0; f_protocol := LCP; f_state := s; f_flags := 0; f_id := 7;
  f_reqid := 7; f_timeouttime := DEFTIMEOUT;
  f_maxconfreqtransmits := DEFMAXCONFREQS; f_retransmits := 9;
  f_maxtermtransmits := DEFMAXTERMREQS; f_nakloops := 0;
  f_maxnakloops := DEFMAXNAKLOOPS |}.
(** A silent unit that restarts. *)
Definition silent_fsm (s : fsm_state) : fsm :=
  sample_fsm s <| f_flags := Z.lor OPT_SILENT OPT_RESTART |> <| f_retransmits := DEFMAXCONFREQS |>.

(** An Ack of our request in Ack-Sent, with data behind it; an Open of an opened
    automaton that restarts silently. *)
Lemma fsm_refines_rfc1661_witness :
  (exists f', run_entry (plain_replies CONFACK) (E_input [CONFACK; 7; 0; 6; 1; 2;
    3]) (mk_recorder (sample_fsm ACKSENT) [])
     = Ok tt (mk_recorder f' [tlu]) /\ f_state f' = OPENED /\ f_retransmits f' = 10 /\ full_counter f')
  /\ (exists f', run_entry (plain_replies CONFNAK) E_open (mk_recorder (silent_fsm OPENED) [])
     = Ok tt (mk_recorder f' [tld]) /\ f_state f' = STOPPED /\ f_retransmits f' = 10 /\ full_counter f').
Proof.
  split.
  - apply (fsm_refines_rfc1661 (plain_replies CONFACK) MTU false (sample_fsm ACKSENT) (E_input [CONFACK; 7;
      0; 6; 1; 2; 3]));
      [by apply plain_sound; left|by split|exact I|reflexivity].
  - apply (fsm_refines_rfc1661 (plain_replies CONFNAK) MTU false (silent_fsm OPENED) E_open);
      [by apply plain_sound; right; left|by split|reflexivity|reflexivity].
Defined.
