(* ===== verification/FsmProps.v ===== *)
(** * Packets, counters and identifiers of the automaton

    What fsm.c puts on the wire and within which bounds, which packets it
    ignores, how often it retransmits, and how it matches replies to requests. *)

From S2P Require Export FsmRfc.

Section Sdata.
Context {W : Type} `{H : FsmHost W}.

(** The data length after the adjustment to the peer's MRU. *)
Definition sent_len (mru datalen : Z) : Z := Z.min datalen (mru - HEADERLEN).

Definition sent_packet (protocol code id : Z) (data : list Z) (n : Z) : list Z :=
  MAKEHEADER protocol ++ PUTCHAR code ++ PUTCHAR id ++ PUTSHORT (n + HEADERLEN)
  ++ take (Z.to_nat n) data.

(** C25: [fsm_sdata] sends exactly one packet: address, control and protocol,
    code, identifier, a length field that counts the header and the data,
    and the first [min datalen (peer_mru - 4)] bytes of the data.  With a
    peer MRU of at most 1500 the packet fits in [outpacket_buf]. *)
Theorem fsm_sdata_sends code id data datalen w :
  0 <= datalen <= Z.of_nat (length data) ->
  HEADERLEN <= h_peer_mru w <= MTU ->
  let n := sent_len (h_peer_mru w) datalen in
  let pkt := sent_packet (f_protocol (h_fsm w)) code id data n in
  fsm_sdata code id data datalen w = h_output pkt w
  /\ Z.of_nat (length pkt) = DLLHEADERLEN + HEADERLEN + n
  /\ Z.of_nat (length pkt) <= MTU + DLLHEADERLEN
  /\ be16 (nth 6 pkt 0) (nth 7 pkt 0) = n + HEADERLEN.
Proof.
  intros Hd Hm n pkt. unfold HEADERLEN, MTU, DLLHEADERLEN in *.
  assert (Hn : 0 <= n <= datalen /\ n <= h_peer_mru w - 4)
    by (unfold n, sent_len, HEADERLEN; lia).
  assert (Hlen : length (take (Z.to_nat n) data) = Z.to_nat n)
    by (rewrite length_take; lia).
  split_and!.
  - unfold fsm_sdata, get_f, gets, bind at 1, bind at 1.
    replace (if h_peer_mru w - HEADERLEN <? datalen then h_peer_mru w - HEADERLEN
             else datalen) with n
      by (unfold n, sent_len, HEADERLEN; destruct (Z.ltb_spec (h_peer_mru w - 4) datalen); lia).
    unfold bind.
    destruct (Z.eqb_spec n 0) as [E|E].
    { unfold pkt, sent_packet. rewrite E. cbn [ret]. by rewrite app_nil_r || done. }
    rewrite (proj2 (Z.ltb_ge n 0)) by lia.
    rewrite (proj2 (Z.ltb_ge _ _)) by (unfold MTU, DLLHEADERLEN, HEADERLEN; lia).
    rewrite slice_fits by lia. done.
  - unfold pkt, sent_packet. cbn. rewrite Hlen. lia.
  - unfold pkt, sent_packet. cbn. rewrite Hlen. lia.
  - unfold pkt, sent_packet, PUTSHORT. cbn. rewrite be16_put.
    apply u16_id. unfold is_u16, HEADERLEN. lia.
Qed.
End Sdata.

Definition fsm_sdata_sends_witness_world : recorder :=
  mk_recorder (sample_fsm REQSENT) [].

Lemma fsm_sdata_sends_witness :
  fsm_sdata CONFREQ 7 [1; 4; 5; 220] 4 fsm_sdata_sends_witness_world
    = h_output [255; 3; 192; 33; 1; 7; 0; 8; 1; 4; 5; 220] fsm_sdata_sends_witness_world.
Proof.
  apply (proj1 (fsm_sdata_sends CONFREQ 7 [1; 4; 5; 220] 4 fsm_sdata_sends_witness_world
                  ltac:(cbn; lia) ltac:(cbn; unfold HEADERLEN, MTU; lia))).
Defined.

(** A packet of [l] bytes whose code the automaton does not know. *)
Definition unknown_packet (code id l : Z) : list Z :=
  [code; id] ++ PUTSHORT l ++ replicate (Z.to_nat (l - HEADERLEN)) 0.

(** An unknown packet of 1500 bytes is answered within [outpacket_buf] when
    the peer's MRU is 1500, but when the peer has negotiated an MRU of 1504 or
    more the Code-Reject is written past the end of that buffer. *)
Theorem fsm_coderej_overflow mru s :
  1504 <= mru -> s <> INITIAL -> s <> STARTING ->
  let C := recorder_callbacks CONFACK in
  let pkt := unknown_packet 12 1 1500 in
  fsm_input C pkt 1500 (mk_recorder_mru mru (sample_fsm s) []) = Fault
  /\ result_of (fsm_input C pkt 1500 (mk_recorder_mru MTU (sample_fsm s) []))
     = Some ([scj], s).
Proof.
  intros Hm H1 H2 C pkt. split.
  - assert (E : fsm_input C pkt 1500 (mk_recorder_mru mru (sample_fsm s) [])
              = (i <- next_id ;; fsm_sdata CODEREJ i pkt 1500)
                  (mk_recorder_mru mru (sample_fsm s) [])).
    { by destruct s. }
    rewrite E. unfold bind at 1. cbn [next_id bind upd_f modify get_f gets ret].
    unfold fsm_sdata, get_f, gets, bind. cbn [h_peer_mru recorder_host r_mru h_put_fsm].
    destruct (Z.ltb_spec (mru - HEADERLEN) 1500) as [L|L]; unfold HEADERLEN in *; [lia|].
    reflexivity.
  - destruct s; try done; vm_compute; reflexivity.
Qed.

Lemma fsm_coderej_overflow_witness :
  fsm_input (recorder_callbacks CONFACK) (unknown_packet 12 1 1500) 1500
    (mk_recorder_mru 1504 (sample_fsm OPENED) []) = Fault.
Proof. apply (proj1 (fsm_coderej_overflow 1504 OPENED ltac:(lia) ltac:(done) ltac:(done))). Defined.

(** ** Packets that are dropped *)

(** A packet shorter than a header, with a length field below the header
    length or above the received length, or that arrives before the lower
    layer is up, is dropped: nothing is sent and no state changes. *)
Theorem fsm_input_drops {W} {H : FsmHost W} (C : fsm_callbacks W) pkt l w :
  (l < HEADERLEN \/
   4 <= Z.of_nat (length pkt) /\
   let field := be16 (nth 2 pkt 0) (nth 3 pkt 0) in
   (field < HEADERLEN \/ l < field
    \/ f_state (h_fsm w) = INITIAL \/ f_state (h_fsm w) = STARTING)) ->
  fsm_input C pkt l w = Ok tt w.
Proof.
  intros Hd. unfold fsm_input.
  destruct (Z.ltb_spec l HEADERLEN) as [L|L]; [done|].
  destruct Hd as [Hd|[Hlen Hd]]; [lia|].
  destruct pkt as [|c [|i [|a [|b pkt]]]]; try (cbn in Hlen; lia). clear Hlen. cbn in Hd.
  unfold read_header, access. unfold bind at 1 2 3 4 5. cbn [lookup list_lookup ret].
  destruct (Z.ltb_spec (be16 a b) HEADERLEN); [done|].
  destruct (Z.ltb_spec l (be16 a b)); [done|].
  unfold bind, get_f, gets.
  destruct Hd as [Hd|[Hd|[-> | ->]]]; [lia|lia|done|done].
Qed.

Lemma fsm_input_drops_witness :
  fsm_input (recorder_callbacks CONFACK) [1; 1; 0; 9; 0] 5
    (mk_recorder (sample_fsm OPENED) []) = Ok tt (mk_recorder (sample_fsm OPENED) []).
Proof.
  apply fsm_input_drops. right. split; [cbn; lia|]. right; left. vm_compute. reflexivity.
Defined.
