(* ===== verification/Ppp.v ===== *)
(** * The PPP task

    The part of [PPP_TASK_VARS] (pppd.h) that the protocols of the daemon keep
    their state in, the environment of the task (the serial driver and the
    network interface of ppp_vxworks.c, the clock, MD5, PAP), and the two
    automata of the task as instances of fsm.c.

    What the task does to its environment is a trace of [event]s; what the
    environment answers (whether a driver call succeeds, what the clock says)
    depends on how many such calls there have been. *)

From S2P Require Export Callout Fsm Magic Ipcp.

(** ** Authentication: struct chap_state (chap.h) *)

Inductive chap_client :=
  | CHAPCS_INITIAL | CHAPCS_CLOSED | CHAPCS_PENDING | CHAPCS_LISTEN
  | CHAPCS_RESPONSE | CHAPCS_OPEN.
Inductive chap_server :=
  | CHAPSS_INITIAL | CHAPSS_CLOSED | CHAPSS_PENDING | CHAPSS_INITIAL_CHAL
  | CHAPSS_OPEN | CHAPSS_RECHALLENGE | CHAPSS_BADAUTH.
#[export] Instance chap_client_eq_dec : EqDecision chap_client.
Proof. solve_decision. Defined.
#[export] Instance chap_server_eq_dec : EqDecision chap_server.
Proof. solve_decision. Defined.

(** The arrays [challenge] and [response] are lists of their sizes; a string
    is the list of its characters. *)
Record chap_state := mk_chap {
  clientstate : chap_client;
  serverstate : chap_server;
  challenge : list Z;
  chal_len : Z;
  chal_id : Z;
  chal_type : Z;
  chap_id : Z;
  chal_name : list Z;
  chal_interval : Z;
  timeouttime : Z;
  max_transmits : Z;
  chal_transmits : Z;
  resp_transmits : Z;
  response : list Z;
  resp_length : Z;
  resp_id : Z;
  resp_type : Z;
  resp_name : list Z }.
#[export] Instance eta_chap_state : Eta chap_state := fun c => {|
  clientstate := clientstate c; serverstate := serverstate c; challenge := challenge c;
  chal_len := chal_len c; chal_id := chal_id c; chal_type := chal_type c;
  chap_id := chap_id c; chal_name := chal_name c; chal_interval := chal_interval c;
  timeouttime := timeouttime c; max_transmits := max_transmits c;
  chal_transmits := chal_transmits c; resp_transmits := resp_transmits c;
  response := response c; resp_length := resp_length c; resp_id := resp_id c;
  resp_type := resp_type c; resp_name := resp_name c |}.
#[export] Instance set_clientstate : Setter clientstate := ltac:(derive_setter).
#[export] Instance set_serverstate : Setter serverstate := ltac:(derive_setter).
#[export] Instance set_challenge : Setter challenge := ltac:(derive_setter).
#[export] Instance set_chal_len : Setter chal_len := ltac:(derive_setter).
#[export] Instance set_chal_id : Setter chal_id := ltac:(derive_setter).
#[export] Instance set_chal_type : Setter chal_type := ltac:(derive_setter).
#[export] Instance set_chap_id : Setter chap_id := ltac:(derive_setter).
#[export] Instance set_chal_name : Setter chal_name := ltac:(derive_setter).
#[export] Instance set_chal_interval : Setter chal_interval := ltac:(derive_setter).
#[export] Instance set_timeouttime : Setter timeouttime := ltac:(derive_setter).
#[export] Instance set_max_transmits : Setter max_transmits := ltac:(derive_setter).
#[export] Instance set_chal_transmits : Setter chal_transmits := ltac:(derive_setter).
#[export] Instance set_resp_transmits : Setter resp_transmits := ltac:(derive_setter).
#[export] Instance set_response : Setter response := ltac:(derive_setter).
#[export] Instance set_resp_length : Setter resp_length := ltac:(derive_setter).
#[export] Instance set_resp_id : Setter resp_id := ltac:(derive_setter).
#[export] Instance set_resp_type : Setter resp_type := ltac:(derive_setter).
#[export] Instance set_resp_name : Setter resp_name := ltac:(derive_setter).

(** ** The environment *)

(** The routines (with their argument) that the task passes to [PPP_TIMEOUT]. *)
Inductive timer_key :=
  | T_fsm_timeout_lcp | T_fsm_timeout_ipcp
  | T_ChapChallengeTimeout | T_ChapResponseTimeout | T_ChapRechallenge
  | T_LcpEchoTimeout
  | T_upap (n : nat).
#[export] Instance timer_key_eq_dec : EqDecision timer_key.
Proof. solve_decision. Defined.

(** The calls the task makes into the driver, and its end. *)
Inductive event :=
  | E_output (bs : list Z)
  | E_taskDelay
  | E_set_xaccm (accm : list Z)
  | E_send_config (mtu accm : Z) (pcomp accomp : bool)
  | E_recv_config (mru accm : Z) (pcomp accomp : bool)
  | E_sifaddr (our his mask : Z)
  | E_cifaddr (our his : Z)
  | E_sifvjcomp (vjcomp : bool) (cidcomp maxcid : Z)
  | E_sifup | E_sifdown
  | E_sifdefaultroute (his : Z) | E_cifdefaultroute (his : Z)
  | E_sifproxyarp (his : Z) | E_cifproxyarp (his : Z)
  | E_cleanup (status : Z).

(** What PAP (upap.c is not in the repository) may do: to its environment, and
    through the functions auth.c exports to it. *)
Inductive upap_act :=
  | UP_output (bs : list Z)
  | UP_timeout (n : nat) (seconds : Z)
  | UP_untimeout (n : nat).
Inductive upap_call :=
  | UP_act (a : upap_act)
  | UP_addresses (a : option (list (list Z)))
  | UP_peer_fail | UP_peer_success | UP_withpeer_fail | UP_withpeer_success.

Class PppEnv := {
  (** the clock, and the result of a driver routine, the [i]-th time that one of
      them may be asked for *)
  env_time : nat -> Z;
  env_ok : nat -> bool;
  (** [GetMask] of the address of the interface *)
  env_GetMask : Z -> Z;
  (** whether a one-bit [int] field that was set to 1 compares equal to 1 *)
  env_bit_is_one : bool;
  (** [inet_addr] or [hostGetByName] of a word *)
  env_host : list Z -> option Z;
  (** the MD5 digest of a string of bytes *)
  env_MD5 : list Z -> list Z;
  (** PAP: its state and what its entry points do *)
  upap_state : Type;
  env_upap_init : upap_state -> upap_state;
  env_upap_lowerup : upap_state -> upap_state * list upap_act;
  env_upap_lowerdown : upap_state -> upap_state * list upap_act;
  env_upap_authpeer : upap_state -> upap_state * list upap_act;
  env_upap_authwithpeer : list Z -> list Z -> upap_state -> upap_state * list upap_act;
  env_upap_input : list Z -> Z -> upap_state -> upap_state * list upap_call;
  env_upap_protrej : upap_state -> upap_state * list upap_call;
  env_upap_timeout : nat -> upap_state -> upap_state * list upap_call }.

(** ** PPP_TASK_VARS *)

Inductive ppp_phase :=
  | PHASE_DEAD | PHASE_ESTABLISH | PHASE_AUTHENTICATE | PHASE_NETWORK | PHASE_TERMINATE.
#[export] Instance ppp_phase_eq_dec : EqDecision ppp_phase.
Proof. solve_decision. Defined.

Section Task.
Context `{PppEnv}.

Record PPP_TASK_VARS := mk_task {
  phase : ppp_phase;
  auth_required : bool;
  user : list Z;
  passwd : list Z;
  our_name : list Z;
  hungup : bool;
  peer_mru : Z;
  auth_pending : Z;
  addresses : option (list (list Z));
  lcp_echos_pending : Z;
  lcp_echo_number : Z;
  lcp_echo_timer_running : bool;
  lcp_echo_interval : Z;
  lcp_echo_fails : Z;
  chap : chap_state;
  ipcp_wantoptions : ipcp_options;
  ipcp_gotoptions : ipcp_options;
  ipcp_allowoptions : ipcp_options;
  ipcp_hisoptions : ipcp_options;
  ipcp_fsm : fsm;
  cis_received : Z;
  lcp_wantoptions : lcp_options;
  lcp_gotoptions : lcp_options;
  lcp_allowoptions : lcp_options;
  lcp_hisoptions : lcp_options;
  xmit_accm : list Z;
  lcp_fsm : fsm;
  upap : upap_state;
  unknownProto : Z;
  (** the callout list, the random numbers, the calls of the environment so
      far and the events, the newest first *)
  callout_list : @timers timer_key;
  random_state : rng;
  env_calls : nat;
  trace : list event }.
End Task.

#[export] Instance eta_PPP_TASK_VARS `{PppEnv} : Eta PPP_TASK_VARS := fun w => {|
  phase := phase w; auth_required := auth_required w; user := user w; passwd := passwd w;
  our_name := our_name w; hungup := hungup w; peer_mru := peer_mru w;
  auth_pending := auth_pending w; addresses := addresses w;
  lcp_echos_pending := lcp_echos_pending w; lcp_echo_number := lcp_echo_number w;
  lcp_echo_timer_running := lcp_echo_timer_running w;
  lcp_echo_interval := lcp_echo_interval w; lcp_echo_fails := lcp_echo_fails w;
  chap := chap w; ipcp_wantoptions := ipcp_wantoptions w;
  ipcp_gotoptions := ipcp_gotoptions w; ipcp_allowoptions := ipcp_allowoptions w;
  ipcp_hisoptions := ipcp_hisoptions w; ipcp_fsm := ipcp_fsm w;
  cis_received := cis_received w; lcp_wantoptions := lcp_wantoptions w;
  lcp_gotoptions := lcp_gotoptions w; lcp_allowoptions := lcp_allowoptions w;
  lcp_hisoptions := lcp_hisoptions w; xmit_accm := xmit_accm w; lcp_fsm := lcp_fsm w;
  upap := upap w; unknownProto := unknownProto w; callout_list := callout_list w;
  random_state := random_state w; env_calls := env_calls w; trace := trace w |}.
#[export] Instance set_phase `{PppEnv} : Setter phase := ltac:(derive_setter).
#[export] Instance set_auth_required `{PppEnv} : Setter auth_required := ltac:(derive_setter).
#[export] Instance set_user `{PppEnv} : Setter user := ltac:(derive_setter).
#[export] Instance set_passwd `{PppEnv} : Setter passwd := ltac:(derive_setter).
#[export] Instance set_our_name `{PppEnv} : Setter our_name := ltac:(derive_setter).
#[export] Instance set_hungup `{PppEnv} : Setter hungup := ltac:(derive_setter).
#[export] Instance set_peer_mru `{PppEnv} : Setter peer_mru := ltac:(derive_setter).
#[export] Instance set_auth_pending `{PppEnv} : Setter auth_pending := ltac:(derive_setter).
#[export] Instance set_addresses `{PppEnv} : Setter addresses := ltac:(derive_setter).
#[export] Instance set_lcp_echos_pending `{PppEnv} : Setter lcp_echos_pending := ltac:(derive_setter).
#[export] Instance set_lcp_echo_number `{PppEnv} : Setter lcp_echo_number := ltac:(derive_setter).
#[export] Instance set_lcp_echo_interval `{PppEnv} : Setter lcp_echo_interval := ltac:(derive_setter).
#[export] Instance set_lcp_echo_fails `{PppEnv} : Setter lcp_echo_fails := ltac:(derive_setter).
#[export] Instance set_lcp_echo_timer_running `{PppEnv} : Setter lcp_echo_timer_running := ltac:(derive_setter).
#[export] Instance set_chap `{PppEnv} : Setter chap := ltac:(derive_setter).
#[export] Instance set_ipcp_wantoptions `{PppEnv} : Setter ipcp_wantoptions := ltac:(derive_setter).
#[export] Instance set_ipcp_gotoptions `{PppEnv} : Setter ipcp_gotoptions := ltac:(derive_setter).
#[export] Instance set_ipcp_allowoptions `{PppEnv} : Setter ipcp_allowoptions := ltac:(derive_setter).
#[export] Instance set_ipcp_hisoptions `{PppEnv} : Setter ipcp_hisoptions := ltac:(derive_setter).
#[export] Instance set_ipcp_fsm `{PppEnv} : Setter ipcp_fsm := ltac:(derive_setter).
#[export] Instance set_cis_received `{PppEnv} : Setter cis_received := ltac:(derive_setter).
#[export] Instance set_lcp_wantoptions `{PppEnv} : Setter lcp_wantoptions := ltac:(derive_setter).
#[export] Instance set_lcp_gotoptions `{PppEnv} : Setter lcp_gotoptions := ltac:(derive_setter).
#[export] Instance set_lcp_allowoptions `{PppEnv} : Setter lcp_allowoptions := ltac:(derive_setter).
#[export] Instance set_lcp_hisoptions `{PppEnv} : Setter lcp_hisoptions := ltac:(derive_setter).
#[export] Instance set_xmit_accm `{PppEnv} : Setter xmit_accm := ltac:(derive_setter).
#[export] Instance set_lcp_fsm `{PppEnv} : Setter lcp_fsm := ltac:(derive_setter).
#[export] Instance set_upap `{PppEnv} : Setter upap := ltac:(derive_setter).
#[export] Instance set_unknownProto `{PppEnv} : Setter unknownProto := ltac:(derive_setter).
#[export] Instance set_callout_list `{PppEnv} : Setter callout_list := ltac:(derive_setter).
#[export] Instance set_random_state `{PppEnv} : Setter random_state := ltac:(derive_setter).
#[export] Instance set_env_calls `{PppEnv} : Setter env_calls := ltac:(derive_setter).
#[export] Instance set_trace `{PppEnv} : Setter trace := ltac:(derive_setter).

(** ** What the task does to its environment *)

Section Effects.
Context `{PppEnv} `{Endian}.

Definition task := M PPP_TASK_VARS Z.

Definition emit (e : event) : task unit := modify (fun w => w <| trace ::= cons e |>).
(** A call of the driver that may fail. *)
Definition ask (e : event) : task bool :=
  emit e ;; i <- gets env_calls ;;
  modify (fun w => w <| env_calls := S i |>) ;; ret (env_ok i).
Definition time : task Z :=
  i <- gets env_calls ;; modify (fun w => w <| env_calls := S i |>) ;; ret (env_time i).

(** [PPP_TIMEOUT] and [PPP_UNTIMEOUT]. *)
Definition PPP_TIMEOUT (k : timer_key) (seconds : Z) : task unit :=
  now <- time ;;
  modify (fun w => w <| callout_list ::= ppp_timeout now k seconds |>).
Definition PPP_UNTIMEOUT (k : timer_key) : task unit :=
  now <- time ;;
  modify (fun w => w <| callout_list ::= ppp_untimeout now k |>).

(** [output(unit, outpacket_buf, ...)] of a packet built in [outpacket_buf]. *)
Definition output (bs : list Z) : task unit :=
  if MTU + DLLHEADERLEN <? Z.of_nat (length bs) then fault else emit (E_output bs).

Definition task_random : task Z := zoom random_state (fun g w => w <| random_state := g |>) random.

(** A part of the state changes. *)
Definition upd_chap (g : chap_state -> chap_state) : task unit :=
  modify (fun w => w <| chap ::= g |>).

(** ** The two automata *)

Definition probing (w : PPP_TASK_VARS) : bool :=
  env_bit_is_one && (passive (lcp_wantoptions w) || silent (lcp_wantoptions w)).

Definition lcp_host : FsmHost PPP_TASK_VARS := {|
  h_fsm := lcp_fsm;
  h_put_fsm := fun f w => w <| lcp_fsm := f |>;
  h_peer_mru := peer_mru;
  h_probing := probing;
  h_output := fun bs => emit (E_output bs);
  h_taskDelay := emit E_taskDelay;
  h_timeout := PPP_TIMEOUT T_fsm_timeout_lcp;
  h_untimeout := PPP_UNTIMEOUT T_fsm_timeout_lcp;
  h_random := task_random |}.
Definition ipcp_host : FsmHost PPP_TASK_VARS := {|
  h_fsm := ipcp_fsm;
  h_put_fsm := fun f w => w <| ipcp_fsm := f |>;
  h_peer_mru := peer_mru;
  h_probing := probing;
  h_output := fun bs => emit (E_output bs);
  h_taskDelay := emit E_taskDelay;
  h_timeout := PPP_TIMEOUT T_fsm_timeout_ipcp;
  h_untimeout := PPP_UNTIMEOUT T_fsm_timeout_ipcp;
  h_random := task_random |}.

(** ** PAP *)

Definition run_upap_act (a : upap_act) : task unit :=
  match a with
  | UP_output bs => output bs
  | UP_timeout n s => PPP_TIMEOUT (T_upap n) s
  | UP_untimeout n => PPP_UNTIMEOUT (T_upap n)
  end.
Fixpoint run_upap_acts (l : list upap_act) : task unit :=
  match l with
  | a :: l => run_upap_act a ;; run_upap_acts l
  | [] => ret tt
  end.
Definition run_upap {A} (run : list A -> task unit) (op : upap_state -> upap_state * list A)
  : task unit :=
  u <- gets upap ;;
  let '(u, l) := op u in
  modify (fun w => w <| upap := u |>) ;; run l.
Definition upap_init : task unit := modify (fun w => w <| upap ::= env_upap_init |>).
Definition upap_lowerup : task unit := run_upap run_upap_acts env_upap_lowerup.
Definition upap_lowerdown : task unit := run_upap run_upap_acts env_upap_lowerdown.
Definition upap_authpeer : task unit := run_upap run_upap_acts env_upap_authpeer.
Definition upap_authwithpeer (name pass : list Z) : task unit :=
  run_upap run_upap_acts (env_upap_authwithpeer name pass).
End Effects.
