(* ===== verification/Chap.v ===== *)
(** * chap.c: the Challenge Handshake Authentication Protocol

    The operations of chap.c that stay within CHAP: building and sending its
    packets, starting the client and the server, the lower layer going up and
    down, the peer's challenges.  The handlers that report to the rest of the
    daemon (a response, a success, a failure, the timeouts) are in Link.v,
    where [auth_peer_success] and the others are defined. *)

From Stdlib Require Import String Ascii.
From S2P Require Export Ppp Secrets.

Definition CHAP_HEADERLEN := 4.
Definition MD5_SIGNATURE_SIZE := 16.
Definition CHAP_CHALLENGE := 1.
Definition CHAP_RESPONSE := 2.
Definition CHAP_SUCCESS := 3.
Definition CHAP_FAILURE := 4.
Definition MIN_CHALLENGE_LENGTH := 32.
Definition MAX_CHALLENGE_LENGTH := 64.
Definition MAX_RESPONSE_LENGTH := 16.
Definition CHAP_DEFTIMEOUT := 3.
Definition CHAP_DEFTRANSMITS := 10.

Section Chap.
Context `{PppEnv} `{Endian} `{SecretLib}.

Definition get_chap {A} (g : chap_state -> A) : task A := gets (fun w => g (chap w)).

(** [get_secret]: the secret, at most MAXSECRETLEN bytes of it, when there is
    one; [save_addrs] says whether the addresses become the peer's. *)
Definition get_secret (client server : list Z) (save_addrs : bool) : task (option (list Z)) :=
  r <- access (find_secret client server) ;;
  match r with
  | None => ret None
  | Some (secret, addrs) =>
      when save_addrs (modify (fun w => w <| addresses := addrs |>)) ;;
      ret (Some (take (Z.to_nat MAXSECRETLEN) secret))
  end.

(** The initial state, given the zeroed structure; [ChapInit] also seeds
    [random] with the time, which the random numbers of the state account for. *)
Definition no_chap : chap_state :=
  mk_chap CHAPCS_INITIAL CHAPSS_INITIAL (replicate (Z.to_nat MAX_CHALLENGE_LENGTH) 0) 0 0 0 0 []
    0 0 0 0 0 (replicate (Z.to_nat MAX_RESPONSE_LENGTH) 0) 0 0 0 [].
Definition ChapInit : task unit :=
  upd_chap (fun _ => no_chap <| timeouttime := CHAP_DEFTIMEOUT |>
                             <| max_transmits := CHAP_DEFTRANSMITS |>).

(** ** Sending *)

(** A CHAP packet: header, code, id, the length of what follows, the rest. *)
Definition chap_packet (code id : Z) (content : list Z) : list Z :=
  MAKEHEADER CHAP ++ PUTCHAR code ++ PUTCHAR id
  ++ PUTSHORT (CHAP_HEADERLEN + Z.of_nat (length content)) ++ content.

Definition ChapSendChallenge : task unit :=
  chal_len <- get_chap chal_len ;; challenge <- get_chap challenge ;;
  name <- get_chap chal_name ;; id <- get_chap chal_id ;;
  chal <- access (slice 0 (Z.to_nat chal_len) challenge) ;;
  output (chap_packet CHAP_CHALLENGE id (PUTCHAR chal_len ++ chal ++ name)) ;;
  secs <- get_chap timeouttime ;;
  PPP_TIMEOUT T_ChapChallengeTimeout secs ;;
  upd_chap (fun c => c <| chal_transmits ::= fun n => n + 1 |>).

Definition text (s : string) : list Z :=
  (fun a => Z.of_nat (nat_of_ascii a)) <$> list_ascii_of_string s.
(** [sprintf] of the message; [unitno] is the unit number in decimal. *)
Definition status_msg (unitno : string) (code : Z) : list Z :=
  text (if code =? CHAP_SUCCESS then "CHAP authentication success, unit "
        else "CHAP authentication failure, unit ") ++ text unitno.
Definition ChapSendStatus (unitno : string) (code : Z) : task unit :=
  id <- get_chap chal_id ;;
  output (chap_packet code id (status_msg unitno code)).

Fixpoint random_bytes (n : nat) : task (list Z) :=
  match n with
  | O => ret []
  | S n => r <- task_random ;; l <- random_bytes n ;; ret (u8 (r mod 0xff) :: l)
  end.

Definition ChapGenChallenge : task unit :=
  r <- task_random ;;
  let len := r mod (MAX_CHALLENGE_LENGTH - MIN_CHALLENGE_LENGTH) + MIN_CHALLENGE_LENGTH in
  upd_chap (fun c => c <| chal_len := u8 len |>) ;;
  upd_chap (fun c => c <| chap_id ::= fun i => u8 (i + 1) |>) ;;
  id <- get_chap chap_id ;;
  upd_chap (fun c => c <| chal_id := id |> <| chal_transmits := 0 |>) ;;
  l <- random_bytes (Z.to_nat len) ;;
  old <- get_chap challenge ;;
  new <- access (poke l old) ;;
  upd_chap (fun c => c <| challenge := new |>).

Definition ChapSendResponse : task unit :=
  md_len <- get_chap resp_length ;; response <- get_chap response ;;
  name <- get_chap resp_name ;; id <- get_chap resp_id ;;
  md <- access (slice 0 (Z.to_nat md_len) response) ;;
  output (chap_packet CHAP_RESPONSE id (PUTCHAR md_len ++ md ++ name)) ;;
  upd_chap (fun c => c <| clientstate := CHAPCS_RESPONSE |>) ;;
  secs <- get_chap timeouttime ;;
  PPP_TIMEOUT T_ChapResponseTimeout secs ;;
  upd_chap (fun c => c <| resp_transmits ::= fun n => n + 1 |>).

(** ** Starting and stopping *)

Definition ChapAuthWithPeer (our_name : list Z) (digest : Z) : task unit :=
  upd_chap (fun c => c <| resp_name := our_name |> <| resp_type := u8 digest |>) ;;
  st <- get_chap clientstate ;;
  match st with
  | CHAPCS_INITIAL | CHAPCS_PENDING => upd_chap (fun c => c <| clientstate := CHAPCS_PENDING |>)
  | _ => upd_chap (fun c => c <| clientstate := CHAPCS_LISTEN |>)
  end.

(** A new challenge, the first of a connection. *)
Definition start_challenge : task unit :=
  ChapGenChallenge ;; ChapSendChallenge ;;
  upd_chap (fun c => c <| serverstate := CHAPSS_INITIAL_CHAL |>).

Definition ChapAuthPeer (our_name : list Z) (digest : Z) : task unit :=
  upd_chap (fun c => c <| chal_name := our_name |> <| chal_type := u8 digest |>) ;;
  st <- get_chap serverstate ;;
  match st with
  | CHAPSS_INITIAL | CHAPSS_PENDING => upd_chap (fun c => c <| serverstate := CHAPSS_PENDING |>)
  | _ => start_challenge
  end.

Definition ChapResponseTimeout : task unit :=
  st <- get_chap clientstate ;;
  when (bool_decide (st = CHAPCS_RESPONSE)) ChapSendResponse.

Definition ChapRechallenge : task unit :=
  st <- get_chap serverstate ;;
  when (bool_decide (st = CHAPSS_OPEN))
    (ChapGenChallenge ;; ChapSendChallenge ;;
     upd_chap (fun c => c <| serverstate := CHAPSS_RECHALLENGE |>) ;;
     interval <- get_chap chal_interval ;;
     when (negb (interval =? 0)) (PPP_TIMEOUT T_ChapRechallenge interval)).

Definition ChapLowerUp : task unit :=
  cs <- get_chap clientstate ;;
  match cs with
  | CHAPCS_INITIAL => upd_chap (fun c => c <| clientstate := CHAPCS_CLOSED |>)
  | CHAPCS_PENDING => upd_chap (fun c => c <| clientstate := CHAPCS_LISTEN |>)
  | _ => ret tt
  end ;;
  ss <- get_chap serverstate ;;
  match ss with
  | CHAPSS_INITIAL => upd_chap (fun c => c <| serverstate := CHAPSS_CLOSED |>)
  | CHAPSS_PENDING => start_challenge
  | _ => ret tt
  end.

Definition ChapLowerDown : task unit :=
  ss <- get_chap serverstate ;; interval <- get_chap chal_interval ;;
  match ss with
  | CHAPSS_INITIAL_CHAL | CHAPSS_RECHALLENGE => PPP_UNTIMEOUT T_ChapChallengeTimeout
  | CHAPSS_OPEN => when (negb (interval =? 0)) (PPP_UNTIMEOUT T_ChapRechallenge)
  | _ => ret tt
  end ;;
  cs <- get_chap clientstate ;;
  when (bool_decide (cs = CHAPCS_RESPONSE)) (PPP_UNTIMEOUT T_ChapResponseTimeout) ;;
  upd_chap (fun c => c <| clientstate := CHAPCS_INITIAL |>) ;;
  upd_chap (fun c => c <| serverstate := CHAPSS_INITIAL |>).

(** ** The peer's challenge *)

(** [BCOPY] of the name field into [rhostname] (256 bytes, cut to 255) as a
    string. *)
Definition host_name (inp : list Z) (len : Z) : task (list Z) :=
  name <- access (slice 0 (Z.to_nat (Z.min len 255)) inp) ;;
  ret (cstring name).

Definition ChapReceiveChallenge (inp : list Z) (id len : Z) : task unit :=
  st <- get_chap clientstate ;;
  match st with
  | CHAPCS_CLOSED | CHAPCS_PENDING => ret tt
  | _ =>
      if len <? 2 then ret tt else
      rchallenge_len <- access (inp !! 0%nat) ;;
      let len := len - (1 + rchallenge_len) in
      if len <? 0 then ret tt else
      let rchallenge := drop 1 inp in
      rhostname <- host_name (drop (Z.to_nat rchallenge_len) rchallenge) len ;;
      name <- get_chap resp_name ;;
      found <- get_secret name rhostname false ;;
      let secret := match found with Some s => s | None => [] end in
      st <- get_chap clientstate ;;
      when (bool_decide (st = CHAPCS_RESPONSE)) (PPP_UNTIMEOUT T_ChapResponseTimeout) ;;
      upd_chap (fun c => c <| resp_id := u8 id |> <| resp_transmits := 0 |>) ;;
      ty <- get_chap resp_type ;;
      if ty =? CHAP_DIGEST_MD5 then
        chal <- access (slice 0 (Z.to_nat rchallenge_len) rchallenge) ;;
        let digest := env_MD5 (u8 id :: secret ++ chal) in
        old <- get_chap response ;;
        new <- access (poke (take (Z.to_nat MD5_SIGNATURE_SIZE) digest) old) ;;
        upd_chap (fun c => c <| response := new |> <| resp_length := MD5_SIGNATURE_SIZE |>) ;;
        ChapSendResponse
      else ret tt
  end.
End Chap.
