(* ===== verification/Link.v ===== *)
(** * The protocols of the daemon put together

    The callbacks of LCP and IPCP (lcp.c, ipcp.c), the phases of the link and
    the authentication results (auth.c), the handlers of CHAP that report to
    them (chap.c), the echo requests (lcp.c), and the signal handlers of the
    task (pppLib.c).

    The C functions call each other in a cycle through the callback tables;
    they are laid out here in the order in which each can be defined:
    IPCP up and down, LCP down, [die], the results of authentication, CHAP,
    LCP up, the input of packets, the timeouts and signals. *)

From Stdlib Require Import String.
From S2P Require Export Chap.

(** Bits in [auth_pending]. *)
Definition UPAP_WITHPEER := 1.
Definition UPAP_PEER := 2.
Definition CHAP_WITHPEER := 4.
Definition CHAP_PEER := 8.

Section Link.
Context `{PppEnv} `{Endian} `{SecretLib} (unitno : string).

(** ** IPCP: the callbacks that do not leave it *)

(** A parser as a callback: whether it did not [goto bad]. *)
Definition parse_ok {A} (m : parser A) (inp : list Z) (len : Z) : task (option A) := fun w =>
  match m (mk_cursor len inp) with
  | Ok a _ => Ok (Some a) w
  | Throw _ _ => Ok None w
  | Fault => Fault
  | Hang => Hang
  end.
Definition accepted_by {A} (m : parser A) (inp : list Z) (len : Z) : task bool :=
  r <- parse_ok m inp len ;; ret (match r with Some _ => true | None => false end).

Definition ipcp_resetci_cb : task unit :=
  ao <- gets ipcp_allowoptions ;;
  modify (fun w => w <| ipcp_wantoptions ::= ipcp_resetci ao |>) ;;
  wo <- gets ipcp_wantoptions ;;
  modify (fun w => w <| ipcp_gotoptions := wo |> <| cis_received := 0 |>).
Definition ipcp_addci_cb (n : Z) : task (list Z * Z) :=
  wo <- gets ipcp_wantoptions ;; ho <- gets ipcp_hisoptions ;; go <- gets ipcp_gotoptions ;;
  cis <- gets cis_received ;;
  let '(bs, n, go) := ipcp_addci wo ho go cis n in
  modify (fun w => w <| ipcp_gotoptions := go |>) ;; ret (bs, n).

Definition ipcp_down : task unit :=
  go <- gets ipcp_gotoptions ;; ho <- gets ipcp_hisoptions ;;
  when (proxy_arp go) (emit (E_cifproxyarp (hisaddr ho))) ;;
  when (default_route go) (emit (E_cifdefaultroute (hisaddr ho))) ;;
  emit E_sifdown ;;
  emit (E_cifaddr (ouraddr go) (hisaddr ho)).

Definition ipcp_lower : fsm_lower_cb PPP_TASK_VARS := {|
  cb_resetci := Some ipcp_resetci_cb;
  cb_cilen := Some (gets (fun w => ipcp_cilen (ipcp_gotoptions w)));
  cb_addci := Some ipcp_addci_cb;
  cb_down := Some ipcp_down;
  cb_starting := None |}.

Definition ipcp_open : task unit := @fsm_open _ ipcp_host ipcp_lower.
Definition ipcp_lowerup : task unit := @fsm_lowerup _ ipcp_host ipcp_lower.
Definition ipcp_lowerdown : task unit := @fsm_lowerdown _ ipcp_host ipcp_lower.
Definition ipcp_protrej : task unit := @fsm_lowerdown _ ipcp_host ipcp_lower.

(** ** LCP: the callbacks that take it down *)

Definition link_required : task unit := ret tt.
Definition link_terminated : task unit := modify (fun w => w <| phase := PHASE_DEAD |>).
Definition link_down : task unit := modify (fun w => w <| phase := PHASE_TERMINATE |>).

Definition lcp_resetci_cb : task unit :=
  m <- zoom random_state (fun g w => w <| random_state := g |>) magic ;;
  modify (fun w => w <| lcp_wantoptions ::= fun wo => wo <| magicnumber := m |>
                                                         <| numloops := 0 |> |>) ;;
  wo <- gets lcp_wantoptions ;;
  modify (fun w => w <| lcp_gotoptions := wo |> <| peer_mru := MTU |>).
Definition lcp_addci_cb (n : Z) : task (list Z * Z) :=
  go <- gets lcp_gotoptions ;;
  ret (lcp_addci go, n).

Definition lcp_echo_lowerdown : task unit :=
  running <- gets lcp_echo_timer_running ;;
  when running
    (PPP_UNTIMEOUT T_LcpEchoTimeout ;;
     modify (fun w => w <| lcp_echo_timer_running := false |>)).

(** The driver back to its defaults. *)
Definition default_config : task unit :=
  emit (E_send_config MTU 0xffffffff false false) ;;
  emit (E_recv_config MTU 0 false false) ;;
  modify (fun w => w <| peer_mru := MTU |>).

Definition lcp_down : task unit :=
  lcp_echo_lowerdown ;; ipcp_lowerdown ;; ChapLowerDown ;; upap_lowerdown ;;
  emit E_sifdown ;; default_config ;; link_down.

Definition lcp_starting : task unit := link_required.

Definition lcp_lower : fsm_lower_cb PPP_TASK_VARS := {|
  cb_resetci := Some lcp_resetci_cb;
  cb_cilen := Some (gets (fun w => lcp_cilen (lcp_gotoptions w)));
  cb_addci := Some lcp_addci_cb;
  cb_down := Some lcp_down;
  cb_starting := Some lcp_starting |}.

Definition lcp_fsm_open : task unit := @fsm_open _ lcp_host lcp_lower.
Definition upd_lcp_fsm (g : fsm -> fsm) : task unit := @upd_f _ lcp_host g.

Definition lcp_open : task unit :=
  wo <- gets lcp_wantoptions ;;
  upd_lcp_fsm (fun f => f <| f_flags := 0 |>) ;;
  when (passive wo)
    (upd_lcp_fsm (fun f => f <| f_flags ::= fun x => Z.lor x (Z.lor OPT_PASSIVE OPT_RESTART) |>)) ;;
  when (silent wo)
    (upd_lcp_fsm (fun f => f <| f_flags ::= fun x => Z.lor x (Z.lor OPT_SILENT OPT_RESTART) |>)) ;;
  lcp_fsm_open.

Definition lcp_finished : task unit :=
  f <- gets lcp_fsm ;;
  if bool_decide (f_state f = STOPPED \/ f_state f = CLOSED) && has_flag OPT_RESTART f
  then lcp_fsm_open else link_terminated.

Definition lcp_close : task unit :=
  f <- gets lcp_fsm ;;
  if bool_decide (f_state f = STOPPED) && has_flag (Z.lor OPT_PASSIVE OPT_SILENT) f then
    upd_lcp_fsm (fun f => f <| f_state := CLOSED |>) ;; lcp_finished
  else @fsm_close _ lcp_host lcp_lower.

Definition lcp_lowerup : task unit :=
  emit E_sifdown ;;
  accm <- gets xmit_accm ;;
  emit (E_set_xaccm accm) ;;
  default_config ;;
  accm0 <- access (accm !! 0%nat) ;;
  modify (fun w => w <| lcp_allowoptions ::= fun ao => ao <| asyncmap := accm0 |> |>) ;;
  @fsm_lowerup _ lcp_host lcp_lower.
Definition lcp_lowerdown : task unit := @fsm_lowerdown _ lcp_host lcp_lower.

(** ** die (pppLib.c)

    [cleanup] releases the driver, the device and the memory of the task (see
    Life.v); here the event is kept only, because the task ends: [exit] is a [Throw]. *)

Definition die (status : Z) : task unit :=
  lcp_close ;;
  f <- gets lcp_fsm ;;
  if has_flag (Z.lor OPT_PASSIVE OPT_SILENT) f then ret tt
  else emit (E_cleanup status) ;; throw status.

(** ** The results of authentication (auth.c) *)

Definition auth_peer_fail : task unit := die 1.
Definition auth_withpeer_fail : task unit := ret tt.

(** The end of both successes: [bit] is done. *)
Definition auth_done (bit : Z) : task unit :=
  modify (fun w => w <| auth_pending ::= fun p => Z.land p (Z.lnot bit) |>) ;;
  p <- gets auth_pending ;;
  when (p =? 0) (modify (fun w => w <| phase := PHASE_NETWORK |>) ;; ipcp_open).

Definition auth_peer_success (protocol : Z) : task unit :=
  if protocol =? CHAP then auth_done CHAP_PEER
  else if protocol =? UPAP then auth_done UPAP_PEER
  else ret tt.
Definition auth_withpeer_success (protocol : Z) : task unit :=
  auth_done (if protocol =? CHAP then CHAP_WITHPEER
             else if protocol =? UPAP then UPAP_WITHPEER else 0).

Definition null_login : task bool :=
  name <- gets our_name ;;
  r <- access (find_null_login name) ;;
  match r with
  | Some addrs => modify (fun w => w <| addresses := addrs |>) ;; ret true
  | None => ret false
  end.

Definition bad_ip_adrs (addr : Z) : bool :=
  let addr := ntohl addr in
  (Z.shiftr addr 24 =? 127)
  || (Z.land addr 0xf0000000 =? 0xe0000000) || (Z.land addr 0xf0000000 =? 0xf0000000).

(** The loop over the words of [addresses]. *)
Fixpoint in_addresses (addr : Z) (l : list (list Z)) : bool :=
  match l with
  | [] => false
  | word :: l =>
      if bool_decide (word = text "-") then false else
      match env_host word with
      | Some a => (addr =? a) || in_addresses addr l
      | None => in_addresses addr l
      end
  end.

Definition auth_ip_addr (addr : Z) : task bool :=
  addrs <- gets addresses ;;
  ret (if bad_ip_adrs addr then false else
       match addrs with
       | None => true
       | Some l => in_addresses addr l
       end).

(** ** IPCP: the callbacks that may take the link down *)

Definition ipcp_close : task unit := @fsm_close _ ipcp_host ipcp_lower ;; die 1.

Definition ipcp_up : task unit :=
  modify (fun w => w <| ipcp_gotoptions ::= fun go => go <| default_route := false |>
                                                         <| proxy_arp := false |> |>) ;;
  wo <- gets ipcp_wantoptions ;;
  ho <- gets ipcp_hisoptions ;;
  when (negb (neg_addr ho))
    (modify (fun w => w <| ipcp_hisoptions ::= fun ho => ho <| hisaddr := hisaddr wo |> |>)) ;;
  ho <- gets ipcp_hisoptions ;; go <- gets ipcp_gotoptions ;;
  if hisaddr ho =? 0 then ipcp_close
  else if ouraddr go =? 0 then ipcp_close
  else
    authorized <- auth_ip_addr (hisaddr ho) ;;
    if negb authorized then ipcp_close else
    ok <- ask (E_sifaddr (ouraddr go) (hisaddr ho) (env_GetMask (ouraddr go))) ;;
    if negb ok then ipcp_close else
    emit (E_sifvjcomp (neg_vj ho) (cflag ho) (maxslotindex ho)) ;;
    ok <- ask E_sifup ;;
    if negb ok then ipcp_close else
    when (default_route wo)
      (ok <- ask (E_sifdefaultroute (hisaddr ho)) ;;
       when ok (modify (fun w => w <| ipcp_gotoptions ::= fun go => go <| default_route := true |> |>))) ;;
    when (proxy_arp wo)
      (ok <- ask (E_sifproxyarp (hisaddr ho)) ;;
       when ok (modify (fun w => w <| ipcp_gotoptions ::= fun go => go <| proxy_arp := true |> |>))).

Definition ipcp_ackci_cb (inp : list Z) (len : Z) : task bool :=
  go <- gets ipcp_gotoptions ;; accepted_by (ipcp_ackci go) inp len.

(** [if (f->state != OPENED) *go = try] *)
Definition ipcp_take (try : ipcp_options) : task unit :=
  f <- gets ipcp_fsm ;;
  when (negb (bool_decide (f_state f = OPENED)))
    (modify (fun w => w <| ipcp_gotoptions := try |>)).

Definition ipcp_nakci_cb (inp : list Z) (len : Z) : task bool :=
  go <- gets ipcp_gotoptions ;;
  r <- (fun w => match ipcp_nakci (Z.to_nat len) go
                        (mk_ipcp_nak (mk_cursor len inp) no_ipcp_options go) with
                 | Ok try _ => Ok (Some try) w
                 | Throw _ _ => Ok None w
                 | Fault => Fault
                 | Hang => Hang
                 end) ;;
  match r with
  | Some try => ipcp_take try ;; ret true
  | None => ret false
  end.

Definition ipcp_rejci_cb (inp : list Z) (len : Z) : task bool :=
  r <- (fun w => match ipcp_rejci (die 1) ipcp_gotoptions (mk_cursor len inp, w) with
                 | Ok try (_, w) => Ok (Some try) w
                 | Throw (inl _) (_, w) => Ok None w
                 | Throw (inr status) (_, w) => Throw status w
                 | Fault => Fault
                 | Hang => Hang
                 end) ;;
  match r with
  | Some try => ipcp_take try ;; ret true
  | None => ret false
  end.

Definition ipcp_reqci_cb (inp : list Z) (len : Z) (reject_if_disagree : bool)
  : task (Z * list Z * Z) :=
  ao <- gets ipcp_allowoptions ;; wo <- gets ipcp_wantoptions ;; go <- gets ipcp_gotoptions ;;
  match ipcp_reqci ao wo go reject_if_disagree inp len with
  | Ok (rc, n) s =>
      modify (fun w => w <| ipcp_wantoptions := r_wo s |> <| ipcp_gotoptions := r_go s |>
                         <| ipcp_hisoptions := r_ho s |>) ;;
      ret (rc, r_buf s, n)
  | Throw e _ => match e : Empty_set with end
  | Fault => fault
  | Hang => hang
  end.

Definition ipcp_callbacks : fsm_callbacks PPP_TASK_VARS := {|
  cb_lower := ipcp_lower;
  cb_ackci := Some ipcp_ackci_cb;
  cb_nakci := Some ipcp_nakci_cb;
  cb_rejci := Some ipcp_rejci_cb;
  cb_reqci := Some ipcp_reqci_cb;
  cb_up := Some ipcp_up;
  cb_finished := None;
  cb_retransmit := None;
  cb_extcode := None |}.

Definition ipcp_input (p : list Z) (len : Z) : task unit :=
  @fsm_input _ ipcp_host ipcp_callbacks p len.

(** ** CHAP: the handlers that report to auth.c *)

Definition ChapChallengeTimeout : task unit :=
  st <- get_chap serverstate ;;
  when (bool_decide (st = CHAPSS_INITIAL_CHAL \/ st = CHAPSS_RECHALLENGE))
    (n <- get_chap chal_transmits ;; m <- get_chap max_transmits ;;
     if m <=? n then
       upd_chap (fun c => c <| serverstate := CHAPSS_BADAUTH |>) ;; auth_peer_fail
     else ChapSendChallenge).

(** The digest we compare the peer's response with. *)
Definition expected_digest (id : Z) (secret challenge : list Z) : list Z :=
  take (Z.to_nat MD5_SIGNATURE_SIZE) (env_MD5 (id :: secret ++ challenge)).

(** [code]: whether the digest [remmd] of [rhostname] is the right one. *)
Definition check_response (rhostname remmd : list Z) (remmd_len : Z) : task bool :=
  name <- get_chap chal_name ;;
  found <- get_secret rhostname name true ;;
  match found with
  | None => ret false
  | Some secret =>
      ty <- get_chap chal_type ;;
      if negb (ty =? CHAP_DIGEST_MD5) then ret false else
      if negb (remmd_len =? MD5_SIGNATURE_SIZE) then ret false else
      id <- get_chap chal_id ;; len <- get_chap chal_len ;; chal <- get_chap challenge ;;
      chal <- access (slice 0 (Z.to_nat len) chal) ;;
      remmd <- access (slice 0 (Z.to_nat MD5_SIGNATURE_SIZE) remmd) ;;
      ret (bool_decide (expected_digest id secret chal = remmd))
  end.

(** What follows a response that was checked. *)
Definition response_checked (ok : bool) : task unit :=
  ChapSendStatus unitno (if ok then CHAP_SUCCESS else CHAP_FAILURE) ;;
  if ok then
    old_state <- get_chap serverstate ;;
    upd_chap (fun c => c <| serverstate := CHAPSS_OPEN |>) ;;
    when (bool_decide (old_state = CHAPSS_INITIAL_CHAL)) (auth_peer_success CHAP) ;;
    interval <- get_chap chal_interval ;;
    when (negb (interval =? 0)) (PPP_TIMEOUT T_ChapRechallenge interval)
  else
    upd_chap (fun c => c <| serverstate := CHAPSS_BADAUTH |>) ;; auth_peer_fail.

Definition ChapReceiveResponse (inp : list Z) (id len : Z) : task unit :=
  st <- get_chap serverstate ;;
  match st with
  | CHAPSS_CLOSED | CHAPSS_PENDING => ret tt
  | _ =>
      cid <- get_chap chal_id ;;
      if negb (id =? cid) then ret tt else
      match st with
      | CHAPSS_OPEN => ChapSendStatus unitno CHAP_SUCCESS
      | CHAPSS_BADAUTH => ChapSendStatus unitno CHAP_FAILURE
      | _ =>
          if len <? 2 then ret tt else
          remmd_len <- access (inp !! 0%nat) ;;
          let remmd := drop 1 inp in
          let len := len - (1 + remmd_len) in
          if len <? 0 then ret tt else
          PPP_UNTIMEOUT T_ChapChallengeTimeout ;;
          rhostname <- host_name (drop (Z.to_nat remmd_len) remmd) len ;;
          ok <- check_response rhostname remmd remmd_len ;;
          response_checked ok
      end
  end.

(** [PRINTMSG] stores a NUL behind the message. *)
Definition PRINTMSG (inp : list Z) (len : Z) : task unit :=
  when (0 <? len) (access (inp !! Z.to_nat len) ;; ret tt).

Definition ChapReceiveSuccess (inp : list Z) (len : Z) : task unit :=
  st <- get_chap clientstate ;;
  when (bool_decide (st = CHAPCS_RESPONSE))
    (PPP_UNTIMEOUT T_ChapResponseTimeout ;;
     PRINTMSG inp len ;;
     upd_chap (fun c => c <| clientstate := CHAPCS_OPEN |>) ;;
     auth_withpeer_success CHAP).

Definition ChapReceiveFailure (inp : list Z) (len : Z) : task unit :=
  st <- get_chap clientstate ;;
  when (bool_decide (st = CHAPCS_RESPONSE))
    (PPP_UNTIMEOUT T_ChapResponseTimeout ;;
     PRINTMSG inp len ;;
     auth_withpeer_fail).

Definition ChapProtocolReject : task unit :=
  ss <- get_chap serverstate ;;
  when (negb (bool_decide (ss = CHAPSS_INITIAL \/ ss = CHAPSS_CLOSED))) auth_peer_fail ;;
  cs <- get_chap clientstate ;;
  when (negb (bool_decide (cs = CHAPCS_INITIAL \/ cs = CHAPCS_CLOSED))) auth_withpeer_fail ;;
  ChapLowerDown.

Definition ChapInput (inpacket : list Z) (packet_len : Z) : task unit :=
  if packet_len <? CHAP_HEADERLEN then ret tt else
  '(code, id, len) <- read_header inpacket ;;
  if len <? CHAP_HEADERLEN then ret tt else
  if packet_len <? len then ret tt else
  let len := len - CHAP_HEADERLEN in
  let inp := drop 4 inpacket in
  if code =? CHAP_CHALLENGE then ChapReceiveChallenge inp id len
  else if code =? CHAP_RESPONSE then ChapReceiveResponse inp id len
  else if code =? CHAP_FAILURE then ChapReceiveFailure inp len
  else if code =? CHAP_SUCCESS then ChapReceiveSuccess inp len
  else ret tt.

(** PAP's calls of auth.c. *)
Definition run_upap_call (c : upap_call) : task unit :=
  match c with
  | UP_act a => run_upap_act a
  | UP_addresses a => modify (fun w => w <| addresses := a |>)
  | UP_peer_fail => auth_peer_fail
  | UP_peer_success => auth_peer_success UPAP
  | UP_withpeer_fail => auth_withpeer_fail
  | UP_withpeer_success => auth_withpeer_success UPAP
  end.
Fixpoint run_upap_calls (l : list upap_call) : task unit :=
  match l with
  | c :: l => run_upap_call c ;; run_upap_calls l
  | [] => ret tt
  end.
Definition upap_input (p : list Z) (len : Z) : task unit :=
  run_upap run_upap_calls (env_upap_input p len).
Definition upap_protrej : task unit := run_upap run_upap_calls env_upap_protrej.
Definition upap_timeout (n : nat) : task unit := run_upap run_upap_calls (env_upap_timeout n).

(** ** Echo requests (lcp.c) *)

Definition lcp_sdata (code id : Z) (data : list Z) (n : Z) : task unit :=
  @fsm_sdata _ lcp_host code id data n.

Definition LcpLinkFailure : task unit :=
  f <- gets lcp_fsm ;;
  when (bool_decide (f_state f = OPENED))
    (lcp_lowerdown ;; modify (fun w => w <| phase := PHASE_TERMINATE |>)).

Definition our_magic (w : PPP_TASK_VARS) : Z :=
  if neg_magicnumber (lcp_gotoptions w) then magicnumber (lcp_gotoptions w) else 0.

Definition LcpSendEchoRequest : task unit :=
  fails <- gets lcp_echo_fails ;;
  when (negb (fails =? 0))
    (n <- gets lcp_echos_pending ;;
     modify (fun w => w <| lcp_echos_pending ::= fun n => u32 (n + 1) |>) ;;
     when (fails <=? n)
       (LcpLinkFailure ;;
        modify (fun w => w <| lcp_echos_pending := 0 |>) ;;
        die 1)) ;;
  f <- gets lcp_fsm ;;
  when (bool_decide (f_state f = OPENED))
    (m <- gets our_magic ;;
     n <- gets lcp_echo_number ;;
     modify (fun w => w <| lcp_echo_number ::= fun n => u32 (n + 1) |>) ;;
     lcp_sdata ECHOREQ (Z.land n 0xff) (PUTLONG m) 4).

(** A failed [assert] calls [die], which may come back. *)
Definition LcpEchoCheck : task unit :=
  LcpSendEchoRequest ;;
  delta <- gets lcp_echo_interval ;;
  running <- gets lcp_echo_timer_running ;;
  when running (die 1) ;;
  PPP_TIMEOUT T_LcpEchoTimeout delta ;;
  modify (fun w => w <| lcp_echo_timer_running := true |>).

Definition LcpEchoTimeout : task unit :=
  running <- gets lcp_echo_timer_running ;;
  when running
    (modify (fun w => w <| lcp_echo_timer_running := false |>) ;; LcpEchoCheck).

Definition lcp_received_echo_reply (inp : list Z) : task unit :=
  a <- access (inp !! 0%nat) ;; b <- access (inp !! 1%nat) ;;
  c <- access (inp !! 2%nat) ;; d <- access (inp !! 3%nat) ;;
  go <- gets lcp_gotoptions ;;
  when (negb (neg_magicnumber go && (be32 a b c d =? magicnumber go)))
    (modify (fun w => w <| lcp_echos_pending := 0 |>)).

Definition lcp_echo_lowerup : task unit :=
  modify (fun w => w <| lcp_echos_pending := 0 |> <| lcp_echo_number := 0 |>
                     <| lcp_echo_timer_running := false |>) ;;
  interval <- gets lcp_echo_interval ;;
  when (negb (interval =? 0)) LcpEchoCheck.

(** ** The link is established (auth.c) *)

Definition link_established : task unit :=
  required <- gets auth_required ;;
  wo <- gets lcp_wantoptions ;; go <- gets lcp_gotoptions ;;
  when (required && negb (neg_chap go || neg_upap go))
    (if negb (neg_upap wo) then die 1
     else ok <- null_login ;; when (negb ok) (die 1)) ;;
  modify (fun w => w <| phase := PHASE_AUTHENTICATE |>) ;;
  go <- gets lcp_gotoptions ;; ho <- gets lcp_hisoptions ;; name <- gets our_name ;;
  peer <- (if neg_chap go then ChapAuthPeer name (chap_mdtype go) ;; ret CHAP_PEER
           else if neg_upap go then upap_authpeer ;; ret UPAP_PEER
           else ret 0) ;;
  withpeer <- (if neg_chap ho then ChapAuthWithPeer name (chap_mdtype ho) ;; ret CHAP_WITHPEER
               else if neg_upap ho then
                 u <- gets user ;; pw <- gets passwd ;;
                 upap_authwithpeer u pw ;; ret UPAP_WITHPEER
               else ret 0) ;;
  let auth := Z.lor peer withpeer in
  modify (fun w => w <| auth_pending := auth |>) ;;
  when (auth =? 0) (modify (fun w => w <| phase := PHASE_NETWORK |>) ;; ipcp_open).

(** ** LCP: the other callbacks *)

Definition lcp_up : task unit :=
  modify (fun w => w <| lcp_gotoptions ::= fun go =>
                          if neg_magicnumber go then go else go <| magicnumber := 0 |> |>
                     <| lcp_hisoptions ::= fun ho =>
                          if neg_magicnumber ho then ho else ho <| magicnumber := 0 |> |>) ;;
  wo <- gets lcp_wantoptions ;; ho <- gets lcp_hisoptions ;;
  go <- gets lcp_gotoptions ;; ao <- gets lcp_allowoptions ;;
  emit (E_send_config
          (Z.min (if mru ao =? 0 then MTU else mru ao) (if neg_mru ho then mru ho else MTU))
          (if neg_asyncmap ho then asyncmap ho else 0xffffffff)
          (neg_pcompression ho) (neg_accompression ho)) ;;
  emit (E_recv_config (if neg_mru go then Z.max (mru wo) (mru go) else MTU)
          (if neg_asyncmap go then asyncmap go else 0)
          (neg_pcompression go) (neg_accompression go)) ;;
  when (neg_mru ho) (modify (fun w => w <| peer_mru := mru ho |>)) ;;
  ChapLowerUp ;; upap_lowerup ;; ipcp_lowerup ;; lcp_echo_lowerup ;;
  link_established.

Definition lcp_ackci_cb (inp : list Z) (len : Z) : task bool :=
  go <- gets lcp_gotoptions ;; accepted_by (lcp_ackci go) inp len.

Definition lcp_take (try : lcp_options) : task unit :=
  f <- gets lcp_fsm ;;
  when (negb (bool_decide (f_state f = OPENED)))
    (modify (fun w => w <| lcp_gotoptions := try |>)).

Definition lcp_nakci_cb (inp : list Z) (len : Z) : task bool :=
  wo <- gets lcp_wantoptions ;; go <- gets lcp_gotoptions ;; g <- gets random_state ;;
  match lcp_nakci (Z.to_nat len) wo go (mk_nak (mk_cursor len inp) no_lcp_options go false g) with
  | Ok try s => modify (fun w => w <| random_state := n_rng s |>) ;; lcp_take try ;; ret true
  | Throw _ s => modify (fun w => w <| random_state := n_rng s |>) ;; ret false
  | Fault => fault
  | Hang => hang
  end.

Definition lcp_rejci_cb (inp : list Z) (len : Z) : task bool :=
  go <- gets lcp_gotoptions ;;
  r <- parse_ok (lcp_rejci go) inp len ;;
  match r with
  | Some try => lcp_take try ;; ret true
  | None => ret false
  end.

Definition lcp_reqci_cb (inp : list Z) (len : Z) (reject_if_disagree : bool)
  : task (Z * list Z * Z) :=
  ao <- gets lcp_allowoptions ;; go <- gets lcp_gotoptions ;; g <- gets random_state ;;
  match lcp_reqci ao go reject_if_disagree inp len g with
  | Ok (rc, n) s =>
      modify (fun w => w <| lcp_hisoptions := q_ho s |> <| random_state := q_rng s |>) ;;
      ret (rc, q_buf s, n)
  | Throw e _ => match e : Empty_set with end
  | Fault => fault
  | Hang => hang
  end.

(** The callbacks but for [lcp_extcode], which [fsm_protreject] does not use. *)
Definition lcp_callbacks_0 : fsm_callbacks PPP_TASK_VARS := {|
  cb_lower := lcp_lower;
  cb_ackci := Some lcp_ackci_cb;
  cb_nakci := Some lcp_nakci_cb;
  cb_rejci := Some lcp_rejci_cb;
  cb_reqci := Some lcp_reqci_cb;
  cb_up := Some lcp_up;
  cb_finished := Some lcp_finished;
  cb_retransmit := None;
  cb_extcode := None |}.

Definition lcp_protrej : task unit := @fsm_protreject _ lcp_host lcp_callbacks_0.

(** The table [prottbl], by protocol number: its [protrej] column. *)
Definition demuxprotrej (protocol : Z) : task unit :=
  if protocol =? LCP then lcp_protrej
  else if protocol =? IPCP then ipcp_protrej
  else if protocol =? UPAP then upap_protrej
  else if protocol =? CHAP then ChapProtocolReject
  else ret tt.

Definition lcp_rprotrej (inp : list Z) (len : Z) : task unit :=
  if len <? 2 then ret tt else
  a <- access (inp !! 0%nat) ;; b <- access (inp !! 1%nat) ;;
  f <- gets lcp_fsm ;;
  if negb (bool_decide (f_state f = OPENED)) then ret tt else demuxprotrej (be16 a b).

Definition lcp_extcode (code id : Z) (inp : list Z) (len : Z) : task bool :=
  if code =? PROTREJ then lcp_rprotrej inp len ;; ret true
  else if code =? ECHOREQ then
    f <- gets lcp_fsm ;;
    when (bool_decide (f_state f = OPENED))
      (go <- gets lcp_gotoptions ;;
       inp <- access (poke (PUTLONG (magicnumber go)) inp) ;;
       lcp_sdata ECHOREP id inp (Z.max len CILEN_LONG)) ;;
    ret true
  else if code =? ECHOREP then lcp_received_echo_reply inp ;; ret true
  else ret (code =? DISCREQ).

Definition lcp_callbacks : fsm_callbacks PPP_TASK_VARS := {|
  cb_lower := lcp_lower;
  cb_ackci := Some lcp_ackci_cb;
  cb_nakci := Some lcp_nakci_cb;
  cb_rejci := Some lcp_rejci_cb;
  cb_reqci := Some lcp_reqci_cb;
  cb_up := Some lcp_up;
  cb_finished := Some lcp_finished;
  cb_retransmit := None;
  cb_extcode := Some lcp_extcode |}.

Definition lcp_input (p : list Z) (len : Z) : task unit :=
  @fsm_input _ lcp_host lcp_callbacks p len.

(** [lcp_sprotrej] is given the packet from its address field on. *)
Definition lcp_sprotrej (p : list Z) (len : Z) : task unit :=
  i <- @next_id _ lcp_host ;;
  lcp_sdata PROTREJ i (drop 2 p) (len - 2).

(** ** The task (pppLib.c) *)

(** The routines of the callout list. *)
Definition run_timer (k : timer_key) : task unit :=
  match k with
  | T_fsm_timeout_lcp => @fsm_timeout _ lcp_host lcp_callbacks
  | T_fsm_timeout_ipcp => @fsm_timeout _ ipcp_host ipcp_callbacks
  | T_ChapChallengeTimeout => ChapChallengeTimeout
  | T_ChapResponseTimeout => ChapResponseTimeout
  | T_ChapRechallenge => ChapRechallenge
  | T_LcpEchoTimeout => LcpEchoTimeout
  | T_upap n => upap_timeout n
  end.
Fixpoint run_timers (l : list timer_key) : task unit :=
  match l with
  | k :: l => run_timer k ;; run_timers l
  | [] => ret tt
  end.

Definition alrm : task unit :=
  t <- gets callout_list ;;
  now <- time ;;
  let '(expired, t) := alrm_expire now t in
  modify (fun w => w <| callout_list := t |>) ;;
  run_timers expired.

Definition task_adjtimeout : task unit :=
  now <- time ;; modify (fun w => w <| callout_list ::= adjtimeout now |>).

Definition hup : task unit :=
  modify (fun w => w <| hungup := true |>) ;; task_adjtimeout ;; die 1.
Definition term : task unit :=
  upd_lcp_fsm (fun f => f <| f_flags := 0 |>) ;; task_adjtimeout ;; die 1.
Definition intr : task unit := task_adjtimeout ;; die 1.

(** The [input] column of [prottbl]; whether the protocol is known. *)
Definition protocol_input (protocol : Z) (p : list Z) (len : Z) : task bool :=
  if protocol =? LCP then lcp_input p len ;; ret true
  else if protocol =? IPCP then ipcp_input p len ;; ret true
  else if protocol =? UPAP then upap_input p len ;; ret true
  else if protocol =? CHAP then ChapInput p len ;; ret true
  else ret false.

(** What [read_packet] leaves: its result and the bytes of [inpacket_buf]. *)
Definition packet_read : Type := Z * list Z.

(** One packet; whether to go on reading. *)
Definition io_packet (r : packet_read) : task bool :=
  let '(len, buf) := r in
  if len <? DLLHEADERLEN then ret false else
  a <- access (buf !! 2%nat) ;; b <- access (buf !! 3%nat) ;;
  let protocol := be16 a b in
  let len := len - DLLHEADERLEN in
  f <- gets lcp_fsm ;;
  if negb (protocol =? LCP) && negb (bool_decide (f_state f = OPENED)) then ret false else
  known <- protocol_input protocol (drop 4 buf) len ;;
  when (negb known)
    (modify (fun w => w <| unknownProto ::= fun n => u32 (n + 1) |>) ;;
     lcp_sprotrej buf (len + DLLHEADERLEN)) ;;
  ret true.
Fixpoint io_loop (l : list packet_read) : task unit :=
  match l with
  | r :: l => more <- io_packet r ;; when more (io_loop l)
  | [] => ret tt
  end.
Definition io (l : list packet_read) : task unit := task_adjtimeout ;; io_loop l.

(** The signals of the task; [SIGIO] with the packets that can be read. *)
Inductive signal :=
  | SIGHUP | SIGINT | SIGTERM | SIGALRM | SIGIO (l : list packet_read).
Definition handle_signal (s : signal) : task unit :=
  match s with
  | SIGHUP => hup | SIGINT => intr | SIGTERM => term | SIGALRM => alrm | SIGIO l => io l
  end.

(** ** The start of the task *)

Definition lcp_init : task unit :=
  upd_lcp_fsm (fun f => f <| f_protocol := LCP |>) ;;
  @fsm_init _ lcp_host ;;
  modify (fun w => w <| lcp_wantoptions ::= lcp_init_want |>
                     <| lcp_allowoptions ::= lcp_init_allow |>) ;;
  accm <- gets xmit_accm ;;
  accm <- access (poke [0] accm) ;;
  if (length accm <=? 3)%nat then fault else
  modify (fun w => w <| xmit_accm := <[3%nat := 0x60000000]> accm |>).
Definition ipcp_init : task unit :=
  @upd_f _ ipcp_host (fun f => f <| f_protocol := IPCP |>) ;;
  @fsm_init _ ipcp_host ;;
  modify (fun w => w <| ipcp_wantoptions ::= ipcp_init_want |>
                     <| ipcp_allowoptions ::= ipcp_init_allow |>).

(** The [init] column of [prottbl]. *)
Definition protocols_init : task unit := lcp_init ;; ipcp_init ;; upap_init ;; ChapInit.

(** The end of [ppp_task], and its loop: [sigsuspend] returns after each
    signal that was handled. *)
Definition ppp_start : task unit :=
  lcp_lowerup ;; lcp_open ;; modify (fun w => w <| phase := PHASE_ESTABLISH |>).
Fixpoint ppp_loop (l : list signal) : task unit :=
  p <- gets phase ;;
  if bool_decide (p = PHASE_DEAD) then die 1 else
  match l with
  | s :: l => handle_signal s ;; ppp_loop l
  | [] => ret tt
  end.

(** The task, but for the set-up of the device and of the options, which is
    [configure]. *)
Definition ppp_task (configure : PPP_TASK_VARS -> PPP_TASK_VARS) (l : list signal) : task unit :=
  protocols_init ;; modify configure ;; ppp_start ;; ppp_loop l.
End Link.
