(* ===== verification/Auth.v ===== *)
(** * auth.c: checking the authentication options, and PAP passwords

    [check_auth_options] with the searches it makes before the task starts, and
    [check_passwd], the PAP server's check of a name and a password.  What they
    use of the task beyond its state record (the host name, the login database,
    the files, the routine for encrypted passwords) are arguments. *)

From S2P Require Export Link Password.

(** [FUNCPTR pppCryptRtn]: the encrypted string of a key and an array that
    starts with the setting; [None] for an access outside of an object. *)
Definition crypt_rtn := list Z -> list Z -> option (list Z).
(** [crypt] as [cryptRtnInit] installs it, called in the state [s]. *)
Definition cryptRtn (big : bool) (s : des_state) : crypt_rtn := fun key setting =>
  match crypt big key setting s with Ok r _ => Some r | _ => None end.

Section Auth.
Context `{PppEnv} `{Endian} `{SecretLib} `{Files}.
(** The table of secrets and the two files of the options. *)
Context (lib : secret_lib) (pap_file chap_file : option (list Z)).
(** [hostname], [uselogin] and [remote_name] of the task. *)
Context (hostname : list Z) (uselogin : bool) (remote_name : list Z).

(** ** check_auth_options *)

(** The password to send, from the table or the file. *)
Definition get_upap_passwd : task bool :=
  u <- gets user ;;
  r <- access (pppSecretFind lib (Some u) (Some remote_name)) ;;
  r <- match r with
       | Some r => ret (Some r)
       | None => access (scan_file pap_file (Some u) (Some remote_name))
       end ;;
  match r with
  | None => ret false
  | Some r =>
      modify (fun w => w <| passwd := take (Z.to_nat (MAXSECRETLEN - 1)) (fd_secret r) |>) ;;
      ret true
  end.

(** Whether the table or the file has an entry. *)
Definition have_secret (file : option (list Z)) (client server : option (list Z)) : task bool :=
  if pppSecretKnown lib client server then ret true else
  r <- access (scan_file file client server) ;;
  ret (match r with Some _ => true | None => false end).

Definition have_upap_secret : task bool :=
  if uselogin then ret true else
  name <- gets our_name ;; have_secret pap_file None (Some name).

Definition have_chap_secret (client server : list Z) : task bool :=
  match client, server with
  | [], _ => have_secret chap_file None (Some server)
  | _, [] => have_secret chap_file (Some client) None
  | _, _ => have_secret chap_file (Some client) (Some server)
  end.

(** [if (c && !m) drop] *)
Definition drop_unless (c : bool) (m : task bool) (drop : task unit) : task unit :=
  when c (ok <- m ;; when (negb ok) drop).

Definition check_auth_options : task unit :=
  name <- gets our_name ;;
  when (bool_decide (name = [])) (modify (fun w => w <| our_name := hostname |>)) ;;
  u <- gets user ;; name <- gets our_name ;;
  when (bool_decide (u = [])) (modify (fun w => w <| user := name |>)) ;;
  required <- gets auth_required ;; wo <- gets lcp_wantoptions ;;
  when (required && negb (neg_chap wo) && negb (neg_upap wo))
    (modify (fun w => w <| lcp_wantoptions ::=
       fun wo => wo <| neg_chap := true |> <| neg_upap := true |> |>)) ;;
  ao <- gets lcp_allowoptions ;; pw <- gets passwd ;;
  drop_unless (neg_upap ao && bool_decide (pw = [])) get_upap_passwd
    (modify (fun w => w <| lcp_allowoptions ::= fun ao => ao <| neg_upap := false |> |>)) ;;
  wo <- gets lcp_wantoptions ;;
  drop_unless (neg_upap wo && negb uselogin) have_upap_secret
    (modify (fun w => w <| lcp_wantoptions ::= fun wo => wo <| neg_upap := false |> |>)) ;;
  ao <- gets lcp_allowoptions ;; name <- gets our_name ;;
  drop_unless (neg_chap ao) (have_chap_secret name remote_name)
    (modify (fun w => w <| lcp_allowoptions ::= fun ao => ao <| neg_chap := false |> |>)) ;;
  wo <- gets lcp_wantoptions ;;
  drop_unless (neg_chap wo) (have_chap_secret remote_name name)
    (modify (fun w => w <| lcp_wantoptions ::= fun wo => wo <| neg_chap := false |> |>)) ;;
  required <- gets auth_required ;; wo <- gets lcp_wantoptions ;;
  when (required && negb (neg_chap wo) && negb (neg_upap wo)) (die 1).

(** ** check_passwd *)

Definition UPAP_AUTHACK := 2.
Definition UPAP_AUTHNAK := 3.

(** A copy of [n] characters in an array of 256, with its NUL; [rest] is what
    the array holds behind it. *)
Definition local_copy (a : list Z) (n : Z) (rest : list Z) : option (list Z) :=
  bs ← slice 0 (Z.to_nat n) a;
  if n <? 256 then Some (bs ++ 0 :: rest) else None.

(** [secret[0] == 0 || !strcmp(passwd, secret) || (pppCryptRtn != NULL &&
    !strcmp(pppCryptRtn(secret, passwd), passwd))] *)
Definition secret_matches (rtn : option crypt_rtn) (secret passwd : list Z) : option bool :=
  if bool_decide (secret = []) || bool_decide (cstring passwd = secret) then Some true else
  match rtn with
  | None => Some false
  | Some f => r ← f secret passwd; Some (bool_decide (r = cstring passwd))
  end.

(** The addresses that go with a secret that was found and matches. *)
Definition granted (rtn : option crypt_rtn) (passwd : list Z) (r : option found)
  : option (option (list (list Z))) :=
  match r with
  | None => Some None
  | Some r =>
      ok ← secret_matches rtn (fd_secret r) passwd;
      Some (if ok : bool then Some (fd_addrs r) else None)
  end.

(** [login_ok] is the result of [loginUserVerify]; [rest] is what is on the
    stack behind the copy of the password.  The result is the code for PAP. *)
Definition check_passwd (rtn : option crypt_rtn) (login_ok : list Z -> list Z -> bool)
  (rest auser : list Z) (userlen : Z) (apasswd : list Z) (passwdlen : Z) : task Z :=
  pw <- access (local_copy apasswd passwdlen rest) ;;
  u <- access (local_copy auser userlen []) ;;
  let u := cstring u in
  let accept addrs := modify (fun w => w <| addresses := wordlist addrs |>) ;; ret UPAP_AUTHACK in
  if uselogin then
    (if login_ok u (cstring pw) then accept [] else ret UPAP_AUTHNAK)
  else
    name <- gets our_name ;;
    r <- access (pppSecretFind lib (Some u) (Some name)) ;;
    g <- access (granted rtn pw r) ;;
    match g with
    | Some addrs => accept addrs
    | None =>
        r <- access (scan_file pap_file (Some u) (Some name)) ;;
        g <- access (granted rtn pw r) ;;
        match g with Some addrs => accept addrs | None => ret UPAP_AUTHNAK end
    end.
End Auth.
