(* ===== verification/AuthProps.v ===== *)
(** * What the checks of auth.c guarantee

    A task that must authenticate its peer starts only with an authentication
    protocol to ask for, and with secrets for it; a PAP client may send its
    password encrypted; and what a peer can do with a password that is not
    ASCII. *)

From S2P Require Export Auth.

Section CheckOptions.
Context `{PppEnv} `{Endian} `{SecretLib} `{Files}.
Context (lib : secret_lib) (pap_file chap_file : option (list Z)).
Context (hostname : list Z) (uselogin : bool) (remote_name : list Z).

(** A search answers without a look at the state of the task, unless it faults. *)
Definition query (m : task bool) : Prop :=
  (forall w, m w = Fault) \/ exists b, forall w, m w = Ok b w.

Lemma have_secret_query file client server : query (have_secret lib file client server).
Proof.
  unfold query, have_secret. destruct (pppSecretKnown lib client server); [right; by exists true|].
  destruct (scan_file file client server) as [r|]; [right|by left].
  by exists (match r with Some _ => true | None => false end).
Qed.
Lemma have_chap_query client server : query (have_chap_secret lib chap_file client server).
Proof. destruct client, server; apply have_secret_query. Qed.

Lemma wp_query (m : task bool) Q E w :
  query m -> (forall b, (forall w, m w = Ok b w) -> Q b w) -> wp True m Q E w.
Proof. intros [Hf|[b Hb]] HQ; unfold wp; [by rewrite Hf|]. rewrite Hb. auto. Qed.

Lemma wp_drop_unless c (m : task bool) (drop : task unit) (Q : unit -> PPP_TASK_VARS -> Prop) E w :
  (c = false -> Q tt w) ->
  (c = true -> wp True m (fun ok w' => (ok = true -> Q tt w') /\ (ok = false -> wp True drop Q E w')) E w) ->
  wp True (drop_unless c m drop) Q E w.
Proof.
  intros Hf Ht. unfold drop_unless. apply wp_when; [intros C|exact Hf].
  apply wp_bind. eapply wp_mono; [exact (Ht C)| |done]. intros ok w' [Hok Hno].
  apply wp_when; intros C'; [apply Hno|apply Hok]; by destruct ok.
Qed.

(** At most the password and the options PAP allows change. *)
Lemma wp_get_upap (Q : bool -> PPP_TASK_VARS -> Prop) E w :
  (forall b pw, Q b (w <| passwd := pw |>)) -> (forall b, Q b w) ->
  wp True (get_upap_passwd lib pap_file remote_name) Q E w.
Proof.
  intros HQ HQ'. unfold get_upap_passwd. apply wp_bind, wp_gets, wp_bind, wp_access'; [|done]. intros r _.
  apply wp_bind. apply (wp_mono _ (fun _ w' => w' = w) _ (fun _ _ => False)); [|intros r' w' ->|done].
  - destruct r; [by apply wp_ret|]. by apply wp_access'.
  - destruct r' as [r'|]; [|apply wp_ret, HQ']. apply wp_bind, wp_modify, wp_ret. apply HQ.
Qed.

(** Whether [die] comes back. *)
Definition stays (w : PPP_TASK_VARS) : bool := has_flag (Z.lor OPT_PASSIVE OPT_SILENT) (lcp_fsm w).

(** What holds of the task [w'] after the check of [w]. *)
Record auth_checked (w w' : PPP_TASK_VARS) : Prop := {
  ac_asks : auth_required w = true -> stays w = false ->
    neg_chap (lcp_wantoptions w') || neg_upap (lcp_wantoptions w') = true;
  ac_want_chap : neg_chap (lcp_wantoptions w') = true ->
    have_chap_secret lib chap_file remote_name (our_name w') w' = Ok true w';
  ac_want_upap : neg_upap (lcp_wantoptions w') = true ->
    have_upap_secret lib pap_file uselogin w' = Ok true w';
  ac_allow_chap : neg_chap (lcp_allowoptions w') = true ->
    neg_chap (lcp_allowoptions w) = true
    /\ have_chap_secret lib chap_file (our_name w') remote_name w' = Ok true w';
  ac_required : auth_required w' = auth_required w;
  ac_name : our_name w' = if bool_decide (our_name w = []) then hostname else our_name w }.

(** Before LCP has been started nothing is closed. *)
Lemma wp_die_initial w (Q : unit -> PPP_TASK_VARS -> Prop) :
  f_state (lcp_fsm w) = INITIAL -> (stays w = true -> Q tt w) ->
  wp True (die 1) Q (fun st _ => st = 1 /\ stays w = false) w.
Proof.
  intros Hs HQ. unfold die. apply wp_bind. unfold lcp_close. apply wp_bind, wp_gets.
  rewrite Hs. cbn [bool_decide andb].
  unfold fsm_close. apply wp_bind, wp_gets. cbn. rewrite Hs.
  apply wp_ret, wp_bind, wp_gets. fold (stays w). apply wp_if; intros C.
  - by apply wp_ret, HQ.
  - apply wp_bind, wp_modify. by apply wp_throw.
Qed.

(** A stage of the check that keeps an option only if a search for its secret succeeds. *)
Lemma wp_drop_round c q drop (Q : unit -> PPP_TASK_VARS -> Prop) E w :
  query q -> (c = false -> Q tt w) -> (c = true -> (forall w', q w' = Ok true w') -> Q tt w) ->
  (c = true -> wp True drop Q E w) -> wp True (drop_unless c q drop) Q E w.
Proof.
  intros Hq Hf Ht Hd. apply wp_drop_unless; [exact Hf|intros C]. apply (wp_query _ _ _ _ Hq).
  intros b Hb. split; intros ->; [exact (Ht C Hb)|exact (Hd C)].
Qed.

(** The fields that the check reads, halfway through it. *)
Record at_stage (w0 : PPP_TASK_VARS) (nm : list Z) (wo ao : lcp_options) (w : PPP_TASK_VARS) : Prop := {
  at_required : auth_required w = auth_required w0;
  at_fsm : lcp_fsm w = lcp_fsm w0;
  at_name : our_name w = nm;
  at_want : lcp_wantoptions w = wo;
  at_allow : lcp_allowoptions w = ao }.
Ltac stage_done := split; cbv beta delta [upd]; cbn; congruence.

Definition check_name (w0 : PPP_TASK_VARS) : list Z :=
  if bool_decide (our_name w0 = []) then hostname else our_name w0.
Definition check_want (w0 : PPP_TASK_VARS) : lcp_options :=
  let wo := lcp_wantoptions w0 in
  if auth_required w0 && negb (neg_chap wo) && negb (neg_upap wo)
  then wo <| neg_chap := true |> <| neg_upap := true |> else wo.

(** Up to the first search, for the password to send. *)
Lemma wp_first_stages w0 (k : task unit) (Q : unit -> PPP_TASK_VARS -> Prop) E w :
  w = w0 ->
  (forall w, at_stage w0 (check_name w0) (check_want w0) (lcp_allowoptions w0) w -> wp True k Q E w) ->
  wp True
    (name <- gets our_name ;;
     when (bool_decide (name = [])) (modify (fun w => w <| our_name := hostname |>)) ;;
     u <- gets user ;; name <- gets our_name ;;
     when (bool_decide (u = [])) (modify (fun w => w <| user := name |>)) ;;
     required <- gets auth_required ;; wo <- gets lcp_wantoptions ;;
     when (required && negb (neg_chap wo) && negb (neg_upap wo))
       (modify (fun w => w <| lcp_wantoptions ::=
          fun wo => wo <| neg_chap := true |> <| neg_upap := true |> |>)) ;; k) Q E w.
Proof.
  intros -> Hk. set (nm := check_name w0). apply wp_bind, wp_gets, wp_bind.
  apply (wp_mono _ (fun _ => at_stage w0 nm (lcp_wantoptions w0) (lcp_allowoptions w0)) _ (fun _ _ => False));
    [|intros _ w1 Hw1|done].
  { apply wp_when; intros C; [apply wp_modify|]; unfold nm, check_name; rewrite C; stage_done. }
  apply wp_bind, wp_gets, wp_bind, wp_gets, wp_bind.
  apply (wp_mono _ (fun _ => at_stage w0 nm (lcp_wantoptions w0) (lcp_allowoptions w0)) _ (fun _ _ => False));
    [|intros _ w2 Hw2|done].
  { destruct Hw1. apply wp_when; intros _; [apply wp_modify|]; stage_done. }
  apply wp_bind, wp_gets, wp_bind, wp_gets, wp_bind.
  apply (wp_mono _ (fun _ => at_stage w0 nm (check_want w0) (lcp_allowoptions w0)) _ (fun _ _ => False));
    [|exact (fun _ => Hk)|done].
  destruct Hw2 as [E1 E2 E3 E4 E5]. rewrite E1, E4. unfold check_want.
  apply wp_when; intros C; [apply wp_modify|]; rewrite C; stage_done.
Qed.

(** Nothing changes when an option keeps its value. *)
Lemma set_upap_same (o : lcp_options) b : neg_upap o = b -> o <| neg_upap := b |> = o.
Proof. intros <-. by destruct o. Qed.
Lemma set_chap_same (o : lcp_options) b : neg_chap o = b -> o <| neg_chap := b |> = o.
Proof. intros <-. by destruct o. Qed.

(** The searches, as stages. *)
Lemma wp_stage_get_upap w0 nm wo ao w :
  at_stage w0 nm wo ao w ->
  wp True (drop_unless (neg_upap ao && bool_decide (passwd w = [])) (get_upap_passwd lib pap_file remote_name)
      (modify (fun w => w <| lcp_allowoptions ::= fun ao => ao <| neg_upap := false |> |>)))
    (fun _ w => exists b, at_stage w0 nm wo (ao <| neg_upap := b |>) w) (fun _ _ => False) w.
Proof.
  intros [? ? ? ? Ea]. pose proof (set_upap_same ao _ eq_refl) as Hsame.
  apply wp_drop_unless; intros C; [exists (neg_upap ao); rewrite Hsame; by split|].
  apply wp_get_upap; intros b; [intros pw|]; (split; intros ->;
    [exists (neg_upap ao); rewrite Hsame; stage_done|]);
    apply wp_modify; exists false; split; cbv beta delta [upd]; cbn; by rewrite ?Ea.
Qed.

Lemma wp_stage_have_upap w0 nm wo ao w :
  at_stage w0 nm wo ao w ->
  wp True (drop_unless (neg_upap wo && negb uselogin) (have_upap_secret lib pap_file uselogin)
      (modify (fun w => w <| lcp_wantoptions ::= fun wo => wo <| neg_upap := false |> |>)))
    (fun _ w => exists b, at_stage w0 nm (wo <| neg_upap := b |>) ao w
       /\ (b = true -> forall w', our_name w' = nm -> have_upap_secret lib pap_file uselogin w' = Ok true w'))
    (fun _ _ => False) w.
Proof.
  intros Hw. pose proof Hw as [? ? En Ew ?].
  assert (Hkeep : (neg_upap wo = true -> forall w', our_name w' = nm ->
      have_upap_secret lib pap_file uselogin w' = Ok true w') ->
    exists b, at_stage w0 nm (wo <| neg_upap := b |>) ao w
      /\ (b = true -> forall w', our_name w' = nm -> have_upap_secret lib pap_file uselogin w' = Ok true w')).
  { intros Hk. exists (neg_upap wo). by rewrite (set_upap_same wo _ eq_refl). }
  apply wp_drop_unless; intros C.
  - apply Hkeep. intros U w' _. rewrite U in C. unfold have_upap_secret. by destruct uselogin.
  - apply andb_prop in C as [_ C]. unfold have_upap_secret at 1. destruct uselogin; [done|].
    apply wp_bind, wp_gets. rewrite En. apply wp_query; [apply have_secret_query|].
    intros b Hb. split; intros ->.
    + apply Hkeep. intros _ w' <-. apply Hb.
    + apply wp_modify. exists false. split; [|done].
      split; cbv beta delta [upd]; cbn; by rewrite ?Ew.
Qed.

Lemma wp_stage_allow_chap w0 nm wo ao w :
  at_stage w0 nm wo ao w ->
  wp True (drop_unless (neg_chap ao) (have_chap_secret lib chap_file nm remote_name)
      (modify (fun w => w <| lcp_allowoptions ::= fun ao => ao <| neg_chap := false |> |>)))
    (fun _ w => exists b, at_stage w0 nm wo (ao <| neg_chap := b |>) w
       /\ (b = true -> neg_chap ao = true
            /\ forall w', have_chap_secret lib chap_file nm remote_name w' = Ok true w'))
    (fun _ _ => False) w.
Proof.
  intros Hw. apply wp_drop_round; [apply have_chap_query|..]; intros C; [|intros Hq|].
  - exists (neg_chap ao). by rewrite (set_chap_same ao _ eq_refl), C.
  - exists (neg_chap ao). by rewrite (set_chap_same ao _ eq_refl).
  - destruct Hw as [? ? ? ? Ea]. apply wp_modify. exists false. split; [|done].
    split; cbv beta delta [upd]; cbn; by rewrite ?Ea.
Qed.

Lemma wp_stage_want_chap w0 nm wo ao w :
  at_stage w0 nm wo ao w ->
  wp True (drop_unless (neg_chap wo) (have_chap_secret lib chap_file remote_name nm)
      (modify (fun w => w <| lcp_wantoptions ::= fun wo => wo <| neg_chap := false |> |>)))
    (fun _ w => exists b, at_stage w0 nm (wo <| neg_chap := b |>) ao w
       /\ (b = true -> forall w', have_chap_secret lib chap_file remote_name nm w' = Ok true w'))
    (fun _ _ => False) w.
Proof.
  intros Hw. apply wp_drop_round; [apply have_chap_query|..]; intros C; [|intros Hq|].
  - exists (neg_chap wo). by rewrite (set_chap_same wo _ eq_refl), C.
  - exists (neg_chap wo). by rewrite (set_chap_same wo _ eq_refl).
  - destruct Hw as [? ? ? Ew ?]. apply wp_modify. exists false. split; [|done].
    split; cbv beta delta [upd]; cbn; by rewrite ?Ew.
Qed.

Lemma check_auth_options_checked w0 :
  f_state (lcp_fsm w0) = INITIAL ->
  wp True (check_auth_options lib pap_file chap_file hostname uselogin remote_name)
    (fun _ => auth_checked w0)
    (fun st _ => st = 1 /\ auth_required w0 = true /\ stays w0 = false) w0.
Proof.
  intros Hst. unfold check_auth_options. apply (wp_first_stages w0); [done|].
  set (nm := check_name w0). set (wo := check_want w0). intros w1 Hw1.
  apply wp_bind, wp_gets, wp_bind, wp_gets, wp_bind. rewrite (at_allow _ _ _ _ _ Hw1).
  eapply wp_mono; [exact (wp_stage_get_upap _ _ _ _ _ Hw1)|intros _ w2 [b2 Hw2]|done]. clear w1 Hw1.
  apply wp_bind, wp_gets, wp_bind. rewrite (at_want _ _ _ _ _ Hw2).
  eapply wp_mono; [exact (wp_stage_have_upap _ _ _ _ _ Hw2)|intros _ w3 (b3 & Hw3 & H3)|done]. clear w2 Hw2.
  apply wp_bind, wp_gets, wp_bind, wp_gets, wp_bind.
  rewrite (at_allow _ _ _ _ _ Hw3), (at_name _ _ _ _ _ Hw3).
  eapply wp_mono; [exact (wp_stage_allow_chap _ _ _ _ _ Hw3)|intros _ w4 (b4 & Hw4 & H4)|done]. clear w3 Hw3.
  apply wp_bind, wp_gets, wp_bind. rewrite (at_want _ _ _ _ _ Hw4).
  eapply wp_mono; [exact (wp_stage_want_chap _ _ _ _ _ Hw4)|intros _ w5 (b5 & Hw5 & H5)|done]. clear w4 Hw4.
  apply wp_bind, wp_gets, wp_bind, wp_gets. destruct Hw5 as [E1 E2 E3 E4 E5].
  assert (Hmain : (auth_required w0 = true -> stays w0 = false ->
      neg_chap (lcp_wantoptions w5) || neg_upap (lcp_wantoptions w5) = true) -> auth_checked w0 w5).
  { intros Hask. split; [exact Hask|..]; rewrite ?E4, ?E5; cbv beta delta [upd]; cbn.
    - intros ->. rewrite E3. by apply H5.
    - intros ->. by apply H3.
    - intros ->. rewrite E3. destruct (H4 eq_refl) as [Ha Hq]. split; [exact Ha|by apply Hq].
    - exact E1.
    - exact E3. }
  rewrite E1. apply wp_when; intros C.
  - apply andb_prop in C as [C Cu]. apply andb_prop in C as [Cr Cc].
    assert (Es : stays w5 = stays w0) by (unfold stays; by rewrite E2).
    apply (wp_mono _ (fun _ => auth_checked w0) _ (fun st _ => st = 1 /\ stays w5 = false)); [| |].
    + apply wp_die_initial; [by rewrite E2|]. intros Hs. apply Hmain. congruence.
    + done.
    +  intros st _ [-> Hs]. by rewrite <- Es.
  - apply Hmain. intros Cr _. rewrite Cr in C. revert C.
    by destruct (neg_chap (lcp_wantoptions w5)), (neg_upap (lcp_wantoptions w5)).
Qed.

(** C33: From a task whose LCP has not been started, [check_auth_options] comes
    back with every protocol that it asks the peer for backed by a secret (or by
    the login database), with CHAP agreed to only if there is a secret for it,
    and with some protocol asked for when authentication is required, unless the
    flags of the automaton make [die] come back (a task that starts has none, it
    is [lcp_open] that sets them); it ends the task only with status 1, when
    authentication is required. *)
Theorem check_auth_options_asks w0 :
  f_state (lcp_fsm w0) = INITIAL ->
  wp True (check_auth_options lib pap_file chap_file hostname uselogin remote_name)
    (fun _ => auth_checked w0)
    (fun st _ => st = 1 /\ auth_required w0 = true /\ stays w0 = false) w0.
Proof. apply check_auth_options_checked. Qed.
End CheckOptions.

(** ** Encrypted passwords *)

(** The eleven characters behind the salt. *)
Definition crypt_tail (key : list Z) (salt : Z) : list Z :=
  armor 11 (Nat.iter 25 (des salt (round_keys (bits_of (key_loop 8 key)))) (replicate 64 false)
            ++ [false; false]).

Lemma crypt_tail_ok key salt :
  length (crypt_tail key salt) = 11%nat /\ Forall (fun c => c <> 0) (crypt_tail key salt).
Proof.
  unfold crypt_tail. generalize (Nat.iter 25 (des salt (round_keys (bits_of (key_loop 8 key)))) (replicate 64 false)
    ++ [false; false]). intros l. split; [apply length_armor|].
  unfold armor. apply Forall_fmap, Forall_forall. intros j Hj. unfold compose.
  generalize (take 6 (drop (6 * j) l)) (firstn_le_length 6 (drop (6 * j) l)). clear l Hj. intros l Hl6.
  pose proof (num_range l) as Hr.
  assert (H64 : 2 ^ Z.of_nat (length l) <= 2 ^ 6) by (apply Z.pow_le_mono_r; lia).
  change (2 ^ 6) with 64 in H64. assert (Hlt : (Z.to_nat (num l) < 64)%nat) by lia.
  rewrite <- (Z2Nat.id (num l)) by lia.
  refine (check_below 64 (fun n => tab itoa64 (Z.of_nat n) <> 0) (Z.to_nat (num l)) _ Hlt).
  by vm_compute.
Qed.

Lemma crypt_shape big s key setting :
  des_inv big s -> (2 <= length setting)%nat -> Forall (fun c => 0 <= c < 128) (take 2 setting) ->
  cryptRtn big s key setting
  = Some (salt_char setting 0 :: salt_char setting 1 :: crypt_tail key (salt_of setting)).
Proof.
  intros Hs Hl Hc. unfold cryptRtn. destruct (crypt_ok big s key setting Hs Hl Hc) as [s1 E].
  rewrite E. reflexivity.
Qed.
Lemma crypt_outside big s key setting :
  des_inv big s -> (2 <= length setting)%nat -> Exists (fun c => 128 <= c) (take 2 setting) ->
  cryptRtn big s key setting = None.
Proof. intros Hs Hl Hc. unfold cryptRtn. by rewrite (crypt_fault big s key setting Hs Hl Hc). Qed.
#[local] Opaque crypt_tail cryptRtn.

(** The result of [crypt] is a string of 13 characters whose own salt gives it again. *)
Lemma crypt_again big s s' secret salt pw rest :
  des_inv big s -> des_inv big s' -> (2 <= length salt)%nat ->
  Forall (fun c => 0 <= c < 128) (take 2 salt) ->
  cryptRtn big s secret salt = Some pw ->
  cryptRtn big s' secret (pw ++ rest) = Some pw /\ length pw = 13%nat /\ Forall (fun c => c <> 0) pw.
Proof.
  intros Hs Hs' Hl Hc. rewrite (crypt_shape big s secret salt Hs Hl Hc). intros E%Some_inj.
  destruct (crypt_tail_ok secret (salt_of salt)) as [Ht1 Ht2].
  assert (Hch : forall i, (i < 2)%nat -> 0 <= salt_char salt i < 128 /\ salt_char salt i <> 0).
  { intros i Hi. destruct salt as [|c0 [|c1 salt]]; [cbn in Hl; lia..|]. cbn [take] in Hc.
    apply Forall_cons_iff in Hc as [Hc0 Hc]. apply Forall_cons_iff in Hc as [Hc1 _].
    unfold salt_char. destruct i as [|[|i]]; cbn [nth]; [| |lia].
    - destruct (Z.eqb_spec c0 0); lia.
    - destruct (Z.eqb_spec c1 0); lia. }
  destruct (Hch 0%nat) as [R0 N0], (Hch 1%nat) as [R1 N1]; [lia..|].
  assert (Hkeep : forall i, (i < 2)%nat -> salt_char (pw ++ rest) i = salt_char salt i).
  { intros i Hi. subst pw. unfold salt_char at 1. destruct i as [|[|i]]; cbn [app nth]; [| |lia].
    - by rewrite (proj2 (Z.eqb_neq _ _) N0).
    - by rewrite (proj2 (Z.eqb_neq _ _) N1). }
  split_and!.
  - rewrite (crypt_shape big s' secret (pw ++ rest) Hs').
    + unfold salt_of at 1. rewrite !Hkeep by lia. fold (salt_of salt). by subst pw.
    + subst pw. cbn [app length]. lia.
    + subst pw. cbn [app take]. by repeat apply Forall_cons_2.
  - subst pw. cbn [length]. by rewrite Ht1.
  - subst pw. by repeat apply Forall_cons_2.
Qed.

Section CheckPasswd.
Context `{PppEnv} `{Endian} `{SecretLib} `{Files}.
Context (lib : secret_lib) (pap_file : option (list Z)).

Lemma local_copy_string p more rest :
  Z.of_nat (length p) < 256 -> local_copy (p ++ more) (Z.of_nat (length p)) rest = Some (p ++ 0 :: rest).
Proof.
  intros Hp. unfold local_copy. rewrite Nat2Z.id, slice_fits by (rewrite length_app; lia).
  rewrite drop_0, take_app_length. cbn [mbind option_bind]. by rewrite (proj2 (Z.ltb_lt _ _) Hp).
Qed.

(** The check of a client in the table, before the file is asked. *)
Lemma check_passwd_table rtn login_ok rest u pw more more' r w :
  Forall (fun c => c <> 0) u -> Z.of_nat (length u) < 256 -> Z.of_nat (length pw) < 256 ->
  pppSecretFind lib (Some u) (Some (our_name w)) = Some (Some r) ->
  check_passwd lib pap_file false rtn login_ok rest
    (u ++ more) (Z.of_nat (length u)) (pw ++ more') (Z.of_nat (length pw)) w
  = match secret_matches rtn (fd_secret r) (pw ++ 0 :: rest) with
    | None => Fault
    | Some true => Ok UPAP_AUTHACK (w <| addresses := wordlist (fd_addrs r) |>)
    | Some false =>
        (r <- access (scan_file pap_file (Some u) (Some (our_name w))) ;;
         g <- access (granted rtn (pw ++ 0 :: rest) r) ;;
         match g with
         | Some addrs => modify (fun w => w <| addresses := wordlist addrs |>) ;; ret UPAP_AUTHACK
         | None => ret UPAP_AUTHNAK
         end) w
    end.
Proof.
  intros Hu Hul Hpl Hf. unfold check_passwd, bind.
  rewrite !local_copy_string by done. cbn [access ret gets]. rewrite cstring_app by done.
  cbv beta iota zeta delta [gets]. rewrite Hf. cbn [access ret].
  unfold granted at 1. destruct (secret_matches _ _ _) as [[]|]; done.
Qed.

(** C34: A client of the table may send its secret encrypted: whatever [crypt]
    makes of the secret with a salt of ASCII characters is accepted as password
    by the server that uses [crypt], in any state its tables are in, and the
    peer gets the addresses of the entry. *)
Theorem check_passwd_encrypted big s s' login_ok rest u pw salt more more' r w :
  des_inv big s -> des_inv big s' ->
  (2 <= length salt)%nat -> Forall (fun c => 0 <= c < 128) (take 2 salt) ->
  cryptRtn big s (fd_secret r) salt = Some pw ->
  Forall (fun c => c <> 0) u -> Z.of_nat (length u) < 256 ->
  pppSecretFind lib (Some u) (Some (our_name w)) = Some (Some r) ->
  check_passwd lib pap_file false (Some (cryptRtn big s')) login_ok rest
    (u ++ more) (Z.of_nat (length u)) (pw ++ more') (Z.of_nat (length pw)) w
  = Ok UPAP_AUTHACK (w <| addresses := wordlist (fd_addrs r) |>).
Proof.
  intros Hs Hs' Hl Hc Hpw Hu Hul Hf.
  destruct (crypt_again big s s' _ salt pw (0 :: rest) Hs Hs' Hl Hc Hpw) as (Hag & Hpl & Hn).
  rewrite (check_passwd_table _ _ _ _ _ _ _ _ _ Hu Hul) by first [exact Hf|lia].
  unfold secret_matches. rewrite cstring_app by done. case_bool_decide; [done|].
  case_bool_decide; [done|]. rewrite orb_false_l. cbn [mbind option_bind]. rewrite Hag. cbn [mbind option_bind].
  by rewrite bool_decide_eq_true_2.
Qed.

(** When [crypt] is installed, anyone who knows the name of a client with a
    secret makes [check_passwd] read outside of the table of characters, by a
    password other than the secret whose first or second character is not ASCII. *)
Theorem check_passwd_reads_outside big s login_ok rest u pw more more' r w :
  des_inv big s ->
  Exists (fun c => 128 <= c) (take 2 pw) -> fd_secret r <> [] -> pw <> fd_secret r ->
  Forall (fun c => c <> 0) pw -> Z.of_nat (length pw) < 256 ->
  Forall (fun c => c <> 0) u -> Z.of_nat (length u) < 256 ->
  pppSecretFind lib (Some u) (Some (our_name w)) = Some (Some r) ->
  check_passwd lib pap_file false (Some (cryptRtn big s)) login_ok rest
    (u ++ more) (Z.of_nat (length u)) (pw ++ more') (Z.of_nat (length pw)) w = Fault.
Proof.
  intros Hs Hex Hne Hother Hpw Hpl Hu Hul Hf.
  rewrite (check_passwd_table _ _ _ _ _ _ _ _ _ Hu Hul Hpl Hf). unfold secret_matches.
  rewrite cstring_app, !bool_decide_eq_false_2 by done. cbn [orb].
  rewrite crypt_outside; [done|done|..].
  - destruct pw as [|c pw]; [by apply Exists_nil in Hex|]. cbn [app length]. rewrite length_app. cbn. lia.
  - destruct pw as [|c0 [|c1 pw]]; [by apply Exists_nil in Hex| |exact Hex].
    apply Exists_cons in Hex as [Hc|Hex]; [|by apply Exists_nil in Hex]. by apply Exists_cons_hd.
Qed.
End CheckPasswd.
