(* ===== verification/Options.v ===== *)
(** * options.c: the configuration of a unit

    The numbers and names of the options structure of [pppInit] and of an
    options file, the routines that store them, the table of the commands of
    such a file, and [parse_args].  [strtoul] is that of the C standard with
    32-bit longs; the names of hosts, the files, and the fields of PAP's state
    are parameters. *)

From Stdlib Require Import String.
From S2P Require Export Auth.

(** ** Numbers *)

(** The value of a digit or letter; 99 for other characters. *)
Definition digit (c : Z) : Z :=
  if (48 <=? c) && (c <=? 57) then c - 48
  else if (97 <=? c) && (c <=? 122) then c - 87
  else if (65 <=? c) && (c <=? 90) then c - 55
  else 99.

Fixpoint skip_space (l : list Z) : list Z :=
  match l with c :: l' => if isspace c then skip_space l' else l | [] => [] end.
Fixpoint digits (base acc : Z) (l : list Z) : Z * list Z :=
  match l with
  | c :: l' => if digit c <? base then digits base (acc * base + digit c) l' else (acc, l)
  | [] => (acc, [])
  end.
Definition sign (l : list Z) : bool * list Z :=
  match l with
  | c :: l' => if c =? 45 then (true, l') else if c =? 43 then (false, l') else (false, l)
  | [] => (false, [])
  end.
(** The base, and what is behind a 0x. *)
Definition radix (base : Z) (l : list Z) : Z * list Z :=
  match l with
  | z :: l' =>
      match l' with
      | x :: (d :: _) as l'' =>
          if ((base =? 0) || (base =? 16)) && (z =? 48) && ((x =? 120) || (x =? 88)) && (digit d <? 16)
          then (16, l'')
          else (if base =? 0 then if z =? 48 then 8 else 10 else base, l)
      | _ => (if base =? 0 then if z =? 48 then 8 else 10 else base, l)
      end
  | [] => (base, [])
  end.
(** The number, what is behind it, and whether it is out of range.  Without a
    digit the number is 0 and the string is left as it is. *)
Definition strtoul (str : list Z) (base : Z) : Z * list Z * bool :=
  let '(neg, l) := sign (skip_space str) in
  let '(base, l) := radix base l in
  match l with
  | c :: _ =>
      if digit c <? base then
        let '(v, rest) := digits base 0 l in
        if 2 ^ 32 <=? v then (2 ^ 32 - 1, rest, true)
        else (if neg : bool then u32 (- v) else v, rest, false)
      else (0, str, false)
  | [] => (0, str, false)
  end.

(** ** The configured variables *)

(** The fields [us_timeouttime] and [us_maxtransmits] of PAP's state, and the
    resolution of names; [ERROR] is [None]. *)
Class OptionsEnv `{PppEnv} := {
  set_us_timeouttime : Z -> upap_state -> upap_state;
  set_us_maxtransmits : Z -> upap_state -> upap_state;
  hostGetByName : list Z -> option Z;
  inet_addr : list Z -> option Z }.

Section Config.
Context `{PppEnv}.

(** The task variables, with those of [PPP_TASK_VARS] that only the
    configuration uses. *)
Record config := mk_config {
  cf_task : PPP_TASK_VARS;
  cf_debug : Z;
  kdebugflag : Z;
  inspeed : Z;
  netmask : Z;
  cf_uselogin : bool;
  disable_defaultip : bool;
  cf_hostname : list Z;
  cf_remote_name : list Z;
  devname : list Z;
  cf_pap_file : option (list Z);
  cf_chap_file : option (list Z) }.
End Config.
#[export] Instance eta_config `{PppEnv} : Eta config := fun c => {|
  cf_task := cf_task c; cf_debug := cf_debug c; kdebugflag := kdebugflag c; inspeed := inspeed c;
  netmask := netmask c; cf_uselogin := cf_uselogin c; disable_defaultip := disable_defaultip c;
  cf_hostname := cf_hostname c; cf_remote_name := cf_remote_name c; devname := devname c;
  cf_pap_file := cf_pap_file c; cf_chap_file := cf_chap_file c |}.
#[export] Instance set_cf_task `{PppEnv} : Setter cf_task := ltac:(derive_setter).
#[export] Instance set_cf_debug `{PppEnv} : Setter cf_debug := ltac:(derive_setter).
#[export] Instance set_kdebugflag `{PppEnv} : Setter kdebugflag := ltac:(derive_setter).
#[export] Instance set_inspeed `{PppEnv} : Setter inspeed := ltac:(derive_setter).
#[export] Instance set_netmask `{PppEnv} : Setter netmask := ltac:(derive_setter).
#[export] Instance set_cf_uselogin `{PppEnv} : Setter cf_uselogin := ltac:(derive_setter).
#[export] Instance set_cf_remote_name `{PppEnv} : Setter cf_remote_name := ltac:(derive_setter).
#[export] Instance set_devname `{PppEnv} : Setter devname := ltac:(derive_setter).
#[export] Instance set_cf_pap_file `{PppEnv} : Setter cf_pap_file := ltac:(derive_setter).
#[export] Instance set_cf_chap_file `{PppEnv} : Setter cf_chap_file := ltac:(derive_setter).

Definition MAXPATHLEN := 1024.
(** [strncpy] into an array of [n] characters, and the NUL in its last one. *)
Definition strncpy_to (n : Z) (s : list Z) : list Z := take (Z.to_nat (n - 1)) s.

Section Options.
Context `{PppEnv} `{Endian} `{Files} `{!OptionsEnv}.
(** Whether [errno] is ERANGE when the options are parsed. *)
Context (errno_ERANGE : bool).

(** A routine that executes a command; its result is 0 or 1. *)
Definition setter := M config Empty_set bool.
Definition set (f : config -> config) : setter := modify f ;; ret true.
Definition on_task (f : PPP_TASK_VARS -> PPP_TASK_VARS) : setter := set (fun c => c <| cf_task ::= f |>).

(** [long]s; [None] for the result 0. *)
Definition number_option (str : list Z) (base : Z) : option Z :=
  let '(v, _, range) := strtoul str base in
  if errno_ERANGE || range then None else Some (s32 v).
Definition with_number (str : list Z) (base : Z) (k : Z -> setter) : setter :=
  match number_option str base with None => ret false | Some v => k v end.
Definition int_option (str : list Z) (store : Z -> PPP_TASK_VARS -> PPP_TASK_VARS) : setter :=
  with_number str 0 (fun v => on_task (store v)).

(** *** Flags *)

Definition both_lcp (f : lcp_options -> lcp_options) : setter :=
  on_task (fun w => w <| lcp_wantoptions ::= f |> <| lcp_allowoptions ::= f |>).
Definition both_ipcp (f : ipcp_options -> ipcp_options) : setter :=
  on_task (fun w => w <| ipcp_wantoptions ::= f |> <| ipcp_allowoptions ::= f |>).

Definition setdebug : setter := set (fun c => c <| cf_debug := 1 |>).
Definition setkdebug : setter := set (fun c => c <| kdebugflag := 1 |>).
Definition noopt : setter :=
  on_task (fun w => w <| lcp_wantoptions := no_lcp_options |> <| lcp_allowoptions := no_lcp_options |>
                      <| ipcp_wantoptions := no_ipcp_options |> <| ipcp_allowoptions := no_ipcp_options |>).
Definition noaccomp : setter := both_lcp (fun o => o <| neg_accompression := false |>).
Definition noasyncmap : setter := both_lcp (fun o => o <| neg_asyncmap := false |>).
Definition noipaddr : setter := both_ipcp (fun o => o <| neg_addr := false |>).
Definition nomagicnumber : setter := both_lcp (fun o => o <| neg_magicnumber := false |>).
Definition nomru : setter := both_lcp (fun o => o <| neg_mru := false |>).
Definition nopcomp : setter := both_lcp (fun o => o <| neg_pcompression := false |>).
Definition want_lcp (f : lcp_options -> lcp_options) : setter :=
  on_task (fun w => w <| lcp_wantoptions ::= f |>).
Definition allow_lcp (f : lcp_options -> lcp_options) : setter :=
  on_task (fun w => w <| lcp_allowoptions ::= f |>).
Definition want_ipcp (f : ipcp_options -> ipcp_options) : setter :=
  on_task (fun w => w <| ipcp_wantoptions ::= f |>).
Definition setpassive : setter := want_lcp (fun o => o <| passive := true |>).
Definition setsilent : setter := want_lcp (fun o => o <| silent := true |>).
Definition nopap : setter := allow_lcp (fun o => o <| neg_upap := false |>).
Definition nochap : setter := allow_lcp (fun o => o <| neg_chap := false |>).
Definition reqpap : setter :=
  on_task (fun w => w <| lcp_wantoptions ::= fun o => o <| neg_upap := true |> |> <| auth_required := true |>).
Definition reqchap : setter :=
  on_task (fun w => w <| lcp_wantoptions ::= fun o => o <| neg_chap := true |> |> <| auth_required := true |>).
Definition setnovj : setter := both_ipcp (fun o => o <| neg_vj := false |>).
Definition setnovjccomp : setter := both_ipcp (fun o => o <| cflag := 0 |>).
Definition setdefaultroute : setter := want_ipcp (fun o => o <| default_route := true |>).
Definition setproxyarp : setter := want_ipcp (fun o => o <| proxy_arp := true |>).
Definition setdologin : setter := set (fun c => c <| cf_uselogin := true |>).
Definition setipcpaccl : setter := want_ipcp (fun o => o <| accept_local := true |>).
Definition setipcpaccr : setter := want_ipcp (fun o => o <| accept_remote := true |>).

(** *** Numbers and sets *)

Definition setmru (argv : list Z) : setter :=
  with_number argv 0 (fun v => want_lcp (fun o => o <| mru := u16 v |> <| neg_mru := true |>)).
Definition setmtu (argv : list Z) : setter :=
  with_number argv 0 (fun v =>
    if (v <? MINMRU) || (MAXMRU <? v) then ret false else allow_lcp (fun o => o <| mru := u16 v |>)).
Definition setvjslots (argv : list Z) : setter :=
  with_number argv 0 (fun value =>
    if (value <? 2) || (16 <? value) then ret false
    else both_ipcp (fun o => o <| maxslotindex := u8 (value - 1) |>)).
Definition setasyncmap (argv : list Z) : setter :=
  with_number argv 16 (fun v =>
    want_lcp (fun o => o <| asyncmap ::= fun a => Z.lor a (u32 v) |> <| neg_asyncmap := true |>)).

(** Characters that are not escaped. *)
Definition no_escape (n : Z) : bool :=
  (n <? 0) || ((0x20 <=? n) && (n <=? 0x3F)) || (n =? 0x5E) || (0xFF <? n).
(** [xmit_accm[n >> 5] |= 1 << (n & 0x1F)] *)
Definition escape_bit (n : Z) (accm : list Z) : option (list Z) :=
  a ← accm !! Z.to_nat (Z.shiftr n 5);
  Some (<[Z.to_nat (Z.shiftr n 5) := Z.lor a (Z.shiftl 1 (Z.land n 0x1F))]> accm).
Fixpoint skip_commas (l : list Z) : list Z :=
  match l with
  | c :: l' => if (c =? 44) || (c =? 32) then skip_commas l' else l
  | [] => []
  end.
Fixpoint setescape_loop (fuel : nat) (p : list Z) (r : bool) : setter :=
  match p with
  | [] => ret r
  | _ =>
      match fuel with
      | O => hang
      | S fuel =>
          let '(v, endp, _) := strtoul p 16 in
          if bool_decide (endp = p) then ret false else
          let n := s32 v in
          if no_escape n then setescape_loop fuel (skip_commas endp) false else
          accm <- gets (fun c => xmit_accm (cf_task c)) ;;
          accm <- access (escape_bit n accm) ;;
          modify (fun c => c <| cf_task ::= fun w => w <| xmit_accm := accm |> |>) ;;
          setescape_loop fuel (skip_commas endp) r
      end
  end.
Definition setescape (argv : list Z) : setter := setescape_loop (length argv) argv true.

(** *** Files, names and addresses *)

Definition setupapfile (argv : list Z) : setter :=
  modify (fun c => c <| cf_task ::= fun w => w <| lcp_allowoptions ::= fun o => o <| neg_upap := true |> |> |>
                     <| cf_pap_file := Some argv |>) ;;
  ret (match fopen argv with Some _ => true | None => false end).
Definition setchapfile (argv : list Z) : setter :=
  modify (fun c => c <| cf_task ::= fun w => w <| lcp_allowoptions ::= fun o => o <| neg_chap := true |> |> |>
                     <| cf_chap_file := Some argv |>) ;;
  ret (match fopen argv with Some _ => true | None => false end).

Definition setname (argv : list Z) : setter :=
  on_task (fun w => if bool_decide (our_name w = [])
                    then w <| our_name := strncpy_to MAXNAMELEN argv |> else w).
Definition setuser (argv : list Z) : setter :=
  on_task (fun w => w <| user := strncpy_to MAXNAMELEN argv |>).
Definition setpasswd (argv : list Z) : setter :=
  on_task (fun w => w <| passwd := strncpy_to MAXSECRETLEN argv |>).
Definition setremote (argv : list Z) : setter :=
  set (fun c => c <| cf_remote_name := strncpy_to MAXNAMELEN argv |>).

Definition setnetmask (argv : list Z) : setter :=
  old <- gets netmask ;;
  match inet_addr argv with
  | None => ret false
  | Some mask =>
      if negb (Z.land old (Z.lxor mask (Z.ones 32)) =? 0) then ret false
      else set (fun c => c <| netmask := mask |>)
  end.
Definition GetMask (c : config) (addr : Z) : Z := netmask c.

Definition setspeed (arg : Z) : setter := set (fun c => c <| inspeed := arg |>).
Definition setdevname (cp : list Z) : setter := set (fun c => c <| devname := strncpy_to MAXPATHLEN cp |>).

(** An address, by name ([true]) or by number. *)
Definition address_of (s : list Z) : option (Z * bool) :=
  match hostGetByName s with
  | Some a => Some (a, true)
  | None =>
      match inet_addr s with
      | Some a => if bad_ip_adrs a then None else Some (a, false)
      | None => None
      end
  end.
Definition setipaddr (local_addr remote_addr : list Z) : setter :=
  match address_of local_addr with
  | None => ret false
  | Some (local, named) =>
      modify (fun c => c <| cf_task ::= fun w =>
        if named : bool then w <| our_name := strncpy_to MAXNAMELEN local_addr |> else w |>) ;;
      modify (fun c => c <| cf_task ::= fun w =>
        if local =? 0 then w else w <| ipcp_wantoptions ::= fun o => o <| ouraddr := local |> |> |>) ;;
      match address_of remote_addr with
      | None => ret false
      | Some (remote, named) =>
          modify (fun c =>
            if named : bool then c <| cf_remote_name := strncpy_to MAXNAMELEN remote_addr |> else c) ;;
          on_task (fun w =>
            if remote =? 0 then w else w <| ipcp_wantoptions ::= fun o => o <| hisaddr := remote |> |>)
      end
  end.
Definition setipdefault : M config Empty_set unit :=
  c <- gets id ;;
  if negb (ouraddr (ipcp_wantoptions (cf_task c)) =? 0) || disable_defaultip c then ret tt else
  modify (fun c => c <| cf_task ::= fun w => w <| ipcp_wantoptions ::= fun o => o <| accept_local := true |> |> |>) ;;
  match hostGetByName (cf_hostname c) with
  | None => ret tt
  | Some local =>
      when (negb (local =? 0) && negb (bad_ip_adrs local))
        (modify (fun c => c <| cf_task ::= fun w =>
           w <| ipcp_wantoptions ::= fun o => o <| ouraddr := local |> |> |>))
  end.

(** *** Timeouts and limits *)

Definition upd_fsm_of (set_fsm : (fsm -> fsm) -> PPP_TASK_VARS -> PPP_TASK_VARS)
  (field : Z -> fsm -> fsm) (argv : list Z) : setter :=
  int_option argv (fun v => set_fsm (field v)).
Definition of_lcp (f : fsm -> fsm) : PPP_TASK_VARS -> PPP_TASK_VARS := fun w => w <| lcp_fsm ::= f |>.
Definition of_ipcp (f : fsm -> fsm) : PPP_TASK_VARS -> PPP_TASK_VARS := fun w => w <| ipcp_fsm ::= f |>.

Definition setlcpechointv argv := int_option argv (fun v w => w <| lcp_echo_interval := u32 v |>).
Definition setlcpechofails argv := int_option argv (fun v w => w <| lcp_echo_fails := u32 v |>).
Definition setlcptimeout := upd_fsm_of of_lcp (fun v f => f <| f_timeouttime := v |>).
Definition setlcpterm := upd_fsm_of of_lcp (fun v f => f <| f_maxtermtransmits := v |>).
Definition setlcpconf := upd_fsm_of of_lcp (fun v f => f <| f_maxconfreqtransmits := v |>).
Definition setlcpfails := upd_fsm_of of_lcp (fun v f => f <| f_maxnakloops := v |>).
Definition setipcptimeout := upd_fsm_of of_ipcp (fun v f => f <| f_timeouttime := v |>).
Definition setipcpterm := upd_fsm_of of_ipcp (fun v f => f <| f_maxtermtransmits := v |>).
Definition setipcpconf := upd_fsm_of of_ipcp (fun v f => f <| f_maxconfreqtransmits := v |>).
Definition setipcpfails := upd_fsm_of of_ipcp (fun v f => f <| f_maxnakloops := v |>).
Definition setpaptimeout argv := int_option argv (fun v w => w <| upap ::= set_us_timeouttime v |>).
Definition setpapreqs argv := int_option argv (fun v w => w <| upap ::= set_us_maxtransmits v |>).
Definition setchaptimeout argv := int_option argv (fun v w => w <| chap ::= fun c => c <| timeouttime := v |> |>).
Definition setchapchal argv := int_option argv (fun v w => w <| chap ::= fun c => c <| max_transmits := v |> |>).
Definition setchapintv argv := int_option argv (fun v w => w <| chap ::= fun c => c <| chal_interval := v |> |>).

(** ** The commands of an options file *)

(** [cmd_func] is called with [argv[0]]; the routines without arguments ignore it. *)
Record cmd := mk_cmd { cmd_name : list Z; num_args : nat; cmd_func : list Z -> setter }.
Definition flag (f : setter) : list Z -> setter := fun _ => f.

Definition cmds : list cmd := [
  mk_cmd (text "no_all") 0 (flag noopt);
  mk_cmd (text "no_acc") 0 (flag noaccomp);
  mk_cmd (text "no_asyncmap") 0 (flag noasyncmap);
  mk_cmd (text "debug") 0 (flag setdebug);
  mk_cmd (text "driver_debug") 1 (flag setkdebug);
  mk_cmd (text "no_ip") 0 (flag noipaddr);
  mk_cmd (text "no_mn") 0 (flag nomagicnumber);
  mk_cmd (text "no_mru") 0 (flag nomru);
  mk_cmd (text "passive_mode") 0 (flag setpassive);
  mk_cmd (text "no_pc") 0 (flag nopcomp);
  mk_cmd (text "no_pap") 0 (flag nopap);
  mk_cmd (text "no_chap") 0 (flag nochap);
  mk_cmd (text "require_pap") 0 (flag reqpap);
  mk_cmd (text "require_chap") 0 (flag reqchap);
  mk_cmd (text "no_vj") 0 (flag setnovj);
  mk_cmd (text "no_vjccomp") 0 (flag setnovjccomp);
  mk_cmd (text "silent_mode") 0 (flag setsilent);
  mk_cmd (text "defaultroute") 0 (flag setdefaultroute);
  mk_cmd (text "proxyarp") 0 (flag setproxyarp);
  mk_cmd (text "login") 0 (flag setdologin);
  mk_cmd (text "ipcp_accept_local") 0 (flag setipcpaccl);
  mk_cmd (text "ipcp_accept_remote") 0 (flag setipcpaccr);
  mk_cmd (text "asyncmap") 1 setasyncmap;
  mk_cmd (text "vj_max_slots") 1 setvjslots;
  mk_cmd (text "escape_chars") 1 setescape;
  mk_cmd (text "pap_file") 1 setupapfile;
  mk_cmd (text "chap_file") 1 setchapfile;
  mk_cmd (text "mru") 1 setmru;
  mk_cmd (text "mtu") 1 setmtu;
  mk_cmd (text "netmask") 1 setnetmask;
  mk_cmd (text "local_auth_name") 1 setname;
  mk_cmd (text "pap_user_name") 1 setuser;
  mk_cmd (text "pap_passwd") 1 setpasswd;
  mk_cmd (text "remote_auth_name") 1 setremote;
  mk_cmd (text "lcp_echo_failure") 1 setlcpechofails;
  mk_cmd (text "lcp_echo_interval") 1 setlcpechointv;
  mk_cmd (text "lcp_restart") 1 setlcptimeout;
  mk_cmd (text "lcp_max_terminate") 1 setlcpterm;
  mk_cmd (text "lcp_max_configure") 1 setlcpconf;
  mk_cmd (text "lcp_max_failure") 1 setlcpfails;
  mk_cmd (text "ipcp_restart") 1 setipcptimeout;
  mk_cmd (text "ipcp_max_terminate") 1 setipcpterm;
  mk_cmd (text "ipcp_max_configure") 1 setipcpconf;
  mk_cmd (text "ipcp_max_failure") 1 setipcpfails;
  mk_cmd (text "pap_restart") 1 setpaptimeout;
  mk_cmd (text "pap_max_authreq") 1 setpapreqs;
  mk_cmd (text "chap_restart") 1 setchaptimeout;
  mk_cmd (text "chap_max_challenge") 1 setchapchal;
  mk_cmd (text "chap_interval") 1 setchapintv ].

Fixpoint find_cmd (name : list Z) (l : list cmd) : option cmd :=
  match l with
  | [] => None
  | c :: l => if bool_decide (name = cmd_name c) then Some c else find_cmd name l
  end.

(** [getword] into the array [word] from the file [f]. *)
Definition word_of (f word : list Z) : M config Empty_set (bool * list Z * list Z) := fun c =>
  match getword (mk_reader f word) with
  | Ok (more, _) r => Ok (more, r_file r, r_word r) c
  | Throw e _ => match e : Empty_set with end
  | Fault => Fault
  | Hang => Hang
  end.
(** The words of [n] arguments, all read into [args[0]] (MAXARGS is 1). *)
Fixpoint read_args (n : nat) (f arg : list Z) : M config Empty_set (bool * list Z * list Z) :=
  match n with
  | O => ret (true, f, arg)
  | S n =>
      '(r, arg) <- word_of f arg ;;
      let '(more, f) := r in
      if more : bool then read_args n f arg else ret (false, f, arg)
  end.

(** The rounds of [options_from_file]; [word] and [arg] are the arrays [cmd] and
    [args[0]]. *)
Fixpoint commands_loop (fuel : nat) (f word arg : list Z) : setter :=
  match fuel with
  | O => hang
  | S fuel =>
      '(r, word) <- word_of f word ;;
      let '(more, f) := r in
      if negb (more : bool) then ret true else
      match find_cmd (cstring word) cmds with
      | None => ret false
      | Some c =>
          '(r, arg) <- read_args (num_args c) f arg ;;
          let '(more, f) := r in
          if negb (more : bool) then ret false else
          ok <- cmd_func c (cstring arg) ;;
          if negb ok then ret false else commands_loop fuel f word arg
      end
  end.

Definition options_from_file (fileName : list Z) (must_exist : bool) : setter :=
  match fopen fileName with
  | None => ret (negb must_exist)
  | Some f =>
      commands_loop (S (length f)) f (replicate (Z.to_nat MAXWORDLEN) 0) (replicate (Z.to_nat MAXWORDLEN) 0)
  end.
Definition readfile (argv : list Z) : setter := options_from_file argv true.

(** ** The options structure, and [parse_args] *)

Record PPP_OPTIONS := {
  po_flags : Z;
  po_asyncmap : option (list Z);
  po_escape_chars : option (list Z);
  po_vj_max_slots : option (list Z);
  po_netmask : option (list Z);
  po_mru : option (list Z);
  po_mtu : option (list Z);
  po_lcp_echo_failure : option (list Z);
  po_lcp_echo_interval : option (list Z);
  po_lcp_restart : option (list Z);
  po_lcp_max_terminate : option (list Z);
  po_lcp_max_configure : option (list Z);
  po_lcp_max_failure : option (list Z);
  po_ipcp_restart : option (list Z);
  po_ipcp_max_terminate : option (list Z);
  po_ipcp_max_configure : option (list Z);
  po_ipcp_max_failure : option (list Z);
  po_local_auth_name : option (list Z);
  po_remote_auth_name : option (list Z);
  po_pap_file : option (list Z);
  po_pap_user_name : option (list Z);
  po_pap_passwd : option (list Z);
  po_pap_restart : option (list Z);
  po_pap_max_authreq : option (list Z);
  po_chap_file : option (list Z);
  po_chap_restart : option (list Z);
  po_chap_interval : option (list Z);
  po_chap_max_challenge : option (list Z) }.

Definition PPP_S_NO_ALL := 0.
Definition PPP_S_PASSIVE_MODE := 1.
Definition PPP_S_SILENT_MODE := 2.
Definition PPP_S_DEFAULTROUTE := 3.
Definition PPP_S_PROXYARP := 4.
Definition PPP_S_IPCP_ACCEPT_LOCAL := 5.
Definition PPP_S_IPCP_ACCEPT_REMOTE := 6.
Definition PPP_S_NO_IP := 7.
Definition PPP_S_NO_ACC := 8.
Definition PPP_S_NO_PC := 9.
Definition PPP_S_NO_VJ := 10.
Definition PPP_S_NO_VJCCOMP := 11.
Definition PPP_S_NO_ASYNCMAP := 12.
Definition PPP_S_NO_MN := 13.
Definition PPP_S_NO_MRU := 14.
Definition PPP_S_NO_PAP := 15.
Definition PPP_S_NO_CHAP := 16.
Definition PPP_S_REQUIRE_PAP := 17.
Definition PPP_S_REQUIRE_CHAP := 18.
Definition PPP_S_LOGIN := 19.
Definition PPP_S_DEBUG := 20.
Definition PPP_S_DRIVER_DEBUG := 21.

(** The flags in the order in which they are looked at, with their routines. *)
Definition flag_setters : list (Z * setter) := [
  (PPP_S_NO_ALL, noopt); (PPP_S_NO_ACC, noaccomp); (PPP_S_NO_ASYNCMAP, noasyncmap);
  (PPP_S_DEBUG, setdebug); (PPP_S_DRIVER_DEBUG, setkdebug); (PPP_S_NO_IP, noipaddr);
  (PPP_S_NO_MN, nomagicnumber); (PPP_S_NO_MRU, nomru); (PPP_S_PASSIVE_MODE, setpassive);
  (PPP_S_NO_PC, nopcomp); (PPP_S_NO_PAP, nopap); (PPP_S_NO_CHAP, nochap);
  (PPP_S_REQUIRE_PAP, reqpap); (PPP_S_REQUIRE_CHAP, reqchap); (PPP_S_NO_VJ, setnovj);
  (PPP_S_NO_VJCCOMP, setnovjccomp); (PPP_S_SILENT_MODE, setsilent);
  (PPP_S_DEFAULTROUTE, setdefaultroute); (PPP_S_PROXYARP, setproxyarp); (PPP_S_LOGIN, setdologin);
  (PPP_S_IPCP_ACCEPT_LOCAL, setipcpaccl); (PPP_S_IPCP_ACCEPT_REMOTE, setipcpaccr) ].
(** The strings, likewise. *)
Definition string_setters : list ((PPP_OPTIONS -> option (list Z)) * (list Z -> setter)) := [
  (po_asyncmap, setasyncmap); (po_vj_max_slots, setvjslots); (po_escape_chars, setescape);
  (po_pap_file, setupapfile); (po_chap_file, setchapfile); (po_mru, setmru); (po_mtu, setmtu);
  (po_netmask, setnetmask); (po_local_auth_name, setname); (po_pap_user_name, setuser);
  (po_pap_passwd, setpasswd); (po_remote_auth_name, setremote);
  (po_lcp_echo_failure, setlcpechofails); (po_lcp_echo_interval, setlcpechointv);
  (po_lcp_restart, setlcptimeout); (po_lcp_max_terminate, setlcpterm);
  (po_lcp_max_configure, setlcpconf); (po_lcp_max_failure, setlcpfails);
  (po_ipcp_restart, setipcptimeout); (po_ipcp_max_terminate, setipcpterm);
  (po_ipcp_max_configure, setipcpconf); (po_ipcp_max_failure, setipcpfails);
  (po_pap_restart, setpaptimeout); (po_pap_max_authreq, setpapreqs);
  (po_chap_restart, setchaptimeout); (po_chap_max_challenge, setchapchal);
  (po_chap_interval, setchapintv) ].

(** [if (!m) return 0; k] *)
Definition and_then (m k : setter) : setter := ok <- m ;; if ok : bool then k else ret false.
Fixpoint set_flags (flags : Z) (l : list (Z * setter)) (k : setter) : setter :=
  match l with
  | [] => k
  | (s, f) :: l => when (Z.testbit flags s) (f ;; ret tt) ;; set_flags flags l k
  end.
Fixpoint set_strings (o : PPP_OPTIONS) (l : list ((PPP_OPTIONS -> option (list Z)) * (list Z -> setter)))
  (k : setter) : setter :=
  match l with
  | [] => k
  | (field, f) :: l =>
      match field o with
      | None => set_strings o l k
      | Some argv => and_then (f argv) (set_strings o l k)
      end
  end.

Definition parse_args (device local_addr remote_addr : list Z) (baud : Z)
  (options : option PPP_OPTIONS) (fileName : option (list Z)) : setter :=
  let rest :=
    and_then (match fileName with Some f => readfile f | None => ret true end)
      (and_then (setdevname device)
        (and_then (setspeed baud)
          (setipaddr local_addr remote_addr))) in
  match options with
  | Some o => set_flags (po_flags o) flag_setters (set_strings o string_setters rest)
  | None => rest
  end.

(** ** The configuration of the task (pppLib.c)

    From the zeroed variables to the first packet: the protocols are
    initialised, the options parsed and checked.  The device, the socket, the
    signals and the hook are not part of it. *)

Definition run_task {A} (m : task A) : M config Z A := fun c =>
  match m (cf_task c) with
  | Ok a w => Ok a (c <| cf_task := w |>)
  | Throw st w => Throw st (c <| cf_task := w |>)
  | Fault => Fault
  | Hang => Hang
  end.
Definition run_setter {A} (m : M config Empty_set A) : M config Z A := fun c =>
  match m c with
  | Ok a c => Ok a c
  | Throw e _ => match e : Empty_set with end
  | Fault => Fault
  | Hang => Hang
  end.

Definition ppp_setup (lib : secret_lib) (device local_addr remote_addr : list Z) (baud : Z)
  (options : option PPP_OPTIONS) (fileName : option (list Z)) : M config Z unit :=
  run_task protocols_init ;;
  ok <- run_setter (parse_args device local_addr remote_addr baud options fileName) ;;
  when (negb ok) (run_task (die 1)) ;;
  c <- gets id ;;
  run_task (check_auth_options lib (cf_pap_file c) (cf_chap_file c) (cf_hostname c)
              (cf_uselogin c) (cf_remote_name c)) ;;
  run_setter setipdefault.
End Options.
