(* ===== verification/OptionsProps.v ===== *)
(** * What the configuration leaves

    Numbers; the types and bounds that every option respects, with the end of
    [parse_args]; and the set-up of the task: a unit that is told to require
    authentication starts only with it. *)

From S2P Require Import LcpNak.
From S2P Require Export Options AuthProps.

(** ** Numbers *)

Definition is_i32 (z : Z) : Prop := - 2 ^ 31 <= z < 2 ^ 31.
Lemma s32_range z : is_u32 z -> is_i32 (s32 z).
Proof. unfold is_u32, is_i32, s32. intros Hz. destruct (Z.ltb_spec z (2 ^ 31)); lia. Qed.

Lemma digit_nonneg c : 0 <= digit c.
Proof.
  unfold digit. destruct ((48 <=? c) && (c <=? 57)) eqn:E1; [lia|].
  destruct ((97 <=? c) && (c <=? 122)) eqn:E2; [lia|].
  destruct ((65 <=? c) && (c <=? 90)) eqn:E3; lia.
Qed.
Lemma digits_spec base acc l :
  0 <= base -> 0 <= acc -> 0 <= (digits base acc l).1 /\ (digits base acc l).2 `suffix_of` l.
Proof.
  intros Hb. revert acc. induction l as [|c l IH]; intros acc Ha; cbn [digits]; [done|].
  destruct (digit c <? base); [|done].
  destruct (IH (acc * base + digit c)) as [H1 H2]; [pose proof (digit_nonneg c); nia|].
  split; [done|]. by apply suffix_cons_r.
Qed.
Lemma skip_space_suffix l : skip_space l `suffix_of` l.
Proof.
  induction l as [|c l IH]; cbn; [done|]. destruct (isspace c); [|done]. by apply suffix_cons_r.
Qed.
Lemma sign_suffix l : (sign l).2 `suffix_of` l.
Proof.
  destruct l as [|c l]; cbn; [done|]. destruct (c =? 45); [by apply suffix_cons_r|].
  destruct (c =? 43); [by apply suffix_cons_r|done].
Qed.
Lemma radix_spec base l :
  0 <= base -> 0 <= (radix base l).1 /\ (radix base l).2 `suffix_of` l.
Proof.
  intros Hb. destruct l as [|z [|x [|d l]]]; cbn [radix]; [done|..].
  1,2: destruct (base =? 0), (z =? 48); cbn; split; (done || lia).
  case_match; cbn; [split; [lia|by exists [z; x]]|]. destruct (base =? 0), (z =? 48); cbn; split; (done || lia).
Qed.
(** The value is a long; what is behind the number is a proper suffix unless
    there is no number. *)
Lemma strtoul_spec str base :
  0 <= base ->
  let '(v, endp, _) := strtoul str base in
  is_u32 v /\ endp `suffix_of` str /\ (endp = str \/ (length endp < length str)%nat).
Proof.
  intros Hb. unfold strtoul. destruct (sign (skip_space str)) as [neg l] eqn:Es.
  assert (Hs : l `suffix_of` str).
  { etrans; [|apply skip_space_suffix]. pose proof (sign_suffix (skip_space str)) as H'. by rewrite Es in H'. }
  destruct (radix base l) as [b l'] eqn:Er.
  destruct (radix_spec base l Hb) as [Hb' Hr]. rewrite Er in Hb', Hr. cbn in Hb', Hr.
  assert (H0 : is_u32 0) by (unfold is_u32; lia).
  destruct l' as [|c l']; [by auto|]. destruct (digit c <? b) eqn:Ed; [|by auto].
  cbn [digits]. rewrite Ed.
  pose proof (digits_spec b (0 * b + digit c) l' Hb') as Hd.
  destruct (digits b (0 * b + digit c) l') as [v rest]. cbn in Hd.
  destruct Hd as [Hv Hrest]; [pose proof (digit_nonneg c); lia|].
  assert (Hc : c :: l' `suffix_of` str) by by etrans.
  assert (Hlen : rest `suffix_of` str /\ (length rest < length str)%nat).
  { split; [etrans; [exact Hrest|]; etrans; [|exact Hc]; by apply suffix_cons_r|].
    apply suffix_length in Hrest, Hc. cbn in Hc. lia. }
  destruct Hlen as [Hl1 Hl2]. destruct (2 ^ 32 <=? v) eqn:Ev.
  - split; [unfold is_u32; lia|]. by auto.
  - apply Z.leb_gt in Ev. split; [|by auto]. destruct neg; [apply u32_range|]. unfold is_u32. lia.
Qed.

(** ** Types and bounds *)

Record limits_ok (f : fsm) : Prop := {
  lo_timeout : is_i32 (f_timeouttime f);
  lo_conf : is_i32 (f_maxconfreqtransmits f);
  lo_term : is_i32 (f_maxtermtransmits f);
  lo_nak : is_i32 (f_maxnakloops f) }.
(** A string with its NUL in an array of [n] characters. *)
Definition fits (n : Z) (s : list Z) : Prop := Z.of_nat (length s) < n.

Record chap_limits_ok (c : chap_state) : Prop := {
  cl_timeout : is_i32 (timeouttime c);
  cl_transmits : is_i32 (max_transmits c);
  cl_interval : is_i32 (chal_interval c) }.

Section Bounds.
Context `{PppEnv} `{Endian} `{Files} `{!OptionsEnv}.
Context (errno_ERANGE : bool).

(** The variables that the options set are within their types and arrays. *)
Record task_ok (w : PPP_TASK_VARS) : Prop := {
  to_want : lcp_options_ok (lcp_wantoptions w);
  to_allow : lcp_options_ok (lcp_allowoptions w);
  to_ipwant : ipcp_options_ok (ipcp_wantoptions w);
  to_ipallow : ipcp_options_ok (ipcp_allowoptions w);
  to_accm : length (xmit_accm w) = 8%nat /\ Forall is_u32 (xmit_accm w);
  to_lcp : limits_ok (lcp_fsm w);
  to_ipcp : limits_ok (ipcp_fsm w);
  to_chap : chap_limits_ok (chap w);
  to_echo : is_u32 (lcp_echo_interval w) /\ is_u32 (lcp_echo_fails w);
  to_names : fits MAXNAMELEN (our_name w) /\ fits MAXNAMELEN (user w) /\ fits MAXSECRETLEN (passwd w) }.
Record config_ok (c : config) : Prop := {
  co_task : task_ok (cf_task c);
  co_mask : is_u32 (netmask c);
  co_names : fits MAXNAMELEN (cf_remote_name c) /\ fits MAXPATHLEN (devname c) }.

(** What every option keeps: LCP has not been started, and once authentication
    is required ([req]) it stays required. *)
Definition task_at (req : bool) (w : PPP_TASK_VARS) : Prop :=
  task_ok w /\ f_state (lcp_fsm w) = INITIAL /\ f_flags (lcp_fsm w) = 0
  /\ (req = true -> auth_required w = true).
Definition at_setup (req : bool) (c : config) : Prop :=
  config_ok c /\ f_state (lcp_fsm (cf_task c)) = INITIAL /\ f_flags (lcp_fsm (cf_task c)) = 0
  /\ (req = true -> auth_required (cf_task c) = true).

(** [F]: something may leave an array. *)
Definition safe (F : Prop) (req req' : bool) {A} (m : M config Empty_set A) : Prop :=
  forall c, at_setup req c -> wp F m (fun _ => at_setup req') (fun _ _ => False) c.

Section Safe.
Context (F : Prop) (req : bool).
Lemma safe_ret {A} (a : A) : safe F req req (ret a).
Proof. intros c Hc. by apply wp_ret. Qed.
Lemma safe_bind {A B} req' (m : M config Empty_set A) (k : A -> M config Empty_set B) :
  safe F req req m -> (forall a, safe F req req' (k a)) -> safe F req req' (bind m k).
Proof.
  intros Hm Hk c Hc. apply wp_bind. eapply wp_mono; [by apply Hm| |done]. intros a c' Hc'. by apply Hk.
Qed.
Lemma safe_if {A} req' (b : bool) (m n : M config Empty_set A) :
  safe F req req' m -> safe F req req' n -> safe F req req' (if b then m else n).
Proof. by destruct b. Qed.
Lemma safe_gets {A} (f : config -> A) : safe F req req (gets f).
Proof. intros c Hc. by apply wp_gets. Qed.
Lemma safe_modify req' (f : config -> config) :
  (forall c, at_setup req c -> at_setup req' (f c)) -> safe F req req' (modify f).
Proof. intros Hf c Hc. by apply wp_modify, Hf. Qed.
Lemma safe_set req' (f : config -> config) :
  (forall c, at_setup req c -> at_setup req' (f c)) -> safe F req req' (set f).
Proof. intros Hf c Hc. apply wp_bind, wp_modify, wp_ret. by apply Hf. Qed.

Lemma at_setup_task req' (f : PPP_TASK_VARS -> PPP_TASK_VARS) c :
  (forall w, task_at req w -> task_at req' (f w)) -> at_setup req c ->
  at_setup req' (c <| cf_task ::= f |>).
Proof.
  intros Hf ([Ht Hm Hn] & Hs & Hfl & Hr).
  destruct (Hf (cf_task c) (conj Ht (conj Hs (conj Hfl Hr)))) as (Ht' & Hs' & Hfl' & Hr').
  exact (conj (Build_config_ok (c <| cf_task ::= f |>) Ht' Hm Hn) (conj Hs' (conj Hfl' Hr'))).
Qed.
Lemma safe_task req' (f : PPP_TASK_VARS -> PPP_TASK_VARS) :
  (forall w, task_at req w -> task_at req' (f w)) -> safe F req req' (on_task f).
Proof. intros Hf. apply safe_set. intros c. by apply at_setup_task. Qed.

(** Updates of the variables of the task. *)
Ltac task_upd :=
  let w := fresh "w" in
  intros w ([] & ? & ? & ?); split_and!; [split|..]; cbv beta delta [upd]; cbn; auto.

Lemma at_lcp_want (f : lcp_options -> lcp_options) w :
  (forall o, lcp_options_ok o -> lcp_options_ok (f o)) ->
  task_at req w -> task_at req (w <| lcp_wantoptions ::= f |>).
Proof. intros Hf. revert w. task_upd. Qed.
Lemma at_lcp_allow (f : lcp_options -> lcp_options) w :
  (forall o, lcp_options_ok o -> lcp_options_ok (f o)) ->
  task_at req w -> task_at req (w <| lcp_allowoptions ::= f |>).
Proof. intros Hf. revert w. task_upd. Qed.
Lemma at_ipcp_want (f : ipcp_options -> ipcp_options) w :
  (forall o, ipcp_options_ok o -> ipcp_options_ok (f o)) ->
  task_at req w -> task_at req (w <| ipcp_wantoptions ::= f |>).
Proof. intros Hf. revert w. task_upd. Qed.
Lemma at_ipcp_allow (f : ipcp_options -> ipcp_options) w :
  (forall o, ipcp_options_ok o -> ipcp_options_ok (f o)) ->
  task_at req w -> task_at req (w <| ipcp_allowoptions ::= f |>).
Proof. intros Hf. revert w. task_upd. Qed.

Lemma safe_want_lcp f : (forall o, lcp_options_ok o -> lcp_options_ok (f o)) -> safe F req req (want_lcp f).
Proof. intros Hf. apply safe_task. intros w. by apply at_lcp_want. Qed.
Lemma safe_allow_lcp f : (forall o, lcp_options_ok o -> lcp_options_ok (f o)) -> safe F req req (allow_lcp f).
Proof. intros Hf. apply safe_task. intros w. by apply at_lcp_allow. Qed.
Lemma safe_both_lcp f : (forall o, lcp_options_ok o -> lcp_options_ok (f o)) -> safe F req req (both_lcp f).
Proof. intros Hf. apply safe_task. intros w Hw. by apply at_lcp_allow, at_lcp_want. Qed.
Lemma safe_want_ipcp f : (forall o, ipcp_options_ok o -> ipcp_options_ok (f o)) -> safe F req req (want_ipcp f).
Proof. intros Hf. apply safe_task. intros w. by apply at_ipcp_want. Qed.
Lemma safe_both_ipcp f : (forall o, ipcp_options_ok o -> ipcp_options_ok (f o)) -> safe F req req (both_ipcp f).
Proof. intros Hf. apply safe_task. intros w Hw. by apply at_ipcp_allow, at_ipcp_want. Qed.

Lemma safe_number str base k :
  0 <= base -> (forall v, is_i32 v -> safe F req req (k v)) ->
  safe F req req (with_number errno_ERANGE str base k).
Proof.
  intros Hb Hk. unfold with_number, number_option. pose proof (strtoul_spec str base Hb) as Hs.
  destruct (strtoul str base) as [[v endp] range]. destruct Hs as [Hv _].
  destruct (errno_ERANGE || range); [apply safe_ret|]. by apply Hk, s32_range.
Qed.
Lemma safe_int str store :
  (forall v w, is_i32 v -> task_at req w -> task_at req (store v w)) ->
  safe F req req (int_option errno_ERANGE str store).
Proof. intros Hs. apply safe_number; [done|]. intros v Hv. apply safe_task. auto. Qed.
Lemma safe_lcp_limit field argv :
  (forall v f, is_i32 v -> limits_ok f -> limits_ok (field v f)
     /\ f_state (field v f) = f_state f /\ f_flags (field v f) = f_flags f) ->
  safe F req req (upd_fsm_of errno_ERANGE of_lcp field argv).
Proof.
  intros Hf. apply safe_int. intros v w Hv (Hok & Hs & Hfl & Hr).
  destruct (Hf v (lcp_fsm w) Hv (to_lcp w Hok)) as (Hl & Es & Ef).
  split_and!; [destruct Hok; split|..]; cbv beta delta [of_lcp upd]; cbn; auto; congruence.
Qed.
Lemma safe_ipcp_limit field argv :
  (forall v f, is_i32 v -> limits_ok f -> limits_ok (field v f)) ->
  safe F req req (upd_fsm_of errno_ERANGE of_ipcp field argv).
Proof.
  intros Hf. apply safe_int. intros v w Hv. revert w. unfold of_ipcp. task_upd.
Qed.
Lemma safe_chap_limit field argv :
  (forall v f, is_i32 v -> chap_limits_ok f -> chap_limits_ok (field v f)) ->
  safe F req req (int_option errno_ERANGE argv (fun v w => w <| chap ::= field v |>)).
Proof. intros Hf. apply safe_int. intros v w Hv. revert w. task_upd. Qed.
Lemma safe_upap field argv :
  safe F req req (int_option errno_ERANGE argv (fun v w => w <| upap ::= field v |>)).
Proof. apply safe_int. intros v w Hv. revert w. task_upd. Qed.

Lemma fits_strncpy n s : 0 < n -> fits n (strncpy_to n s).
Proof. intros Hn. unfold fits, strncpy_to. rewrite length_take. lia. Qed.

(** Escapes *)
Lemma escape_bit_ok n accm :
  no_escape n = false -> length accm = 8%nat -> Forall is_u32 accm ->
  exists accm', escape_bit n accm = Some accm' /\ length accm' = 8%nat /\ Forall is_u32 accm'.
Proof.
  intros Hn Hl Ha. unfold no_escape in Hn. rewrite !orb_false_iff in Hn.
  destruct Hn as [[[Hn0 _] _] Hn1]. apply Z.ltb_ge in Hn0, Hn1. unfold escape_bit.
  assert (Hi : (Z.to_nat (Z.shiftr n 5) < 8)%nat).
  { rewrite Z.shiftr_div_pow2 by lia. change (2 ^ 5) with 32. int_lia. }
  destruct (lookup_lt_is_Some_2 accm (Z.to_nat (Z.shiftr n 5))) as [a Ea]; [lia|].
  rewrite Ea. eexists. split; [done|]. split; [by rewrite length_insert|].
  apply Forall_insert; [done|]. apply lor_u32; [by eapply Forall_lookup_1|].
  change 0x1F with (Z.ones 5). rewrite Z.land_ones by lia.
  rewrite Z.shiftl_1_l. unfold is_u32. split; [apply Z.pow_nonneg; lia|].
  apply Z.pow_lt_mono_r; [lia|lia|]. pose proof (Z.mod_pos_bound n (2 ^ 5)). lia.
Qed.
Lemma skip_commas_length l : (length (skip_commas l) <= length l)%nat.
Proof. induction l as [|c l IH]; cbn; [done|]. destruct (_ || _); cbn; lia. Qed.
Lemma safe_setescape_loop fuel p r :
  (length p <= fuel)%nat -> safe F req req (setescape_loop fuel p r).
Proof.
  revert p r. induction fuel as [|fuel IH]; intros p r Hl.
  - destruct p; [apply safe_ret|cbn in Hl; lia].
  - destruct p as [|c p]; [apply safe_ret|]. cbn [setescape_loop].
    pose proof (strtoul_spec (c :: p) 16 ltac:(done)) as Hs.
    destruct (strtoul (c :: p) 16) as [[v endp] range]. destruct Hs as (_ & _ & He).
    case_bool_decide as Hne; [apply safe_ret|]. destruct He as [He|He]; [done|].
    assert (Hk : (length (skip_commas endp) <= fuel)%nat)
      by (pose proof (skip_commas_length endp); cbn in Hl, He; lia).
    cbv zeta. destruct (no_escape (s32 v)) eqn:En; [by apply IH|].
    intros c0 (Hc & Hr). apply wp_bind, wp_gets.
    destruct (to_accm _ (co_task _ Hc)) as [Ha1 Ha2].
    destruct (escape_bit_ok (s32 v) _ En Ha1 Ha2) as (accm' & -> & Hb1 & Hb2).
    apply wp_bind. eapply wp_access; [done|]. apply wp_bind, wp_modify. apply IH; [done|].
    apply (at_setup_task req (fun w => w <| xmit_accm := accm' |>)); [|by split]. task_upd.
Qed.

(** Names, files and addresses *)
Context (Haddr : forall s a, hostGetByName s = Some a \/ inet_addr s = Some a -> is_u32 a).

Lemma at_our_name s w : task_at req w -> task_at req (w <| our_name := strncpy_to MAXNAMELEN s |>).
Proof. revert w. task_upd. destruct to_names0 as (? & ? & ?). split_and!; auto. by apply fits_strncpy. Qed.
Lemma at_user s w : task_at req w -> task_at req (w <| user := strncpy_to MAXNAMELEN s |>).
Proof. revert w. task_upd. destruct to_names0 as (? & ? & ?). split_and!; auto. by apply fits_strncpy. Qed.
Lemma at_passwd s w : task_at req w -> task_at req (w <| passwd := strncpy_to MAXSECRETLEN s |>).
Proof. revert w. task_upd. destruct to_names0 as (? & ? & ?). split_and!; auto. by apply fits_strncpy. Qed.
Lemma at_remote_name s c : at_setup req c -> at_setup req (c <| cf_remote_name := strncpy_to MAXNAMELEN s |>).
Proof.
  intros ([Ht Hm [Hn1 Hn2]] & Hr). split; [|exact Hr]. split; [exact Ht|exact Hm|].
  split; [by apply fits_strncpy|exact Hn2].
Qed.
Lemma at_setup_fields c c' :
  at_setup req c -> cf_task c' = cf_task c -> netmask c' = netmask c ->
  cf_remote_name c' = cf_remote_name c -> devname c' = devname c -> at_setup req c'.
Proof.
  intros ([Ht Hm Hn] & Hr) E1 E2 E3 E4. unfold at_setup. rewrite E1. split; [|exact Hr].
  split; rewrite ?E1, ?E2, ?E3, ?E4; assumption.
Qed.
Lemma at_our_addr a w :
  is_u32 a -> task_at req w ->
  task_at req (w <| ipcp_wantoptions ::= fun o => o <| ouraddr := a |> |>).
Proof. intros Ha. apply at_ipcp_want. intros o []. by split. Qed.
Lemma at_his_addr a w :
  is_u32 a -> task_at req w ->
  task_at req (w <| ipcp_wantoptions ::= fun o => o <| hisaddr := a |> |>).
Proof. intros Ha. apply at_ipcp_want. intros o []. by split. Qed.
Lemma address_u32 s a b : address_of s = Some (a, b) -> is_u32 a.
Proof.
  unfold address_of. destruct (hostGetByName s) as [x|] eqn:E1; [intros [= <- <-]; by eapply Haddr; left|].
  destruct (inet_addr s) as [x|] eqn:E2; [|done]. destruct (bad_ip_adrs x); [done|].
  intros [= <- <-]. eapply Haddr; by right.
Qed.

Lemma safe_setipaddr local remote : safe F req req (setipaddr local remote).
Proof.
  unfold setipaddr. destruct (address_of local) as [[a named]|] eqn:E1; [|apply safe_ret].
  apply address_u32 in E1. apply safe_bind; [|intros _; apply safe_bind; [|intros _]].
  - apply safe_modify. intros c. apply at_setup_task. intros w. destruct named; [apply at_our_name|done].
  - apply safe_modify. intros c. apply at_setup_task. intros w. destruct (a =? 0); [done|by apply at_our_addr].
  - destruct (address_of remote) as [[b named']|] eqn:E2; [|apply safe_ret].
    apply address_u32 in E2. apply safe_bind; [|intros _].
    + apply safe_modify. intros c. destruct named'; [apply at_remote_name|done].
    + apply safe_task. intros w. destruct (b =? 0); [done|by apply at_his_addr].
Qed.
Lemma safe_setipdefault : safe F req req setipdefault.
Proof.
  apply safe_bind; [apply safe_gets|]. intros c0. apply safe_if; [apply safe_ret|].
  apply safe_bind; [|intros _].
  - apply safe_modify. intros c. apply at_setup_task. intros w. apply at_ipcp_want. intros o []; by split.
  - destruct (hostGetByName (cf_hostname c0)) as [a|] eqn:E; [|apply safe_ret].
    unfold when. apply safe_if; [|apply safe_ret]. apply safe_modify. intros c. apply at_setup_task.
    intros w. apply at_our_addr. eapply Haddr; by left.
Qed.
Lemma safe_setnetmask argv : safe F req req (setnetmask argv).
Proof.
  apply safe_bind; [apply safe_gets|]. intros old. destruct (inet_addr argv) as [m|] eqn:E; [|apply safe_ret].
  apply safe_if; [apply safe_ret|]. apply safe_set. intros c ([Ht Hm Hn] & Hr). split; [|exact Hr].
  split; [exact Ht| |exact Hn]. change (is_u32 m). eapply Haddr; by right.
Qed.
Lemma safe_file (f : lcp_options -> lcp_options) (g : config -> config) (b : bool) :
  (forall o, lcp_options_ok o -> lcp_options_ok (f o)) ->
  (forall c, cf_task (g c) = cf_task c /\ netmask (g c) = netmask c
     /\ cf_remote_name (g c) = cf_remote_name c /\ devname (g c) = devname c) ->
  safe F req req (modify (fun c => g (c <| cf_task ::= fun w => w <| lcp_allowoptions ::= f |> |>)) ;; ret b).
Proof.
  intros Hf Hg. apply safe_bind; [|intros _; apply safe_ret]. apply safe_modify. intros c Hc.
  destruct (Hg (c <| cf_task ::= fun w => w <| lcp_allowoptions ::= f |> |>)) as (E1 & E2 & E3 & E4).
  eapply at_setup_fields; [|done..]. apply (at_setup_task req); [|done]. intros w. by apply at_lcp_allow.
Qed.

(** *** Every routine *)

Lemma no_options_ok : lcp_options_ok no_lcp_options /\ ipcp_options_ok no_ipcp_options.
Proof. split; split; cbn; unfold is_u8, is_u16, is_u32; lia. Qed.
Lemma safe_noopt : safe F req req noopt.
Proof.
  destruct no_options_ok as [Hl Hi]. apply safe_task. intros w Hw.
  apply at_ipcp_allow; [done|]. apply at_ipcp_want; [done|]. apply at_lcp_allow; [done|]. by apply at_lcp_want.
Qed.
Lemma safe_req (f : lcp_options -> lcp_options) req' :
  (forall o, lcp_options_ok o -> lcp_options_ok (f o)) ->
  safe F req req' (on_task (fun w => w <| lcp_wantoptions ::= f |> <| auth_required := true |>)).
Proof.
  intros Hf. apply safe_task. intros w ([] & ? & ? & ?).
  split_and!; [split|..]; cbv beta delta [upd]; cbn; auto.
Qed.
Lemma safe_setmtu argv : safe F req req (setmtu errno_ERANGE argv).
Proof.
  apply safe_number; [done|]. intros v Hv. apply safe_if; [apply safe_ret|]. apply safe_allow_lcp.
  intros o []. split; cbv beta delta [upd]; cbn; auto. apply u16_range.
Qed.
Lemma safe_setvjslots argv : safe F req req (setvjslots errno_ERANGE argv).
Proof.
  apply safe_number; [done|]. intros v Hv. apply safe_if; [apply safe_ret|]. apply safe_both_ipcp.
  intros o []. split; cbv beta delta [upd]; cbn; auto. apply u8_range.
Qed.
Lemma safe_setmru argv : safe F req req (setmru errno_ERANGE argv).
Proof.
  apply safe_number; [done|]. intros v Hv. apply safe_want_lcp.
  intros o []. split; cbv beta delta [upd]; cbn; auto. apply u16_range.
Qed.
Lemma safe_setasyncmap argv : safe F req req (setasyncmap errno_ERANGE argv).
Proof.
  apply safe_number; [done|]. intros v Hv. apply safe_want_lcp.
  intros o []. split; cbv beta delta [upd]; cbn; auto. apply lor_u32; [done|apply u32_range].
Qed.
Lemma safe_setname argv : safe F req req (setname argv).
Proof. apply safe_task. intros w. case_bool_decide; [apply at_our_name|done]. Qed.
Lemma safe_setuser argv : safe F req req (setuser argv).
Proof. apply safe_task. intros w. apply at_user. Qed.
Lemma safe_setpasswd argv : safe F req req (setpasswd argv).
Proof. apply safe_task. intros w. apply at_passwd. Qed.
Lemma safe_setremote argv : safe F req req (setremote argv).
Proof. apply safe_set. intros c. apply at_remote_name. Qed.
Lemma safe_setupapfile argv : safe F req req (setupapfile argv).
Proof.
  apply (safe_file (fun o => o <| neg_upap := true |>) (fun c => c <| cf_pap_file := Some argv |>)); [|done].
  intros o []; by split.
Qed.
Lemma safe_setchapfile argv : safe F req req (setchapfile argv).
Proof.
  apply (safe_file (fun o => o <| neg_chap := true |>) (fun c => c <| cf_chap_file := Some argv |>)); [|done].
  intros o []; by split.
Qed.
Lemma safe_setescape argv : safe F req req (setescape argv).
Proof. by apply safe_setescape_loop. Qed.
Lemma safe_setlcpechointv argv : safe F req req (setlcpechointv errno_ERANGE argv).
Proof.
  apply safe_int. intros v w Hv. revert w. task_upd. destruct to_echo0. split; [apply u32_range|done].
Qed.
Lemma safe_setlcpechofails argv : safe F req req (setlcpechofails errno_ERANGE argv).
Proof.
  apply safe_int. intros v w Hv. revert w. task_upd. destruct to_echo0. split; [done|apply u32_range].
Qed.
Lemma safe_plain (f : config -> config) :
  (forall c, cf_task (f c) = cf_task c /\ netmask (f c) = netmask c
     /\ cf_remote_name (f c) = cf_remote_name c /\ devname (f c) = devname c) -> safe F req req (set f).
Proof. intros Hf. apply safe_set. intros c Hc. destruct (Hf c) as (E1 & E2 & E3 & E4). by eapply at_setup_fields. Qed.
Lemma safe_setdevname cp : safe F req req (setdevname cp).
Proof.
  apply safe_set. intros c ([Ht Hm [Hn1 Hn2]] & Hr). split; [|exact Hr]. split; [exact Ht|exact Hm|].
  split; [exact Hn1|by apply fits_strncpy].
Qed.

(** The routines of the tables, one by one: those with a lemma of their own,
    and the others by the shape of their definitions. *)
Ltac head_of m := lazymatch m with ?f _ => head_of f | _ => m end.
Ltac a_shape :=
  lazymatch goal with
  | |- safe _ _ _ (both_lcp _) => apply safe_both_lcp; intros o []; by split
  | |- safe _ _ _ (both_ipcp _) => apply safe_both_ipcp; intros o []; by split
  | |- safe _ _ _ (want_lcp _) => apply safe_want_lcp; intros o []; by split
  | |- safe _ _ _ (allow_lcp _) => apply safe_allow_lcp; intros o []; by split
  | |- safe _ _ _ (want_ipcp _) => apply safe_want_ipcp; intros o []; by split
  | |- safe _ _ _ (on_task _) => apply safe_req; intros o []; by split
  | |- safe _ _ _ (set _) => apply safe_plain; intros ?; split_and!; reflexivity
  | |- safe _ _ _ (upd_fsm_of _ of_lcp _ _) => apply safe_lcp_limit; intros v f ? []; split; [by split|done]
  | |- safe _ _ _ (upd_fsm_of _ of_ipcp _ _) => apply safe_ipcp_limit; intros v f ? []; by split
  end.
Ltac a_setter :=
  lazymatch goal with
  | |- safe _ _ _ noopt => apply safe_noopt
  | |- safe _ _ _ (setmtu _ _) => apply safe_setmtu
  | |- safe _ _ _ (setmru _ _) => apply safe_setmru
  | |- safe _ _ _ (setvjslots _ _) => apply safe_setvjslots
  | |- safe _ _ _ (setasyncmap _ _) => apply safe_setasyncmap
  | |- safe _ _ _ (setescape _) => apply safe_setescape
  | |- safe _ _ _ (setupapfile _) => apply safe_setupapfile
  | |- safe _ _ _ (setchapfile _) => apply safe_setchapfile
  | |- safe _ _ _ (setname _) => apply safe_setname
  | |- safe _ _ _ (setuser _) => apply safe_setuser
  | |- safe _ _ _ (setpasswd _) => apply safe_setpasswd
  | |- safe _ _ _ (setremote _) => apply safe_setremote
  | |- safe _ _ _ (setnetmask _) => apply safe_setnetmask
  | |- safe _ _ _ (setlcpechointv _ _) => apply safe_setlcpechointv
  | |- safe _ _ _ (setlcpechofails _ _) => apply safe_setlcpechofails
  | |- safe _ _ _ (setpaptimeout _ _) => apply safe_upap
  | |- safe _ _ _ (setpapreqs _ _) => apply safe_upap
  | |- safe _ _ _ (setchaptimeout _ _) => apply safe_chap_limit; intros v f ? []; by split
  | |- safe _ _ _ (setchapchal _ _) => apply safe_chap_limit; intros v f ? []; by split
  | |- safe _ _ _ (setchapintv _ _) => apply safe_chap_limit; intros v f ? []; by split
  | |- safe _ _ _ ?m => let h := head_of m in unfold h; a_shape
  end.

Lemma safe_flag_setters : Forall (fun p => safe F req req p.2) flag_setters.
Proof. unfold flag_setters. repeat apply Forall_cons_2; [..|apply Forall_nil_2]; cbv beta; cbn [snd]; a_setter. Qed.
Lemma safe_string_setters :
  Forall (fun p => forall argv, safe F req req (p.2 argv)) (string_setters errno_ERANGE).
Proof.
  unfold string_setters. repeat apply Forall_cons_2; [..|apply Forall_nil_2]; cbv beta; cbn [snd];
    intros argv; a_setter.
Qed.
Lemma safe_cmds : Forall (fun c => forall argv, safe F req req (cmd_func c argv)) (cmds errno_ERANGE).
Proof.
  unfold cmds. repeat apply Forall_cons_2; [..|apply Forall_nil_2]; cbv beta; cbn [cmd_func]; unfold flag;
    intros argv; a_setter.
Qed.

(** *** The file and the structure *)

Lemma safe_word_of {A} req' (k : bool * list Z * list Z -> M config Empty_set A) f word :
  length word = Z.to_nat MAXWORDLEN -> (~ harmless f -> F) ->
  (forall (more : bool) f' word', length word' = Z.to_nat MAXWORDLEN -> f' `suffix_of` f ->
     (more = true -> (length f' < length f)%nat) -> safe F req req' (k (more, f', word'))) ->
  safe F req req' (bind (word_of f word) k).
Proof.
  intros Hw HF Hk c Hc. apply wp_bind. unfold wp, word_of.
  destruct (getword_cases (mk_reader f word) Hw) as [(more & nl & r & -> & Hr & Hs & Hm)|[-> Hn]];
    [|by apply HF]. cbn in Hs, Hm. apply Hk; [done|done| |exact Hc]. intros ->. exact Hm.
Qed.
Lemma harmless_F f f' : f' `suffix_of` f -> (~ harmless f -> F) -> ~ harmless f' -> F.
Proof. intros Hs HF Hn. apply HF. intros Hf. apply Hn. by eapply harmless_suffix. Qed.

Lemma safe_assoc {A B C} req' (m : M config Empty_set A) (f : A -> M config Empty_set B)
  (g : B -> M config Empty_set C) :
  safe F req req' (bind m (fun a => bind (f a) g)) -> safe F req req' (bind (bind m f) g).
Proof. intros Hs c Hc. unfold wp. rewrite (bind_assoc m f g c). exact (Hs c Hc). Qed.
Lemma safe_ret_bind {A B} req' (a : A) (k : A -> M config Empty_set B) :
  safe F req req' (k a) -> safe F req req' (bind (ret a) k).
Proof. intros Hs c Hc. by apply Hs. Qed.

Lemma safe_read_args {A} req' n (k : bool * list Z * list Z -> M config Empty_set A) f arg :
  length arg = Z.to_nat MAXWORDLEN -> (~ harmless f -> F) ->
  (forall (more : bool) f' arg', length arg' = Z.to_nat MAXWORDLEN -> f' `suffix_of` f ->
     safe F req req' (k (more, f', arg'))) ->
  safe F req req' (bind (read_args n f arg) k).
Proof.
  revert f arg. induction n as [|n IH]; intros f arg Ha HF Hk; cbn [read_args].
  - apply safe_ret_bind. by apply Hk.
  - apply safe_assoc, safe_word_of; [done|done|]. intros more f' arg' Ha' Hs _. destruct more.
    + apply IH; [done|by eapply harmless_F|]. intros more f2 arg2 Ha2 Hs2. apply Hk; [done|by etrans].
    + apply safe_ret_bind. by apply Hk.
Qed.

Lemma find_cmd_in name l c : find_cmd name l = Some c -> c ∈ l.
Proof.
  induction l as [|d l IH]; [done|]. cbn. case_bool_decide; [intros [= ->]; by left|].
  intros Hf. right. auto.
Qed.
Lemma safe_commands_loop fuel f word arg :
  length word = Z.to_nat MAXWORDLEN -> length arg = Z.to_nat MAXWORDLEN ->
  (~ harmless f -> F) -> (length f < fuel)%nat ->
  safe F req req (commands_loop errno_ERANGE fuel f word arg).
Proof.
  revert f word arg. induction fuel as [|fuel IH]; intros f word arg Hw Ha HF Hl; [lia|].
  cbn [commands_loop]. apply safe_word_of; [done|done|]. intros more f1 word1 Hw1 Hs1 Hl1.
  destruct more; [|apply safe_ret]. specialize (Hl1 eq_refl). cbn [negb].
  destruct (find_cmd (cstring word1) (cmds errno_ERANGE)) as [c|] eqn:Ec; [|apply safe_ret].
  apply find_cmd_in in Ec.
  assert (Hc : forall argv, safe F req req (cmd_func c argv)).
  { pose proof safe_cmds as Hall. apply Forall_forall with (x := c) in Hall; [exact Hall|by apply list_elem_of_In]. }
  apply safe_read_args; [done|by eapply harmless_F|]. intros more f2 arg2 Ha2 Hs2.
  apply safe_if; [apply safe_ret|]. apply safe_bind; [apply Hc|]. intros ok.
  apply safe_if; [apply safe_ret|]. apply IH; [done|done| |].
  - eapply harmless_F; [|exact HF]. by etrans.
  - apply suffix_length in Hs2. lia.
Qed.
Lemma safe_readfile name :
  (forall f, fopen name = Some f -> ~ harmless f -> F) -> safe F req req (readfile errno_ERANGE name).
Proof.
  intros HF. unfold readfile, options_from_file. destruct (fopen name) as [f|] eqn:E; [|apply safe_ret].
  apply safe_commands_loop; [by rewrite length_replicate..| |lia]. by apply HF.
Qed.

Lemma safe_and_then m k : safe F req req m -> safe F req req k -> safe F req req (and_then m k).
Proof. intros Hm Hk. apply safe_bind; [done|]. intros ok. by apply safe_if; [|apply safe_ret]. Qed.
Lemma safe_set_strings o l k :
  Forall (fun p => forall argv, safe F req req (p.2 argv)) l -> safe F req req k ->
  safe F req req (set_strings o l k).
Proof.
  intros Hl Hk. induction Hl as [|[field f] l Hf Hl IH]; [done|]. cbn [set_strings].
  destruct (field o) as [argv|]; [|done]. apply safe_and_then; [apply Hf|done].
Qed.
End Safe.

(** [req] becomes true at a flag that requires authentication. *)
Lemma safe_set_flags_keep F req flags l k :
  Forall (fun p => safe F req req p.2) l -> safe F req req k -> safe F req req (set_flags flags l k).
Proof.
  intros Hl Hk. induction Hl as [|[s f] l Hf Hl IH]; cbn [set_flags]; [done|].
  apply safe_bind; [|done]. unfold when. apply safe_if; [|apply safe_ret].
  apply safe_bind; [exact Hf|]. intros _. apply safe_ret.
Qed.
Lemma safe_set_flags F flags l k :
  Forall (fun p => forall req, safe F req req p.2) l ->
  Exists (fun p => Z.testbit flags p.1 = true /\ safe F false true p.2) l ->
  safe F true true k -> safe F false true (set_flags flags l k).
Proof.
  intros Hl Hex Hk. induction Hl as [|[s f] l Hf Hl IH]; cbn [set_flags]; [by apply Exists_nil in Hex|].
  cbn [snd] in Hf. apply Exists_cons in Hex as [[Hb Hr]|Hex]; cbn [fst snd] in *.
  - rewrite Hb. cbn [when]. intros c Hc. apply wp_bind. unfold when. apply wp_bind.
    eapply wp_mono; [by apply Hr| |done]. intros ? c' Hc'. apply wp_ret.
    apply (safe_set_flags_keep F true flags l k); [|exact Hk|exact Hc'].
    revert Hl. apply Forall_impl. intros p Hp. apply Hp.
  - apply safe_bind; [|intros _; by apply IH]. unfold when. apply safe_if; [|apply safe_ret].
    apply safe_bind; [apply Hf|]. intros _. apply safe_ret.
Qed.

(** *** [parse_args] *)

Context (Haddr : forall s a, hostGetByName s = Some a \/ inet_addr s = Some a -> is_u32 a).

(** The flags that require authentication. *)
Definition requires (options : option PPP_OPTIONS) : bool :=
  match options with
  | Some o => Z.testbit (po_flags o) PPP_S_REQUIRE_PAP || Z.testbit (po_flags o) PPP_S_REQUIRE_CHAP
  | None => false
  end.

Lemma flag_setters_require F flags :
  Z.testbit flags PPP_S_REQUIRE_PAP || Z.testbit flags PPP_S_REQUIRE_CHAP = true ->
  Exists (fun p => Z.testbit flags p.1 = true /\ safe F false true p.2) flag_setters.
Proof.
  intros Hf. apply Exists_exists. apply orb_true_iff in Hf as [Hf|Hf].
  - exists (PPP_S_REQUIRE_PAP, reqpap). split; [|split; [exact Hf|apply safe_req; intros o []; by split]].
    unfold flag_setters. do 12 right. by left.
  - exists (PPP_S_REQUIRE_CHAP, reqchap). split; [|split; [exact Hf|apply safe_req; intros o []; by split]].
    unfold flag_setters. do 13 right. by left.
Qed.

Lemma safe_parse_args F device local remote baud options fileName :
  (forall name f, fileName = Some name -> fopen name = Some f -> ~ harmless f -> F) ->
  safe F false (requires options)
    (parse_args errno_ERANGE device local remote baud options fileName).
Proof.
  intros HF. unfold parse_args.
  assert (Hrest : forall req, safe F req req
    (and_then (match fileName with Some f => readfile errno_ERANGE f | None => ret true end)
      (and_then (setdevname device) (and_then (setspeed baud) (setipaddr local remote))))).
  { intros req. apply safe_and_then.
    - destruct fileName as [name|]; [|apply safe_ret]. apply safe_readfile; [done|]. intros f. by apply HF.
    - apply safe_and_then; [apply safe_setdevname|]. apply safe_and_then; [|by apply safe_setipaddr].
      unfold setspeed. apply safe_plain. intros c. split_and!; reflexivity. }
  destruct options as [o|]; [|exact (Hrest false)]. cbn [requires].
  assert (Hs : forall req, safe F req req (set_strings o (string_setters errno_ERANGE)
    (and_then (match fileName with Some f => readfile errno_ERANGE f | None => ret true end)
      (and_then (setdevname device) (and_then (setspeed baud) (setipaddr local remote)))))).
  { intros req. apply safe_set_strings; [by apply safe_string_setters|apply Hrest]. }
  destruct (_ || _) eqn:E.
  - apply safe_set_flags; [|by apply flag_setters_require|apply Hs].
    apply Forall_forall. intros p Hp req. pose proof (safe_flag_setters F req) as Hall.
    apply Forall_forall with (x := p) in Hall; done.
  - apply safe_set_flags_keep; [apply safe_flag_setters|apply Hs].
Qed.
End Bounds.
