(* ===== verification/Setup.v ===== *)
(** * The set-up of a unit

    From the zeroed variables through [parse_args] and [check_auth_options]:
    every option keeps the types and bounds, a unit that is told to require
    authentication asks for it or does not start, and an options file does
    what its commands do. *)

From Stdlib Require Import String.
From S2P Require Export SecretsProps OptionsProps.

Section Setup.
Context `{PppEnv} `{Endian} `{Files} `{!OptionsEnv} `{SecretLib}.
Context (errno_ERANGE : bool).
Context (Haddr : forall s a, hostGetByName s = Some a \/ inet_addr s = Some a -> is_u32 a).

Lemma wp_run_task {A} F (m : task A) (Q : A -> config -> Prop) (E : Z -> config -> Prop) c :
  wp F m (fun a w => Q a (c <| cf_task := w |>)) (fun st w => E st (c <| cf_task := w |>)) (cf_task c) ->
  wp F (run_task m) Q E c.
Proof. unfold wp, run_task. by destruct (m (cf_task c)). Qed.
Lemma wp_run_setter {A} F (m : M config Empty_set A) (Q : A -> config -> Prop) (E : Z -> config -> Prop) c :
  wp F m Q (fun _ _ => False) c -> wp F (run_setter m) Q E c.
Proof. unfold wp, run_setter. by destruct (m c) as [|[]| |]. Qed.

Lemma i32_default : is_i32 DEFTIMEOUT /\ is_i32 DEFMAXCONFREQS /\ is_i32 DEFMAXTERMREQS
  /\ is_i32 DEFMAXNAKLOOPS /\ is_i32 CHAP_DEFTIMEOUT /\ is_i32 CHAP_DEFTRANSMITS /\ is_i32 0.
Proof. unfold is_i32. repeat split; discriminate || reflexivity. Qed.

(** The initialisation of the protocols respects the types. *)
Lemma wp_lcp_setup F (Q : unit -> PPP_TASK_VARS -> Prop) E w :
  task_ok w -> (forall w', task_ok w' -> f_state (lcp_fsm w') = INITIAL -> f_flags (lcp_fsm w') = 0 -> Q tt w') ->
  wp F lcp_init Q E w.
Proof.
  intros [Hwl Hal Hwi Hai [Ha1 Ha2] Hl Hi Hc He Hn] HQ. unfold lcp_init.
  apply wp_bind, wp_modify, wp_bind. unfold fsm_init.
  apply wp_bind, wp_modify, wp_bind, wp_zoom. unfold wp at 1, random. cbv beta iota.
  apply wp_modify, wp_bind, wp_modify, wp_bind, wp_gets, wp_bind.
  set (w1 := upd lcp_wantoptions _ _).
  change (xmit_accm _) with (xmit_accm w).
  destruct (xmit_accm w) as [|a0 [|a1 [|a2 [|a3 l]]]] eqn:Ea; try (cbn in Ha1; lia).
  rewrite poke_fits by (cbn; lia). eapply wp_access; [done|]. cbn [length app Nat.leb drop].
  apply wp_modify. apply Forall_cons_iff in Ha2 as [_ Ha2]. repeat rewrite Forall_cons_iff in Ha2.
  destruct Ha2 as (B1 & B2 & B3 & Hl4).
  assert (U : is_u32 0 /\ is_u32 0x60000000) by (unfold is_u32; lia). destruct U as [U0 U6].
  apply HQ; subst w1.
  - split; cbv beta delta [upd]; cbn; auto.
    + destruct Hwl; split; cbv beta delta [upd]; cbn; auto;
        unfold is_u8, is_u16, is_u32, DEFMRU, CHAP_DIGEST_MD5; lia.
    + destruct Hal; split; cbv beta delta [upd]; cbn; auto;
        unfold is_u8, is_u16, is_u32, MAXMRU, CHAP_DIGEST_MD5; lia.
    + split; [exact Ha1|]. by repeat apply Forall_cons_2.
    + destruct i32_default as (D1 & D2 & D3 & D4 & _). split; [exact D1|exact D2|exact D3|exact D4].
  - done.
  - done.
Qed.
Lemma wp_ipcp_setup F (Q : unit -> PPP_TASK_VARS -> Prop) E w :
  task_ok w ->
  (forall w', task_ok w' -> lcp_fsm w' = lcp_fsm w -> Q tt w') -> wp F ipcp_init Q E w.
Proof.
  intros [Hwl Hal Hwi Hai Ha Hl Hi Hc He Hn] HQ. unfold ipcp_init.
  apply wp_bind, wp_modify, wp_bind. unfold fsm_init.
  apply wp_bind, wp_modify, wp_bind, wp_zoom. unfold wp at 1, random. cbv beta iota.
  apply wp_modify, wp_modify. apply HQ; [|done].
  split; cbv beta delta [upd]; cbn; auto.
  - destruct Hwi; split; cbv beta delta [upd]; cbn; auto; repeat split; discriminate || reflexivity.
  - destruct Hai; split; cbv beta delta [upd]; cbn; auto; repeat split; discriminate || reflexivity.
  - destruct i32_default as (D1 & D2 & D3 & D4 & _). split; [exact D1|exact D2|exact D3|exact D4].
Qed.
Lemma protocols_init_ok F w :
  task_ok w -> wp F protocols_init (fun _ => task_at false) (fun _ _ => False) w.
Proof.
  intros Hw. unfold protocols_init. apply wp_bind, wp_lcp_setup; [done|]. intros w1 Hw1 Hs Hf.
  apply wp_bind, wp_ipcp_setup; [done|]. intros w2 [] E2.
  apply wp_bind, wp_modify, wp_modify. destruct i32_default as (_ & _ & _ & _ & D5 & D6 & D0).
  split_and!; [split|..]; cbv beta delta [upd]; cbn; auto; rewrite ?E2; auto; [|done].
  split; [exact D5|exact D6|exact D0].
Qed.

(** A search that answers does so in every state. *)
Lemma query_always (q : task bool) b w : query q -> q w = Ok b w -> forall w', q w' = Ok b w'.
Proof. intros [Hf|[b' Hb]] E w'; [by rewrite Hf in E|]. rewrite Hb in E. injection E as ->. apply Hb. Qed.
Lemma have_upap_always lib file uselogin w w' :
  have_upap_secret lib file uselogin w = Ok true w -> our_name w' = our_name w ->
  have_upap_secret lib file uselogin w' = Ok true w'.
Proof.
  unfold have_upap_secret. destruct uselogin; [done|]. unfold bind, gets. intros E ->.
  revert w' . exact (query_always _ true w (have_secret_query _ _ _ _) E).
Qed.

(** ** Authentication *)

(** What holds of a unit that has been set up: it requires authentication if the
    options structure says so, asks for it if it requires it, and asks only for
    what it has secrets for. *)
Record demands (lib : secret_lib) (required : bool) (c : config) : Prop := {
  dm_required : required = true -> auth_required (cf_task c) = true;
  dm_asks : auth_required (cf_task c) = true ->
    neg_chap (lcp_wantoptions (cf_task c)) || neg_upap (lcp_wantoptions (cf_task c)) = true;
  dm_chap : neg_chap (lcp_wantoptions (cf_task c)) = true ->
    have_chap_secret lib (cf_chap_file c) (cf_remote_name c) (our_name (cf_task c)) (cf_task c)
    = Ok true (cf_task c);
  dm_upap : neg_upap (lcp_wantoptions (cf_task c)) = true ->
    have_upap_secret lib (cf_pap_file c) (cf_uselogin c) (cf_task c) = Ok true (cf_task c) }.

Lemma wp_setipdefault lib required c :
  demands lib required c ->
  wp True (run_setter setipdefault) (fun _ => demands lib required) (fun st _ => st = 1) c.
Proof.
  intros Hd. apply wp_run_setter.
  assert (Hup : forall f, demands lib required (c <| cf_task ::= fun w => w <| ipcp_wantoptions ::= f |> |>)).
  { intros f. destruct Hd as [Hr Ha Hc Hu]. split; cbv beta delta [upd]; cbn; [exact Hr|exact Ha| |].
    - intros Hn. eapply query_always; [apply have_chap_query|by apply Hc].
    - intros Hn. eapply have_upap_always; [by apply Hu|done]. }
  unfold setipdefault. apply wp_bind, wp_gets. apply wp_if; intros _; [by apply wp_ret|].
  apply wp_bind, wp_modify. destruct (hostGetByName _) as [a|]; [|by apply wp_ret].
  apply wp_when; intros _; [apply wp_modify|apply Hup].
  exact (Hup (fun o => o <| accept_local := true |> <| ouraddr := a |>)).
Qed.

(** C7: Told by the flags of its options structure to require PAP or CHAP, a unit
    requires it whatever else the structure and the options file say; a unit
    that requires authentication starts only with a protocol to ask its peer
    for, and every unit asks only for protocols that it has secrets for.
    Otherwise the set-up ends the task with status 1. *)
Theorem setup_demands_authentication lib device local remote baud options fileName c :
  config_ok c ->
  wp True (ppp_setup errno_ERANGE lib device local remote baud options fileName)
    (fun _ => demands lib (requires options)) (fun st _ => st = 1) c.
Proof.
  intros [Hc Hm Hn]. unfold ppp_setup. apply wp_bind, wp_run_task.
  eapply wp_mono; [by apply protocols_init_ok| |done]. intros _ w (Hw & Hs & Hf & _).
  set (c1 := c <| cf_task := w |>). assert (Hc1 : at_setup false c1) by (split; [by split|done]).
  apply wp_bind, wp_run_setter.
  eapply wp_mono; [exact (safe_parse_args errno_ERANGE Haddr True device local remote baud options fileName
    (fun _ _ _ _ _ => I) c1 Hc1)| |done].
  intros ok c2 (Hok & Hs2 & Hf2 & Hr). apply wp_bind.
  assert (Hst : stays (cf_task c2) = false) by (unfold stays, has_flag; by rewrite Hf2).
  apply wp_when; intros Eok.
  { apply wp_run_task. eapply wp_mono; [apply (wp_die_initial _ (fun _ _ => False)); [done|congruence]| |].
    - intros ? ? [].
    - intros st w' [Hst' _]. exact Hst'. }
  apply wp_bind, wp_gets, wp_bind, wp_run_task.
  eapply wp_mono; [apply check_auth_options_checked; exact Hs2| |].
  - intros _ w3 [Ha Hch Hup _ Er _]. apply wp_setipdefault. split; cbv beta delta [upd]; cbn.
    + intros Hreq. rewrite Er. by apply Hr.
    + intros Hreq. apply Ha; [by rewrite <- Er|done].
    + exact Hch.
    + exact Hup.
  - intros st w' [Hst' _]. exact Hst'.
Qed.

(** C35: From variables within their types and arrays [parse_args] comes back,
    whatever the options structure holds and whatever is in an options file
    whose words fit, and leaves every variable that an option sets within its
    type and its array. *)
Theorem parse_args_types device local remote baud options fileName c :
  config_ok c -> f_state (lcp_fsm (cf_task c)) = INITIAL -> f_flags (lcp_fsm (cf_task c)) = 0 ->
  (forall name f, fileName = Some name -> fopen name = Some f -> harmless f) ->
  wp False (parse_args errno_ERANGE device local remote baud options fileName)
    (fun _ => config_ok) (fun _ _ => False) c.
Proof.
  intros Hc Hs Hf Hfile.
  eapply wp_mono; [apply (safe_parse_args errno_ERANGE Haddr False)| |done].
  - intros name f En Ef Hn. by apply Hn, (Hfile name f).
  - by split.
  - intros ok c' [Hc' _]. exact Hc'.
Qed.

(** ** Options files *)

(** A line of an options file: a command and its arguments, as quoted words. *)
Definition command_line (l : list Z * list (list Z)) : list Z :=
  quote l.1 ++ more_words l.2 ++ [NEWLINE].
Definition commands_file (l : list (list Z * list (list Z))) : list Z := concat (command_line <$> l).
(** The commands one after the other, up to the first that fails or is unknown. *)
Fixpoint run_commands (l : list (list Z * list (list Z))) : setter :=
  match l with
  | [] => ret true
  | (name, args) :: l =>
      match find_cmd name (cmds errno_ERANGE) with
      | None => ret false
      | Some c => and_then (cmd_func c (default [] (head args))) (run_commands l)
      end
  end.
(** Words that fit into an array, and as many arguments as the command takes. *)
Definition command_ok (l : list Z * list (list Z)) : Prop :=
  word_ok l.1 /\ Forall word_ok l.2
  /\ (forall c, find_cmd l.1 (cmds errno_ERANGE) = Some c -> length l.2 = num_args c).

Lemma cmds_args :
  Forall (fun c => (num_args c = 0%nat /\ forall a b, cmd_func c a = cmd_func c b) \/ num_args c = 1%nat)
    (cmds errno_ERANGE).
Proof. unfold cmds. repeat apply Forall_cons_2; [..|apply Forall_nil_2]; (by left) || (by right). Qed.

Lemma word_of_quoted pre w f word c :
  word_ok w -> separated f -> length word = Z.to_nat MAXWORDLEN ->
  pre = [] \/ pre = [32] \/ pre = [NEWLINE] ->
  exists word', word_of (pre ++ quote w ++ f) word c = Ok (true, f, word') c
    /\ cstring word' = w /\ length word' = Z.to_nat MAXWORDLEN.
Proof.
  intros [Hz Hl] Hs Hw Hpre. destruct (getword_quoted w pre f word Hz Hl Hw Hs Hpre) as (b & E & Hb & Hlb).
  exists b. unfold word_of. rewrite E. cbn. by rewrite Hlb.
Qed.

Lemma read_args_words n ws f arg c :
  length ws = n -> (n <= 1)%nat -> Forall word_ok ws -> length arg = Z.to_nat MAXWORDLEN ->
  exists arg', read_args n (more_words ws ++ NEWLINE :: f) arg c = Ok (true, NEWLINE :: f, arg') c
    /\ length arg' = Z.to_nat MAXWORDLEN /\ (n = 1%nat -> cstring arg' = default [] (head ws)).
Proof.
  intros Hn Hn1 Hws Ha. destruct n as [|[|n]]; [| |lia].
  - destruct ws; [|done]. by exists arg.
  - destruct ws as [|w [|]]; [done| |done]. apply Forall_cons_iff in Hws as [Hw _].
    rewrite more_words_cons. cbn [more_words fmap list_fmap concat app read_args].
    destruct (word_of_quoted [32] w (NEWLINE :: f) arg c Hw) as (b & E & Hb & Hl); [by left|done|auto|].
    exists b. unfold bind. cbn [app] in E. rewrite E. done.
Qed.

Lemma commands_loop_runs fuel pre l word arg c :
  Forall command_ok l -> length word = Z.to_nat MAXWORDLEN -> length arg = Z.to_nat MAXWORDLEN ->
  pre = [] \/ pre = [NEWLINE] -> (length l < fuel)%nat ->
  commands_loop errno_ERANGE fuel (pre ++ commands_file l) word arg c = run_commands l c.
Proof.
  intros Hl. revert fuel pre word arg c. induction Hl as [|[name args] l (Hn & Ha & Hc) Hl IH];
    intros fuel pre word arg c Hw Harg Hpre Hfuel; (destruct fuel as [|fuel]; [cbn in Hfuel; lia|]).
  - cbn [commands_loop]. by destruct Hpre as [->| ->].
  - cbn [fst snd] in *. cbn [commands_loop run_commands].
    assert (Ef : pre ++ commands_file ((name, args) :: l)
      = pre ++ quote name ++ more_words args ++ NEWLINE :: commands_file l).
    { unfold commands_file, command_line. cbn [fmap list_fmap concat fst snd]. by rewrite <- !app_assoc. }
    rewrite Ef. unfold bind at 1.
    destruct (word_of_quoted pre name (more_words args ++ NEWLINE :: commands_file l) word c Hn)
      as (w' & E & Hw' & Hlw'); [apply separated_words|done|destruct Hpre; auto|].
    rewrite E, Hw'. cbn [negb]. destruct (find_cmd name (cmds errno_ERANGE)) as [cm|] eqn:Ec; [|done].
    specialize (Hc cm eq_refl). pose proof cmds_args as Hall.
    apply Forall_forall with (x := cm) in Hall; [|by eapply list_elem_of_In, find_cmd_in].
    destruct (read_args_words (num_args cm) args (commands_file l) arg c Hc) as (arg' & E2 & Hl2 & Hc2);
      [destruct Hall as [[-> _]| ->]; lia|done|done|].
    unfold bind at 1. rewrite E2. cbn [negb].
    assert (Ecmd : cmd_func cm (cstring arg') = cmd_func cm (default [] (head args))).
    { destruct Hall as [[_ Hi]|Hone]; [apply Hi|by rewrite Hc2]. }
    rewrite Ecmd. unfold and_then, bind. destruct (cmd_func cm _ c) as [[] c'|[]| |]; cbn [negb]; try done.
    apply (IH fuel [NEWLINE]); [done|done|by right|cbn in Hfuel; lia].
Qed.

Lemma commands_file_length l : (length l <= length (commands_file l))%nat.
Proof.
  induction l as [|[name args] l IH]; [done|]. unfold commands_file in *.
  rewrite fmap_cons. cbn [concat length]. rewrite length_app.
  assert (Hq : (1 <= length (command_line (name, args)))%nat); [|lia].
  unfold command_line, quote. cbn [fst snd app length]. lia.
Qed.

(** C36: An options file that is written with quoted words, one command to a line,
    does what its commands do one after the other, up to the first that fails
    or is unknown, whatever characters the arguments contain. *)
Theorem options_file_runs fileName must_exist l c :
  fopen fileName = Some (commands_file l) -> Forall command_ok l ->
  options_from_file errno_ERANGE fileName must_exist c = run_commands l c.
Proof.
  intros Ef Hl. unfold options_from_file. rewrite Ef.
  apply (commands_loop_runs _ []); [done|by rewrite length_replicate..|by left|].
  apply Nat.lt_succ_r, commands_file_length.
Qed.

(** The table of commands says that driver_debug, which has no argument, has
    one, so that the command in the line behind it is taken for that argument
    and not executed: whatever it is, require_chap for example. *)
Theorem driver_debug_swallows fileName must_exist name l c :
  fopen fileName = Some (commands_file ((text "driver_debug", []) :: (name, []) :: l)) ->
  word_ok name -> Forall command_ok l ->
  options_from_file errno_ERANGE fileName must_exist c = run_commands l (c <| kdebugflag := 1 |>).
Proof.
  intros Ef Hn Hl. unfold options_from_file. rewrite Ef.
  set (f := commands_file ((name, []) :: l)).
  assert (Ef' : commands_file ((text "driver_debug", []) :: (name, []) :: l)
    = [] ++ quote (text "driver_debug") ++ NEWLINE :: f).
  { unfold f, commands_file, command_line. rewrite !fmap_cons. cbn [concat fst snd].
    by rewrite <- !app_assoc. }
  assert (Ef2 : NEWLINE :: f = [NEWLINE] ++ quote name ++ NEWLINE :: commands_file l).
  { unfold f, commands_file, command_line. rewrite fmap_cons. cbn [concat fst snd].
    by rewrite <- !app_assoc. }
  pose proof (commands_file_length ((text "driver_debug", []) :: (name, []) :: l)) as Hlen.
  cbn [length] in Hlen. revert Hlen. generalize (length (commands_file ((text "driver_debug", []) :: (name, []) :: l))).
  intros fuel Hlen.
  rewrite Ef'. cbn [commands_loop]. unfold bind at 1.
  destruct (word_of_quoted [] (text "driver_debug") (NEWLINE :: f) (replicate (Z.to_nat MAXWORDLEN) 0) c)
    as (w & E & Hw & Hlw); [|by left|by rewrite length_replicate|by left|].
  { split; [|reflexivity]. by repeat constructor. }
  rewrite E, Hw. cbn [negb].
  change (find_cmd (text "driver_debug") (cmds errno_ERANGE))
    with (Some (mk_cmd (text "driver_debug") 1 (flag setkdebug))).
  cbn [num_args read_args cmd_func]. unfold bind at 1. unfold bind at 1. rewrite Ef2.
  destruct (word_of_quoted [NEWLINE] name (NEWLINE :: commands_file l) (replicate (Z.to_nat MAXWORDLEN) 0) c Hn)
    as (a & E2 & Ha & Hla); [by left|by rewrite length_replicate|auto|].
  rewrite E2. cbn [ret negb].
  apply (commands_loop_runs _ [NEWLINE] l); [done|done|done|by right|lia].
Qed.

(** The options file that the manual of pppInit shows is refused: its first
    word, passive, is not a command (passive_mode is). *)
Theorem manual_file_refused fileName must_exist rest c :
  fopen fileName = Some (text "passive" ++ NEWLINE :: rest) ->
  options_from_file errno_ERANGE fileName must_exist c = Ok false c.
Proof.
  intros Ef. unfold options_from_file. rewrite Ef. cbn [commands_loop]. unfold bind, word_of.
  assert (E : exists w, getword (mk_reader (text "passive" ++ NEWLINE :: rest) (replicate (Z.to_nat MAXWORDLEN) 0))
    = Ok (true, false) (mk_reader (NEWLINE :: rest) w) /\ find_cmd (cstring w) (cmds errno_ERANGE) = None).
  { destruct rest; eexists; (split; [vm_compute; reflexivity|vm_compute; reflexivity]). }
  destruct E as (w & -> & E). cbn [r_word negb]. by rewrite E.
Qed.

(** ** Escapes *)

(** Whether the character [n] is escaped on transmission. *)
Definition escaped (accm : list Z) (n : Z) : bool :=
  match accm !! Z.to_nat (Z.shiftr n 5) with
  | Some a => Z.testbit a (Z.land n 0x1F)
  | None => false
  end.

(** Nothing is removed, and only what may be escaped is added. *)
Definition escapes_more (accm accm' : list Z) : Prop :=
  length accm' = 8%nat
  /\ forall m, 0 <= m -> (escaped accm m = true -> escaped accm' m = true)
       /\ (escaped accm' m = true -> escaped accm m = true \/ no_escape m = false).

Lemma no_escape_range n : no_escape n = false -> 0 <= n < 256.
Proof. unfold no_escape. rewrite !orb_false_iff, !Z.ltb_ge. lia. Qed.
Lemma escape_bit_escaped n accm accm' m :
  no_escape n = false -> escape_bit n accm = Some accm' -> 0 <= m ->
  escaped accm' m = escaped accm m || (m =? n).
Proof.
  intros Hn%no_escape_range. unfold escape_bit.
  destruct (accm !! Z.to_nat (Z.shiftr n 5)) as [a|] eqn:Ea; [|done]. cbn. intros [= <-] Hm.
  unfold escaped. change 0x1F with (Z.ones 5). rewrite !Z.land_ones, !Z.shiftr_div_pow2 in * by lia.
  change (2 ^ 5) with 32 in *.
  destruct (decide (m / 32 = n / 32)) as [E|E].
  - rewrite E, list_lookup_insert_eq, Ea by (by eapply lookup_lt_Some).
    rewrite Z.lor_spec, Z.shiftl_1_l, Z.pow2_bits_eqb by int_lia. f_equal.
    destruct (Z.eqb_spec (n mod 32) (m mod 32)), (Z.eqb_spec m n); try done; [int_lia|congruence].
  - rewrite list_lookup_insert_ne by int_lia. rewrite (proj2 (Z.eqb_neq m n)); [by rewrite orb_false_r|].
    intros ->. by apply E.
Qed.

(** What the numbers [ns] make of the map. *)
Definition escapes_exactly (accm accm' : list Z) (ns : list Z) : Prop :=
  forall m, 0 <= m -> escaped accm' m = escaped accm m || (existsb (Z.eqb m) ns && negb (no_escape m)).

(** One round of the loop, for a number. *)
Lemma setescape_round fuel ch p r c v endp range :
  strtoul (ch :: p) 16 = (v, endp, range) -> endp <> ch :: p -> length (xmit_accm (cf_task c)) = 8%nat ->
  exists accm1, length accm1 = 8%nat /\ escapes_exactly (xmit_accm (cf_task c)) accm1 [s32 v]
  /\ setescape_loop (S fuel) (ch :: p) r c
     = setescape_loop fuel (skip_commas endp) (r && negb (no_escape (s32 v)))
         (c <| cf_task ::= fun w => w <| xmit_accm := accm1 |> |>).
Proof.
  intros Es Hne Hl. cbn [setescape_loop]. rewrite Es, bool_decide_eq_false_2 by done. cbv zeta.
  unfold escapes_exactly. cbn [existsb].
  destruct (no_escape (s32 v)) eqn:En.
  - exists (xmit_accm (cf_task c)). split; [done|]. split; [|by rewrite andb_false_r; destruct c as [[]]].
    intros m _. destruct (Z.eqb_spec m (s32 v)) as [->|_]; cbn; rewrite ?En; cbn; by rewrite orb_false_r.
  - assert (Hsome : exists accm1, escape_bit (s32 v) (xmit_accm (cf_task c)) = Some accm1 /\ length accm1 = 8%nat).
    { unfold escape_bit. destruct (lookup_lt_is_Some_2 (xmit_accm (cf_task c)) (Z.to_nat (Z.shiftr (s32 v)
      5))) as [a ->].
      - rewrite Hl, Z.shiftr_div_pow2 by lia. apply no_escape_range in En. change (2 ^ 5) with 32. int_lia.
      - eexists. split; [done|]. by rewrite length_insert. }
    destruct Hsome as (accm1 & E1 & Hl1). exists accm1. split; [done|]. split.
    + intros m Hm. rewrite (escape_bit_escaped _ _ _ m En E1 Hm). f_equal.
      destruct (Z.eqb_spec m (s32 v)) as [->|_]; cbn; by rewrite ?En.
    + unfold bind, gets, modify. rewrite E1. cbn [access ret]. by rewrite andb_true_r.
Qed.

Lemma setescape_loop_ok fuel p r c :
  (length p <= fuel)%nat -> length (xmit_accm (cf_task c)) = 8%nat ->
  exists b accm', setescape_loop fuel p r c = Ok b (c <| cf_task ::= fun w => w <| xmit_accm := accm' |> |>)
  /\ escapes_more (xmit_accm (cf_task c)) accm'.
Proof.
  assert (Hkeep : forall c b, length (xmit_accm (cf_task c)) = 8%nat ->
    exists b' accm', Ok b c = (Ok b' (c <| cf_task ::= fun w => w <| xmit_accm := accm' |> |>) : outcome
      config Empty_set bool)
    /\ escapes_more (xmit_accm (cf_task c)) accm').
  { clear. intros c b Hl. exists b, (xmit_accm (cf_task c)). split; [|by split; auto]. by destruct c as [[]]. }
  revert p r c. induction fuel as [|fuel IH]; intros p r c Hl Ha.
  - destruct p; [by apply Hkeep|cbn in Hl; lia].
  - destruct p as [|ch p]; [by apply Hkeep|].
    pose proof (strtoul_spec (ch :: p) 16 ltac:(done)) as Hs.
    destruct (strtoul (ch :: p) 16) as [[v endp] range] eqn:Es. destruct Hs as (_ & _ & He).
    destruct (decide (endp = ch :: p)) as [E|Hne].
    { cbn [setescape_loop]. rewrite Es, bool_decide_eq_true_2 by done. by apply Hkeep. }
    destruct He as [He|He]; [done|].
    destruct (setescape_round fuel ch p r c v endp range Es Hne Ha) as (accm1 & Hl1 & Hm1 & ->).
    destruct (IH (skip_commas endp) (r && negb (no_escape (s32 v)))
      (c <| cf_task ::= fun w => w <| xmit_accm := accm1 |> |>)) as (b & accm' & E & Hl' & Hm); [|done|].
    { pose proof (skip_commas_length endp). cbn in Hl, He. lia. }
    exists b, accm'. split; [exact E|]. split; [done|]. intros m Hm0. specialize (Hm m Hm0). specialize (Hm1 m Hm0).
    change (xmit_accm (cf_task (c <| cf_task ::= fun w => w <| xmit_accm := accm1 |> |>))) with accm1 in Hm.
    rewrite Hm1 in Hm. destruct (escaped (xmit_accm (cf_task c)) m), (no_escape m); cbn in *;
      rewrite ?andb_false_r in Hm; intuition congruence.
Qed.

(** *** The list in the argument *)

Definition is_hex (c : Z) : Prop := digit c < 16.
Definition separator (c : Z) : Prop := c = 44 \/ c = 32.
(** The value of hexadecimal digits, from the last one. *)
Fixpoint hex_value (rev_digits : list Z) : Z :=
  match rev_digits with [] => 0 | c :: l => digit c + 16 * hex_value l end.
(** A number: digits, with or without 0x. *)
Inductive hex_number : list Z -> Z -> Prop :=
  | hex_plain ds : ds <> [] -> Forall is_hex ds -> hex_number ds (hex_value (rev ds))
  | hex_prefixed x ds : x = 120 \/ x = 88 -> ds <> [] -> Forall is_hex ds ->
      hex_number (48 :: x :: ds) (hex_value (rev ds)).
(** The argument lists the numbers [ns], with commas and blanks between them;
    [ok] tells whether it is read to its end, and not only up to something that
    is no number. *)
Inductive lists : list Z -> list Z -> bool -> Prop :=
  | lists_end : lists [] [] true
  | lists_bad c l : 16 <= digit c -> isspace c = false -> c <> 43 -> c <> 44 -> c <> 45 -> lists (c :: l) [] false
  | lists_last w n : hex_number w n -> lists w [n] true
  | lists_next w n seps l ns ok : hex_number w n -> seps <> [] -> Forall separator seps ->
      lists l ns ok -> lists (w ++ seps ++ l) (n :: ns) ok.

Lemma digits_hex ds rest : Forall is_hex ds -> (forall c l, rest = c :: l -> ~ is_hex c) -> forall acc,
  digits 16 acc (ds ++ rest) = (hex_value (rev ds) + acc * 16 ^ Z.of_nat (length ds), rest).
Proof.
  intros Hds Hr. induction Hds as [|c ds Hc _ IH]; intros acc.
  - cbn [app rev hex_value length digits]. destruct rest as [|c rest]; [cbn; f_equal; lia|]. cbn [digits].
    specialize (Hr c rest eq_refl). unfold is_hex in Hr. rewrite (proj2 (Z.ltb_ge _ _)) by lia. f_equal. lia.
  - cbn [app digits]. rewrite (proj2 (Z.ltb_lt _ _) Hc), IH. f_equal. cbn [rev].
    assert (Hv : forall l, hex_value (l ++ [c]) = hex_value l + digit c * 16 ^ Z.of_nat (length l)).
    { induction l as [|d l IHl]; cbn [app hex_value length]; [lia|].
    rewrite IHl, Nat2Z.inj_succ, Z.pow_succ_r by lia. lia. }
    rewrite Hv, length_rev. cbn [length]. rewrite Nat2Z.inj_succ, Z.pow_succ_r by lia. lia.
Qed.

Lemma is_hex_facts c : is_hex c -> isspace c = false /\ c <> 43 /\ c <> 45 /\ c <> 120 /\ c <> 88.
Proof.
  unfold is_hex, digit, isspace. intros Hc.
  destruct ((48 <=? c) && (c <=? 57)) eqn:E1; [lia|].
  destruct ((97 <=? c) && (c <=? 122)) eqn:E2; [lia|].
  destruct ((65 <=? c) && (c <=? 90)) eqn:E3; lia.
Qed.
Lemma sign_hex c l : is_hex c -> sign (skip_space (c :: l)) = (false, c :: l).
Proof.
  intros (Hs & Hp & Hm & _)%is_hex_facts. cbn [skip_space]. rewrite Hs. cbn [sign].
  by rewrite (proj2 (Z.eqb_neq _ _) Hm), (proj2 (Z.eqb_neq _ _) Hp).
Qed.
(** What ends a number. *)
Definition ended (l : list Z) : Prop := match l with [] => True | c :: _ => separator c end.
Lemma ended_hex l : ended l -> forall c l', l = c :: l' -> ~ is_hex c.
Proof. intros Hl c l' ->. unfold is_hex. destruct Hl as [->| ->]; cbn; lia. Qed.

Definition saturated (v : Z) : Z := if 2 ^ 32 <=? v then 2 ^ 32 - 1 else v.
Lemma strtoul_hex w n rest : hex_number w n -> ended rest ->
  exists range, strtoul (w ++ rest) 16 = (saturated n, rest, range).
Proof.
  intros Hw Hr. pose proof (ended_hex rest Hr) as Hn.
  assert (Hend : forall ds, ds <> [] -> Forall is_hex ds ->
    exists range, match ds ++ rest with
      | c :: _ => if digit c <? 16 then
          let '(v, rest) := digits 16 0 (ds ++ rest) in
          if 2 ^ 32 <=? v then (2 ^ 32 - 1, rest, true) else (v, rest, false)
        else (0, w ++ rest, false)
      | [] => (0, w ++ rest, false)
      end = (saturated (hex_value (rev ds)), rest, range)).
  { intros ds Hds Hf. rewrite (digits_hex ds rest Hf Hn 0), Z.mul_0_l, Z.add_0_r.
    destruct Hf as [|d ds Hd Hf]; [done|]. cbn [app]. rewrite (proj2 (Z.ltb_lt _ _) Hd).
    unfold saturated. destruct (2 ^ 32 <=? _); by eexists. }
  unfold strtoul. destruct Hw as [ds Hds Hf|x ds Hx Hds Hf].
  - assert (Hrad : radix 16 (ds ++ rest) = (16, ds ++ rest)).
    { destruct Hf as [|d ds Hd Hf]; [done|]. destruct Hf as [|x ds Hx Hf]; cbn [app].
      - destruct rest as [|x [|y rest]]; [done|done|]. cbn [radix].
        destruct Hr as [->| ->]; by rewrite andb_false_r.
      - apply is_hex_facts in Hx as (_ & _ & _ & X1 & X2). cbn [radix]. destruct (ds ++ rest); [done|].
        rewrite (proj2 (Z.eqb_neq _ _) X1), (proj2 (Z.eqb_neq _ _) X2). by rewrite andb_false_r. }
    destruct (Hend ds Hds Hf) as [range E]. exists range. rewrite <- E. destruct Hf as [|d ds Hd Hf]; [done|].
    cbn [app] in Hrad |- *. rewrite sign_hex, Hrad by done. done.
  - destruct (Hend ds Hds Hf) as [range E]. exists range. rewrite <- E.
    change ((48 :: x :: ds) ++ rest) with (48 :: x :: (ds ++ rest)). rewrite sign_hex by done.
    destruct Hf as [|d ds Hd Hf]; [done|]. cbn [app radix].
    assert (Hxb : (x =? 120) || (x =? 88) = true) by by destruct Hx as [->| ->].
    apply Z.ltb_lt in Hd. rewrite Hxb, Hd. cbn [Z.eqb Pos.eqb orb andb]. cbv iota. by rewrite Hd.
Qed.
(** A value that does not fit a byte is not escaped whatever becomes of it. *)
Lemma saturated_byte n : 0 <= n ->
  no_escape (s32 (saturated n)) = no_escape n /\ (no_escape n = false -> s32 (saturated n) = n).
Proof.
  intros Hn. unfold saturated. destruct (Z.leb_spec (2 ^ 32) n) as [Hb|Hb].
  - change (s32 (2 ^ 32 - 1)) with (-1). assert (E : no_escape n = true) by (unfold no_escape; lia). by rewrite E.
  - unfold s32. destruct (Z.ltb_spec n (2 ^ 31)) as [Hc|Hc]; [done|].
    assert (E : no_escape n = true) by (unfold no_escape; lia). rewrite E. split; [|done]. unfold no_escape. lia.
Qed.

Lemma hex_number_value w n : hex_number w n -> 0 <= n /\ w <> [] /\ exists c l, w = c :: l /\ is_hex c.
Proof.
  assert (Hv : forall l, 0 <= hex_value l)
    by (induction l as [|c l IH]; cbn [hex_value]; [done|pose proof (digit_nonneg c); lia]).
  intros [ds Hds Hf|x ds _ _ _]; (split; [apply Hv|]).
  - destruct Hf as [|d ds Hd Hf]; [done|]. split; [done|]. by exists d, ds.
  - split; [done|]. by exists 48, (x :: ds).
Qed.
Lemma lists_start l ns ok : lists l ns ok -> skip_commas l = l.
Proof.
  assert (Hhex : forall w n rest, hex_number w n -> skip_commas (w ++ rest) = w ++ rest).
  { intros w n rest (_ & _ & c & l' & -> & Hc)%hex_number_value. cbn [app skip_commas].
    destruct (Z.eqb_spec c 32) as [->|_]; [done|]. by destruct (Z.eqb_spec c 44) as [->|_]. }
  intros []; [done| | |by eapply Hhex].
  - cbn [skip_commas]. rewrite (proj2 (Z.eqb_neq c 44)) by done. by destruct (Z.eqb_spec c 32) as [->|_].
  - rewrite <- (app_nil_r w). by eapply Hhex.
Qed.
Lemma skip_separators seps l : Forall separator seps -> skip_commas (seps ++ l) = skip_commas l.
Proof. induction 1 as [|c seps [->| ->] _ IH]; cbn; auto. Qed.
Lemma escapes_exactly_app a b c ns ms :
  escapes_exactly a b ns -> escapes_exactly b c ms -> escapes_exactly a c (ns ++ ms).
Proof.
  intros Hab Hbc m Hm. rewrite (Hbc m Hm), (Hab m Hm), existsb_app, andb_orb_distrib_l. by rewrite orb_assoc.
Qed.

Definition all_allowed (ns : list Z) : bool := forallb (fun n => negb (no_escape n)) ns.
Lemma setescape_number fuel w n rest r c : hex_number w n -> ended rest -> length (xmit_accm (cf_task c)) = 8%nat ->
  exists accm1, length accm1 = 8%nat /\ escapes_exactly (xmit_accm (cf_task c)) accm1 [n]
  /\ setescape_loop (S fuel) (w ++ rest) r c
     = setescape_loop fuel (skip_commas rest) (r && negb (no_escape n))
         (c <| cf_task ::= fun w => w <| xmit_accm := accm1 |> |>).
Proof.
  intros Hw Hr Hl. destruct (strtoul_hex w n rest Hw Hr) as [range Es].
  destruct (hex_number_value w n Hw) as (Hn & Hne & ch & w' & -> & _). cbn [app] in *.
  destruct (setescape_round fuel ch (w' ++ rest) r c _ rest range Es) as (accm1 & Hl1 & Hm1 & E); [|done|].
  { intros Heq. apply (f_equal length) in Heq. cbn [length] in Heq. rewrite length_app in Heq. lia. }
  exists accm1. destruct (saturated_byte n Hn) as [Hs1 Hs2]. rewrite Hs1 in E. split; [done|]. split; [|done].
  intros m Hm. rewrite (Hm1 m Hm). f_equal. cbn [existsb]. rewrite !orb_false_r.
  destruct (no_escape m) eqn:Em; [by rewrite !andb_false_r|]. rewrite !andb_true_r.
  destruct (no_escape n) eqn:En; [|by rewrite Hs2].
  rewrite (proj2 (Z.eqb_neq _ _)), (proj2 (Z.eqb_neq m n)); [done| |]; intros ->; congruence.
Qed.
Lemma setescape_loop_lists p ns ok : lists p ns ok -> forall fuel r c, (length p <= fuel)%nat ->
  length (xmit_accm (cf_task c)) = 8%nat ->
  exists accm', setescape_loop fuel p r c
    = Ok (ok && (r && all_allowed ns)) (c <| cf_task ::= fun w => w <| xmit_accm := accm' |> |>)
  /\ escapes_exactly (xmit_accm (cf_task c)) accm' ns.
Proof.
  assert (Hkeep : forall (c : config) (b : bool), exists accm', Ok b c
    = (Ok b (c <| cf_task ::= fun w => w <| xmit_accm := accm' |> |>) : outcome config Empty_set bool)
    /\ escapes_exactly (xmit_accm (cf_task c)) accm' []).
  { intros c b. exists (xmit_accm (cf_task c)). split; [by destruct c as [[]]|]. intros m _. by rewrite orb_false_r. }
  induction 1 as [|ch l Hd Hs H43 H44 H45|w n Hw|w n seps l ns ok Hw Hseps Hf Hl IH]; intros fuel r c Hfuel Ha.
  - cbn [all_allowed forallb]. rewrite andb_true_r. by destruct fuel; apply Hkeep.
  - destruct fuel as [|fuel]; [cbn in Hfuel; lia|]. cbn [setescape_loop]. unfold strtoul. cbn [skip_space].
    rewrite Hs. cbn [sign]. rewrite (proj2 (Z.eqb_neq ch 45)), (proj2 (Z.eqb_neq ch 43)) by done.
    assert (Hrad : radix 16 (ch :: l) = (16, ch :: l)).
    { destruct l as [|x [|y l]]; [done|done|]. cbn [radix]. destruct (Z.eqb_spec ch 48) as [->|_]; [by cbn in Hd|].
      by rewrite andb_false_r. }
    rewrite Hrad, (proj2 (Z.ltb_ge _ _)) by done. rewrite bool_decide_eq_true_2 by done. apply Hkeep.
  - destruct (hex_number_value w n Hw) as (_ & Hne & _). destruct fuel as [|fuel]; [by destruct w;
      cbn in Hfuel; [|lia]|].
    destruct (setescape_number fuel w n [] r c Hw I Ha) as (accm1 & Hl1 & Hm1 & E). exists accm1. split; [|done].
    rewrite app_nil_r in E. rewrite E. cbn [skip_commas all_allowed forallb andb]. rewrite andb_true_r.
    by destruct fuel.
  - destruct (hex_number_value w n Hw) as (_ & Hne & _).
    destruct fuel as [|fuel]; [rewrite length_app in Hfuel; destruct w; cbn in Hfuel; [done|lia]|].
    destruct (setescape_number fuel w n (seps ++ l) r c Hw) as (accm1 & Hl1 & Hm1 & ->); [by destruct Hf|done|].
    rewrite skip_separators, (lists_start _ _ _ Hl) by done.
    destruct (IH fuel (r && negb (no_escape n)) (c <| cf_task ::= fun w => w <| xmit_accm := accm1 |> |>))
      as (accm' & E & Hm'); [|done|].
    { rewrite !length_app in Hfuel. destruct w; cbn in Hfuel; [done|lia]. }
    exists accm'. rewrite E. split; [|exact (escapes_exactly_app _ _ _ [n] ns Hm1 Hm')].
    change (all_allowed (n :: ns)) with (negb (no_escape n) && all_allowed ns). by rewrite !andb_assoc.
Qed.

(** C37: whatever the argument is, [setescape] comes back, changes only the map of
    escaped characters, inside its eight words, removes nothing from it, and
    adds only characters that may be escaped: no printable character from
    blank to question mark, no circumflex, nothing above 255.  An argument
    that lists hexadecimal numbers with commas and blanks between them, up to
    its end or to something that is no number, adds precisely those of the
    listed characters that may be escaped; the result tells whether the end
    was reached and all of them were allowed. *)
Theorem setescape_protects argv c :
  length (xmit_accm (cf_task c)) = 8%nat ->
  exists b accm', setescape argv c = Ok b (c <| cf_task ::= fun w => w <| xmit_accm := accm' |> |>)
  /\ escapes_more (xmit_accm (cf_task c)) accm'
  /\ forall ns ok, lists argv ns ok ->
       b = ok && all_allowed ns /\ escapes_exactly (xmit_accm (cf_task c)) accm' ns.
Proof.
  intros Ha. destruct (setescape_loop_ok (length argv) argv true c (le_n _) Ha) as (b & accm' & E & Hm).
  exists b, accm'. split; [exact E|]. split; [done|]. intros ns ok Hl.
  destruct (setescape_loop_lists argv ns ok Hl (length argv) true c (le_n _) Ha) as (accm2 & E2 & Hm2).
  rewrite E in E2. injection E2 as -> <-. done.
Qed.
End Setup.
