(* ===== verification/Daemon.v ===== *)
(** * The invariant of the PPP task

    What holds between any two signals of the task, whatever the peer, the
    driver, PAP and the clock do: an automaton that waits for the peer has its
    timeout in the callout list, a CHAP exchange that waits has its own, and
    the link is in the network phase only when no authentication is due.
    The automata are handled through the interfaces of FsmTimer.v. *)

From S2P Require Export FsmTimer Link.

Section Daemon.
Context `{PppEnv} `{Endian} `{SecretLib} (unitno : String.string).
(** The timeouts that [alrm] has detached and not yet run. *)
Context (ks : list timer_key).
(** Whether the peer has refused us with a CHAP Failure, after which the client
    of CHAP waits for the peer to end the link and not for a timeout. *)
Context (refused : Prop).

Definition armed (k : timer_key) (w : PPP_TASK_VARS) : Prop :=
  pending k (callout_list w) \/ k ∈ ks.

(** The timeouts that the invariant is about. *)
Definition watched (k : timer_key) : Prop :=
  k = T_fsm_timeout_lcp \/ k = T_fsm_timeout_ipcp
  \/ k = T_ChapChallengeTimeout \/ k = T_ChapResponseTimeout.

Definition inv_lcp (w : PPP_TASK_VARS) : Prop :=
  waiting (f_state (lcp_fsm w)) = true -> armed T_fsm_timeout_lcp w.
Definition inv_ipcp (w : PPP_TASK_VARS) : Prop :=
  waiting (f_state (ipcp_fsm w)) = true -> armed T_fsm_timeout_ipcp w.
Definition inv_phase (w : PPP_TASK_VARS) : Prop :=
  phase w = PHASE_NETWORK -> auth_pending w = 0.
Record inv_chap (w : PPP_TASK_VARS) : Prop := {
  ic_server : serverstate (chap w) = CHAPSS_INITIAL_CHAL \/
    serverstate (chap w) = CHAPSS_RECHALLENGE -> armed T_ChapChallengeTimeout w;
  ic_client : clientstate (chap w) = CHAPCS_RESPONSE ->
    armed T_ChapResponseTimeout w \/ refused;
  ic_type : clientstate (chap w) = CHAPCS_RESPONSE -> resp_type (chap w) = CHAP_DIGEST_MD5 }.

Record task_inv (w : PPP_TASK_VARS) : Prop := {
  ti_lcp : inv_lcp w;
  ti_ipcp : inv_ipcp w;
  ti_phase : inv_phase w;
  ti_chap : inv_chap w }.

(** ** What an operation may change *)

(** Nothing the invariant is about, but for the timeouts [except]. *)
Record same_but (except : timer_key -> Prop) (w w' : PPP_TASK_VARS) : Prop := {
  sb_lcp : lcp_fsm w' = lcp_fsm w;
  sb_ipcp : ipcp_fsm w' = ipcp_fsm w;
  sb_phase : phase w' = phase w;
  sb_pending : auth_pending w' = auth_pending w;
  sb_chap : chap w' = chap w;
  sb_armed : forall k, watched k -> ~ except k -> armed k w -> armed k w' }.
Definition nothing (k : timer_key) : Prop := False.
Notation same := (same_but nothing).

Lemma same_refl e w : same_but e w w.
Proof. by split. Qed.
Lemma same_trans e w w' w'' : same_but e w w' -> same_but e w' w'' -> same_but e w w''.
Proof. intros [] []. split; try congruence. auto. Qed.

(** [m] leaves alone what the invariant is about. *)
Definition silent {A} (m : task A) : Prop :=
  forall w, wp True m (fun _ => same w) (fun _ _ => True) w.

Lemma silent_ret {A} (a : A) : silent (ret a).
Proof. intros w. apply wp_ret, same_refl. Qed.
Lemma silent_fault {A} : silent (@fault _ _ A).
Proof. done. Qed.
Lemma silent_hang {A} : silent (@hang _ _ A).
Proof. done. Qed.
Lemma silent_gets {A} (g : PPP_TASK_VARS -> A) : silent (gets g).
Proof. intros w. apply wp_gets, same_refl. Qed.
Lemma silent_access {A} (o : option A) : silent (access o).
Proof. intros w. apply wp_access'; [|done]. intros a _. apply same_refl. Qed.
Lemma silent_bind {A B} (m : task A) (k : A -> task B) :
  silent m -> (forall a, silent (k a)) -> silent (bind m k).
Proof.
  intros Hm Hk w. apply wp_bind. eapply wp_mono; [apply Hm| |done].
  intros a w' H'. eapply wp_mono; [apply Hk| |done].
  intros b w'' H''. exact (same_trans _ _ _ _ H' H'').
Qed.
Lemma silent_if {A} (b : bool) (m n : task A) :
  silent m -> silent n -> silent (if b then m else n).
Proof. by destruct b. Qed.
Lemma silent_when b (m : task unit) : silent m -> silent (when b m).
Proof. intros Hm. apply silent_if; [done|apply silent_ret]. Qed.
Lemma silent_modify (g : PPP_TASK_VARS -> PPP_TASK_VARS) :
  (forall w, same w (g w)) -> silent (modify g).
Proof. intros Hg w. by apply wp_modify. Qed.

Lemma silent_timeout k s : silent (PPP_TIMEOUT k s).
Proof.
  apply silent_bind; [|intros now].
  - apply silent_bind; [apply silent_gets|intros i].
    apply silent_bind; [by apply silent_modify|intros _; apply silent_ret].
  - apply silent_modify. intros w. split; try done.
    intros k' _ _ [Hp|Hp]; [left|by right]. cbv beta delta [upd]; cbn.
    apply pending_timeout. by right.
Qed.
Lemma wp_untimeout_same k w (Q : unit -> PPP_TASK_VARS -> Prop) E :
  (forall w', same_but (eq k) w w' -> Q tt w') -> wp True (PPP_UNTIMEOUT k) Q E w.
Proof.
  intros HQ. unfold PPP_UNTIMEOUT, time.
  do 2 apply wp_bind. apply wp_gets, wp_bind, wp_modify, wp_ret, wp_modify, HQ.
  split; try done. intros k' _ Hk [Hp|Hp]; [left|by right].
  cbv beta delta [upd]; cbn. by apply pending_untimeout_ne.
Qed.
Lemma silent_untimeout k : ~ watched k -> silent (PPP_UNTIMEOUT k).
Proof.
  intros Hk w. apply wp_untimeout_same. intros w' []. split; auto.
  intros k' Hw _. apply sb_armed0; [done|]. by intros <-.
Qed.

End Daemon.

(** Prove that a concrete operation is silent. *)
Ltac silence :=
  repeat lazymatch goal with
  | |- silent _ (PPP_TIMEOUT _ _) => apply silent_timeout
  | |- silent _ (PPP_UNTIMEOUT _) =>
      apply silent_untimeout; intros [?|[?|[?|?]]]; discriminate
  | |- silent _ (bind _ _) => apply silent_bind; [|intros ?]
  | |- silent _ (when _ _) => apply silent_when
  | |- silent _ (if _ then _ else _) => apply silent_if
  | |- silent _ (ret _) => apply silent_ret
  | |- silent _ (gets _) => apply silent_gets
  | |- silent _ (get_chap _) => apply silent_gets
  | |- silent _ fault => apply silent_fault
  | |- silent _ hang => apply silent_hang
  | |- silent _ (access _) => apply silent_access
  | |- silent _ (modify _) => apply silent_modify; intros ?; split; solve [done|auto]
  | |- silent _ _ => first [assumption|case_match]
  end.

Section Effects.
Context `{PppEnv} `{Endian} `{SecretLib} (unitno : String.string) (ks : list timer_key) (refused : Prop).
Notation armed := (armed ks).
Notation same := (same_but ks nothing).
Notation silent := (silent ks).
Notation inv_ipcp := (inv_ipcp ks).
Notation inv_chap := (inv_chap ks refused).

Lemma silent_emit e : silent (emit e).
Proof. unfold emit. silence. Qed.
Lemma silent_ask e : silent (ask e).
Proof. unfold ask, emit. silence. Qed.
Lemma silent_time : silent time.
Proof. unfold time. silence. Qed.
Lemma silent_output bs : silent (output bs).
Proof. unfold output. apply silent_if; [silence|apply silent_emit]. Qed.
Lemma silent_zoom_rng {A} (m : M rng Z A) :
  silent (zoom random_state (fun g w => w <| random_state := g |>) m).
Proof. intros w. unfold wp, zoom. by destruct (m _). Qed.
Lemma silent_random : silent task_random.
Proof. apply silent_zoom_rng. Qed.

Lemma silent_upap_act a : silent (run_upap_act a).
Proof.
  destruct a; [apply silent_output|apply silent_timeout|].
  apply silent_untimeout. intros [?|[?|[?|?]]]; discriminate.
Qed.
Lemma silent_upap_acts l : silent (run_upap_acts l).
Proof.
  induction l as [|a l IH]; [apply silent_ret|].
  apply silent_bind; [apply silent_upap_act|done].
Qed.
Lemma silent_run_upap {A} (run : list A -> task unit) op :
  (forall l, silent (run l)) -> silent (run_upap run op).
Proof.
  intros Hr. apply silent_bind; [apply silent_gets|intros u]. destruct (op u).
  apply silent_bind; [by apply silent_modify|done].
Qed.
Lemma silent_upap op : silent (run_upap run_upap_acts op).
Proof. apply silent_run_upap, silent_upap_acts. Qed.

(** ** The parts of LCP and IPCP that only change options *)

Lemma silent_default_config : silent default_config.
Proof. do 2 (apply silent_bind; [apply silent_emit|intros _]). silence. Qed.
Lemma silent_ipcp_resetci : silent ipcp_resetci_cb.
Proof. unfold ipcp_resetci_cb. silence. Qed.
Lemma silent_ipcp_addci n : silent (ipcp_addci_cb n).
Proof. unfold ipcp_addci_cb. silence. Qed.
Lemma silent_ipcp_down : silent ipcp_down.
Proof.
  unfold ipcp_down. do 2 (apply silent_bind; [apply silent_gets|intros ?]).
  do 2 (apply silent_bind; [apply silent_when, silent_emit|intros _]).
  apply silent_bind; [apply silent_emit|intros _]. apply silent_emit.
Qed.
Lemma silent_lcp_resetci : silent lcp_resetci_cb.
Proof. apply silent_bind; [apply silent_zoom_rng|intros m]. silence. Qed.
Lemma silent_lcp_addci n : silent (lcp_addci_cb n).
Proof. unfold lcp_addci_cb. silence. Qed.
Lemma silent_echo_lowerdown : silent lcp_echo_lowerdown.
Proof. unfold lcp_echo_lowerdown. silence. Qed.

Lemma silent_parse {A} (m : parser A) inp len : silent (parse_ok m inp len).
Proof. intros w. unfold wp, parse_ok. destruct (m _); try done; apply same_refl. Qed.
Lemma silent_accepted {A} (m : parser A) inp len : silent (accepted_by m inp len).
Proof. apply silent_bind; [apply silent_parse|intros r; apply silent_ret]. Qed.
Lemma silent_ipcp_ackci inp len : silent (ipcp_ackci_cb inp len).
Proof. apply silent_bind; [apply silent_gets|intros go; apply silent_accepted]. Qed.
Lemma silent_ipcp_take try : silent (ipcp_take try).
Proof. unfold ipcp_take. silence. Qed.
Lemma silent_ipcp_nakci inp len : silent (ipcp_nakci_cb inp len).
Proof.
  apply silent_bind; [apply silent_gets|intros go]. apply silent_bind; [|intros r].
  - intros w. unfold wp. destruct (ipcp_nakci _ _ _); try done; apply same_refl.
  - destruct r; [|apply silent_ret].
    apply silent_bind; [apply silent_ipcp_take|intros _; apply silent_ret].
Qed.
Lemma silent_ipcp_reqci inp len r : silent (ipcp_reqci_cb inp len r).
Proof.
  unfold ipcp_reqci_cb. do 3 (apply silent_bind; [apply silent_gets|intros ?]).
  destruct (ipcp_reqci _ _ _ _ _ _) as [[rc n] s|[]| |]; silence.
Qed.
Lemma silent_lcp_ackci inp len : silent (lcp_ackci_cb inp len).
Proof. apply silent_bind; [apply silent_gets|intros go; apply silent_accepted]. Qed.
Lemma silent_lcp_take try : silent (lcp_take try).
Proof. unfold lcp_take. silence. Qed.
Lemma silent_lcp_nakci inp len : silent (lcp_nakci_cb inp len).
Proof.
  unfold lcp_nakci_cb. do 3 (apply silent_bind; [apply silent_gets|intros ?]).
  destruct (lcp_nakci _ _ _ _); [|silence..].
  apply silent_bind; [by apply silent_modify|intros _].
  apply silent_bind; [apply silent_lcp_take|intros _; apply silent_ret].
Qed.
Lemma silent_lcp_rejci inp len : silent (lcp_rejci_cb inp len).
Proof.
  apply silent_bind; [apply silent_gets|intros go].
  apply silent_bind; [apply silent_parse|intros []; [|apply silent_ret]].
  apply silent_bind; [apply silent_lcp_take|intros _; apply silent_ret].
Qed.
Lemma silent_lcp_reqci inp len r : silent (lcp_reqci_cb inp len r).
Proof.
  unfold lcp_reqci_cb. do 3 (apply silent_bind; [apply silent_gets|intros ?]).
  destruct (lcp_reqci _ _ _ _ _ _) as [[rc n] s|[]| |]; silence.
Qed.

(** ** The two automata as hosts *)

Lemma wp_silent {A} (m : task A) w (Q : A -> PPP_TASK_VARS -> Prop) :
  silent m -> (forall a w', same w w' -> Q a w') -> wp True m Q (fun _ _ => True) w.
Proof. intros Hm HQ. eapply wp_mono; [apply Hm| |done]. auto. Qed.

Lemma same_watched w w' k : same w w' -> watched k -> armed k w -> armed k w'.
Proof. intros [] Hk. apply sb_armed0; [done|intros []]. Qed.

(** What the automaton of IPCP leaves alone. *)
Record but_ipcp (w w' : PPP_TASK_VARS) : Prop := {
  bi_lcp : lcp_fsm w' = lcp_fsm w;
  bi_phase : phase w' = phase w;
  bi_pending : auth_pending w' = auth_pending w;
  bi_chap : chap w' = chap w;
  bi_armed : forall k, watched k -> k <> T_fsm_timeout_ipcp -> armed k w -> armed k w' }.
Definition stable (J : PPP_TASK_VARS -> Prop) : Prop :=
  forall w w', but_ipcp w w' -> J w -> J w'.

Lemma but_ipcp_same w w' : same w w' -> but_ipcp w w'.
Proof. intros Hs. pose proof Hs as []. split; auto. Qed.

Lemma wp_arm k t w (Q : unit -> PPP_TASK_VARS -> Prop) :
  (forall w', same w w' -> armed k w' -> Q tt w') ->
  wp True (PPP_TIMEOUT k t) Q (fun _ _ => True) w.
Proof.
  intros HQ. unfold PPP_TIMEOUT, time.
  do 2 apply wp_bind. apply wp_gets, wp_bind, wp_modify, wp_ret, wp_modify, HQ.
  - split; try done. intros k' _ _ [Hp|Hp]; [left|by right].
    cbv beta delta [upd]; cbn. apply pending_timeout. by right.
  - left. cbv beta delta [upd]; cbn. apply pending_timeout. by left.
Qed.

Lemma watched_ipcp : watched T_fsm_timeout_ipcp.
Proof. unfold watched. auto. Qed.
Lemma watched_lcp : watched T_fsm_timeout_lcp.
Proof. unfold watched. auto. Qed.
Lemma watched_chal : watched T_ChapChallengeTimeout.
Proof. unfold watched. auto. Qed.
Lemma watched_resp : watched T_ChapResponseTimeout.
Proof. unfold watched. auto. Qed.

Lemma ipcp_laws J : stable J -> FsmHostLaws ipcp_host (armed T_fsm_timeout_ipcp) J.
Proof.
  intros HJ. split; try done.
  - intros f w. apply HJ. by split.
  - intros bs w Jw. apply (wp_silent (emit _)); [apply silent_emit|]. intros _ w' Hs.
    split_and!; [by destruct Hs|apply same_watched; [done|apply watched_ipcp]|].
    by apply (HJ w), Jw; apply but_ipcp_same.
  - intros w Jw. apply (wp_silent (emit _)); [apply silent_emit|]. intros _ w' Hs.
    split_and!; [by destruct Hs|apply same_watched; [done|apply watched_ipcp]|].
    by apply (HJ w), Jw; apply but_ipcp_same.
  - intros t w Jw. apply wp_arm. intros w' Hs Ha.
    split_and!; [by destruct Hs|done|]. by apply (HJ w), Jw; apply but_ipcp_same.
  - intros w Jw. apply (wp_untimeout_same ks). intros w' [].
    split; [done|]. apply (HJ w); [|done]. split; auto.
Qed.

Lemma inv_phase_same w w' :
  phase w' = phase w -> auth_pending w' = auth_pending w -> inv_phase w -> inv_phase w'.
Proof. unfold inv_phase. by intros -> ->. Qed.
Lemma inv_chap_same w w' :
  chap w' = chap w ->
  (armed T_ChapChallengeTimeout w -> armed T_ChapChallengeTimeout w') ->
  (armed T_ChapResponseTimeout w -> armed T_ChapResponseTimeout w') ->
  inv_chap w -> inv_chap w'.
Proof. intros E A1 A2 []. split; rewrite E; [auto|intros [?| ?]%ic_client0; auto|auto]. Qed.

(** The rest of the task, for the automaton of LCP. *)
Record rest_inv (w : PPP_TASK_VARS) : Prop := {
  ri_ipcp : inv_ipcp w;
  ri_phase : inv_phase w;
  ri_chap : inv_chap w }.

Lemma rest_inv_but (w w' : PPP_TASK_VARS) :
  ipcp_fsm w' = ipcp_fsm w -> phase w' = phase w -> auth_pending w' = auth_pending w ->
  chap w' = chap w ->
  (forall k, watched k -> k <> T_fsm_timeout_lcp -> armed k w -> armed k w') ->
  rest_inv w -> rest_inv w'.
Proof.
  intros E1 E2 E3 E4 Ha []. split.
  - intros Hw. rewrite E1 in Hw. apply Ha; [apply watched_ipcp|done|auto].
  - by eapply inv_phase_same.
  - eapply inv_chap_same; [done|..|done]; apply Ha; try done;
      [apply watched_chal|apply watched_resp].
Qed.
Lemma rest_inv_same w w' : same w w' -> rest_inv w -> rest_inv w'.
Proof.
  intros Hs. pose proof Hs as []. apply rest_inv_but; auto. Qed.

(** What the automaton of LCP leaves alone. *)
Record but_lcp (w w' : PPP_TASK_VARS) : Prop := {
  bl_ipcp : ipcp_fsm w' = ipcp_fsm w;
  bl_phase : phase w' = phase w;
  bl_pending : auth_pending w' = auth_pending w;
  bl_chap : chap w' = chap w;
  bl_armed : forall k, watched k -> k <> T_fsm_timeout_lcp -> armed k w -> armed k w' }.
Definition stable_lcp (J : PPP_TASK_VARS -> Prop) : Prop :=
  forall w w', but_lcp w w' -> J w -> J w'.

Lemma but_lcp_same w w' : same w w' -> but_lcp w w'.
Proof. intros Hs. pose proof Hs as []. split; auto. Qed.
Lemma rest_inv_stable : stable_lcp rest_inv.
Proof. intros w w' []. by apply rest_inv_but. Qed.

Section Lcp_stable.
Context (J : PPP_TASK_VARS -> Prop) (HJ : stable_lcp J).

Lemma frames_lcp_silent {A} (m : task A) :
  silent m -> @frames _ lcp_host (armed T_fsm_timeout_lcp) J _ m.
Proof using HJ.
  intros Hm w Jw. apply wp_silent; [done|]. intros a w' Hs.
  split_and!; [by destruct Hs|apply same_watched; [done|apply watched_lcp]|].
  by eapply HJ, Jw; apply but_lcp_same.
Qed.

Lemma lcp_host_laws : FsmHostLaws lcp_host (armed T_fsm_timeout_lcp) J.
Proof using HJ.
  split; try done.
  - intros f w. apply HJ. by split.
  - intros bs. apply (frames_lcp_silent (emit _)), silent_emit.
  - apply (frames_lcp_silent (emit _)), silent_emit.
  - intros t w Jw. apply wp_arm. intros w' Hs Ha.
    split_and!; [by destruct Hs|done|]. by eapply HJ, Jw; apply but_lcp_same.
  - intros w Jw. apply (wp_untimeout_same ks). intros w' [].
    split; [done|]. apply (HJ w); [|done]. split; auto.
Qed.
End Lcp_stable.

Definition lcp_laws := lcp_host_laws rest_inv rest_inv_stable.
#[local] Existing Instance lcp_laws.

Notation lcp_frames := (@frames _ lcp_host (armed T_fsm_timeout_lcp) rest_inv _).

Lemma frames_silent {A} (m : task A) : silent m -> lcp_frames m.
Proof. apply frames_lcp_silent, rest_inv_stable. Qed.
End Effects.
