(* ===== verification/DaemonInv.v ===== *)
(** * Every signal keeps the invariant of the PPP task

    The operations of Link.v one after the other, from the callbacks of IPCP
    to the signal handlers, and the theorem about the runs of the task. *)

From S2P Require Export Daemon.

Section DaemonInv.
Context `{PppEnv} `{Endian} `{SecretLib} (unitno : String.string) (ks : list timer_key)
  (refused : Prop).

#[local] Existing Instance lcp_laws.
Notation armed := (armed ks).
Notation same := (same_but ks nothing).
Notation silent := (silent ks).
Notation rest_inv := (rest_inv ks refused).
Notation inv_chap := (inv_chap ks refused).
Notation task_inv := (task_inv ks refused).
Notation stable := (stable ks).
Notation lcp_frames := (@frames _ lcp_host (armed T_fsm_timeout_lcp) rest_inv _).

(** ** IPCP on its own *)

Lemma frames_ipcp_silent J {A} (m : task A) :
  stable J -> silent m -> @frames _ ipcp_host (armed T_fsm_timeout_ipcp) J _ m.
Proof.
  intros HJ Hm w Jw. eapply wp_silent; [done|]. intros a w' Hs. split_and!.
  - by destruct Hs.
  - by apply (same_watched ks), watched_ipcp.
  - by eapply HJ, Jw; apply but_ipcp_same.
Qed.

Lemma ipcp_lower_laws J (HJ : stable J) :
  @FsmLowerLaws _ ipcp_host (armed T_fsm_timeout_ipcp) J ipcp_lower.
Proof.
  split; intros m; [..|done]; intros; simplify_eq/=; apply (frames_ipcp_silent J _ HJ).
  - apply silent_ipcp_resetci.
  - apply silent_gets.
  - apply silent_ipcp_addci.
  - apply silent_ipcp_down.
Qed.

Lemma frames_ipcp (m : task unit) :
  (forall J, stable J -> @keeps _ ipcp_host (armed T_fsm_timeout_ipcp) J _ m) -> lcp_frames m.
Proof.
  intros Hm w [Hi Hp Hc].
  set (J := fun w' => lcp_fsm w' = lcp_fsm w
    /\ (armed T_fsm_timeout_lcp w -> armed T_fsm_timeout_lcp w')
    /\ inv_phase w' /\ inv_chap w').
  assert (HJ : stable J).
  { intros w1 w2 [] (E & Ha & Ip & Ic). split_and!; [congruence|..].
    - intros A. apply bi_armed; [apply watched_lcp|done|auto].
    - by eapply inv_phase_same.
    - eapply inv_chap_same; [done|..|done]; apply bi_armed; try done;
        [apply watched_chal|apply watched_resp]. }
  eapply wp_mono; [apply (Hm J HJ)| |done].
  - by split_and!.
  - exact Hi.
  - intros [] w' [T (E & Ha & Ip & Ic)]. split_and!; [done|done|by split].
Qed.

(** In particular it leaves the rest of the task alone. *)
Lemma wp_ipcp (m : task unit) w :
  (forall J, stable J -> @keeps _ ipcp_host (armed T_fsm_timeout_ipcp) J _ m) ->
  armed T_fsm_timeout_ipcp w ->
  wp True m (fun _ => but_ipcp ks w) (fun _ _ => True) w.
Proof.
  intros Hm Ha.
  assert (HJ : stable (but_ipcp ks w)).
  { intros w1 w2 [] []. split; try congruence. auto. }
  eapply wp_mono; [apply (Hm _ HJ)| |done]; [by split|by intros _|by intros [] w' []].
Qed.

(** The entry points of IPCP. *)
Definition ipcp_entry (m : task unit) : Prop :=
  forall J, stable J -> @keeps _ ipcp_host (armed T_fsm_timeout_ipcp) J _ m.
Ltac entry lem :=
  intros J HJ; pose proof (ipcp_laws ks J HJ); pose proof (ipcp_lower_laws J HJ); eapply lem; eauto.
Lemma entry_open : ipcp_entry ipcp_open.
Proof. entry @keeps_open. Qed.
Lemma entry_lowerup : ipcp_entry ipcp_lowerup.
Proof. entry @keeps_lowerup. Qed.
Lemma entry_lowerdown : ipcp_entry ipcp_lowerdown.
Proof. entry @keeps_lowerdown. Qed.
Lemma entry_close : ipcp_entry (@fsm_close _ ipcp_host ipcp_lower).
Proof. entry @keeps_close. Qed.

(** ** CHAP on its own *)

(** What CHAP leaves alone. *)
Record but_chap (w w' : PPP_TASK_VARS) : Prop := {
  bc_lcp : lcp_fsm w' = lcp_fsm w;
  bc_ipcp : ipcp_fsm w' = ipcp_fsm w;
  bc_phase : phase w' = phase w;
  bc_pending : auth_pending w' = auth_pending w;
  bc_alcp : armed T_fsm_timeout_lcp w -> armed T_fsm_timeout_lcp w';
  bc_aipcp : armed T_fsm_timeout_ipcp w -> armed T_fsm_timeout_ipcp w' }.

(** The server is in [ss], the client in [cs]; the challenge is timed if [a],
    the response if [b]; nothing else changed since [w0]. *)
Record chap_at (ss : chap_server) (cs : chap_client) (a b t : Prop) (w0 w : PPP_TASK_VARS)
  : Prop := {
  ca_but : but_chap w0 w;
  ca_server : serverstate (chap w) = ss;
  ca_client : clientstate (chap w) = cs;
  ca_chal : a -> armed T_ChapChallengeTimeout w;
  ca_resp : b -> armed T_ChapResponseTimeout w \/ refused;
  ca_type : t -> resp_type (chap w) = CHAP_DIGEST_MD5 }.

Definition server_waits (ss : chap_server) : Prop :=
  ss = CHAPSS_INITIAL_CHAL \/ ss = CHAPSS_RECHALLENGE.
Definition client_waits (cs : chap_client) : Prop := cs = CHAPCS_RESPONSE.

Lemma chap_at_start w :
  inv_chap w ->
  chap_at (serverstate (chap w)) (clientstate (chap w))
    (server_waits (serverstate (chap w))) (client_waits (clientstate (chap w)))
    (client_waits (clientstate (chap w))) w w.
Proof. intros []. by split. Qed.

Lemma chap_at_end ss cs a b t w0 w :
  chap_at ss cs a b t w0 w -> (server_waits ss -> a) -> (client_waits cs -> b) ->
  (client_waits cs -> t) -> inv_chap w /\ but_chap w0 w.
Proof.
  intros [] Ha Hb Ht. split; [split|done].
  - rewrite ca_server0. auto.
  - rewrite ca_client0. auto.
  - rewrite ca_client0. auto.
Qed.

Lemma chap_at_same ss cs a b t w0 w w' :
  chap_at ss cs a b t w0 w -> same w w' -> chap_at ss cs a b t w0 w'.
Proof.
  intros [[] ] Hs. pose proof Hs as []. split; [split|..]; try congruence.
  - intros A. eapply same_watched; [done|apply watched_lcp|auto].
  - intros A. eapply same_watched; [done|apply watched_ipcp|auto].
  - intros A. eapply same_watched; [done|apply watched_chal|auto].
  - intros [A|A]%ca_resp0; [left|by right]. eapply same_watched; [done|apply watched_resp|auto].
  - intros A. rewrite sb_chap. auto.
Qed.

Lemma wp_chap_silent {A} (m : task A) ss cs a b t w0 w (Q : A -> PPP_TASK_VARS -> Prop) :
  silent m -> chap_at ss cs a b t w0 w ->
  (forall r w', chap_at ss cs a b t w0 w' -> Q r w') -> wp True m Q (fun _ _ => True) w.
Proof.
  intros Hm Hc HQ. eapply wp_silent; [done|]. intros r w' Hs.
  by eapply HQ, chap_at_same.
Qed.

Lemma wp_chap_upd g ss cs a b t (t' : Prop) w0 w (Q : unit -> PPP_TASK_VARS -> Prop) :
  chap_at ss cs a b t w0 w ->
  (t' -> resp_type (g (chap w)) = CHAP_DIGEST_MD5) ->
  (forall w', chap_at (serverstate (g (chap w))) (clientstate (g (chap w))) a b t' w0 w' -> Q tt w') ->
  wp True (upd_chap g) Q (fun _ _ => True) w.
Proof.
  intros [[]] Ht HQ. apply wp_modify, HQ. by repeat split.
Qed.

(** Updates of the other fields. *)
Lemma wp_chap_field g ss cs a b t w0 w (Q : unit -> PPP_TASK_VARS -> Prop) :
  (forall c, serverstate (g c) = serverstate c /\ clientstate (g c) = clientstate c
     /\ resp_type (g c) = resp_type c) ->
  chap_at ss cs a b t w0 w -> (forall w', chap_at ss cs a b t w0 w' -> Q tt w') ->
  wp True (upd_chap g) Q (fun _ _ => True) w.
Proof.
  intros Hg Hc HQ. destruct (Hg (chap w)) as (E1 & E2 & E3).
  eapply (wp_chap_upd _ _ _ _ _ _ t); [done|rewrite E3; apply Hc|].
  intros w' Hw'. apply HQ. destruct Hc. congruence.
Qed.

(** Updates that also change the digest of the client. *)
Lemma wp_chap_digest g ss cs a b t w0 w (Q : unit -> PPP_TASK_VARS -> Prop) :
  (forall c, serverstate (g c) = serverstate c /\ clientstate (g c) = clientstate c) ->
  chap_at ss cs a b t w0 w -> (forall w', chap_at ss cs a b False w0 w' -> Q tt w') ->
  wp True (upd_chap g) Q (fun _ _ => True) w.
Proof.
  intros Hg Hc HQ. destruct (Hg (chap w)) as [E1 E2].
  eapply (wp_chap_upd _ _ _ _ _ _ False); [done..|].
  intros w' Hw'. apply HQ. destruct Hc. congruence.
Qed.

Lemma wp_chap_arm k secs ss cs a b t w0 w (Q : unit -> PPP_TASK_VARS -> Prop) :
  chap_at ss cs a b t w0 w ->
  (forall w', chap_at ss cs (a \/ k = T_ChapChallengeTimeout) (b \/ k = T_ChapResponseTimeout)
     t w0 w' -> Q tt w') ->
  wp True (PPP_TIMEOUT k secs) Q (fun _ _ => True) w.
Proof.
  intros Hc HQ. apply (wp_arm ks). intros w' Hs Ha. apply HQ.
  pose proof (chap_at_same _ _ _ _ _ _ _ _ Hc Hs) as []. split; try done.
  - intros [?| <-]; auto.
  - intros [?| <-]; auto.
Qed.

Lemma wp_chap_disarm k ss cs a b t w0 w (Q : unit -> PPP_TASK_VARS -> Prop) :
  k <> T_fsm_timeout_lcp -> k <> T_fsm_timeout_ipcp ->
  chap_at ss cs a b t w0 w ->
  (forall w', chap_at ss cs (a /\ k <> T_ChapChallengeTimeout) (b /\ k <> T_ChapResponseTimeout)
     t w0 w' -> Q tt w') ->
  wp True (PPP_UNTIMEOUT k) Q (fun _ _ => True) w.
Proof.
  intros N1 N2 [[]] HQ. apply (wp_untimeout_same ks). intros w' []. apply HQ.
  split; [split|..]; try congruence.
  - intros A. apply sb_armed; auto using watched_lcp.
  - intros A. apply sb_armed; auto using watched_ipcp.
  - intros [A N]. apply sb_armed; auto using watched_chal.
  - intros [A N]. destruct (ca_resp0 A); [left|by right]. apply sb_armed; auto using watched_resp.
  - intros A. rewrite sb_chap. auto.
Qed.

Lemma chap_at_weaken ss cs (a b t a' b' t' : Prop) w0 w :
  chap_at ss cs a b t w0 w -> (a' -> a) -> (b' -> b) -> (t' -> t) -> chap_at ss cs a' b' t' w0 w.
Proof. intros [] Ha Hb Ht. split; auto. Qed.

Lemma chap_at_refused ss cs (a b t : Prop) w0 w :
  chap_at ss cs a b t w0 w -> refused -> chap_at ss cs a True t w0 w.
Proof. intros [] Hr. split; auto. Qed.

Lemma silent_get_chap {A} (g : chap_state -> A) : silent (get_chap g).
Proof. apply silent_gets. Qed.

End DaemonInv.

(** One step of an operation of CHAP whose start is described by a [chap_at]. *)
Ltac cstep :=
  cbv beta;
  lazymatch goal with
  | |- wp _ (bind _ _) _ _ _ => apply wp_bind
  | |- wp _ (ret _) _ _ _ => apply wp_ret
  | |- wp _ (upd_chap _) _ _ _ =>
      eapply wp_chap_field; [intros ?; split_and!; reflexivity|eassumption|intros ? ?]
  | |- wp _ (get_chap _) _ _ _ =>
      eapply wp_chap_silent; [apply silent_get_chap|eassumption|intros ? ? ?]
  | |- wp _ (output _) _ _ _ =>
      eapply wp_chap_silent; [apply silent_output|eassumption|intros ? ? ?]
  | |- wp _ (access _) _ _ _ =>
      eapply wp_chap_silent; [apply silent_access|eassumption|intros ? ? ?]
  | |- wp _ task_random _ _ _ =>
      eapply wp_chap_silent; [apply silent_random|eassumption|intros ? ? ?]
  | |- wp _ (PPP_TIMEOUT _ _) _ _ _ => eapply wp_chap_arm; [eassumption|intros ? ?]
  | |- wp _ (when _ _) _ _ _ => apply wp_when; intros ?
  | |- wp _ (if _ then _ else _) _ _ _ => apply wp_if; intros ?
  end; cbv beta zeta.

Ltac csilent lem :=
  apply wp_bind; eapply wp_chap_silent; [apply lem|eassumption|intros ? ? ?]; cbv beta zeta.

Section ChapInv.
Context `{PppEnv} `{Endian} `{SecretLib} (unitno : String.string) (ks : list timer_key)
  (refused : Prop).

#[local] Existing Instance lcp_laws.
Notation armed := (armed ks).
Notation but_chap := (but_chap ks).
Notation chap_at := (chap_at ks refused).
Notation chap_at_start := (chap_at_start ks refused).
Notation same := (same_but ks nothing).
Notation silent := (silent ks).
Notation rest_inv := (rest_inv ks refused).
Notation inv_chap := (inv_chap ks refused).
Notation task_inv := (task_inv ks refused).
Notation stable := (stable ks).
Notation lcp_frames := (@frames _ lcp_host (armed T_fsm_timeout_lcp) rest_inv _).

Lemma wp_ChapSendChallenge ss cs (a b t : Prop) w0 w :
  chap_at ss cs a b t w0 w ->
  wp True ChapSendChallenge (fun _ => chap_at ss cs True b t w0) (fun _ _ => True) w.
Proof.
  intros Hc. unfold ChapSendChallenge. repeat cstep. eapply chap_at_weaken; [eassumption|auto..].
Qed.

Lemma silent_random_bytes n : silent (random_bytes n).
Proof.
  induction n as [|n IH]; [apply silent_ret|].
  apply silent_bind; [apply silent_random|intros r].
  apply silent_bind; [done|intros l; apply silent_ret].
Qed.

Lemma wp_ChapGenChallenge ss cs (a b t : Prop) w0 w :
  chap_at ss cs a b t w0 w ->
  wp True ChapGenChallenge (fun _ => chap_at ss cs a b t w0) (fun _ _ => True) w.
Proof.
  intros Hc. unfold ChapGenChallenge. repeat cstep.
  eapply wp_chap_silent; [apply silent_random_bytes|eassumption|]. intros l w1 Hw1.
  by repeat cstep.
Qed.

Lemma wp_chap_client cs' ss cs a b t w0 w (Q : unit -> PPP_TASK_VARS -> Prop) :
  chap_at ss cs a b t w0 w -> (forall w', chap_at ss cs' a b t w0 w' -> Q tt w') ->
  wp True (upd_chap (fun c => c <| clientstate := cs' |>)) Q (fun _ _ => True) w.
Proof.
  intros Hc HQ. eapply wp_chap_upd; [done|apply Hc|]. intros w' Hw'. apply HQ.
  destruct Hc as [_ <- _ _ _ _]. exact Hw'.
Qed.
Lemma wp_chap_server ss' ss cs a b t w0 w (Q : unit -> PPP_TASK_VARS -> Prop) :
  chap_at ss cs a b t w0 w -> (forall w', chap_at ss' cs a b t w0 w' -> Q tt w') ->
  wp True (upd_chap (fun c => c <| serverstate := ss' |>)) Q (fun _ _ => True) w.
Proof.
  intros Hc HQ. eapply wp_chap_upd; [done|apply Hc|]. intros w' Hw'. apply HQ.
  destruct Hc as [_ _ <- _ _ _]. exact Hw'.
Qed.

Lemma wp_ChapSendResponse ss cs (a b t : Prop) w0 w :
  chap_at ss cs a b t w0 w ->
  wp True ChapSendResponse (fun _ => chap_at ss CHAPCS_RESPONSE a True t w0) (fun _ _ => True) w.
Proof.
  intros Hc. unfold ChapSendResponse. do 13 cstep. eapply wp_chap_client; [eassumption|]. intros w1 Hw1.
  repeat cstep. eapply chap_at_weaken; [eassumption|auto..].
Qed.

(** A whole operation of CHAP. *)
Definition chap_keeps {A} (m : task A) : Prop :=
  forall w, inv_chap w ->
    wp True m (fun _ w' => inv_chap w' /\ but_chap w w') (fun _ _ => True) w.

Lemma chap_keeps_at {A} (m : task A) :
  (forall ss cs w, chap_at ss cs (server_waits ss) (client_waits cs) (client_waits cs) w w ->
     wp True m (fun _ w' => exists ss' cs' (a b t : Prop), chap_at ss' cs' a b t w w' /\
       (server_waits ss' -> a) /\ (client_waits cs' -> b) /\ (client_waits cs' -> t)) (fun _ _ => True) w) ->
  chap_keeps m.
Proof.
  intros Hm w Hw. eapply wp_mono; [exact (Hm _ _ w (chap_at_start _ Hw))| |done].
  intros r w' (ss & cs & a & b & t & Hc & Ha & Hb & Ht). by eapply chap_at_end.
Qed.

Ltac chap_op := apply chap_keeps_at; intros ss cs w Hc.
(** The state the operation looked at is the one of the [chap_at]. *)
Lemma wp_server_state {A} (k : chap_server -> task A) ss cs a b t w0 w
  (Q : A -> PPP_TASK_VARS -> Prop) :
  chap_at ss cs a b t w0 w -> wp True (k ss) Q (fun _ _ => True) w ->
  wp True (st <- get_chap serverstate ;; k st) Q (fun _ _ => True) w.
Proof. intros [] Hk. apply wp_bind, wp_gets. by rewrite ca_server0. Qed.
Lemma wp_client_state {A} (k : chap_client -> task A) ss cs a b t w0 w
  (Q : A -> PPP_TASK_VARS -> Prop) :
  chap_at ss cs a b t w0 w -> wp True (k cs) Q (fun _ _ => True) w ->
  wp True (st <- get_chap clientstate ;; k st) Q (fun _ _ => True) w.
Proof. intros [] Hk. apply wp_bind, wp_gets. by rewrite ca_client0. Qed.

Ltac at_end := do 5 eexists; split_and!; [eassumption|..];
  unfold server_waits, client_waits; intuition (try discriminate; eauto).

Lemma wp_start_challenge ss cs (a b t : Prop) w0 w :
  chap_at ss cs a b t w0 w ->
  wp True start_challenge (fun _ => chap_at CHAPSS_INITIAL_CHAL cs True b t w0) (fun _ _ => True) w.
Proof.
  intros Hc. apply wp_bind. eapply wp_mono; [exact (wp_ChapGenChallenge _ _ _ _ _ _ _ Hc)| |done].
  intros [] w1 H1'. apply wp_bind. eapply wp_mono; [exact (wp_ChapSendChallenge _ _ _ _ _ _ _ H1')| |done].
  intros [] w2 H2'. eapply wp_chap_server; [exact H2'|auto].
Qed.

Lemma keeps_AuthWithPeer name d : chap_keeps (ChapAuthWithPeer name d).
Proof.
  chap_op. unfold ChapAuthWithPeer. cstep.
  eapply wp_chap_digest; [intros ?; split_and!; reflexivity|eassumption|intros ? ?].
  eapply wp_client_state; [eassumption|].
  destruct cs; (eapply wp_chap_client; [eassumption|]; intros w1 Hw1; at_end).
Qed.

Lemma keeps_AuthPeer name d : chap_keeps (ChapAuthPeer name d).
Proof.
  chap_op. unfold ChapAuthPeer. do 2 cstep. eapply wp_server_state; [eassumption|].
  destruct ss;
    first [eapply wp_chap_server; [eassumption|]; intros w1 Hw1; at_end
          |eapply wp_mono; [by eapply wp_start_challenge| |done]; intros [] w1 Hw1; at_end].
Qed.

Lemma keeps_ChapLowerUp : chap_keeps ChapLowerUp.
Proof.
  chap_op. eapply wp_client_state; [eassumption|].
  apply wp_bind.
  assert (Hc' : wp True (match cs with
      | CHAPCS_INITIAL => upd_chap (fun c => c <| clientstate := CHAPCS_CLOSED |>)
      | CHAPCS_PENDING => upd_chap (fun c => c <| clientstate := CHAPCS_LISTEN |>)
      | _ => ret tt end)
    (fun _ w' => exists cs', chap_at ss cs' (server_waits ss) (client_waits cs') (client_waits cs') w w')
    (fun _ _ => True) w).
  { destruct cs; first [apply wp_ret; eauto; fail
      |eapply wp_chap_client; [eassumption|]; intros w1 Hw1;
       eexists; eapply chap_at_weaken; [eassumption|done|discriminate..]]. }
  eapply wp_mono; [exact Hc'| |done]. intros [] w1 [cs' H1'].
  eapply wp_server_state; [eassumption|].
  destruct ss;
    first [apply wp_ret; at_end; fail
          |eapply wp_chap_server; [eassumption|]; intros w2 Hw2; at_end; fail
          |eapply wp_mono; [by eapply wp_start_challenge| |done]; intros [] w2 Hw2; at_end].
Qed.

(** A timeout that has been detached need not be pending. *)
Lemma wp_ChapResponseTimeout ss cs (a b t : Prop) w0 w :
  chap_at ss cs a b t w0 w -> (server_waits ss -> a) -> (client_waits cs -> t) ->
  wp True ChapResponseTimeout (fun _ w' => inv_chap w' /\ but_chap w0 w') (fun _ _ => True) w.
Proof.
  intros Hc Ha Ht. eapply wp_client_state; [eassumption|]. apply wp_when; intros C.
  - apply bool_decide_eq_true in C.
    eapply wp_mono; [exact (wp_ChapSendResponse _ _ _ _ _ _ _ Hc)| |done].
    intros [] w1 H1'. eapply chap_at_end; [exact H1'|done|auto..].
  - apply bool_decide_eq_false in C. by eapply chap_at_end.
Qed.

Lemma keeps_ChapRechallenge : chap_keeps ChapRechallenge.
Proof.
  chap_op. eapply wp_server_state; [eassumption|]. apply wp_when; intros C; [|at_end].
  apply wp_bind. eapply wp_mono; [exact (wp_ChapGenChallenge _ _ _ _ _ _ _ Hc)| |done].
  intros [] w1 H1'. apply wp_bind.
  eapply wp_mono; [exact (wp_ChapSendChallenge _ _ _ _ _ _ _ H1')| |done].
  intros [] w2 H2'. apply wp_bind. eapply wp_chap_server; [exact H2'|]. intros w3 H3'.
  apply wp_bind. cstep. apply wp_when; intros _.
  - eapply wp_chap_arm; [eassumption|]. intros w4 H4'. at_end.
  - at_end.
Qed.

Lemma keeps_ChapLowerDown : chap_keeps ChapLowerDown.
Proof.
  chap_op. eapply wp_server_state; [eassumption|]. do 2 cstep.
  assert (Hoff : forall k ss cs (a b t : Prop) w0 w, chap_at ss cs a b t w0 w ->
    k <> T_fsm_timeout_lcp -> k <> T_fsm_timeout_ipcp ->
    wp True (PPP_UNTIMEOUT k) (fun _ => chap_at ss cs False False False w0) (fun _ _ => True) w).
  { intros k ss' cs' a b t w0 w1 H1' N1 N2. eapply wp_chap_disarm; [done..|].
    intros w2 H2'. by eapply chap_at_weaken; [eassumption|..]. }
  assert (Hnone : forall ss cs (a b t : Prop) w0 w, chap_at ss cs a b t w0 w ->
    chap_at ss cs False False False w0 w) by (intros; by eapply chap_at_weaken; [eassumption|..]).
  apply wp_bind. apply (wp_mono _ (fun _ => chap_at ss cs False False False w) _ (fun _ _ => True)).
  { destruct ss; try (apply wp_ret; eauto); try (eapply Hoff; [eassumption|done..]).
    apply wp_when; intros _; [by eapply Hoff|eauto]. }
  2: { done. }
  intros [] w1 H1'. eapply wp_client_state; [eassumption|].
  apply wp_bind. apply (wp_mono _ (fun _ => chap_at ss cs False False False w) _ (fun _ _ => True)).
  { apply wp_when; intros _; [by eapply Hoff|done]. }
  2: { done. }
  intros [] w2 H2'. apply wp_bind. eapply wp_chap_client; [exact H2'|]. intros w3 H3'.
  eapply wp_chap_server; [exact H3'|]. intros w4 H4'. at_end.
Qed.

Lemma silent_host_name inp len : silent (host_name inp len).
Proof. unfold host_name. silence. Qed.
Lemma silent_get_secret c s v : silent (get_secret c s v).
Proof. unfold get_secret. silence. Qed.

(** The response, when it is known how to compute it; otherwise the client did
    not wait for the outcome of an earlier one. *)
Lemma wp_answer ss cs (a b : Prop) w0 w m :
  chap_at ss cs a b (client_waits cs) w0 w -> (server_waits ss -> a) ->
  (forall w1, chap_at ss cs a b True w0 w1 ->
    wp True m (fun _ => chap_at ss CHAPCS_RESPONSE a True True w0) (fun _ _ => True) w1) ->
  wp True (ty <- get_chap resp_type ;; if ty =? CHAP_DIGEST_MD5 then m else ret tt)
    (fun _ w' => inv_chap w' /\ but_chap w0 w') (fun _ _ => True) w.
Proof.
  intros Hc Ha Hm. apply wp_bind, wp_gets, wp_if; intros C.
  - apply Z.eqb_eq in C. eapply wp_mono; [apply Hm; by destruct Hc| |done].
    intros [] w1 H1'. by eapply chap_at_end.
  - apply Z.eqb_neq in C. apply wp_ret.
    assert (~ client_waits cs) by (intros W; by apply C, (ca_type _ _ _ _ _ _ _ _ _ Hc)).
    by eapply chap_at_end.
Qed.

Lemma keeps_ReceiveChallenge inp id len : chap_keeps (ChapReceiveChallenge inp id len).
Proof.
  intros w Hw. pose proof (chap_at_start _ Hw) as Hc. revert Hc.
  generalize (serverstate (chap w)) (clientstate (chap w)). intros ss cs Hc.
  eapply wp_client_state; [eassumption|].
  assert (Hquit : forall w', chap_at ss cs (server_waits ss) (client_waits cs) (client_waits cs) w w' ->
    inv_chap w' /\ but_chap w w') by (intros w' Hw'; by eapply chap_at_end).
  destruct cs; try (apply wp_ret, Hquit, Hc); cbv beta iota;
    (cstep; [apply wp_ret, Hquit, Hc|]; csilent @silent_access; cstep; [by apply wp_ret, Hquit|];
     csilent silent_host_name; do 2 cstep; csilent silent_get_secret;
     eapply wp_client_state; [eassumption|];
     apply wp_bind, wp_when; intros C;
     [eapply wp_chap_disarm; [done|done|eassumption|intros ? ?]|]; cbv beta;
     do 2 cstep;
     (eapply wp_answer; [eassumption|by auto|]); intros w8 H8';
     repeat cstep;
     (eapply wp_mono; [eapply wp_ChapSendResponse; eassumption| |done]; auto)).
Qed.
End ChapInv.
