(* ===== verification/DaemonRun.v ===== *)
(** * Every signal keeps the invariant of the PPP task

    The operations of Link.v one after the other, from the lower layer going
    down to the signal handlers, and the theorem about the runs of the task. *)

From S2P Require Export DaemonInv.

Section DaemonRun.
Context `{PppEnv} `{Endian} `{SecretLib} (unitno : String.string).

Section Keeps.
Context (ks : list timer_key) (refused : Prop).

#[local] Existing Instance lcp_laws.
Notation armed := (armed ks).
Notation same := (same_but ks nothing).
Notation silent := (silent ks).
Notation inv_lcp := (inv_lcp ks).
Notation inv_ipcp := (inv_ipcp ks).
Notation rest_inv := (rest_inv ks refused).
Notation inv_chap := (inv_chap ks refused).
Notation but_chap := (but_chap ks).
Notation task_inv := (task_inv ks refused).
Notation stable := (stable ks).
Notation lcp_frames := (@frames _ lcp_host (armed T_fsm_timeout_lcp) rest_inv _).
Notation lcp_keeps := (@keeps _ lcp_host (armed T_fsm_timeout_lcp) rest_inv _).

(** ** Operations that keep the invariant *)

Notation inv_keeps := (preserves (X := Z) task_inv).

Lemma task_inv_split w : task_inv w <-> inv_lcp w /\ rest_inv w.
Proof. split; [intros []; split; [done|by split]|intros [? []]; by split]. Qed.

Lemma inv_keeps_lcp {A} (m : task A) : lcp_keeps m <-> inv_keeps m.
Proof.
  split.
  - intros Hm w [Hl Hr]%task_inv_split. eapply wp_mono; [exact (Hm w Hr Hl)| |done].
    intros a w' [Hl' Hr']. by apply task_inv_split.
  - intros Hm w Hr Hl. eapply wp_mono; [apply Hm, task_inv_split; by split| |done].
    intros a w' [? ?]%task_inv_split. by split.
Qed.
Lemma inv_keeps_frames {A} (m : task A) : lcp_frames m -> inv_keeps m.
Proof. intros Hm. by apply inv_keeps_lcp, keeps_frames. Qed.
Lemma inv_keeps_silent {A} (m : task A) : silent m -> inv_keeps m.
Proof. intros Hm. by apply inv_keeps_frames, frames_silent. Qed.
(** What CHAP does on its own. *)
Definition others_inv (w : PPP_TASK_VARS) : Prop := inv_lcp w /\ inv_ipcp w /\ inv_phase w.

Lemma others_but w w' : but_chap w w' -> others_inv w -> others_inv w'.
Proof.
  intros [] (Hl & Hi & Hp). split_and!.
  - unfold Daemon.inv_lcp. rewrite bc_lcp. auto.
  - unfold Daemon.inv_ipcp. rewrite bc_ipcp. auto.
  - by eapply inv_phase_same.
Qed.
Lemma task_inv_chap w : task_inv w <-> others_inv w /\ inv_chap w.
Proof. split; [intros []; by split_and!|intros [(?&?&?) ?]; by split]. Qed.

Lemma inv_keeps_chap {A} (m : task A) : chap_keeps ks refused m -> inv_keeps m.
Proof.
  intros Hm w [Ho Hc]%task_inv_chap. eapply wp_mono; [exact (Hm w Hc)| |done].
  intros a w' [Hc' Hb]. apply task_inv_chap. split; [by eapply others_but|done].
Qed.
Lemma frames_chap {A} (m : task A) : chap_keeps ks refused m -> lcp_frames m.
Proof.
  intros Hm w Hr. pose proof Hr as [Hi Hp Hc]. eapply wp_mono; [exact (Hm w Hc)| |done].
  intros a w' [Hc' Hb]. pose proof Hb as []. split_and!; [done|done|]. split; [..|done].
  - unfold Daemon.inv_ipcp. rewrite bc_ipcp. auto.
  - by eapply inv_phase_same.
Qed.

(** The phase does not matter to the rest. *)
Lemma task_inv_phase p w : p <> PHASE_NETWORK -> task_inv w -> task_inv (w <| phase := p |>).
Proof. intros Hp [? ? ? []]. repeat split; try done. intros E. by destruct Hp. Qed.
Lemma keeps_phase p : p <> PHASE_NETWORK -> inv_keeps (modify (fun w => w <| phase := p |>)).
Proof. intros Hp. apply preserves_modify. intros w. by apply task_inv_phase. Qed.

(** ** The lower layer of LCP *)

Lemma frames_lcp_down : lcp_frames lcp_down.
Proof.
  unfold lcp_down.
  apply frames_bind; [apply frames_silent, silent_echo_lowerdown|intros _].
  apply frames_bind; [apply frames_ipcp, entry_lowerdown|intros _].
  apply frames_bind; [apply frames_chap, keeps_ChapLowerDown|intros _].
  apply frames_bind; [apply frames_silent, silent_upap|intros _].
  apply frames_bind; [apply frames_silent, silent_emit|intros _].
  apply frames_bind; [apply frames_silent, silent_default_config|intros _].
  intros w [? ? []]. apply wp_modify. split_and!; [done|done|]. by repeat split.
Qed.

Lemma lcp_lower_laws : @FsmLowerLaws _ lcp_host (armed T_fsm_timeout_lcp) rest_inv lcp_lower.
Proof.
  split; intros m; intros; simplify_eq/=.
  - apply frames_silent, silent_lcp_resetci.
  - apply frames_silent, silent_gets.
  - apply frames_silent, silent_lcp_addci.
  - apply frames_lcp_down.
  - apply frames_silent, silent_ret.
Qed.
#[local] Existing Instance lcp_lower_laws.

Ltac lcp_entry lem := apply inv_keeps_lcp; eapply lem; eauto with typeclass_instances.

Lemma keeps_lcp_fsm_open : inv_keeps lcp_fsm_open.
Proof. lcp_entry @keeps_open. Qed.
Lemma keeps_lcp_fsm_close : inv_keeps (@fsm_close _ lcp_host lcp_lower).
Proof. lcp_entry @keeps_close. Qed.
Lemma keeps_lcp_fsm_lowerup : inv_keeps (@fsm_lowerup _ lcp_host lcp_lower).
Proof. lcp_entry @keeps_lowerup. Qed.
Lemma keeps_lcp_lowerdown : inv_keeps lcp_lowerdown.
Proof. lcp_entry @keeps_lowerdown. Qed.

(** The fields of the automaton that are not its state. *)
Lemma keeps_lcp_field g :
  (forall f, waiting (f_state (g f)) = true -> waiting (f_state f) = true) ->
  inv_keeps (upd_lcp_fsm g).
Proof.
  intros Hg. apply preserves_modify. intros w [Hl ? ? []]. repeat split; try done.
  intros Hw. apply Hl, Hg, Hw.
Qed.

Lemma keeps_lcp_open : inv_keeps lcp_open.
Proof.
  apply preserves_bind; [apply preserves_gets|intros wo].
  apply preserves_bind; [by apply keeps_lcp_field|intros _].
  apply preserves_bind; [by apply preserves_when, keeps_lcp_field|intros _].
  apply preserves_bind; [by apply preserves_when, keeps_lcp_field|intros _].
  apply keeps_lcp_fsm_open.
Qed.
Lemma keeps_lcp_finished : inv_keeps lcp_finished.
Proof.
  apply preserves_bind; [apply preserves_gets|intros f].
  apply preserves_if; [apply keeps_lcp_fsm_open|by apply keeps_phase].
Qed.
Lemma keeps_lcp_close : inv_keeps lcp_close.
Proof.
  apply preserves_bind; [apply preserves_gets|intros f]. apply preserves_if.
  - apply preserves_bind; [by apply keeps_lcp_field|intros _]. apply keeps_lcp_finished.
  - apply keeps_lcp_fsm_close.
Qed.
Lemma keeps_lcp_lowerup : inv_keeps lcp_lowerup.
Proof.
  apply preserves_bind; [apply inv_keeps_silent, silent_emit|intros _].
  apply preserves_bind; [apply preserves_gets|intros accm].
  apply preserves_bind; [apply inv_keeps_silent, silent_emit|intros _].
  apply preserves_bind; [apply inv_keeps_silent, silent_default_config|intros _].
  apply preserves_bind; [apply inv_keeps_silent, silent_access|intros accm0].
  apply preserves_bind; [apply inv_keeps_silent; silence|intros _].
  apply keeps_lcp_fsm_lowerup.
Qed.
Lemma keeps_die status : inv_keeps (die status).
Proof.
  apply preserves_bind; [apply keeps_lcp_close|intros _].
  apply preserves_bind; [apply preserves_gets|intros f]. apply preserves_if; [apply preserves_ret|].
  apply preserves_bind; [apply inv_keeps_silent, silent_emit|intros _]. apply preserves_throw.
Qed.

(** ** The results of authentication *)

Lemma keeps_ipcp_open : inv_keeps ipcp_open.
Proof. apply inv_keeps_frames, frames_ipcp, entry_open. Qed.

(** The network phase is entered when nothing is pending. *)
Lemma keeps_enter_network w :
  task_inv w -> auth_pending w = 0 ->
  wp True (modify (fun w => w <| phase := PHASE_NETWORK |>) ;; ipcp_open)
    (fun _ => task_inv) (fun _ _ => True) w.
Proof.
  intros [? ? ? []] Hp. apply wp_bind, wp_modify, keeps_ipcp_open. repeat split; try done. intros _. exact Hp.
Qed.

Lemma keeps_auth_done bit : inv_keeps (auth_done bit).
Proof.
  intros w Hw. apply wp_bind, wp_modify.
  set (w1 := w <| auth_pending ::= _ |>).
  assert (Hw1 : task_inv w1).
  { destruct Hw as [? ? Hp []]. repeat split; try done. intros E.
    specialize (Hp E). subst w1. cbv beta delta [upd]; cbn. by rewrite Hp, Z.land_0_l. }
  apply wp_bind, wp_gets, wp_when; intros C; [|done].
  apply keeps_enter_network; [done|by apply Z.eqb_eq in C].
Qed.
Lemma keeps_auth_peer_success protocol : inv_keeps (auth_peer_success protocol).
Proof. do 2 (apply preserves_if; [apply keeps_auth_done|]). apply preserves_ret. Qed.
Lemma keeps_auth_withpeer_success protocol : inv_keeps (auth_withpeer_success protocol).
Proof. apply keeps_auth_done. Qed.
Lemma silent_null_login : silent null_login.
Proof. unfold null_login. silence. Qed.

(** ** IPCP *)

Lemma keeps_ipcp_close : inv_keeps ipcp_close.
Proof. apply preserves_bind; [apply inv_keeps_frames, frames_ipcp, entry_close|intros _; apply keeps_die]. Qed.
Lemma silent_auth_ip_addr addr : silent (auth_ip_addr addr).
Proof. unfold auth_ip_addr. silence. Qed.

(** Leaves of an operation of the task. *)
Ltac leaf :=
  lazymatch goal with
  | |- inv_keeps (ret _) => apply preserves_ret
  | |- inv_keeps (throw _) => apply preserves_throw
  | |- inv_keeps (gets _) => apply preserves_gets
  | |- inv_keeps (emit _) => apply inv_keeps_silent, silent_emit
  | |- inv_keeps (ask _) => apply inv_keeps_silent, silent_ask
  | |- inv_keeps (output _) => apply inv_keeps_silent, silent_output
  | |- inv_keeps (access _) => apply inv_keeps_silent, silent_access
  | |- inv_keeps (get_chap _) => apply inv_keeps_silent, silent_gets
  | |- inv_keeps (die _) => apply keeps_die
  | |- inv_keeps auth_peer_fail => apply keeps_die
  | |- inv_keeps auth_withpeer_fail => apply preserves_ret
  | |- inv_keeps ipcp_close => apply keeps_ipcp_close
  | |- inv_keeps (auth_ip_addr _) => apply inv_keeps_silent, silent_auth_ip_addr
  | |- inv_keeps null_login => apply inv_keeps_silent, silent_null_login
  | |- inv_keeps (PPP_TIMEOUT _ _) => apply inv_keeps_silent, silent_timeout
  | |- inv_keeps (modify _) =>
      first [apply keeps_phase; discriminate
            |apply inv_keeps_silent, silent_modify; intros ?; split; solve [done|auto]]
  end.
(** Follow the structure of an operation. *)
Ltac keep :=
  repeat lazymatch goal with
  | |- inv_keeps (bind _ _) => apply preserves_bind; [|intros ?]
  | |- inv_keeps (when _ _) => apply preserves_when
  | |- inv_keeps (if _ then _ else _) => apply preserves_if
  | |- inv_keeps _ => leaf
  end.

Lemma keeps_ipcp_up : inv_keeps ipcp_up.
Proof. unfold ipcp_up. keep. Qed.

(** A parser that runs within the task. *)
Definition rej_keeps {A} (m : @rejecter PPP_TASK_VARS A) : Prop :=
  forall c w, task_inv w ->
    wp True m (fun _ s => task_inv s.2)
      (fun e s => match e with inl _ => task_inv s.2 | inr _ => True end) (c, w).

Lemma rej_keeps_bind {A B} (m : rejecter A) (k : A -> rejecter B) :
  rej_keeps m -> (forall a, rej_keeps (k a)) -> rej_keeps (bind m k).
Proof.
  intros Hm Hk c w Hw. apply wp_bind. eapply wp_mono; [exact (Hm c w Hw)| |done].
  intros a [c' w'] Hw'. by apply Hk.
Qed.
Lemma rej_keeps_packet {A} (m : parser A) : rej_keeps (in_packet m).
Proof. intros c w Hw. unfold wp, in_packet. cbn. by destruct (m c). Qed.
Lemma rej_keeps_task m : inv_keeps m -> rej_keeps (in_task m).
Proof. intros Hm c w Hw. specialize (Hm w Hw). unfold wp, in_task in *. cbn. by destruct (m w). Qed.
Lemma rej_keeps_ret {A} (a : A) : rej_keeps (ret a).
Proof. intros c w Hw. by apply wp_ret. Qed.
Lemma rej_keeps_go g : rej_keeps (get_options g).
Proof. intros c w Hw. by apply wp_gets. Qed.

Lemma rej_keeps_rejci : rej_keeps (ipcp_rejci (die 1) ipcp_gotoptions).
Proof.
  apply rej_keeps_bind; [apply rej_keeps_go|intros try].
  apply rej_keeps_bind; [|intros r_addr].
  { apply rej_keeps_bind; [apply rej_keeps_go|intros go].
    apply rej_keeps_bind; [apply rej_keeps_packet|intros found].
    apply rej_keeps_bind; [|intros _; apply rej_keeps_ret].
    destruct found; [|apply rej_keeps_ret].
    apply rej_keeps_bind; [apply rej_keeps_task, keeps_die|intros _].
    apply rej_keeps_bind; [apply rej_keeps_go|intros go'; apply rej_keeps_packet]. }
  apply rej_keeps_bind; [|intros r_vj].
  { apply rej_keeps_bind; [apply rej_keeps_go|intros go; apply rej_keeps_packet]. }
  apply rej_keeps_bind; [apply rej_keeps_packet|intros _; apply rej_keeps_ret].
Qed.

Lemma keeps_ipcp_rejci inp len : inv_keeps (ipcp_rejci_cb inp len).
Proof.
  apply preserves_bind.
  - intros w Hw. pose proof (rej_keeps_rejci (mk_cursor len inp) w Hw) as Hr. unfold wp in *.
    destruct (ipcp_rejci _ _ _) as [a [c w']|[[]|z] [c w']| |]; cbn in *; try done.
  - intros [try|]; [|apply preserves_ret].
    apply preserves_bind; [apply inv_keeps_silent, silent_ipcp_take|intros _; apply preserves_ret].
Qed.

(** What the automaton of IPCP keeps besides its own timer. *)
Definition but_ipcp_inv (w : PPP_TASK_VARS) : Prop := inv_lcp w /\ inv_phase w /\ inv_chap w.

Lemma stable_but_ipcp : stable but_ipcp_inv.
Proof.
  intros w w' [] (Hl & Hp & Hc). split_and!.
  - unfold Daemon.inv_lcp. rewrite bi_lcp. intros Hw.
    apply bi_armed; [apply watched_lcp|done|auto].
  - by eapply inv_phase_same.
  - eapply inv_chap_same; [done|..|done]; apply bi_armed; try done;
      [apply watched_chal|apply watched_resp].
Qed.

Notation ipcp_keeps := (@keeps _ ipcp_host (armed T_fsm_timeout_ipcp) but_ipcp_inv _).

Lemma task_inv_ipcp w : task_inv w <-> inv_ipcp w /\ but_ipcp_inv w.
Proof. split; [intros []; by split_and!|intros (?&?&?&?); by split]. Qed.
Lemma inv_keeps_ipcp {A} (m : task A) : ipcp_keeps m <-> inv_keeps m.
Proof.
  split.
  - intros Hm w [Hi Hr]%task_inv_ipcp. eapply wp_mono; [exact (Hm w Hr Hi)| |done].
    intros a w' [Hi' Hr']. by apply task_inv_ipcp.
  - intros Hm w Hr Hi. eapply wp_mono; [apply Hm, task_inv_ipcp; by split| |done].
    intros a w' [? ?]%task_inv_ipcp. by split.
Qed.

Lemma ipcp_cb_laws :
  @FsmCbLaws _ ipcp_host (armed T_fsm_timeout_ipcp) but_ipcp_inv ipcp_callbacks.
Proof.
  split.
  - apply ipcp_lower_laws, stable_but_ipcp.
  - intros; simplify_eq/=. apply frames_ipcp_silent; [apply stable_but_ipcp|apply silent_ipcp_ackci].
  - intros; simplify_eq/=. apply frames_ipcp_silent; [apply stable_but_ipcp|apply silent_ipcp_nakci].
  - intros; simplify_eq/=. apply inv_keeps_ipcp, keeps_ipcp_rejci.
  - intros; simplify_eq/=. apply frames_ipcp_silent; [apply stable_but_ipcp|apply silent_ipcp_reqci].
  - done.
  - intros m w E Jw Ho. simplify_eq/=.
    assert (Hw : task_inv w) by (apply task_inv_ipcp; split; [intros W; by rewrite Ho in W|done]).
    eapply wp_mono; [exact (keeps_ipcp_up w Hw)| |done]. intros [] w' [? ?]%task_inv_ipcp. by split.
  - done.
  - done.
Qed.

Lemma keeps_ipcp_input p len : inv_keeps (ipcp_input p len).
Proof.
  pose proof (ipcp_laws ks _ stable_but_ipcp). pose proof ipcp_cb_laws.
  apply inv_keeps_ipcp. by apply keeps_input.
Qed.
Lemma wp_ipcp_timeout w :
  but_ipcp_inv w ->
  wp True (@fsm_timeout _ ipcp_host ipcp_callbacks) (fun _ => task_inv) (fun _ _ => True) w.
Proof.
  pose proof (ipcp_laws ks _ stable_but_ipcp). pose proof ipcp_cb_laws. intros Jw.
  eapply wp_mono; [by apply keeps_timeout| |done]. intros [] w' [? ?]. by apply task_inv_ipcp.
Qed.

(** ** CHAP *)

(** Once CHAP is in order, the rest of the operation keeps the invariant. *)
Lemma wp_chap_then {A} (m : task A) ss cs a b t w0 w :
  chap_at ks refused ss cs a b t w0 w -> others_inv w0 -> (server_waits ss -> a) ->
  (client_waits cs -> b) -> (client_waits cs -> t) -> inv_keeps m ->
  wp True m (fun _ => task_inv) (fun _ _ => True) w.
Proof.
  intros Hc Ho Ha Hb Ht Hm. apply Hm, task_inv_chap.
  destruct (chap_at_end _ _ _ _ _ _ _ _ _ Hc Ha Hb Ht) as [? ?]. split; [by eapply others_but|done].
Qed.

Lemma wp_ChapChallengeTimeout ss cs (a b t : Prop) w :
  chap_at ks refused ss cs a b t w w -> others_inv w -> (client_waits cs -> b) -> (client_waits cs -> t) ->
  wp True ChapChallengeTimeout (fun _ => task_inv) (fun _ _ => True) w.
Proof.
  intros Hc Ho Hb Ht. eapply wp_server_state; [eassumption|]. apply wp_when; intros C.
  - do 4 cstep. apply wp_if; intros _.
    + cstep. eapply wp_chap_server; [eassumption|]. intros w1 H1'.
      eapply wp_chap_then; [exact H1'|done| |done|done|apply keeps_die]. by intros [|].
    + apply bool_decide_eq_true in C.
      eapply wp_mono; [eapply wp_ChapSendChallenge; eassumption| |done]. intros [] w1 H1'.
      apply task_inv_chap. edestruct chap_at_end as [? ?]; [exact H1'|auto..|].
      split; [by eapply others_but|done].
  - apply bool_decide_eq_false in C. apply task_inv_chap.
    edestruct chap_at_end as [? ?]; [exact Hc|done..|]. by split.
Qed.

Lemma silent_send_status code : silent (ChapSendStatus unitno code).
Proof. apply silent_bind; [apply silent_gets|intros id; apply silent_output]. Qed.
Lemma silent_check_response name md n : silent (check_response name md n).
Proof.
  unfold check_response. apply silent_bind; [apply silent_gets|intros nm].
  apply silent_bind; [apply silent_get_secret|intros []]; silence.
Qed.

Lemma wp_response_checked ok ss cs (a b t : Prop) w0 w :
  chap_at ks refused ss cs a b t w0 w -> others_inv w0 -> (client_waits cs -> b) -> (client_waits cs -> t) ->
  wp True (response_checked unitno ok) (fun _ => task_inv) (fun _ _ => True) w.
Proof.
  intros Hc Ho Hb Ht. csilent silent_send_status. apply wp_if; intros _; repeat cstep.
  - eapply wp_chap_server; [eassumption|]. intros w1 H1'.
    eapply wp_chap_then; [exact H1'|done|by intros [|]|done..|]. keep. apply keeps_auth_peer_success.
  - eapply wp_chap_server; [eassumption|]. intros w1 H1'.
    eapply wp_chap_then; [exact H1'|done|by intros [|]|done..|]. apply keeps_die.
Qed.

Lemma keeps_ReceiveResponse inp id len : inv_keeps (ChapReceiveResponse unitno inp id len).
Proof.
  intros w Hw. pose proof Hw as [Ho Hi]%task_inv_chap.
  pose proof (chap_at_start ks refused _ Hi) as Hc. revert Hc.
  generalize (serverstate (chap w)) (clientstate (chap w)). intros ss cs Hc.
  eapply wp_server_state; [eassumption|].
  destruct ss; try (apply wp_ret, Hw); cbv beta iota;
    (cstep; cstep; cstep; [eapply wp_chap_then; eauto using preserves_ret|]);
    try (eapply wp_chap_then; eauto using inv_keeps_silent, silent_send_status; fail);
    (cstep; [eapply wp_chap_then; eauto using preserves_ret|]);
    (cstep; cstep; cstep; [eapply wp_chap_then; eauto using preserves_ret|]);
    (apply wp_bind; eapply wp_chap_disarm; [done|done|eassumption|intros ? ?]);
    csilent silent_host_name; csilent silent_check_response;
    (eapply wp_response_checked; [eassumption|done|by intros; split|done]).
Qed.

Lemma silent_PRINTMSG inp len : silent (PRINTMSG inp len).
Proof. apply silent_when, silent_bind; [apply silent_access|intros ?; apply silent_ret]. Qed.

Lemma keeps_ReceiveSuccess inp len : inv_keeps (ChapReceiveSuccess inp len).
Proof.
  intros w Hw. pose proof Hw as [Ho Hi]%task_inv_chap.
  pose proof (chap_at_start ks refused _ Hi) as Hc. revert Hc.
  generalize (serverstate (chap w)) (clientstate (chap w)). intros ss cs Hc.
  eapply wp_client_state; [eassumption|]. apply wp_when; intros _; [|done].
  cstep. eapply wp_chap_disarm; [done|done|eassumption|intros ? ?]. csilent silent_PRINTMSG.
  cstep. eapply wp_chap_client; [eassumption|intros w1 H1'].
  eapply wp_chap_then; [exact H1'|done|by auto|done..|]. apply keeps_auth_withpeer_success.
Qed.
(** The client goes on waiting after a Failure, without a timeout. *)
Lemma keeps_ReceiveFailure inp len : refused -> inv_keeps (ChapReceiveFailure inp len).
Proof.
  intros Hr w Hw. pose proof Hw as [Ho Hi]%task_inv_chap.
  pose proof (chap_at_start ks refused _ Hi) as Hc. revert Hc.
  generalize (serverstate (chap w)) (clientstate (chap w)). intros ss cs Hc.
  eapply wp_client_state; [eassumption|]. apply wp_when; intros _; [|done].
  cstep. eapply wp_chap_disarm; [done|done|eassumption|intros ? ?]. csilent silent_PRINTMSG.
  eapply wp_chap_then;
    [eapply chap_at_refused; eassumption|done|by auto|done|done|apply preserves_ret].
Qed.
Lemma keeps_ProtocolReject : inv_keeps ChapProtocolReject.
Proof. unfold ChapProtocolReject. keep. apply inv_keeps_chap, keeps_ChapLowerDown. Qed.

Lemma wp_read_header p w (Q : Z * Z * Z -> PPP_TASK_VARS -> Prop) :
  (forall code id n, p !! 0%nat = Some code -> Q (code, id, n) w) ->
  wp True (read_header p) Q (fun (_ : Z) _ => True) w.
Proof.
  intros HQ. unfold read_header. apply wp_bind, wp_access'; [|done]. intros code Hcode.
  do 3 (apply wp_bind, wp_access'; [intros ? _|done]). apply wp_ret. auto.
Qed.

Lemma keeps_ChapInput p len :
  (p !! 0%nat = Some CHAP_FAILURE -> refused) -> inv_keeps (ChapInput unitno p len).
Proof.
  intros Hr w Hw. apply wp_if; intros _; [by apply wp_ret|].
  apply wp_bind, wp_read_header. intros code id n Hcode.
  do 2 (apply wp_if; intros _; [by apply wp_ret|]). cbv zeta.
  apply wp_if; intros _; [apply inv_keeps_chap; [apply keeps_ReceiveChallenge|done]|].
  apply wp_if; intros _; [by apply keeps_ReceiveResponse|].
  apply wp_if; intros Hf; [apply Z.eqb_eq in Hf; subst; apply keeps_ReceiveFailure; auto|].
  apply wp_if; intros _; [by apply keeps_ReceiveSuccess|by apply wp_ret].
Qed.

(** ** PAP *)

Lemma silent_upap_addresses a : silent (modify (fun w => w <| addresses := a |>)).
Proof. silence. Qed.
Lemma keeps_upap_call c : inv_keeps (run_upap_call c).
Proof.
  destruct c; cbn [run_upap_call].
  - apply inv_keeps_silent, silent_upap_act.
  - apply inv_keeps_silent, silent_upap_addresses.
  - apply keeps_die.
  - apply keeps_auth_peer_success.
  - apply preserves_ret.
  - apply keeps_auth_withpeer_success.
Qed.
Lemma keeps_upap_calls l : inv_keeps (run_upap_calls l).
Proof.
  induction l as [|c l IH]; [apply preserves_ret|].
  apply preserves_bind; [apply keeps_upap_call|done].
Qed.
Lemma keeps_run_upap op : inv_keeps (run_upap run_upap_calls op).
Proof.
  apply preserves_bind; [apply preserves_gets|intros u]. destruct (op u) as [u' l].
  apply preserves_bind; [apply inv_keeps_silent; silence|intros _; apply keeps_upap_calls].
Qed.

(** ** Echo requests *)

Lemma keeps_lcp_sdata code id data n : inv_keeps (lcp_sdata code id data n).
Proof. apply inv_keeps_frames, frames_sdata. Qed.
Lemma keeps_LcpLinkFailure : inv_keeps LcpLinkFailure.
Proof. unfold LcpLinkFailure. keep. apply keeps_lcp_lowerdown. Qed.
Lemma keeps_LcpSendEchoRequest : inv_keeps LcpSendEchoRequest.
Proof. unfold LcpSendEchoRequest. keep; [apply keeps_LcpLinkFailure|apply keeps_lcp_sdata]. Qed.
Lemma keeps_LcpEchoCheck : inv_keeps LcpEchoCheck.
Proof. unfold LcpEchoCheck. keep. apply keeps_LcpSendEchoRequest. Qed.
Lemma keeps_LcpEchoTimeout : inv_keeps LcpEchoTimeout.
Proof. unfold LcpEchoTimeout. keep. apply keeps_LcpEchoCheck. Qed.
Lemma silent_echo_reply inp : silent (lcp_received_echo_reply inp).
Proof. unfold lcp_received_echo_reply. silence. Qed.
Lemma keeps_echo_lowerup : inv_keeps lcp_echo_lowerup.
Proof. unfold lcp_echo_lowerup. keep. apply keeps_LcpEchoCheck. Qed.

(** ** The link is established *)

(** What holds while the authentication is started. *)
Definition starting_auth (w : PPP_TASK_VARS) : Prop := task_inv w /\ phase w = PHASE_AUTHENTICATE.
Notation keeps_starting := (preserves (X := Z) starting_auth).

Lemma keeps_starting_silent {A} (m : task A) : silent m -> keeps_starting m.
Proof.
  intros Hm w [Hw Hp].
  eapply wp_mono; [exact (wp_conj _ _ _ _ _ _ (Hm w) (inv_keeps_silent m Hm w Hw))| |done].
  intros a w' [Hs Hi]. split; [exact Hi|]. by destruct Hs as [? ? ->].
Qed.
Lemma keeps_starting_chap {A} (m : task A) : chap_keeps ks refused m -> keeps_starting m.
Proof.
  intros Hm w [Hw Hp]. pose proof Hw as [Ho Hc]%task_inv_chap.
  eapply wp_mono; [exact (Hm w Hc)| |done]. intros a w' [Hc' Hb]. split.
  - apply task_inv_chap. split; [by eapply others_but|done].
  - by destruct Hb as [? ? ->].
Qed.
Lemma keeps_starting_pair (m : task unit) (z : Z) :
  keeps_starting m -> keeps_starting (m ;; ret z).
Proof. intros Hm. apply preserves_bind; [done|]. intros _. apply keeps_starting_silent, silent_ret. Qed.

Lemma wp_starting_bind {A} (m : task A) (k : A -> task unit) w :
  keeps_starting m -> starting_auth w ->
  (forall a w', starting_auth w' -> wp True (k a) (fun _ => task_inv) (fun _ _ => True) w') ->
  wp True (bind m k) (fun _ => task_inv) (fun _ _ => True) w.
Proof. intros Hm Hw Hk. apply wp_bind. eapply wp_mono; [exact (Hm w Hw)|auto|done]. Qed.

Lemma keeps_link_established : inv_keeps link_established.
Proof.
  unfold link_established.
  do 3 (apply preserves_bind; [apply preserves_gets|intros ?]).
  apply preserves_bind; [keep|intros _].
  intros w Hw. apply wp_bind, wp_modify.
  assert (Hs : starting_auth (w <| phase := PHASE_AUTHENTICATE |>))
    by (split; [by apply task_inv_phase|done]).
  revert Hs. generalize (w <| phase := PHASE_AUTHENTICATE |>). clear w Hw. intros w Hw.
  do 3 (apply wp_starting_bind; [apply keeps_starting_silent, silent_gets|exact Hw|];
        clear w Hw; intros ? w Hw).
  apply wp_starting_bind; [|exact Hw|clear w Hw; intros peer w Hw].
  { apply preserves_if; [apply keeps_starting_pair, keeps_starting_chap, keeps_AuthPeer|].
    apply preserves_if; [apply keeps_starting_pair, keeps_starting_silent, silent_upap|].
    apply keeps_starting_silent, silent_ret. }
  apply wp_starting_bind; [|exact Hw|clear w Hw; intros withpeer w [Hw Hp]].
  { apply preserves_if; [apply keeps_starting_pair, keeps_starting_chap, keeps_AuthWithPeer|].
    apply preserves_if; [|apply keeps_starting_silent, silent_ret].
    do 2 (apply preserves_bind; [apply keeps_starting_silent, silent_gets|intros ?]).
    apply keeps_starting_pair, keeps_starting_silent, silent_upap. }
  cbv zeta. apply wp_bind, wp_modify.
  assert (Hi : task_inv (w <| auth_pending := Z.lor peer withpeer |>)).
  { destruct Hw as [? ? ? []]. repeat split; try done. intros E.
    change (phase w = PHASE_NETWORK) in E. by rewrite Hp in E. }
  apply wp_when; intros C; [|done].
  apply keeps_enter_network; [done|]. by apply Z.eqb_eq in C.
Qed.

(** ** The callbacks of LCP *)

Lemma keeps_lcp_up : inv_keeps lcp_up.
Proof.
  apply preserves_bind; [apply inv_keeps_silent; silence|intros _].
  do 4 (apply preserves_bind; [apply preserves_gets|intros ?]).
  do 2 (apply preserves_bind; [apply inv_keeps_silent, silent_emit|intros _]).
  apply preserves_bind; [apply inv_keeps_silent; silence|intros _].
  apply preserves_bind; [apply inv_keeps_chap, keeps_ChapLowerUp|intros _].
  apply preserves_bind; [apply inv_keeps_silent, silent_upap|intros _].
  apply preserves_bind; [apply inv_keeps_frames, frames_ipcp, entry_lowerup|intros _].
  apply preserves_bind; [apply keeps_echo_lowerup|intros _].
  apply keeps_link_established.
Qed.

(** A callback that keeps the invariant, where the automaton does not wait. *)
Lemma lcp_idle_callback (m : task unit) w :
  inv_keeps m -> rest_inv w -> waiting (f_state (lcp_fsm w)) = false ->
  wp True m (fun _ w' => @timer_inv _ lcp_host (armed T_fsm_timeout_lcp) w' /\ rest_inv w')
    (fun _ _ => True) w.
Proof.
  intros Hm Hr Hw.
  assert (Hi : task_inv w) by (apply task_inv_split; split; [intros W; by rewrite Hw in W|done]).
  eapply wp_mono; [exact (Hm w Hi)| |done]. intros [] w' [? ?]%task_inv_split. by split.
Qed.

Section Lcp_callbacks.
Context (extcode : option (Z -> Z -> list Z -> Z -> task bool)).
Hypothesis Hext : forall m c i p n, extcode = Some m -> inv_keeps (m c i p n).
Definition lcp_callbacks_with : fsm_callbacks PPP_TASK_VARS := {|
  cb_lower := lcp_lower; cb_ackci := Some lcp_ackci_cb; cb_nakci := Some lcp_nakci_cb;
  cb_rejci := Some lcp_rejci_cb; cb_reqci := Some lcp_reqci_cb; cb_up := Some lcp_up;
  cb_finished := Some lcp_finished; cb_retransmit := None; cb_extcode := extcode |}.

Lemma lcp_cb_laws : @FsmCbLaws _ lcp_host (armed T_fsm_timeout_lcp) rest_inv lcp_callbacks_with.
Proof.
  split.
  - apply lcp_lower_laws.
  - intros; simplify_eq/=. apply frames_silent, silent_lcp_ackci.
  - intros; simplify_eq/=. apply frames_silent, silent_lcp_nakci.
  - intros; simplify_eq/=. apply inv_keeps_lcp, inv_keeps_silent, silent_lcp_rejci.
  - intros; simplify_eq/=. apply frames_silent, silent_lcp_reqci.
  - done.
  - intros m w E Jw Ho. simplify_eq/=. apply lcp_idle_callback; [apply keeps_lcp_up|done|by rewrite Ho].
  - intros m w E Jw Ho. simplify_eq/=. apply lcp_idle_callback; [apply keeps_lcp_finished|done|].
    by destruct Ho as [-> | ->].
  - intros m c i p n E. apply inv_keeps_lcp. eauto.
Qed.
End Lcp_callbacks.

Lemma keeps_lcp_protrej : inv_keeps lcp_protrej.
Proof.
  assert (Hl := lcp_cb_laws None ltac:(done)).
  by apply inv_keeps_lcp, keeps_protreject.
Qed.
Lemma keeps_demuxprotrej protocol : inv_keeps (demuxprotrej protocol).
Proof.
  apply preserves_if; [apply keeps_lcp_protrej|].
  apply preserves_if; [apply inv_keeps_frames, frames_ipcp, entry_lowerdown|].
  apply preserves_if; [apply keeps_run_upap|].
  apply preserves_if; [apply keeps_ProtocolReject|apply preserves_ret].
Qed.
Lemma keeps_lcp_rprotrej inp len : inv_keeps (lcp_rprotrej inp len).
Proof. unfold lcp_rprotrej. keep. apply keeps_demuxprotrej. Qed.
Lemma keeps_lcp_extcode code id inp len : inv_keeps (lcp_extcode code id inp len).
Proof.
  unfold lcp_extcode. keep; [apply keeps_lcp_rprotrej|apply keeps_lcp_sdata|].
  apply inv_keeps_silent, silent_echo_reply.
Qed.
Lemma lcp_callbacks_laws : @FsmCbLaws _ lcp_host (armed T_fsm_timeout_lcp) rest_inv lcp_callbacks.
Proof.
  assert (Hx : forall m c i p n, Some lcp_extcode = Some m -> inv_keeps (m c i p n))
    by (intros m c i p n [= <-]; apply keeps_lcp_extcode).
  exact (lcp_cb_laws (Some lcp_extcode) Hx).
Qed.
#[local] Existing Instance lcp_callbacks_laws.

Lemma keeps_lcp_input p len : inv_keeps (lcp_input p len).
Proof. apply inv_keeps_lcp. by apply keeps_input, lcp_callbacks_laws. Qed.
Lemma wp_lcp_timeout w :
  rest_inv w ->
  wp True (@fsm_timeout _ lcp_host lcp_callbacks) (fun _ => task_inv) (fun _ _ => True) w.
Proof.
  intros Jw. eapply wp_mono; [apply keeps_timeout; [apply lcp_callbacks_laws|exact Jw]| |done].
  intros [] w' [? ?]. by apply task_inv_split.
Qed.

(** ** Packets *)

(** A CHAP Failure. *)
Definition chap_failure (r : packet_read) : Prop :=
  exists a b, r.2 !! 2%nat = Some a /\ r.2 !! 3%nat = Some b /\ be16 a b = CHAP
    /\ r.2 !! 4%nat = Some CHAP_FAILURE.

Lemma keeps_protocol_input protocol p len :
  (protocol = CHAP -> p !! 0%nat = Some CHAP_FAILURE -> refused) ->
  inv_keeps (protocol_input unitno protocol p len).
Proof.
  intros Hr. unfold protocol_input.
  apply preserves_if; [apply preserves_bind; [apply keeps_lcp_input|intros _; leaf]|].
  apply preserves_if; [apply preserves_bind; [apply keeps_ipcp_input|intros _; leaf]|].
  apply preserves_if; [apply preserves_bind; [apply keeps_run_upap|intros _; leaf]|].
  destruct (protocol =? CHAP) eqn:E; [|leaf]. apply Z.eqb_eq in E.
  apply preserves_bind; [apply keeps_ChapInput; auto|intros _; leaf].
Qed.

Lemma keeps_lcp_sprotrej p len : inv_keeps (lcp_sprotrej p len).
Proof.
  apply preserves_bind; [|intros i; apply keeps_lcp_sdata].
  apply preserves_bind; [by apply keeps_lcp_field|intros _; apply preserves_gets].
Qed.

Lemma keeps_io_packet r : (chap_failure r -> refused) -> inv_keeps (io_packet unitno r).
Proof.
  destruct r as [len buf]. intros Hr w Hw. apply wp_if; intros _; [by apply wp_ret|].
  apply wp_bind, wp_access'; [|done]. intros a Ha. apply wp_bind, wp_access'; [|done]. intros b Hb.
  cbv zeta. revert w Hw.
  change (inv_keeps (f <- gets lcp_fsm ;;
    if negb (be16 a b =? LCP) && negb (bool_decide (f_state f = OPENED)) then ret false else
    known <- protocol_input unitno (be16 a b) (drop 4 buf) (len - DLLHEADERLEN) ;;
    when (negb known)
      (modify (fun w => w <| unknownProto ::= fun n => u32 (n + 1) |>) ;;
       lcp_sprotrej buf (len - DLLHEADERLEN + DLLHEADERLEN)) ;;
    ret true)).
  keep; [|apply keeps_lcp_sprotrej]. apply keeps_protocol_input. intros E Hf. apply Hr.
  exists a, b. by rewrite lookup_drop in Hf.
Qed.
Lemma keeps_io_loop l : (Exists chap_failure l -> refused) -> inv_keeps (io_loop unitno l).
Proof.
  induction l as [|r l IH]; intros Hr; [apply preserves_ret|].
  apply preserves_bind; [apply keeps_io_packet; auto|intros more].
  apply preserves_when, IH. auto.
Qed.

End Keeps.
(** ** Timeouts *)

Lemma armed_cons k ks k' w : armed (k :: ks) k' w -> k' <> k -> armed ks k' w.
Proof. intros [Hp|Hp%elem_of_cons] N; [by left|]. destruct Hp; [done|by right]. Qed.

(** A timeout that no part of the invariant is about. *)
Lemma task_inv_unwatched k ks refused w :
  ~ watched k -> task_inv (k :: ks) refused w -> task_inv ks refused w.
Proof.
  intros Hk [Hl Hi Hp [Hs Hc Ht]].
  assert (Ha : forall k', watched k' -> armed (k :: ks) k' w -> armed ks k' w)
    by (intros k' Hw A; eapply armed_cons; [exact A|by intros ->]).
  split; [..|done|split].
  - intros W. apply Ha; [apply watched_lcp|auto].
  - intros W. apply Ha; [apply watched_ipcp|auto].
  - intros W. apply Ha; [apply watched_chal|auto].
  - intros W. destruct (Hc W); [left; apply Ha; [apply watched_resp|done]|by right].
  - done.
Qed.

(** The timeout that runs is no longer armed, unless it arms itself again. *)
Lemma wp_run_timer k ks refused w :
  task_inv (k :: ks) refused w ->
  wp True (run_timer k) (fun _ => task_inv ks refused) (fun _ _ => True) w.
Proof.
  intros Hw. pose proof Hw as [Hl Hi Hp [Hs Hc Ht]].
  assert (Ha : forall k', k' <> k -> armed (k :: ks) k' w -> armed ks k' w)
    by (intros k' N A; by eapply armed_cons).
  assert (Hb : k <> T_ChapResponseTimeout -> clientstate (chap w) = CHAPCS_RESPONSE ->
    armed ks T_ChapResponseTimeout w \/ refused) by (intros N W; destruct (Hc W); auto).
  destruct k; cbn [run_timer].
  - apply wp_lcp_timeout. split; [|done|split]; intros ?; auto.
  - apply wp_ipcp_timeout. split; [|split; [done|split]]; intros ?; auto.
  - assert (Hat : chap_at ks refused (serverstate (chap w)) (clientstate (chap w)) False
      (client_waits (clientstate (chap w))) (client_waits (clientstate (chap w))) w w)
      by (split; try done; auto).
    eapply wp_ChapChallengeTimeout; [exact Hat|split_and!; [..|done]; intros W; auto|done..].
  - assert (Hat : chap_at ks refused (serverstate (chap w)) (clientstate (chap w))
      (server_waits (serverstate (chap w))) False (client_waits (clientstate (chap w))) w w)
      by (split; try done; intros W; auto).
    eapply wp_mono; [eapply wp_ChapResponseTimeout; [exact Hat|done..]| |done].
    intros [] w' [Hc' Hb']. apply task_inv_chap. split; [|done].
    eapply others_but; [exact Hb'|]. split_and!; [..|done]; intros W; auto.
  - apply inv_keeps_chap; [apply keeps_ChapRechallenge|]. eapply task_inv_unwatched, Hw.
    intros [|[|[|]]]; discriminate.
  - apply keeps_LcpEchoTimeout. eapply task_inv_unwatched, Hw. intros [|[|[|]]]; discriminate.
  - apply keeps_run_upap. eapply task_inv_unwatched, Hw. intros [|[|[|]]]; discriminate.
Qed.

Lemma wp_run_timers l refused w :
  task_inv l refused w ->
  wp True (run_timers l) (fun _ => task_inv [] refused) (fun _ _ => True) w.
Proof.
  revert w. induction l as [|k l IH]; intros w Hw; [by apply wp_ret|].
  apply wp_bind. eapply wp_mono; [exact (wp_run_timer _ _ _ _ Hw)|auto|done].
Qed.

(** ** Signals *)

Lemma keeps_alrm refused : preserves (task_inv [] refused) alrm.
Proof.
  intros w Hw. apply wp_bind, wp_gets, wp_bind, wp_bind, wp_gets, wp_bind, wp_modify, wp_ret.
  set (now := env_time _). pose proof (fun k => pending_alrm now k (callout_list w)) as Hp.
  destruct (alrm_expire now (callout_list w)) as [expired t] eqn:E.
  apply wp_bind, wp_modify, wp_run_timers.
  assert (Ha : forall k (w' : PPP_TASK_VARS), callout_list w' = t ->
    armed [] k w -> armed expired k w').
  { intros k w' E' [Hk|Hk%elem_of_nil]; [|done]. unfold Daemon.armed. rewrite E'. exact (Hp k Hk). }
  destruct Hw as [Hl Hi Hph [Hs Hc Ht]]. split; [..|split].
  - intros W. eapply Ha; [done|auto].
  - intros W. eapply Ha; [done|auto].
  - exact Hph.
  - intros W. eapply Ha; [done|auto].
  - intros W. destruct (Hc W); [left; by eapply Ha|by right].
  - exact Ht.
Qed.

Lemma silent_adjtimeout ks : silent ks task_adjtimeout.
Proof.
  apply silent_bind; [apply silent_time|intros now]. apply silent_modify. intros w. split; try done.
  intros k _ _ [Hp|Hp]; [left|by right]. cbv beta delta [upd]; cbn. by apply pending_adjtimeout.
Qed.

(** A signal that brings a CHAP Failure. *)
Definition refusal (s : signal) : Prop :=
  match s with SIGIO l => Exists chap_failure l | _ => False end.

Lemma keeps_handle_signal refused s :
  (refusal s -> refused) -> preserves (task_inv [] refused) (handle_signal unitno s).
Proof.
  intros Hr. destruct s; cbn [handle_signal].
  - apply preserves_bind; [apply inv_keeps_silent; silence|intros _].
    apply preserves_bind; [apply inv_keeps_silent, silent_adjtimeout|intros _; apply keeps_die].
  - apply preserves_bind; [apply inv_keeps_silent, silent_adjtimeout|intros _; apply keeps_die].
  - apply preserves_bind; [by apply keeps_lcp_field|intros _].
    apply preserves_bind; [apply inv_keeps_silent, silent_adjtimeout|intros _; apply keeps_die].
  - apply keeps_alrm.
  - apply preserves_bind; [apply inv_keeps_silent, silent_adjtimeout|intros _; by apply keeps_io_loop].
Qed.

Lemma keeps_ppp_loop refused l : (Exists refusal l -> refused) -> preserves (task_inv [] refused) (ppp_loop unitno l).
Proof.
  induction l as [|s l IH]; intros Hr.
  - apply preserves_bind; [apply preserves_gets|intros p].
    apply preserves_if; [apply keeps_die|apply preserves_ret].
  - apply preserves_bind; [apply preserves_gets|intros p].
    apply preserves_if; [apply keeps_die|].
    apply preserves_bind; [apply keeps_handle_signal; auto|intros _; apply IH; auto].
Qed.

Lemma keeps_ppp_start refused : preserves (task_inv [] refused) ppp_start.
Proof.
  apply preserves_bind; [apply keeps_lcp_lowerup|intros _].
  apply preserves_bind; [apply keeps_lcp_open|intros _]. by apply keeps_phase.
Qed.

(** ** The whole task *)

(** What the set-up of the device and of the options leaves alone: the states
    of the automata and of CHAP, the phase.  It may change all else, the
    timers and limits of the protocols and the timeouts among them. *)
Record states_kept (w w' : PPP_TASK_VARS) : Prop := {
  sk_lcp : f_state (lcp_fsm w') = f_state (lcp_fsm w);
  sk_ipcp : f_state (ipcp_fsm w') = f_state (ipcp_fsm w);
  sk_phase : phase w' = phase w;
  sk_server : serverstate (chap w') = serverstate (chap w);
  sk_client : clientstate (chap w') = clientstate (chap w) }.
(** All are in their first state. *)
Definition initial (w : PPP_TASK_VARS) : Prop :=
  f_state (lcp_fsm w) = INITIAL /\ f_state (ipcp_fsm w) = INITIAL /\ phase w <> PHASE_NETWORK
  /\ serverstate (chap w) = CHAPSS_INITIAL /\ clientstate (chap w) = CHAPCS_INITIAL.
Lemma initial_inv refused w : initial w -> task_inv [] refused w.
Proof.
  intros (Hl & Hi & Hp & Hs & Hc). split; [..|split].
  - intros W. by rewrite Hl in W.
  - intros W. by rewrite Hi in W.
  - intros W. by destruct Hp.
  - rewrite Hs. by intros [|].
  - by rewrite Hc.
  - by rewrite Hc.
Qed.

(** Neither automaton waits and the link is not up. *)
Record at_rest (l i : Prop) (w : PPP_TASK_VARS) : Prop := {
  ar_phase : phase w <> PHASE_NETWORK;
  ar_lcp : l -> f_state (lcp_fsm w) = INITIAL;
  ar_ipcp : i -> f_state (ipcp_fsm w) = INITIAL }.

Lemma at_rest_same l i w w' : same_but [] nothing w w' -> at_rest l i w -> at_rest l i w'.
Proof. intros [] []. split; congruence || (intros ?; rewrite ?sb_lcp, ?sb_ipcp; auto). Qed.

Lemma wp_lcp_init i w :
  at_rest False i w -> wp True lcp_init (fun _ => at_rest True i) (fun _ _ => True) w.
Proof.
  intros []. apply wp_bind, wp_modify, wp_bind, wp_bind, wp_modify, wp_bind.
  eapply (wp_silent []); [apply silent_random|]. intros r w1 []. apply wp_modify.
  apply wp_bind, wp_modify, wp_bind, wp_gets, wp_bind, wp_access'; [|done]. intros accm _.
  apply wp_if; intros _; [done|]. apply wp_modify. split.
  - change (phase w1 <> PHASE_NETWORK). by rewrite sb_phase.
  - intros _. change (f_state (lcp_fsm w1) = INITIAL). by rewrite sb_lcp.
  - change (i -> f_state (ipcp_fsm w1) = INITIAL). by rewrite sb_ipcp.
Qed.
Lemma wp_ipcp_init l w :
  at_rest l False w -> wp True ipcp_init (fun _ => at_rest l True) (fun _ _ => True) w.
Proof.
  intros []. apply wp_bind, wp_modify, wp_bind, wp_bind, wp_modify, wp_bind.
  eapply (wp_silent []); [apply silent_random|]. intros r w1 []. apply wp_modify, wp_modify. split.
  - change (phase w1 <> PHASE_NETWORK). by rewrite sb_phase.
  - change (l -> f_state (lcp_fsm w1) = INITIAL). by rewrite sb_lcp.
  - intros _. change (f_state (ipcp_fsm w1) = INITIAL). by rewrite sb_ipcp.
Qed.
Lemma wp_protocols_init w :
  phase w <> PHASE_NETWORK ->
  wp True protocols_init (fun _ => initial) (fun _ _ => True) w.
Proof.
  intros Hp. apply wp_bind. eapply wp_mono; [apply (wp_lcp_init False); by split| |done].
  intros [] w1 H1'. apply wp_bind. eapply wp_mono; [apply (wp_ipcp_init True)| |done].
  { by destruct H1'. }
  intros [] w2 [Hp2 Hl Hi]. apply wp_bind, wp_modify, wp_modify.
  split; [exact (Hl I)|]. split; [exact (Hi I)|]. done.
Qed.

(** C3: whatever the peer sends, the driver answers and the clock and PAP do,
    and whatever timers, limits and options the unit is configured with,
    after any sequence of signals the task of PPP is in order: an automaton that
    waits for its peer has a timeout in the callout list, and so has CHAP while
    a challenge of ours is unanswered, or a response of ours unless the peer
    has sent a CHAP Failure in one of the signals; the link is in the network
    phase only when no authentication is pending. *)
Theorem ppp_task_invariant configure l w :
  (forall w, states_kept w (configure w)) -> phase w <> PHASE_NETWORK ->
  wp True (ppp_task unitno configure l)
    (fun _ => task_inv [] (Exists refusal l)) (fun _ _ => True) w.
Proof.
  intros Hc Hp. apply wp_bind. eapply wp_mono; [by apply wp_protocols_init| |done].
  intros [] w1 H1'. apply wp_bind, wp_modify.
  assert (Hi : initial (configure w1)).
  { destruct H1' as (?&?&?&?&?), (Hc w1). repeat split; congruence. }
  apply wp_bind. eapply wp_mono; [by apply keeps_ppp_start, initial_inv| |done].
  intros [] w3 H3'. by apply keeps_ppp_loop.
Qed.
End DaemonRun.
