(* ===== verification/ChapProps.v ===== *)
(** * The CHAP server accepts only the right digest

    A packet that makes the server of CHAP accept the peer, or ends the wait
    for it, is a Response to the current challenge with the digest of the
    secret of the name in it. *)

From Stdlib Require Import String.
From S2P Require Export DaemonInv.

Section ChapProps.
Context `{PppEnv} `{Endian} `{SecretLib} (unitno : String.string).

(** The timeouts do not matter here: both automata count as timed. *)
Definition timed := [T_fsm_timeout_lcp; T_fsm_timeout_ipcp].
Notation silent := (silent timed).

(** The server has not accepted the peer; [b]: it is still waited for. *)
Record unaccepted (b : bool) (w : PPP_TASK_VARS) : Prop := {
  un_server : serverstate (chap w) <> CHAPSS_OPEN;
  un_pending : Z.testbit (auth_pending w) 3 = b }.

Section Keeps.
Context (b : bool).
Notation stays := (preserves (X := Z) (unaccepted b)).

Lemma unaccepted_same w w' :
  chap w' = chap w -> auth_pending w' = auth_pending w -> unaccepted b w -> unaccepted b w'.
Proof. intros E1 E2 []. split; congruence. Qed.
Lemma keeps_silent {A} (m : task A) : silent m -> stays m.
Proof.
  intros Hm w Hw. eapply wp_mono; [exact (Hm w)| |done].
  intros a w' []. by eapply unaccepted_same.
Qed.
Lemma keeps_upd g :
  (forall c, serverstate c <> CHAPSS_OPEN -> serverstate (g c) <> CHAPSS_OPEN) -> stays (upd_chap g).
Proof. intros Hg. apply preserves_modify. intros w []. split; [by apply Hg|done]. Qed.
Lemma keeps_untimeout k : stays (PPP_UNTIMEOUT k).
Proof.
  intros w Hw. apply (wp_untimeout_same timed). intros w' []. by eapply unaccepted_same.
Qed.

Lemma stable_unaccepted : stable timed (unaccepted b).
Proof. intros w w' []. by apply unaccepted_same. Qed.
Lemma stable_lcp_unaccepted : stable_lcp timed (unaccepted b).
Proof. intros w w' []. by apply unaccepted_same. Qed.

Lemma keeps_ipcp m : ipcp_entry timed m -> stays m.
Proof.
  intros Hm w Hw. eapply wp_mono; [apply (wp_ipcp timed m w Hm)| |done].
  - right. by right; left.
  - intros [] w'. intros Hb. by eapply stable_unaccepted.
Qed.

Notation lcp_frames := (@frames _ lcp_host (armed timed T_fsm_timeout_lcp) (unaccepted b) _).
Lemma armed_timed w : armed timed T_fsm_timeout_lcp w.
Proof. right. by left. Qed.
Lemma frames_unaccepted_silent {A} (m : task A) : silent m -> lcp_frames m.
Proof. apply frames_lcp_silent, stable_lcp_unaccepted. Qed.
Lemma frames_unaccepted_ipcp m : ipcp_entry timed m -> lcp_frames m.
Proof.
  intros Hm w Hw. eapply wp_mono; [apply (wp_ipcp timed m w Hm)| |done].
  - right. by right; left.
  - intros [] w' Hb. split_and!; [by destruct Hb|intros _; apply armed_timed|].
    by eapply stable_unaccepted.
Qed.
Lemma frames_unaccepted_untimeout k : lcp_frames (PPP_UNTIMEOUT k).
Proof.
  intros w Hw. apply (wp_untimeout_same timed). intros w' [].
  split_and!; [done|intros _; apply armed_timed|by eapply unaccepted_same].
Qed.
Lemma frames_unaccepted_upd g :
  (forall c, serverstate c <> CHAPSS_OPEN -> serverstate (g c) <> CHAPSS_OPEN) ->
  lcp_frames (upd_chap g).
Proof.
  intros Hg w []. apply wp_modify. split_and!; [done|intros _; apply armed_timed|].
  split; [by apply Hg|done].
Qed.
Lemma frames_unaccepted_ChapLowerDown : lcp_frames ChapLowerDown.
Proof.
  do 2 (apply frames_bind; [apply frames_gets|intros ?]).
  apply frames_bind; [|intros _].
  - destruct a; try apply frames_unaccepted_untimeout; try apply frames_ret.
    apply frames_if; [apply frames_unaccepted_untimeout|apply frames_ret].
  - apply frames_bind; [apply frames_gets|intros cs]. apply frames_bind; [|intros _].
    + apply frames_if; [apply frames_unaccepted_untimeout|apply frames_ret].
    + apply frames_bind; [by apply frames_unaccepted_upd|intros _].
      by apply frames_unaccepted_upd.
Qed.
Lemma frames_unaccepted_lcp_down : lcp_frames lcp_down.
Proof.
  unfold lcp_down.
  apply frames_bind; [apply frames_unaccepted_silent, silent_echo_lowerdown|intros _].
  apply frames_bind; [apply frames_unaccepted_ipcp, entry_lowerdown|intros _].
  apply frames_bind; [apply frames_unaccepted_ChapLowerDown|intros _].
  apply frames_bind; [apply frames_unaccepted_silent, silent_upap|intros _].
  apply frames_bind; [apply frames_unaccepted_silent, silent_emit|intros _].
  apply frames_bind; [apply frames_unaccepted_silent, silent_default_config|intros _].
  intros w []. apply wp_modify. split_and!; [done|intros _; apply armed_timed|by split].
Qed.

Lemma lcp_lower_unaccepted :
  @FsmLowerLaws _ lcp_host (armed timed T_fsm_timeout_lcp) (unaccepted b) lcp_lower.
Proof.
  split; intros m; intros; simplify_eq/=.
  - apply frames_unaccepted_silent, silent_lcp_resetci.
  - apply frames_unaccepted_silent, silent_gets.
  - apply frames_unaccepted_silent, silent_lcp_addci.
  - apply frames_unaccepted_lcp_down.
  - apply frames_unaccepted_silent, silent_ret.
Qed.

Lemma keeps_lcp (m : task unit) :
  @keeps _ lcp_host (armed timed T_fsm_timeout_lcp) (unaccepted b) _ m -> stays m.
Proof.
  intros Hm w Hw. eapply wp_mono; [apply (Hm w Hw)| |done].
  - intros _. apply armed_timed.
  - by intros [] w' [].
Qed.

#[local] Instance lcp_laws_unaccepted :
  FsmHostLaws lcp_host (armed timed T_fsm_timeout_lcp) (unaccepted b).
Proof. apply lcp_host_laws, stable_lcp_unaccepted. Qed.
#[local] Existing Instance lcp_lower_unaccepted.

Lemma stays_phase p : stays (modify (fun w => w <| phase := p |>)).
Proof. apply preserves_modify. by intros w []. Qed.
Lemma stays_lcp_field g : stays (upd_lcp_fsm g).
Proof. apply preserves_modify. by intros w []. Qed.
Lemma stays_lcp_fsm_open : stays lcp_fsm_open.
Proof. apply keeps_lcp, keeps_open, _. Qed.
Lemma stays_die status : stays (die status).
Proof.
  apply preserves_bind; [|intros _].
  - apply preserves_bind; [apply preserves_gets|intros f]. apply preserves_if.
    + apply preserves_bind; [apply stays_lcp_field|intros _].
      apply preserves_bind; [apply preserves_gets|intros g].
      apply preserves_if; [apply stays_lcp_fsm_open|apply stays_phase].
    + apply keeps_lcp, keeps_close, _.
  - apply preserves_bind; [apply preserves_gets|intros f]. apply preserves_if; [apply preserves_ret|].
    apply preserves_bind; [apply keeps_silent, silent_emit|intros _]. apply preserves_throw.
Qed.
Lemma stays_withpeer_success : stays (auth_withpeer_success CHAP).
Proof.
  apply preserves_bind; [|intros _].
  - apply preserves_modify. intros w []. split; [done|].
    change (Z.testbit (Z.land (auth_pending w) (Z.lnot CHAP_WITHPEER)) 3 = b).
    by rewrite Z.land_spec, un_pending0, andb_true_r.
  - apply preserves_bind; [apply preserves_gets|intros p]. apply preserves_when.
    apply preserves_bind; [apply stays_phase|intros _]. apply keeps_ipcp, entry_open.
Qed.

(** ** The handlers of CHAP but for the Response *)

Ltac stay :=
  repeat lazymatch goal with
  | |- preserves _ (bind _ _) => apply preserves_bind; [|intros ?]
  | |- preserves _ (when _ _) => apply preserves_when
  | |- preserves _ (if _ then _ else _) => apply preserves_if
  | |- preserves _ (ret _) => apply preserves_ret
  | |- preserves _ (access _) => apply preserves_access
  | |- preserves _ (get_chap _) => apply preserves_gets
  | |- preserves _ (gets _) => apply preserves_gets
  | |- preserves _ (output _) => apply keeps_silent, silent_output
  | |- preserves _ (PPP_TIMEOUT _ _) => apply keeps_silent, silent_timeout
  | |- preserves _ (PPP_UNTIMEOUT _) => apply keeps_untimeout
  | |- preserves _ (upd_chap _) => by apply keeps_upd
  | |- preserves _ (host_name _ _) => apply keeps_silent, silent_host_name
  | |- preserves _ (get_secret _ _ _) => apply keeps_silent, silent_get_secret
  | |- preserves _ ChapSendResponse => unfold ChapSendResponse
  | |- preserves _ (match ?x with _ => _ end) => destruct x
  end.

Lemma stays_ReceiveChallenge inp id len : stays (ChapReceiveChallenge inp id len).
Proof. unfold ChapReceiveChallenge. stay. Qed.
Lemma stays_PRINTMSG inp len : stays (PRINTMSG inp len).
Proof. unfold PRINTMSG. stay. Qed.
Lemma stays_ReceiveFailure inp len : stays (ChapReceiveFailure inp len).
Proof. unfold ChapReceiveFailure. stay; [apply stays_PRINTMSG|apply preserves_ret]. Qed.
Lemma stays_ReceiveSuccess inp len : stays (ChapReceiveSuccess inp len).
Proof. unfold ChapReceiveSuccess. stay; [apply stays_PRINTMSG|apply stays_withpeer_success]. Qed.
End Keeps.

(** ** The Response *)

(** The packet is a Response to the challenge that [w] waits for, with the
    digest of the secret of the name in it. *)
Record valid_response (p : list Z) (packet_len : Z) (w : PPP_TASK_VARS) : Prop := {
  vr_long : CHAP_HEADERLEN <= packet_len;
  vr_code : p !! 0%nat = Some CHAP_RESPONSE;
  vr_id : p !! 1%nat = Some (chal_id (chap w));
  vr_size : p !! 4%nat = Some MD5_SIGNATURE_SIZE;
  vr_type : chal_type (chap w) = CHAP_DIGEST_MD5;
  vr_digest : exists len secret addrs host,
    len <= packet_len
    /\ slice 0 (Z.to_nat (Z.min (len - 21) 255)) (drop 21 p) = Some host
    /\ find_secret (cstring host) (chal_name (chap w)) = Some (Some (secret, addrs))
    /\ slice 5 16 p = Some (expected_digest (chal_id (chap w)) (take 256 secret)
         (take (Z.to_nat (chal_len (chap w))) (challenge (chap w)))) }.

(** [check_response] says yes to the right digest only. *)
Lemma wp_check_response name md n w :
  wp True (check_response name md n)
    (fun ok w' => chap w' = chap w /\ auth_pending w' = auth_pending w /\
       (ok = true -> n = MD5_SIGNATURE_SIZE /\ chal_type (chap w) = CHAP_DIGEST_MD5 /\
          exists secret addrs, find_secret name (chal_name (chap w)) = Some (Some (secret, addrs))
          /\ slice 0 16 md = Some (expected_digest (chal_id (chap w)) (take 256 secret)
               (take (Z.to_nat (chal_len (chap w))) (challenge (chap w))))))
    (fun _ _ => True) w.
Proof.
  apply wp_bind, wp_gets, wp_bind, wp_bind, wp_access'; [|done]. intros [[secret addrs]|] E;
    [|by do 2 apply wp_ret].
  apply wp_bind, wp_modify, wp_ret, wp_bind, wp_gets.
  apply wp_if; intros Ht; [by apply wp_ret|]. apply wp_if; intros Hn; [by apply wp_ret|].
  do 3 (apply wp_bind, wp_gets).
  apply wp_bind, wp_access'; [|done]. intros chal Hc. apply wp_bind, wp_access'; [|done]. intros md' Hm.
  apply wp_ret. split_and!; [done|done|]. intros Hd%bool_decide_eq_true.
  apply negb_false_iff, Z.eqb_eq in Ht. apply negb_false_iff, Z.eqb_eq in Hn.
  split_and!; [done|exact Ht|]. exists secret, addrs. split; [done|].
  change (Z.to_nat MD5_SIGNATURE_SIZE) with 16%nat in Hm. rewrite Hm, <- Hd. do 2 f_equal.
  unfold slice in Hc. case_decide; [|done].
  injection Hc as <-. by rewrite drop_0.
Qed.

Lemma stays_checked_false b : preserves (unaccepted b) (response_checked unitno false).
Proof.
  apply preserves_bind; [apply preserves_bind; [apply preserves_gets|intros id]|intros _].
  - apply keeps_silent, silent_output.
  - apply preserves_bind; [by apply keeps_upd|intros _; apply stays_die].
Qed.

Lemma wp_trivial {A} (m : task A) w : wp True m (fun _ _ => True) (fun _ _ => True) w.
Proof. unfold wp. by destruct (m w). Qed.

(** What [ChapReceiveResponse] does with a Response that it looks into. *)
Definition examine (inp : list Z) (len : Z) : task unit :=
  if len <? 2 then ret tt else
  remmd_len <- access (inp !! 0%nat) ;;
  let remmd := drop 1 inp in
  let len := len - (1 + remmd_len) in
  if len <? 0 then ret tt else
  PPP_UNTIMEOUT T_ChapChallengeTimeout ;;
  rhostname <- host_name (drop (Z.to_nat remmd_len) remmd) len ;;
  ok <- check_response rhostname remmd remmd_len ;;
  response_checked unitno ok.

Lemma wp_examine b p packet_len len w :
  unaccepted b w -> CHAP_HEADERLEN <= packet_len -> len <= packet_len ->
  p !! 0%nat = Some CHAP_RESPONSE -> p !! 1%nat = Some (chal_id (chap w)) ->
  wp True (examine (drop 4 p) (len - CHAP_HEADERLEN))
    (fun _ w' => unaccepted b w' \/ valid_response p packet_len w) (fun _ _ => True) w.
Proof.
  intros Hw Hlong Hlen Hcode Hid. apply wp_if; intros _; [by apply wp_ret; left|].
  apply wp_bind, wp_access'; [|done]. intros n Hn. rewrite lookup_drop in Hn. cbv zeta.
  apply wp_if; intros _; [by apply wp_ret; left|].
  apply wp_bind, (wp_untimeout_same timed). intros w1 [].
  apply wp_bind, wp_bind, wp_access'; [|done]. intros host Hh. apply wp_ret, wp_bind.
  eapply wp_mono; [apply wp_check_response| |done]. intros ok w2 (E1 & E2 & Hok).
  destruct ok; [|eapply wp_mono; [apply (stays_checked_false b)|by left|done]].
  2: { destruct Hw. split; congruence. }
  eapply wp_mono; [apply wp_trivial|intros _ w' _; right|done].
  destruct (Hok eq_refl) as (-> & Ht & secret & addrs & Hf & Hd). rewrite sb_chap in *.
  split; try done. exists len, secret, addrs, host.
  rewrite !drop_drop in Hh. split_and!; [done| |done|].
  - replace (len - 21) with (len - CHAP_HEADERLEN - (1 + MD5_SIGNATURE_SIZE))
      by (unfold CHAP_HEADERLEN, MD5_SIGNATURE_SIZE; lia). exact Hh.
  - rewrite <- Hd. unfold slice. rewrite !drop_drop, !length_drop.
    do 2 case_decide; done || lia.
Qed.

Lemma wp_ReceiveResponse b p packet_len id len w :
  unaccepted b w -> CHAP_HEADERLEN <= packet_len -> len <= packet_len ->
  p !! 0%nat = Some CHAP_RESPONSE -> p !! 1%nat = Some id ->
  wp True (ChapReceiveResponse unitno (drop 4 p) id (len - CHAP_HEADERLEN))
    (fun _ w' => unaccepted b w' \/ valid_response p packet_len w) (fun _ _ => True) w.
Proof.
  intros Hw Hlong Hlen Hcode Hid. apply wp_bind, wp_gets.
  assert (Hquit : forall m : task unit, preserves (unaccepted b) m ->
    wp True m (fun _ w' => unaccepted b w' \/ valid_response p packet_len w) (fun _ _ => True) w).
  { intros m Hm. eapply wp_mono; [exact (Hm w Hw)|by left|done]. }
  assert (Hsend : forall code, preserves (unaccepted b) (ChapSendStatus unitno code)).
  { intros code. apply preserves_bind; [apply preserves_gets|intros i].
    apply keeps_silent, silent_output. }
  assert (Hgo : forall m : task unit,
    (chal_id (chap w) = id -> wp True m
       (fun _ w' => unaccepted b w' \/ valid_response p packet_len w) (fun _ _ => True) w) ->
    wp True (cid <- get_chap chal_id ;; if negb (id =? cid) then ret tt else m)
       (fun _ w' => unaccepted b w' \/ valid_response p packet_len w) (fun _ _ => True) w).
  { intros m Hm. apply wp_bind, wp_gets, wp_if; intros C; [apply Hquit, preserves_ret|].
    apply Hm. by apply negb_false_iff, Z.eqb_eq in C. }
  destruct (serverstate (chap w)); first
    [apply Hquit, preserves_ret
    |apply Hgo; intros _; apply Hquit, Hsend
    |apply Hgo; intros <-; by apply wp_examine].
Qed.

(** C4: the server of CHAP accepts the peer, and stops waiting for it, only when
    it is given a Response with the identifier of its challenge and the MD5
    digest of that identifier, the secret of the name in the Response and the
    challenge; whatever else a packet holds leaves the peer unaccepted. *)
Theorem ChapInput_authenticates p packet_len w w' :
  ChapInput unitno p packet_len w = Ok tt w' ->
  serverstate (chap w) <> CHAPSS_OPEN ->
  serverstate (chap w') = CHAPSS_OPEN
    \/ Z.testbit (auth_pending w') 3 <> Z.testbit (auth_pending w) 3 ->
  valid_response p packet_len w.
Proof.
  set (b := Z.testbit (auth_pending w) 3). intros Hrun Hs Hout.
  assert (Hw : unaccepted b w) by done.
  enough (Hwp : wp True (ChapInput unitno p packet_len)
    (fun _ w' => unaccepted b w' \/ valid_response p packet_len w) (fun _ _ => True) w).
  { unfold wp in Hwp. rewrite Hrun in Hwp. destruct Hwp as [[]|]; [|done]. by destruct Hout. }
  clear Hrun Hout.
  assert (Hquit : forall m : task unit, preserves (unaccepted b) m ->
    wp True m (fun _ w' => unaccepted b w' \/ valid_response p packet_len w) (fun _ _ => True) w).
  { intros m Hm. eapply wp_mono; [exact (Hm w Hw)|by left|done]. }
  apply wp_if; intros Hl; [apply Hquit, preserves_ret|]. apply Z.ltb_ge in Hl.
  unfold read_header. apply wp_bind, wp_bind, wp_access'; [|done]. intros code Hcode.
  apply wp_bind, wp_access'; [|done]. intros id Hid.
  do 2 (apply wp_bind, wp_access'; [intros ? _|done]). apply wp_ret.
  apply wp_if; intros C1; [apply Hquit, preserves_ret|]. apply Z.ltb_ge in C1.
  apply wp_if; intros C2; [apply Hquit, preserves_ret|]. apply Z.ltb_ge in C2. cbv zeta.
  apply wp_if; intros _; [apply Hquit, stays_ReceiveChallenge|].
  apply wp_if; intros Ec; [apply Z.eqb_eq in Ec; subst; by apply wp_ReceiveResponse|].
  apply wp_if; intros _; [apply Hquit, stays_ReceiveFailure|].
  apply wp_if; intros _; [apply Hquit, stays_ReceiveSuccess|apply Hquit, preserves_ret].
Qed.
End ChapProps.
