(* ===== verification/Scenario.v ===== *)
(** * Runs of the task

    A concrete environment in which whole runs of the task are computed: the
    clock moves one second with every call, the driver accepts everything, PAP
    does nothing, the digest of a string is sixteen bytes of its sum.  The
    runs are the witnesses of the theorems about the task and show how its
    parts work together, well and badly. *)

From Stdlib Require Import String.
From S2P Require Export DaemonRun ChapProps Setup.

Definition sum_digest (l : list Z) : list Z :=
  let s := foldr Z.add 0 l in
  (fun i => u8 (s + Z.of_nat i)) <$> seq 0 16.

#[export] Instance demo_env : PppEnv := {|
  env_time := Z.of_nat;
  env_ok := fun _ => true;
  env_GetMask := fun _ => 0xffffff00;
  env_bit_is_one := true;
  env_host := fun _ => None;
  env_MD5 := sum_digest;
  upap_state := unit;
  env_upap_init := id;
  env_upap_lowerup := fun u => (u, []);
  env_upap_lowerdown := fun u => (u, []);
  env_upap_authpeer := fun u => (u, []);
  env_upap_authwithpeer := fun _ _ u => (u, []);
  env_upap_input := fun _ _ u => (u, []);
  env_upap_protrej := fun u => (u, []);
  env_upap_timeout := fun _ u => (u, []) |}.
#[export] Instance demo_endian : Endian := true.

(** One client, bob, whose secret is "pw". *)
Definition bob : list Z := [98; 111; 98].
Definition alice : list Z := [97; 108; 105; 99; 101].
#[export] Instance demo_files : Files := fun _ => None.
#[export] Instance demo_secrets : SecretLib :=
  secrets_of (mk_lib true [mk_secret bob alice [112; 119] []]) None None.

Definition no_fsm : fsm := mk_fsm 0 0 INITIAL 0 0 0 0 0 0 0 0 0.
Definition no_rng : rng := mk_rng 1 Z.of_nat.
(** The task variables after [calloc]. *)
Definition calloced : PPP_TASK_VARS := mk_task PHASE_DEAD false [] [] alice false 0 0 None
  0 0 false 0 0 no_chap no_ipcp_options no_ipcp_options no_ipcp_options no_ipcp_options no_fsm 0
  no_lcp_options no_lcp_options no_lcp_options no_lcp_options (replicate 8 0) no_fsm
  tt 0 (mk_timers [] 0 0) no_rng 0 [].

(** Our side asks the peer for CHAP and gives it the address 10.0.0.2. *)
Definition server_config (w : PPP_TASK_VARS) : PPP_TASK_VARS :=
  w <| lcp_wantoptions ::= fun wo => wo <| neg_chap := true |> |>
    <| ipcp_wantoptions ::= fun wo => wo <| ouraddr := 0x0a000001 |> <| hisaddr := 0x0a000002 |> |>.

(** A packet as [read_packet] leaves it in [inpacket_buf]. *)
Definition received (protocol code id : Z) (body : list Z) : packet_read :=
  (Z.of_nat (8 + length body),
   MAKEHEADER protocol ++ PUTCHAR code ++ PUTCHAR id
   ++ PUTSHORT (Z.of_nat (4 + length body)) ++ body ++ replicate 64 0).

Definition run (l : list signal) : outcome PPP_TASK_VARS Z unit :=
  ppp_task "0" server_config l calloced.

(** ** A session *)

(** The peer takes our options, the magic number [m] among them. *)
Definition lcp_ack (i m : Z) : packet_read :=
  received LCP CONFACK i [1; 4; 5; 220; 3; 5; 194; 35; 5; 5; 6; 0; 0; 0; m; 7; 2; 8; 2].
Definition lcp_req : packet_read := received LCP CONFREQ 7 [5; 6; 0; 0; 0; 99].
Definition ipcp_ack (i : Z) : packet_read :=
  received IPCP CONFACK i [3; 6; 10; 0; 0; 1; 2; 6; 0; 45; 15; 1].
Definition ipcp_req : packet_read := received IPCP CONFREQ 9 [3; 6; 10; 0; 0; 2].
(** The first challenge the random numbers of this environment give. *)
Definition first_challenge : list Z := Z.of_nat <$> seq 4 35.
Definition chap_answer : packet_read :=
  received CHAP CHAP_RESPONSE 1
    (16 :: sum_digest (1 :: [112; 119] ++ first_challenge) ++ bob).

(** LCP is negotiated, bob authenticates himself, IPCP is negotiated. *)
Definition session : list signal :=
  [SIGIO [lcp_ack 1 1; lcp_req]; SIGIO [chap_answer]; SIGIO [ipcp_ack 2; ipcp_req]].

Example session_up :
  match run session with
  | Ok _ w => phase w = PHASE_NETWORK /\ f_state (ipcp_fsm w) = OPENED
      /\ serverstate (chap w) = CHAPSS_OPEN /\ head (trace w) = Some E_sifup
  | _ => False
  end.
Proof. vm_compute. done. Qed.

(** The same with timers of its own: the peer is challenged again every minute. *)
Definition timed_config (w : PPP_TASK_VARS) : PPP_TASK_VARS :=
  server_config w <| lcp_fsm ::= fun f => f <| f_timeouttime := 5 |> |>
    <| chap ::= fun c => c <| chal_interval := 60 |> |>.
Lemma timed_config_kept w : states_kept w (timed_config w).
Proof. by split. Qed.

Lemma ppp_task_invariant_witness :
  match run [SIGIO [lcp_req]] with
  | Ok _ w => waiting (f_state (lcp_fsm w)) = true
  | _ => False
  end
  /\ wp True (ppp_task "0" timed_config session)
       (fun _ => task_inv [] (Exists refusal session)) (fun _ _ => True) calloced.
Proof.
  split; [vm_compute; reflexivity|].
  assert (Hp : phase calloced <> PHASE_NETWORK) by discriminate.
  exact (ppp_task_invariant "0" timed_config session calloced timed_config_kept Hp).
Defined.

Lemma ChapInput_authenticates_witness :
  match run [SIGIO [lcp_ack 1 1; lcp_req]] with
  | Ok _ w =>
      match ChapInput "0" (drop 4 chap_answer.2) (chap_answer.1 - 4) w with
      | Ok tt w' => (serverstate (chap w) <> CHAPSS_OPEN /\ serverstate (chap w') = CHAPSS_OPEN)
          /\ valid_response (drop 4 chap_answer.2) (chap_answer.1 - 4) w
      | _ => False
      end
  | _ => False
  end.
Proof.
  assert (Hr : match run [SIGIO [lcp_ack 1 1; lcp_req]] with
    | Ok _ w =>
      match ChapInput "0" (drop 4 chap_answer.2) (chap_answer.1 - 4) w with
      | Ok tt w' => serverstate (chap w) = CHAPSS_INITIAL_CHAL /\ serverstate (chap w') = CHAPSS_OPEN
      | _ => False
      end
    | _ => False
    end) by (vm_compute; done).
  destruct (run _) as [[] w| | |]; [|done..].
  destruct (ChapInput _ _ _ w) as [[] w'| | |] eqn:E; [|done..]. destruct Hr as [Hs Hs'].
  assert (Hn : serverstate (chap w) <> CHAPSS_OPEN) by congruence.
  split; [done|]. exact (ChapInput_authenticates "0" _ _ _ _ E Hn (or_introl Hs')).
Defined.

(** ** What goes wrong *)

(** After the session the peer (or whoever has taken its place on the line)
    negotiates LCP again, leaves our challenge unanswered and goes straight on
    to IPCP: IPCP was left in STARTING when LCP went down, so that LCP going up
    starts it before the peer has authenticated itself. *)
Definition renegotiation : list signal :=
  session ++ [SIGIO [lcp_req; lcp_ack 2 2]; SIGIO [ipcp_ack 3; ipcp_req]].

(** On this run IPCP comes up, and the interface with it, while the
    authentication that we demand is still pending: after LCP has been
    negotiated again IPCP starts with LCP, not with the success of the
    authentication. *)
Example ipcp_up_before_authentication :
  match run renegotiation with
  | Ok _ w => phase w = PHASE_AUTHENTICATE /\ auth_pending w = CHAP_PEER
      /\ serverstate (chap w) = CHAPSS_INITIAL_CHAL
      /\ f_state (ipcp_fsm w) = OPENED /\ head (trace w) = Some E_sifup
  | _ => False
  end.
Proof. vm_compute. done. Qed.

(** A passive task that watches the link with echo requests. *)
Definition passive_config (w : PPP_TASK_VARS) : PPP_TASK_VARS :=
  w <| lcp_wantoptions ::= fun wo => wo <| passive := true |> |>
    <| ipcp_wantoptions ::= fun wo => wo <| ouraddr := 0x0a000001 |> <| hisaddr := 0x0a000002 |> |>
    <| lcp_echo_interval := 10 |> <| lcp_echo_fails := 2 |>.
Definition plain_ack : packet_read :=
  received LCP CONFACK 1 [1; 4; 5; 220; 5; 6; 0; 0; 0; 1; 7; 2; 8; 2].
Definition silence_on_the_line : list signal :=
  [SIGIO [plain_ack; lcp_req]; SIGIO [ipcp_ack 2; ipcp_req]; SIGALRM; SIGALRM].
(** With LCP in INITIAL no packet has any effect. *)
Lemma io_initial l (w : PPP_TASK_VARS) :
  f_state (lcp_fsm w) = INITIAL ->
  wp True (io "0" l) (fun _ w' => lcp_fsm w' = lcp_fsm w /\ trace w' = trace w)
    (fun _ _ => False) w.
Proof.
  intros Hi. apply wp_bind, wp_bind, wp_bind, wp_gets, wp_bind, wp_modify, wp_ret, wp_modify.
  set (w1 := _ <| callout_list ::= _ |>).
  assert (Hw : lcp_fsm w1 = lcp_fsm w /\ trace w1 = trace w) by done.
  clearbody w1. revert w1 Hw. induction l as [|[len buf] l IH]; intros w1 [Hf Ht]; [by apply wp_ret|].
  apply wp_bind. apply (wp_mono _ (fun _ w2 => w2 = w1) _ (fun _ _ => False)); [|intros more w2 ->|done].
  - apply wp_if; intros _; [by apply wp_ret|].
    do 2 (apply wp_bind, wp_access'; [intros ? _|done]). apply wp_bind, wp_gets.
    apply wp_if; intros C; [by apply wp_ret|].
    rewrite Hf, Hi in C. unfold protocol_input. destruct (_ =? LCP); [|by rewrite bool_decide_false in C].
    apply wp_bind, wp_bind. unfold lcp_input, fsm_input.
    apply (wp_mono _ (fun _ w2 => w2 = w1) _ (fun _ _ => False)); [|intros [] w2 ->;
      by apply wp_ret, wp_bind, wp_ret, wp_ret|done].
    apply wp_if; intros _; [by apply wp_ret|].
    unfold read_header. apply wp_bind. do 4 (apply wp_bind, wp_access'; [intros ? _|done]). apply wp_ret.
    do 2 (apply wp_if; intros _; [by apply wp_ret|]). apply wp_bind, wp_gets.
    change (h_fsm w1) with (lcp_fsm w1). rewrite Hf, Hi. by apply wp_ret.
  - apply wp_when; intros _; [by apply IH|done].
Qed.

(** On this run the passive task that loses its peer (the echo requests stay
    unanswered) puts LCP into INITIAL instead of waiting for a new connection:
    the lower layer is taken down, and packets have no effect from then on. *)
Example passive_link_failure_is_final :
  match ppp_task "0" passive_config silence_on_the_line calloced with
  | Ok _ w => phase w = PHASE_TERMINATE /\ f_state (lcp_fsm w) = INITIAL
      /\ forall l, wp True (io "0" l)
           (fun _ w' => lcp_fsm w' = lcp_fsm w /\ trace w' = trace w) (fun _ _ => False) w
  | _ => False
  end.
Proof.
  assert (Hr : match ppp_task "0" passive_config silence_on_the_line calloced with
    | Ok _ w => phase w = PHASE_TERMINATE /\ f_state (lcp_fsm w) = INITIAL
    | _ => False end) by (vm_compute; done).
  destruct (ppp_task _ _ _ _) as [[] w| | |]; [|done..].
  destruct Hr as [Hp Hi]. split_and!; [done|done|]. intros l. by apply io_initial.
Qed.

(** ** Options and passwords *)

Definition demo_lib : secret_lib := mk_lib true [mk_secret bob alice [112; 119] []].
(** Authentication is required, no protocol is named. *)
Definition demanding : PPP_TASK_VARS :=
  calloced <| auth_required := true |> <| lcp_allowoptions ::= fun ao => ao <| neg_chap := true |> |>.

(** There is a secret for PAP and CHAP to ask for, none for us. *)
Lemma check_auth_options_asks_witness :
  match check_auth_options demo_lib None None alice false [] demanding with
  | Ok _ w => neg_chap (lcp_wantoptions w) = true /\ neg_upap (lcp_wantoptions w) = true
      /\ neg_chap (lcp_allowoptions w) = false
  | _ => False
  end
  /\ wp True (check_auth_options demo_lib None None alice false [])
       (fun _ => auth_checked demo_lib None None alice false [] demanding)
       (fun st _ => st = 1 /\ auth_required demanding = true /\ stays demanding = false) demanding.
Proof.
  split; [vm_compute; done|].
  exact (check_auth_options_asks demo_lib None None alice false [] demanding eq_refl).
Defined.

(** [crypt("pw", "ar")]. *)
Definition bobs_password : list Z :=
  match cryptRtn true des_static [112; 119] [97; 114; 0] with Some pw => pw | None => [] end.

Lemma check_passwd_encrypted_witness :
  length bobs_password = 13%nat
  /\ check_passwd demo_lib None false (Some (cryptRtn true des_static)) (fun _ _ => false) []
       (bob ++ []) (Z.of_nat (length bob)) (bobs_password ++ []) (Z.of_nat (length bobs_password)) calloced
     = Ok UPAP_AUTHACK (calloced <| addresses := wordlist [] |>).
Proof.
  split; [vm_compute; reflexivity|].
  refine (check_passwd_encrypted demo_lib None true des_static des_static (fun _ _ => false) [] bob
    bobs_password [97; 114; 0] [] [] (mk_found 3 [112; 119] []) calloced
    (des_static_inv true) (des_static_inv true) _ _ _ _ _ _); cbn [fd_secret].
  - cbn. lia.
  - repeat constructor; discriminate.
  - vm_compute. reflexivity.
  - repeat constructor; discriminate.
  - cbn. lia.
  - vm_compute. reflexivity.
Defined.

Lemma check_passwd_reads_outside_witness :
  check_passwd demo_lib None false (Some (cryptRtn true des_static)) (fun _ _ => false) []
    (bob ++ []) (Z.of_nat (length bob)) ([200] ++ []) (Z.of_nat (length [200])) calloced = Fault.
Proof.
  refine (check_passwd_reads_outside demo_lib None true des_static (fun _ _ => false) [] bob
    [200] [] [] (mk_found 3 [112; 119] []) calloced (des_static_inv true) _ _ _ _ _ _ _ _).
  - apply Exists_cons_hd. lia.
  - discriminate.
  - discriminate.
  - repeat constructor; discriminate.
  - cbn. lia.
  - repeat constructor; discriminate.
  - cbn. lia.
  - vm_compute. reflexivity.
Defined.

(** ** The set-up of a unit *)

Definition local_addr : list Z := text "10.0.0.1".
Definition remote_addr : list Z := text "10.0.0.2".
#[export] Instance demo_options : OptionsEnv := {|
  set_us_timeouttime := fun _ u => u;
  set_us_maxtransmits := fun _ u => u;
  hostGetByName := fun _ => None;
  inet_addr := fun s => if bool_decide (s = local_addr) then Some 0x0a000001
                        else if bool_decide (s = remote_addr) then Some 0x0a000002 else None |}.
Lemma demo_addresses s a : hostGetByName s = Some a \/ inet_addr s = Some a -> is_u32 a.
Proof.
  cbn. intros [|Hs]; [done|]. unfold is_u32.
  case_bool_decide; [injection Hs as <-; lia|]. case_bool_decide; [injection Hs as <-; lia|done].
Qed.

Definition no_strings (flags : Z) (remote : option (list Z)) : PPP_OPTIONS :=
  Build_PPP_OPTIONS flags None None None None None None None None None None None None None None None
    None None remote None None None None None None None None None.
Definition zeroed : config :=
  mk_config calloced 0 0 0 0 false false alice [] [] None None.
Lemma zeroed_ok : config_ok zeroed.
Proof.
  assert (Hl : lcp_options_ok no_lcp_options /\ ipcp_options_ok no_ipcp_options) by apply no_options_ok.
  assert (Hf : limits_ok no_fsm) by (repeat split; discriminate || reflexivity).
  split; [split; try apply Hl; try exact Hf|..].
  - split; [reflexivity|]. change (xmit_accm (cf_task zeroed)) with (replicate 8 0).
    apply Forall_replicate. unfold is_u32. lia.
  - repeat split; discriminate || reflexivity.
  - unfold is_u32. cbn. lia.
  - repeat split; reflexivity.
  - unfold is_u32. cbn. lia.
  - split; reflexivity.
Qed.
(** OPT_REQUIRE_CHAP, and the name of the peer. *)
Definition require_chap : PPP_OPTIONS := no_strings (Z.shiftl 1 PPP_S_REQUIRE_CHAP) (Some bob).

Lemma setup_demands_authentication_witness :
  match ppp_setup false demo_lib (text "/tyCo/1") local_addr remote_addr 9600 (Some require_chap) None zeroed with
  | Ok _ c => neg_chap (lcp_wantoptions (cf_task c)) = true
      /\ ouraddr (ipcp_wantoptions (cf_task c)) = 0x0a000001
  | _ => False
  end
  /\ requires (Some require_chap) = true
  /\ wp True (ppp_setup false demo_lib (text "/tyCo/1") local_addr remote_addr 9600 (Some require_chap) None)
       (fun _ => demands demo_lib (requires (Some require_chap))) (fun st _ => st = 1) zeroed.
Proof.
  split; [vm_compute; done|]. split; [reflexivity|].
  exact (setup_demands_authentication false demo_addresses demo_lib (text "/tyCo/1") local_addr remote_addr
    9600 (Some require_chap) None zeroed zeroed_ok).
Defined.

Lemma parse_args_types_witness :
  wp False (parse_args false (text "/tyCo/1") local_addr remote_addr 9600 (Some require_chap) None)
    (fun _ => config_ok) (fun _ _ => False) zeroed.
Proof.
  refine (parse_args_types false demo_addresses (text "/tyCo/1") local_addr remote_addr
    9600 (Some require_chap) None zeroed zeroed_ok eq_refl eq_refl _).
  intros name f Hn. discriminate Hn.
Defined.

(** A file system with one file. *)
Definition one_file (name content : list Z) : Files := fun n => if bool_decide (n = name) then Some content else None.
Definition short (w : list Z) : bool := forallb (fun c => negb (c =? 0)) w && (Z.of_nat (length w) <? 1023).
Lemma short_ok w : short w = true -> word_ok w.
Proof.
  intros [Hz Hl]%andb_prop. split; [|by apply Z.ltb_lt].
  clear Hl. induction w as [|c w IH]; [constructor|]. apply andb_prop in Hz as [Hc Hz].
  constructor; [by apply Z.eqb_neq, negb_true_iff|by apply IH].
Qed.
Definition right_args `{PppEnv} `{Endian} `{Files} `{!OptionsEnv} (l : list Z * list (list Z)) : bool :=
  short l.1 && forallb short l.2
  && match find_cmd l.1 (cmds false) with Some c => length l.2 =? num_args c | None => true end%nat.
Lemma right_args_ok `{PppEnv} `{Endian} `{Files} `{!OptionsEnv} l :
  forallb right_args l = true -> Forall (command_ok false) l.
Proof.
  induction l as [|[name args] l IH]; [constructor|]. cbn [forallb]. intros [Hl Hr]%andb_prop.
  constructor; [|by apply IH]. unfold right_args in Hl. apply andb_prop in Hl as [Hl Hc].
  apply andb_prop in Hl as [Hn Ha]. split; [by apply short_ok|]. split.
  - clear -Ha. cbn [snd] in *. induction args as [|w args IH]; [constructor|].
    apply andb_prop in Ha as [Hw Ha]. constructor; [by apply short_ok|by apply IH].
  - intros c E. rewrite E in Hc. by apply Nat.eqb_eq.
Qed.
Definition sample_lines : list (list Z * list (list Z)) :=
  [(text "require_chap", []); (text "mru", [text "0x400"]); (text "remote_auth_name", [text "bob"])].

Lemma options_file_runs_witness :
  let _ := one_file (text "ppp_options") (commands_file sample_lines) in
  match run_commands false sample_lines zeroed with
  | Ok b c => b = true /\ auth_required (cf_task c) = true /\ mru (lcp_wantoptions (cf_task c)) = 1024
      /\ cf_remote_name c = bob
  | _ => False
  end
  /\ options_from_file false (text "ppp_options") true zeroed = run_commands false sample_lines zeroed.
Proof.
  intros fs. split; [vm_compute; done|].
  refine (@options_file_runs _ fs _ false (text "ppp_options") true sample_lines zeroed eq_refl _).
  apply right_args_ok. vm_compute. reflexivity.
Defined.

Lemma driver_debug_swallows_witness :
  let file := commands_file [(text "driver_debug", []); (text "require_chap", [])] in
  let _ := one_file (text "ppp_options") file in
  options_from_file false (text "ppp_options") true zeroed = Ok true (zeroed <| kdebugflag := 1 |>)
  /\ auth_required (cf_task (zeroed <| kdebugflag := 1 |>)) = false.
Proof.
  intros file fs. split; [|reflexivity].
  refine (@driver_debug_swallows _ fs _ false (text "ppp_options") true (text "require_chap") [] zeroed eq_refl _ _).
  - by apply short_ok.
  - apply Forall_nil_2.
Defined.

(** The file in the manual of pppInit. *)
Definition manual_file : list Z :=
  text "passive" ++ NEWLINE :: text "no_pap" ++ NEWLINE :: text "no_chap" ++ NEWLINE :: text "no_vj"
  ++ NEWLINE :: text "lcp_echo_interval 30" ++ NEWLINE :: text "lcp_echo_failure 10" ++ [NEWLINE].
Lemma manual_file_refused_witness :
  let _ := one_file (text "phobos:/tmp/ppp_options") manual_file in
  options_from_file false (text "phobos:/tmp/ppp_options") true zeroed = Ok false zeroed.
Proof.
  intros fs. exact (@manual_file_refused _ fs _ false (text "phobos:/tmp/ppp_options") true _ zeroed eq_refl).
Defined.

(** A list with a character that may not be escaped, and one that ends at
    something that is no number. *)
Lemma hex_word w : w <> [] -> forallb (fun c => digit c <? 16) w = true -> hex_number w (hex_value (rev w)).
Proof.
  intros Hne Hw. apply hex_plain; [done|]. apply Forall_forall. intros c Hc. unfold is_hex.
  rewrite forallb_forall in Hw. apply Z.ltb_lt, Hw. exact Hc.
Defined.
Lemma sample_list : lists (text "1d, 0x9D 5e") [0x1d; 0x9d; 0x5e] true.
Proof.
  apply (lists_next (text "1d") 0x1d (text ", ") (text "0x9D 5e"));
    [exact (hex_word (text "1d") ltac:(done) eq_refl)|done|apply Forall_cons_2; [by left|apply Forall_cons_2; [by right|apply Forall_nil_2]]|].
  apply (lists_next (text "0x9D") 0x9d (text " ") (text "5e"));
    [|done|apply Forall_cons_2; [by right|apply Forall_nil_2]|exact (lists_last _ _ (hex_word (text "5e") ltac:(done) eq_refl))].
  apply (hex_prefixed 120 (text "9D")); [by left|done|by repeat constructor].
Defined.
Lemma broken_list : lists (text "1d,zz,9d") [0x1d] false.
Proof.
  apply (lists_next (text "1d") 0x1d (text ",") (text "zz,9d"));
    [exact (hex_word (text "1d") ltac:(done) eq_refl)|done|apply Forall_cons_2; [by left|apply Forall_nil_2]|by apply lists_bad].
Defined.
Lemma setescape_protects_witness :
  (exists b accm', setescape (text "1d, 0x9D 5e") zeroed
     = Ok b (zeroed <| cf_task ::= fun w => w <| xmit_accm := accm' |> |>)
   /\ b = false /\ escaped accm' 0x1d = true /\ escaped accm' 0x9d = true /\ escaped accm' 0x5e = false)
  /\ exists b accm', setescape (text "1d,zz,9d") zeroed
     = Ok b (zeroed <| cf_task ::= fun w => w <| xmit_accm := accm' |> |>)
   /\ b = false /\ escaped accm' 0x1d = true /\ escaped accm' 0x9d = false.
Proof.
  split.
  - destruct (setescape_protects (text "1d, 0x9D 5e") zeroed eq_refl) as (b & accm' & E & _ & H).
    destruct (H _ _ sample_list) as [-> Hx]. exists false, accm'. split; [exact E|]. split; [done|].
    split; [by rewrite Hx|]. split; by rewrite Hx.
  - destruct (setescape_protects (text "1d,zz,9d") zeroed eq_refl) as (b & accm' & E & _ & H).
    destruct (H _ _ broken_list) as [-> Hx]. exists false, accm'. split; [exact E|]. split; [done|].
    split; by rewrite Hx.
Defined.
