(* ===== verification/Fcs.v ===== *)
(** * if_ppp.c: the frame check sequence

    The table and the loop that compute it, the bit by bit definition of
    RFC 1662 as specification, and which frames pass the check of the
    receiver. *)

From stdpp Require Import base list numbers.
From S2P Require Export Prelude.

Definition PPP_INITFCS := 0xffff.
Definition PPP_GOODFCS := 0xf0b8.

Definition fcstab : list Z :=
  [
   0x0000; 0x1189; 0x2312; 0x329b; 0x4624; 0x57ad; 0x6536; 0x74bf;
   0x8c48; 0x9dc1; 0xaf5a; 0xbed3; 0xca6c; 0xdbe5; 0xe97e; 0xf8f7;
   0x1081; 0x0108; 0x3393; 0x221a; 0x56a5; 0x472c; 0x75b7; 0x643e;
   0x9cc9; 0x8d40; 0xbfdb; 0xae52; 0xdaed; 0xcb64; 0xf9ff; 0xe876;
   0x2102; 0x308b; 0x0210; 0x1399; 0x6726; 0x76af; 0x4434; 0x55bd;
   0xad4a; 0xbcc3; 0x8e58; 0x9fd1; 0xeb6e; 0xfae7; 0xc87c; 0xd9f5;
   0x3183; 0x200a; 0x1291; 0x0318; 0x77a7; 0x662e; 0x54b5; 0x453c;
   0xbdcb; 0xac42; 0x9ed9; 0x8f50; 0xfbef; 0xea66; 0xd8fd; 0xc974;
   0x4204; 0x538d; 0x6116; 0x709f; 0x0420; 0x15a9; 0x2732; 0x36bb;
   0xce4c; 0xdfc5; 0xed5e; 0xfcd7; 0x8868; 0x99e1; 0xab7a; 0xbaf3;
   0x5285; 0x430c; 0x7197; 0x601e; 0x14a1; 0x0528; 0x37b3; 0x263a;
   0xdecd; 0xcf44; 0xfddf; 0xec56; 0x98e9; 0x8960; 0xbbfb; 0xaa72;
   0x6306; 0x728f; 0x4014; 0x519d; 0x2522; 0x34ab; 0x0630; 0x17b9;
   0xef4e; 0xfec7; 0xcc5c; 0xddd5; 0xa96a; 0xb8e3; 0x8a78; 0x9bf1;
   0x7387; 0x620e; 0x5095; 0x411c; 0x35a3; 0x242a; 0x16b1; 0x0738;
   0xffcf; 0xee46; 0xdcdd; 0xcd54; 0xb9eb; 0xa862; 0x9af9; 0x8b70;
   0x8408; 0x9581; 0xa71a; 0xb693; 0xc22c; 0xd3a5; 0xe13e; 0xf0b7;
   0x0840; 0x19c9; 0x2b52; 0x3adb; 0x4e64; 0x5fed; 0x6d76; 0x7cff;
   0x9489; 0x8500; 0xb79b; 0xa612; 0xd2ad; 0xc324; 0xf1bf; 0xe036;
   0x18c1; 0x0948; 0x3bd3; 0x2a5a; 0x5ee5; 0x4f6c; 0x7df7; 0x6c7e;
   0xa50a; 0xb483; 0x8618; 0x9791; 0xe32e; 0xf2a7; 0xc03c; 0xd1b5;
   0x2942; 0x38cb; 0x0a50; 0x1bd9; 0x6f66; 0x7eef; 0x4c74; 0x5dfd;
   0xb58b; 0xa402; 0x9699; 0x8710; 0xf3af; 0xe226; 0xd0bd; 0xc134;
   0x39c3; 0x284a; 0x1ad1; 0x0b58; 0x7fe7; 0x6e6e; 0x5cf5; 0x4d7c;
   0xc60c; 0xd785; 0xe51e; 0xf497; 0x8028; 0x91a1; 0xa33a; 0xb2b3;
   0x4a44; 0x5bcd; 0x6956; 0x78df; 0x0c60; 0x1de9; 0x2f72; 0x3efb;
   0xd68d; 0xc704; 0xf59f; 0xe416; 0x90a9; 0x8120; 0xb3bb; 0xa232;
   0x5ac5; 0x4b4c; 0x79d7; 0x685e; 0x1ce1; 0x0d68; 0x3ff3; 0x2e7a;
   0xe70e; 0xf687; 0xc41c; 0xd595; 0xa12a; 0xb0a3; 0x8238; 0x93b1;
   0x6b46; 0x7acf; 0x4854; 0x59dd; 0x2d62; 0x3ceb; 0x0e70; 0x1ff9;
   0xf78f; 0xe606; 0xd49d; 0xc514; 0xb1ab; 0xa022; 0x92b9; 0x8330;
   0x7bc7; 0x6a4e; 0x58d5; 0x495c; 0x3de3; 0x2c6a; 0x1ef1; 0x0f78].

Definition PPP_FCS (fcs c : Z) : Z :=
  Z.lxor (Z.shiftr fcs 8) (nth (Z.to_nat (Z.land (Z.lxor fcs c) 0xff)) fcstab 0).

Fixpoint pppfcs (fcs : Z) (cp : list Z) : Z :=
  match cp with [] => fcs | c :: cp => pppfcs (PPP_FCS fcs c) cp end.

(** The two bytes of the trailer, as the transmitter computes them. *)
Definition fcs_lo (fcs : Z) : Z := Z.land (Z.lnot fcs) 0xff.
Definition fcs_hi (fcs : Z) : Z := Z.land (Z.shiftr (Z.lnot fcs) 8) 0xff.
Definition trailer (l : list Z) : list Z :=
  [fcs_lo (pppfcs PPP_INITFCS l); fcs_hi (pppfcs PPP_INITFCS l)].

(** ** The specification

    A shift register of 16 bits with the polynomial x^16 + x^12 + x^5 + 1, the
    least significant bit of each byte first. *)

Definition crc_bit (f : Z) : Z :=
  if Z.odd f then Z.lxor (Z.shiftr f 1) 0x8408 else Z.shiftr f 1.
Definition crc_byte (f c : Z) : Z := Nat.iter 8 crc_bit (Z.lxor f c).
Fixpoint crc (f : Z) (l : list Z) : Z :=
  match l with [] => f | c :: l => crc (crc_byte f c) l end.

(** *** The register is linear and loses nothing *)

Lemma crc_bit_xor a b : crc_bit (Z.lxor a b) = Z.lxor (crc_bit a) (crc_bit b).
Proof.
  unfold crc_bit.
  assert (Hx : Z.odd (Z.lxor a b) = xorb (Z.odd a) (Z.odd b))
    by (rewrite <- !Z.bit0_odd; apply Z.lxor_spec).
  rewrite Hx, Z.shiftr_lxor.
  destruct (Z.odd a), (Z.odd b); cbn [xorb]; apply Z.bits_inj; intros n;
    rewrite ?Z.lxor_spec; by destruct (Z.testbit (Z.shiftr a 1) n),
      (Z.testbit (Z.shiftr b 1) n), (Z.testbit 0x8408 n).
Qed.
Lemma iter_crc_xor n a b :
  Nat.iter n crc_bit (Z.lxor a b) = Z.lxor (Nat.iter n crc_bit a) (Nat.iter n crc_bit b).
Proof.
  induction n as [|n IH]; [done|]. change (Nat.iter (S n) crc_bit ?x) with (crc_bit (Nat.iter n crc_bit x)).
  by rewrite IH, crc_bit_xor.
Qed.

Lemma lt_pow_lxor n a b : 0 <= n -> 0 <= a < 2 ^ n -> 0 <= b < 2 ^ n -> 0 <= Z.lxor a b < 2 ^ n.
Proof.
  intros Hn Ha Hb. assert (H : 0 <= Z.lxor a b) by (apply Z.lxor_nonneg; lia). split; [done|].
  rewrite <- (Z.mod_small a (2 ^ n)), <- (Z.mod_small b (2 ^ n)) by done.
  rewrite <- !Z.land_ones by done.
  assert (Z.lxor (Z.land a (Z.ones n)) (Z.land b (Z.ones n)) = Z.land (Z.lxor a b) (Z.ones n)) as ->.
  { apply Z.bits_inj. intros i. rewrite !Z.lxor_spec, !Z.land_spec, Z.lxor_spec.
    by destruct (Z.testbit a i), (Z.testbit b i), (Z.testbit (Z.ones n) i). }
  rewrite Z.land_ones by done. apply Z.mod_pos_bound. lia.
Qed.

Lemma crc_bit_range f : is_u16 f -> is_u16 (crc_bit f).
Proof.
  intros Hf. unfold crc_bit.
  assert (Hs : is_u16 (Z.shiftr f 1)).
  { rewrite Z.shiftr_div_pow2 by done. change (2 ^ 1) with 2. int_lia. }
  destruct (Z.odd f); [|done]. apply (lt_pow_lxor 16); [done..|]. done.
Qed.
Lemma iter_crc_range n f : is_u16 f -> is_u16 (Nat.iter n crc_bit f).
Proof. intros Hf. induction n; [done|]. by apply crc_bit_range. Qed.

Lemma crc_bit_zero f : is_u16 f -> crc_bit f = 0 -> f = 0.
Proof.
  intros Hf. unfold crc_bit. pose proof (Z.div2_odd f) as Hd. rewrite Z.div2_spec in Hd.
  assert (Hs : 0 <= Z.shiftr f 1 < 2 ^ 15).
  { rewrite Z.shiftr_div_pow2 by done. change (2 ^ 1) with 2. change (2 ^ 15) with 32768. int_lia. }
  destruct (Z.odd f); intros H0; [|cbn [Z.b2z] in Hd; lia].
  apply Z.lxor_eq in H0. rewrite H0 in Hs. by destruct Hs.
Qed.
Lemma iter_crc_zero n f : is_u16 f -> Nat.iter n crc_bit f = 0 -> f = 0.
Proof.
  intros Hf. induction n as [|n IH]; [done|]. intros H0. apply IH.
  by apply crc_bit_zero; [apply iter_crc_range|].
Qed.

Lemma u16_lxor a b : is_u16 a -> is_u16 b -> is_u16 (Z.lxor a b).
Proof. apply (lt_pow_lxor 16). done. Qed.
Lemma u8_lxor a b : is_u8 a -> is_u8 b -> is_u8 (Z.lxor a b).
Proof. apply (lt_pow_lxor 8). done. Qed.
Lemma u8_u16 c : is_u8 c -> is_u16 c.
Proof. unfold_int. lia. Qed.

Lemma crc_byte_range f c : is_u16 f -> is_u8 c -> is_u16 (crc_byte f c).
Proof. intros Hf Hc. by apply iter_crc_range, u16_lxor, u8_u16. Qed.
Lemma crc_range l : forall f, is_u16 f -> bytes l -> is_u16 (crc f l).
Proof.
  induction l as [|c l IH]; intros f Hf Hl; [done|]. inversion_clear Hl.
  by apply IH; [apply crc_byte_range|].
Qed.
Lemma crc_app l l' f : crc f (l ++ l') = crc (crc f l) l'.
Proof. revert f. by induction l as [|c l IH]; intros f; cbn. Qed.

(** *** The table *)

Lemma split_byte x : x = Z.lxor (Z.shiftl (Z.shiftr x 8) 8) (Z.land x 0xff).
Proof.
  apply Z.bits_inj'. intros n Hn. change 0xff with (Z.ones 8).
  rewrite Z.lxor_spec, Z.land_spec, Z.testbit_ones_nonneg by lia.
  destruct (Z.ltb_spec n 8).
  - rewrite Z.shiftl_spec_low by done. by rewrite andb_true_r.
  - rewrite Z.shiftl_spec, Z.shiftr_spec by lia. replace (n - 8 + 8) with n by lia.
    by rewrite andb_false_r, xorb_false_r.
Qed.
Lemma crc_shift n y : Nat.iter n crc_bit (Z.shiftl y (Z.of_nat n)) = y.
Proof.
  induction n as [|n IH] in y |- *; [apply Z.shiftl_0_r|].
  change (Nat.iter (S n) crc_bit ?x) with (crc_bit (Nat.iter n crc_bit x)).
  replace (Z.shiftl y (Z.of_nat (S n))) with (Z.shiftl (Z.shiftl y 1) (Z.of_nat n))
    by (rewrite Z.shiftl_shiftl by lia; f_equal; lia).
  rewrite IH. unfold crc_bit. rewrite Z.shiftl_mul_pow2 by done.
  rewrite Z.odd_mul. change (Z.odd (2 ^ 1)) with false. rewrite andb_false_r.
  rewrite <- Z.shiftl_mul_pow2, Z.shiftr_shiftl_l by done. apply Z.shiftl_0_r.
Qed.
Lemma below_256 (p : nat -> bool) b : forallb p (seq 0 256) = true -> is_u8 b ->
  p (Z.to_nat b) = true.
Proof. intros Hp Hb. rewrite forallb_forall in Hp. apply Hp, in_seq. unfold_int. lia. Qed.
Lemma fcstab_crc b : is_u8 b -> nth (Z.to_nat b) fcstab 0 = Nat.iter 8 crc_bit b.
Proof.
  intros Hb. rewrite <- (Z2Nat.id b) at 2 by (unfold_int; lia). apply Z.eqb_eq.
  apply (below_256 (fun k => nth k fcstab 0 =? Nat.iter 8 crc_bit (Z.of_nat k))); [|done].
  by vm_compute.
Qed.

Lemma land_ff z : is_u8 (Z.land z 0xff).
Proof. change 0xff with (Z.ones 8). rewrite Z.land_ones by done. apply u8_range. Qed.
Lemma land_ff_id z : is_u8 z -> Z.land z 0xff = z.
Proof. intros H. change 0xff with (Z.ones 8). rewrite Z.land_ones by done. by apply u8_id. Qed.
Lemma shiftr_8 z : is_u16 z -> is_u8 (Z.shiftr z 8).
Proof. intros H. rewrite Z.shiftr_div_pow2 by done. int_lia. Qed.

Lemma PPP_FCS_crc f c : is_u16 f -> is_u8 c -> PPP_FCS f c = crc_byte f c.
Proof.
  intros Hf Hc. unfold PPP_FCS, crc_byte. rewrite fcstab_crc by apply land_ff.
  assert (Hs : Z.shiftr (Z.lxor f c) 8 = Z.shiftr f 8).
  { rewrite Z.shiftr_lxor. replace (Z.shiftr c 8) with 0; [apply Z.lxor_0_r|].
    rewrite Z.shiftr_div_pow2 by done. symmetry. by apply Z.div_small. }
  rewrite (split_byte (Z.lxor f c)) at 2. rewrite Hs, iter_crc_xor. f_equal. symmetry.
  apply (crc_shift 8).
Qed.

Lemma pppfcs_crc l : forall f, is_u16 f -> bytes l -> pppfcs f l = crc f l.
Proof.
  induction l as [|c l IH]; intros f Hf Hl; [done|]. inversion_clear Hl. cbn.
  rewrite PPP_FCS_crc by done. by apply IH; [apply crc_byte_range|].
Qed.
(** C38: the table computes the shift register: on bytes, [pppfcs] is the FCS of
    RFC 1662. *)
Theorem pppfcs_is_crc l : forall f, is_u16 f -> bytes l -> pppfcs f l = crc f l.
Proof. apply pppfcs_crc. Qed.

(** ** The check of the receiver *)

Lemma pppfcs_app l l' f : pppfcs f (l ++ l') = pppfcs (pppfcs f l) l'.
Proof. revert f. by induction l as [|c l IH]; intros f; cbn. Qed.

Lemma lxor_cancel a b : Z.lxor a (Z.lxor a b) = b.
Proof. by rewrite <- Z.lxor_assoc, Z.lxor_nilpotent, Z.lxor_0_l. Qed.
Lemma lxor_cross a b c d : Z.lxor a b = Z.lxor c d -> Z.lxor a c = Z.lxor b d.
Proof.
  intros H. apply Z.bits_inj'. intros n Hn.
  assert (Hb : Z.testbit (Z.lxor a b) n = Z.testbit (Z.lxor c d) n) by by rewrite H.
  rewrite !Z.lxor_spec in *.
  by destruct (Z.testbit a n), (Z.testbit b n), (Z.testbit c n), (Z.testbit d n).
Qed.
Lemma iter_crc_inj n a b : is_u16 a -> is_u16 b ->
  Nat.iter n crc_bit a = Nat.iter n crc_bit b -> a = b.
Proof.
  intros Ha Hb H. apply Z.lxor_eq. apply (iter_crc_zero n); [by apply u16_lxor|].
  by rewrite iter_crc_xor, H, Z.lxor_nilpotent.
Qed.
Lemma crc_byte_inj f g c d : is_u16 f -> is_u16 g -> is_u8 c -> is_u8 d ->
  crc_byte f c = crc_byte g d -> Z.lxor f g = Z.lxor c d.
Proof.
  intros Hf Hg Hc Hd H. apply lxor_cross. revert H. apply iter_crc_inj; by apply u16_lxor, u8_u16.
Qed.
Lemma crc_inj l : forall f g, is_u16 f -> is_u16 g -> bytes l -> crc f l = crc g l -> f = g.
Proof.
  induction l as [|c l IH]; intros f g Hf Hg Hl; [done|]. inversion_clear Hl. cbn. intros E.
  apply IH in E; [|by apply crc_byte_range..|done].
  apply crc_byte_inj in E; [|done..]. rewrite Z.lxor_nilpotent in E. by apply Z.lxor_eq.
Qed.
Lemma fcstab_small b : is_u8 b -> is_u8 (Nat.iter 8 crc_bit b) -> b = 0.
Proof.
  intros Hb Hs.
  assert (H : implb (Nat.iter 8 crc_bit b <? 256) (b =? 0) = true).
  { rewrite <- (Z2Nat.id b) by (unfold_int; lia).
    apply (below_256 (fun k => implb (Nat.iter 8 crc_bit (Z.of_nat k) <? 256) (Z.of_nat k =? 0)));
      [by vm_compute|done]. }
  destruct (Z.ltb_spec (Nat.iter 8 crc_bit b) 256); [by apply Z.eqb_eq|revert Hs; unfold_int; lia].
Qed.
Lemma crc_byte_xor f a a' :
  Z.lxor (crc_byte f a) (crc_byte f a') = Nat.iter 8 crc_bit (Z.lxor a a').
Proof.
  unfold crc_byte. rewrite <- iter_crc_xor. f_equal.
  by rewrite (Z.lxor_comm f a), Z.lxor_assoc, lxor_cancel.
Qed.
Lemma crc_2 f a b : crc f [a; b] = crc_byte (crc_byte f a) b.
Proof. reflexivity. Qed.
Lemma crc_two f a b a' b' : is_u16 f -> bytes [a; b] -> bytes [a'; b'] ->
  crc f [a; b] = crc f [a'; b'] -> a = a' /\ b = b'.
Proof.
  intros Hf Hl Hl' H. rewrite !crc_2 in H.
  inversion_clear Hl as [|? ? Ha Hl1]. inversion_clear Hl1 as [|? ? Hb _].
  inversion_clear Hl' as [|? ? Ha' Hl1]. inversion_clear Hl1 as [|? ? Hb' _].
  apply crc_byte_inj in H; [|by apply crc_byte_range..|done|done].
  assert (Haa : Z.lxor a a' = 0).
  { apply fcstab_small; [by apply u8_lxor|].
    rewrite <- (crc_byte_xor f a a'), H. by apply u8_lxor. }
  apply Z.lxor_eq in Haa as ->. rewrite Z.lxor_nilpotent in H. split; [done|].
  symmetry in H. by apply Z.lxor_eq in H.
Qed.

(** An error within two neighbouring bytes of a frame does not escape the
    check: sequences of bytes that differ in two neighbouring bytes have
    different FCS. *)
Theorem fcs_detects pre a b a' b' post : bytes (pre ++ [a; b] ++ post) -> bytes [a'; b'] ->
  (a <> a' \/ b <> b') ->
  pppfcs PPP_INITFCS (pre ++ [a; b] ++ post) <> pppfcs PPP_INITFCS (pre ++ [a'; b'] ++ post).
Proof.
  unfold bytes. rewrite !Forall_app. intros (Hpre & Hab & Hpost) Hab' Hne.
  rewrite !pppfcs_crc by (done || by repeat (apply Forall_app; split)).
  rewrite !crc_app. intros H.
  assert (Hp : is_u16 (crc PPP_INITFCS pre)) by by apply crc_range.
  apply crc_inj in H; [apply crc_two in H; [|done..]; naive_solver|by apply crc_range..|done].
Qed.

Lemma fcs_lo_alt f : fcs_lo f = Z.lxor (Z.land f 0xff) 0xff.
Proof.
  apply Z.bits_inj'. intros n Hn. unfold fcs_lo.
  rewrite Z.lxor_spec, !Z.land_spec, Z.lnot_spec by done.
  by destruct (Z.testbit f n), (Z.testbit 0xff n).
Qed.
Lemma fcs_hi_alt f : is_u16 f -> fcs_hi f = Z.lxor (Z.shiftr f 8) 0xff.
Proof.
  intros Hf. rewrite <- (land_ff_id (Z.shiftr f 8)) by by apply shiftr_8.
  apply Z.bits_inj'. intros n Hn. unfold fcs_hi.
  rewrite Z.lxor_spec, !Z.land_spec, !Z.shiftr_spec, Z.lnot_spec by lia.
  by destruct (Z.testbit f (n + 8)), (Z.testbit 0xff n).
Qed.
Lemma bytes_trailer l : bytes (trailer l).
Proof. repeat apply Forall_cons_2; [apply land_ff..|apply Forall_nil_2]. Qed.

Lemma crc_complement f : is_u16 f -> crc f [fcs_lo f; fcs_hi f] = PPP_GOODFCS.
Proof.
  intros Hf. rewrite crc_2, fcs_lo_alt, fcs_hi_alt by done. unfold crc_byte.
  assert (Z.lxor f (Z.lxor (Z.land f 0xff) 0xff) = Z.lxor (Z.shiftl (Z.shiftr f 8) 8) 0xff) as ->.
  { rewrite (split_byte f) at 1. by rewrite Z.lxor_assoc, lxor_cancel. }
  rewrite (iter_crc_xor 8 (Z.shiftl _ _)), (crc_shift 8 : forall y, Nat.iter 8 crc_bit (Z.shiftl y 8) = y).
  assert (forall h t u, Z.lxor (Z.lxor h t) (Z.lxor h u) = Z.lxor t u) as ->.
  { intros h t u. rewrite (Z.lxor_comm h t), Z.lxor_assoc. by rewrite lxor_cancel. }
  by vm_compute.
Qed.

Lemma fcs_good l a b : bytes (l ++ [a; b]) ->
  pppfcs PPP_INITFCS (l ++ [a; b]) = PPP_GOODFCS <-> [a; b] = trailer l.
Proof.
  intros Hb. assert (Hl : bytes l /\ bytes [a; b]) by by apply Forall_app. destruct Hl as [Hl Hab].
  rewrite pppfcs_crc, crc_app by done. unfold trailer. rewrite pppfcs_crc by done.
  assert (Hf : is_u16 (crc PPP_INITFCS l)) by (by apply crc_range).
  split; [|by intros [= -> ->]; apply crc_complement].
  intros H. rewrite <- (crc_complement _ Hf) in H. apply crc_two in H as [-> ->]; [done..|].
  rewrite <- pppfcs_crc by done. apply (bytes_trailer l).
Qed.
(** What the receiver accepts: the check gives the good value exactly when
    the last two bytes of the frame are the trailer that the transmitter
    computes for the others. *)
Theorem fcs_good_iff l a b : bytes (l ++ [a; b]) ->
  pppfcs PPP_INITFCS (l ++ [a; b]) = PPP_GOODFCS <-> [a; b] = trailer l.
Proof. apply fcs_good. Qed.

Lemma fcs_good_iff_witness :
  pppfcs PPP_INITFCS ([0xff; 3; 0xc0; 0x21; 1; 1; 0; 4] ++ [0xd1; 0xb5]) = PPP_GOODFCS
  <-> [0xd1; 0xb5] = trailer [0xff; 3; 0xc0; 0x21; 1; 1; 0; 4].
Proof. apply fcs_good_iff. repeat apply Forall_cons_2; [done..|apply Forall_nil_2]. Defined.
Lemma pppfcs_is_crc_witness : pppfcs 0xffff [1; 2; 3] = crc 0xffff [1; 2; 3].
Proof. apply pppfcs_is_crc; [done|]. repeat apply Forall_cons_2; [done..|apply Forall_nil_2]. Defined.
Lemma fcs_detects_witness :
  pppfcs PPP_INITFCS ([0xff; 3] ++ [7; 8] ++ [9]) <> pppfcs PPP_INITFCS ([0xff; 3] ++ [8; 7] ++ [9]).
Proof.
  apply (fcs_detects [0xff; 3] 7 8 8 7 [9]);
    [repeat apply Forall_cons_2; [done..|apply Forall_nil_2]..|by left].
Defined.
