(* ===== verification/Mbuf.v ===== *)
(** * Packet buffers and queues of the network interface

    An mbuf (mbuf.h) with its cluster, chains of them, the queues of if.h; what
    belongs to each of them, and the lemmas about their contents. *)

From stdpp Require Import base list numbers.
From S2P Require Export Prelude.

(** An mbuf with a cluster of its own: [m_ext] is the contents of the cluster
    ([m_extBuf] and [m_extSize]), [m_data] the offset of the data in it. *)
Record mbuf := mk_mbuf { m_ext : list Z; m_data : Z; m_len : Z }.
#[export] Instance eta_mbuf : Eta mbuf := fun m =>
  {| m_ext := m_ext m; m_data := m_data m; m_len := m_len m |}.
#[export] Instance set_m_ext : Setter m_ext := ltac:(derive_setter).
#[export] Instance set_m_data : Setter m_data := ltac:(derive_setter).
#[export] Instance set_m_len : Setter m_len := ltac:(derive_setter).

(** A chain by [m_next]. *)
Notation chain := (list mbuf).

Definition M_DATASIZE (m : mbuf) : Z := Z.of_nat (length (m_ext m)).
Definition M_LEADINGSPACE (m : mbuf) : Z := m_data m.
Definition M_TRAILINGSPACE (m : mbuf) : Z := M_DATASIZE m - m_data m - m_len m.

(** The [n] bytes from offset [o] of the cluster; [None] outside of it. *)
Definition m_read (o n : Z) (m : mbuf) : option (list Z) :=
  if (0 <=? o) && (0 <=? n) then slice (Z.to_nat o) (Z.to_nat n) (m_ext m) else None.
Definition m_byte (o : Z) (m : mbuf) : option Z :=
  if 0 <=? o then m_ext m !! Z.to_nat o else None.
(** The bytes [bs] stored from offset [o] on. *)
Definition m_store (o : Z) (bs : list Z) (m : mbuf) : option mbuf :=
  if 0 <=? o then
    match poke_at (Z.to_nat o) bs (m_ext m) with
    | Some e => Some (m <| m_ext := e |>)
    | None => None
    end
  else None.

(** The [m_len] bytes at [mtod(m)]. *)
Definition m_bytes (m : mbuf) : option (list Z) := m_read (m_data m) (m_len m) m.
Fixpoint chain_bytes (l : chain) : option (list Z) :=
  match l with
  | [] => Some []
  | m :: l =>
      match m_bytes m, chain_bytes l with
      | Some b, Some bs => Some (b ++ bs)
      | _, _ => None
      end
  end.
Definition chain_len (l : chain) : Z := foldr (fun m n => m_len m + n) 0 l.

(** [struct ifqueue]: the list from [ifq_head] by [m_nextpkt]; [ifq_len] is its
    length. *)
Record ifqueue := mk_ifq { ifq_list : list chain; ifq_maxlen : Z; ifq_drops : Z }.
#[export] Instance eta_ifqueue : Eta ifqueue := fun q =>
  {| ifq_list := ifq_list q; ifq_maxlen := ifq_maxlen q; ifq_drops := ifq_drops q |}.
#[export] Instance set_ifq_list : Setter ifq_list := ltac:(derive_setter).
#[export] Instance set_ifq_maxlen : Setter ifq_maxlen := ltac:(derive_setter).
#[export] Instance set_ifq_drops : Setter ifq_drops := ltac:(derive_setter).

Definition IFQ_MAXLEN := 50.
Definition ifq_len (q : ifqueue) : Z := Z.of_nat (length (ifq_list q)).
Definition IF_QFULL (q : ifqueue) : bool := ifq_maxlen q <=? ifq_len q.
Definition IF_DROP (q : ifqueue) : ifqueue := q <| ifq_drops ::= Z.succ |>.
Definition IF_ENQUEUE (q : ifqueue) (m : chain) : ifqueue :=
  q <| ifq_list := ifq_list q ++ [m] |>.
Definition IF_DEQUEUE (q : ifqueue) : option chain * ifqueue :=
  match ifq_list q with
  | [] => (None, q)
  | m :: l => (Some m, q <| ifq_list := l |>)
  end.

(** ** Contents *)

Definition mbuf_ok (m : mbuf) : Prop :=
  0 <= m_data m /\ 0 <= m_len m /\ m_data m + m_len m <= M_DATASIZE m.
Definition content (m : mbuf) : list Z :=
  take (Z.to_nat (m_len m)) (drop (Z.to_nat (m_data m)) (m_ext m)).
Definition contents (l : chain) : list Z := concat (content <$> l).

Lemma s16_id z : -2 ^ 15 <= z < 2 ^ 15 -> s16 z = z.
Proof.
  intros H. unfold s16. change (2 ^ 15) with 32768 in *. change (2 ^ 16) with 65536.
  destruct (Z.ltb_spec (z mod 65536) 32768) as [Hlt|Hge]; revert Hlt || revert Hge;
    Z.to_euclidean_division_equations; lia.
Qed.

Lemma m_read_ok o n m : 0 <= o -> 0 <= n -> o + n <= M_DATASIZE m ->
  m_read o n m = Some (take (Z.to_nat n) (drop (Z.to_nat o) (m_ext m))).
Proof.
  unfold m_read, M_DATASIZE. intros H1 H2 Hs.
  rewrite (proj2 (Z.leb_le _ _) H1), (proj2 (Z.leb_le _ _) H2). cbn [andb].
  apply slice_fits. lia.
Qed.
Lemma m_bytes_content m : mbuf_ok m -> m_bytes m = Some (content m).
Proof. intros (H1 & H2 & H3). by apply m_read_ok. Qed.
Lemma chain_bytes_contents l : Forall mbuf_ok l -> chain_bytes l = Some (contents l).
Proof. induction 1 as [|m l Hm _ IH]; [done|]. cbn. by rewrite m_bytes_content, IH. Qed.
Lemma length_content m : mbuf_ok m -> Z.of_nat (length (content m)) = m_len m.
Proof.
  unfold mbuf_ok, content, M_DATASIZE. intros H. rewrite length_take, length_drop. lia.
Qed.
Lemma length_contents l : Forall mbuf_ok l -> Z.of_nat (length (contents l)) = chain_len l.
Proof.
  induction 1 as [|m l Hm _ IH]; [done|]. unfold contents in *. cbn [fmap list_fmap concat chain_len foldr].
  rewrite length_app, Nat2Z.inj_add, length_content by done. by rewrite IH.
Qed.

(** *** Appending *)

Lemma poke_at_end (pre mid post bs : list Z) : (length bs <= length post)%nat ->
  poke_at (length (pre ++ mid)) bs (pre ++ mid ++ post)
  = Some (pre ++ mid ++ bs ++ drop (length bs) post).
Proof.
  intros H. rewrite poke_at_fits by (rewrite !length_app; lia).
  rewrite !app_assoc, take_app_length, drop_app_add', <- !app_assoc by (rewrite !length_app; lia).
  done.
Qed.
Lemma split_mbuf m : mbuf_ok m -> exists pre post, m_ext m = pre ++ content m ++ post
  /\ Z.of_nat (length pre) = m_data m /\ Z.of_nat (length post) = M_TRAILINGSPACE m.
Proof.
  intros (H1 & H2 & H3). unfold M_TRAILINGSPACE, M_DATASIZE in *.
  exists (take (Z.to_nat (m_data m)) (m_ext m)), (drop (Z.to_nat (m_data m + m_len m)) (m_ext m)).
  rewrite length_take, length_drop. split_and!; [|lia..]. unfold content.
  replace (drop (Z.to_nat (m_data m + m_len m)) (m_ext m))
    with (drop (Z.to_nat (m_len m)) (drop (Z.to_nat (m_data m)) (m_ext m)))
    by (rewrite drop_drop; f_equal; lia).
  by rewrite !take_drop.
Qed.
Lemma content_intro m pre c post : m_ext m = pre ++ c ++ post ->
  Z.of_nat (length pre) = m_data m -> Z.of_nat (length c) = m_len m -> mbuf_ok m /\ content m = c.
Proof.
  intros He Hp Hc. unfold mbuf_ok, M_DATASIZE, content. rewrite He, !length_app, <- Hp, <- Hc, !Nat2Z.id.
  split; [lia|]. by rewrite drop_app_length, take_app_length.
Qed.

(** [bs] behind the data, the length not yet adjusted. *)
Lemma m_store_end m bs : mbuf_ok m -> Z.of_nat (length bs) <= M_TRAILINGSPACE m ->
  exists m', m_store (m_data m + m_len m) bs m = Some m' /\ m_data m' = m_data m
  /\ m_len m' = m_len m /\ M_DATASIZE m' = M_DATASIZE m
  /\ forall k, k = m_len m + Z.of_nat (length bs) ->
      mbuf_ok (m' <| m_len := k |>) /\ content (m' <| m_len := k |>) = content m ++ bs.
Proof.
  intros Hm Hb. destruct (split_mbuf m Hm) as (pre & post & He & Hp & Hq).
  pose proof (length_content m Hm) as Hc. destruct Hm as (H1 & H2 & H3).
  unfold m_store. rewrite (proj2 (Z.leb_le _ _)) by lia.
  replace (Z.to_nat (m_data m + m_len m)) with (length (pre ++ content m)) by (rewrite length_app; lia).
  rewrite He, poke_at_end by lia. eexists. split; [done|]. split_and!; [done|done| |].
  - unfold M_DATASIZE. cbv beta delta [upd]. cbn. rewrite He, !length_app, length_drop. lia.
  - intros k ->. apply (content_intro _ pre _ (drop (length bs) post)); cbv beta delta [upd]; cbn.
    + by rewrite <- app_assoc.
    + done.
    + rewrite length_app. lia.
Qed.

Lemma m_store_len o bs m k :
  m_store o bs (m <| m_len := k |>)
  = match m_store o bs m with Some m' => Some (m' <| m_len := k |>) | None => None end.
Proof.
  unfold m_store. destruct (0 <=? o); [|done].
  change (m_ext (m <| m_len := k |>)) with (m_ext m). by destruct (poke_at _ _ _).
Qed.
Lemma m_store_two m a b : mbuf_ok m -> 2 <= M_TRAILINGSPACE m ->
  exists m1 m2, m_store (m_data m + m_len m) [a] m = Some m1
  /\ m_store (m_data m + m_len m + 1) [b] m1 = Some m2 /\ m_data m2 = m_data m
  /\ m_len m2 = m_len m /\ M_DATASIZE m2 = M_DATASIZE m
  /\ mbuf_ok (m2 <| m_len := m_len m + 2 |>)
  /\ content (m2 <| m_len := m_len m + 2 |>) = content m ++ [a; b].
Proof.
  intros Hm Hr.
  destruct (m_store_end m [a] Hm) as (m1 & H1 & Hd1 & Hl1 & Hs1 & Hk1); [cbn; lia|].
  destruct (Hk1 (m_len m + 1) eq_refl) as [Hok1 Hc1].
  destruct (m_store_end (m1 <| m_len := m_len m + 1 |>) [b] Hok1) as (m2 & H2 & Hd2 & Hl2 & Hs2 & Hk2).
  { unfold M_TRAILINGSPACE in *. change (M_DATASIZE (m1 <| m_len := _ |>)) with (M_DATASIZE m1).
    change (m_data (m1 <| m_len := _ |>)) with (m_data m1).
    change (m_len (m1 <| m_len := ?k |>)) with k. cbn [length]. lia. }
  rewrite m_store_len in H2.
  change (m_data (m1 <| m_len := _ |>)) with (m_data m1) in *.
  change (m_len (m1 <| m_len := ?k |>)) with k in *.
  rewrite Hd1, Z.add_assoc in H2. destruct (m_store _ [b] m1) as [m3|] eqn:H3; [|done].
  injection H2 as <-. exists m1, m3.
  destruct (Hk2 (m_len m + 2)) as [Hok2 Hc2]; [cbn [length]; lia|].
  assert (Hl3 : m_len m3 = m_len m1).
  { unfold m_store in H3. destruct (0 <=? _); [|done]. destruct (poke_at _ _ _); [|done].
    by injection H3 as <-. }
  split_and!; [done|done| |lia| |done|].
  - by rewrite <- Hd1, <- Hd2.
  - by rewrite <- Hs1.
  - etrans; [exact Hc2|]. rewrite Hc1. by rewrite <- app_assoc.
Qed.

Lemma longer_len m n k : k = m_len m + n -> m <| m_len ::= Z.add n |> = m <| m_len := k |>.
Proof. intros ->. rewrite Z.add_comm. reflexivity. Qed.

Lemma shorter_len m : m <| m_len ::= Z.pred |> = m <| m_len := m_len m - 1 |>.
Proof. reflexivity. Qed.
Lemma content_shorter m k : mbuf_ok m -> 0 <= k <= m_len m ->
  mbuf_ok (m <| m_len := k |>) /\ content (m <| m_len := k |>) = take (Z.to_nat k) (content m).
Proof.
  intros (H1 & H2 & H3) Hk. split.
  - change (0 <= m_data m /\ 0 <= k /\ m_data m + k <= M_DATASIZE m). lia.
  - unfold content. change (m_data (m <| m_len := k |>)) with (m_data m).
    change (m_ext (m <| m_len := k |>)) with (m_ext m). change (m_len (m <| m_len := k |>)) with k.
    rewrite take_take. f_equal. lia.
Qed.
Lemma contents_app l l' : contents (l ++ l') = contents l ++ contents l'.
Proof. unfold contents. by rewrite fmap_app, concat_app. Qed.
Lemma contents_1 m : contents [m] = content m.
Proof. apply app_nil_r. Qed.

Lemma content_drop m k : mbuf_ok m -> 0 <= k <= m_len m ->
  mbuf_ok (m <| m_data ::= Z.add k |> <| m_len ::= fun n => n - k |>)
  /\ content (m <| m_data ::= Z.add k |> <| m_len ::= fun n => n - k |>) = drop (Z.to_nat k) (content m).
Proof.
  intros (H1 & H2 & H3) Hk. split.
  - change (0 <= k + m_data m /\ 0 <= m_len m - k /\ k + m_data m + (m_len m - k) <= M_DATASIZE m). lia.
  - change (take (Z.to_nat (m_len m - k)) (drop (Z.to_nat (k + m_data m)) (m_ext m))
            = drop (Z.to_nat k) (content m)).
    unfold content. rewrite skipn_firstn_comm, drop_drop. f_equal; [lia|f_equal; lia].
Qed.
Lemma one_byte_on m : m <| m_data ::= Z.succ |> <| m_len ::= Z.pred |>
  = m <| m_data ::= Z.add 1 |> <| m_len ::= fun n => n - 1 |>.
Proof. cbv beta delta [upd set_m_data set_m_len eta_of]. cbn. f_equal; lia. Qed.
