(* ===== verification/IfPpp.v ===== *)
(** * if_ppp.c: the network interface under the daemon

    The driver of one unit: framing of output, byte by byte input, the queues
    between IP, the daemon and the line, and the requests that configure it.
    Left out: what the debugging flags print and the times that the interface
    records. *)

From stdpp Require Import base list numbers.
From S2P Require Export Fcs Mbuf.

Definition PPP_HDRLEN := 4.
Definition PPP_FCSLEN := 2.
Definition PPP_ALLSTATIONS := 0xff.
Definition PPP_UI := 0x03.
Definition PPP_FLAG := 0x7e.
Definition PPP_ESCAPE := 0x7d.
Definition PPP_TRANS := 0x20.
Definition PPP_IP := 0x21.
Definition PPP_VJC_COMP := 0x2d.
Definition PPP_VJC_UNCOMP := 0x2f.
Definition PPP_LCP := 0xc021.
Definition PPP_MTU := 1500.
Definition PPP_MRU := 1500.
Definition PPP_MAXMRU := 65000.
Definition PPPBUFSIZE := PPP_MTU * 2.
Definition MAX_HDR := 128.
Definition HDROFF := MAX_HDR.
Definition MAX_STATES := 16.
Definition TYPE_UNCOMPRESSED_TCP := 0x70.
Definition TYPE_COMPRESSED_TCP := 0x80.
Definition IPPROTO_TCP := 6.
Definition IFF_UP := 0x1.
Definition IFF_POINTOPOINT := 0x10.
Definition IFF_RUNNING := 0x40.
Definition IFF_MULTICAST := 0x8000.
Definition EINVAL := 22.
Definition ENOTSUP := 35.
Definition EMSGSIZE := 36.
Definition EAFNOSUPPORT := 47.
Definition ENOBUFS := 55.
Definition ENETDOWN := 62.

Definition SC_COMP_PROT := 0x00000001.
Definition SC_COMP_AC := 0x00000002.
Definition SC_COMP_TCP := 0x00000004.
Definition SC_NO_TCP_CCID := 0x00000008.
Definition SC_REJ_COMP_AC := 0x00000010.
Definition SC_REJ_COMP_TCP := 0x00000020.
Definition SC_ENABLE_IP := 0x00000100.
Definition SC_LOG_RAWIN := 0x00080000.
Definition SC_LOG_FLUSH := 0x00100000.
Definition SC_MASK := 0x0fffffff.
Definition SC_ESCAPED := 0x80000000.
Definition SC_FLUSH := 0x40000000.
Definition SC_DISCARD_PKT := 0x20000000.
Definition SC_RCV_B7_0 := 0x01000000.
Definition SC_RCV_B7_1 := 0x02000000.
Definition SC_RCV_EVNP := 0x04000000.
Definition SC_RCV_ODDP := 0x08000000.

(** What the driver calls: header compression of TCP, the pool of mbufs, and
    the device of the line, with the bytes it takes of a [write], the bytes it
    has still to send ([FIONWRITE]), whether its input is full, and what a
    [read] returns. *)
Class DrvEnv := {
  slcomp : Type;
  sl_compress_init : slcomp;
  sl_compress_tcp : mbuf -> Z -> slcomp -> bool -> Z * mbuf * slcomp;
  sl_uncompress_tcp : mbuf -> Z -> Z -> slcomp -> Z * mbuf * slcomp;
  sl_uncompress_error : slcomp -> slcomp;
  pool : Type;
  mHdrClGet : Z -> pool -> option mbuf * pool;
  mBufClGet : Z -> pool -> option mbuf * pool;
  m_prepend : chain -> Z -> pool -> option chain * pool;
  tty : Type;
  tty_write : list Z -> tty -> Z * tty;
  tty_nwrite : tty -> Z;
  tty_full : tty -> bool;
  tty_read : Z -> tty -> Z * list Z * tty }.

Section Driver.
Context {E : DrvEnv}.

(** The unit: [struct ppp_softc] with the fields of its [ifnet], and what it
    shares with the rest of the system: the pool, the line and all that has
    been written to it ([d_wire]), [ipintrq] and the packets that [ipintr]
    has taken from it, the signals and jobs that have been raised, [errno],
    the two hooks of etherLib, and whether LCP is open. *)
Record drv := mk_drv {
  if_unit : Z; if_mtu : Z; if_flags : Z; if_snd : ifqueue; if_ipackets : Z; if_ierrors : Z;
  if_opackets : Z; if_oerrors : Z; if_iqdrops : Z; if_ibytes : Z; if_obytes : Z;
  sc_flags : Z; sc_mru : Z; sc_inq : ifqueue; sc_fastq : ifqueue; sc_comp : slcomp;
  sc_bytessent : Z; sc_bytesrcvd : Z; sc_ipsent : Z; sc_iprcvd : Z; sc_asyncmap : list Z;
  sc_rasyncmap : Z; sc_outm : option chain; sc_m : chain; sc_mc : option nat; sc_mp : Z;
  sc_ilen : Z; sc_fcs : Z; sc_outfcs : Z; sc_rawin : list Z; sc_rawin_count : Z; sc_fd : Z;
  sc_qlen : Z; sc_wrtsem : bool; d_pool : pool; d_tty : tty; d_wire : list Z;
  d_ipintrq : ifqueue; d_ip : list chain; d_sigio : nat; d_jobs : list Z; d_errno : Z;
  d_inhook : option (list Z -> bool); d_outhook : option (list Z -> bool); d_opened : bool }.
#[global] Instance eta_drv : Eta drv := fun s =>
  {|
     if_unit := if_unit s; if_mtu := if_mtu s; if_flags := if_flags s; if_snd := if_snd s;
     if_ipackets := if_ipackets s; if_ierrors := if_ierrors s;
     if_opackets := if_opackets s; if_oerrors := if_oerrors s; if_iqdrops := if_iqdrops s;
     if_ibytes := if_ibytes s; if_obytes := if_obytes s; sc_flags := sc_flags s;
     sc_mru := sc_mru s; sc_inq := sc_inq s; sc_fastq := sc_fastq s; sc_comp := sc_comp s;
     sc_bytessent := sc_bytessent s; sc_bytesrcvd := sc_bytesrcvd s;
     sc_ipsent := sc_ipsent s; sc_iprcvd := sc_iprcvd s; sc_asyncmap := sc_asyncmap s;
     sc_rasyncmap := sc_rasyncmap s; sc_outm := sc_outm s; sc_m := sc_m s;
     sc_mc := sc_mc s; sc_mp := sc_mp s; sc_ilen := sc_ilen s; sc_fcs := sc_fcs s;
     sc_outfcs := sc_outfcs s; sc_rawin := sc_rawin s; sc_rawin_count := sc_rawin_count s;
     sc_fd := sc_fd s; sc_qlen := sc_qlen s; sc_wrtsem := sc_wrtsem s; d_pool := d_pool s;
     d_tty := d_tty s; d_wire := d_wire s; d_ipintrq := d_ipintrq s; d_ip := d_ip s;
     d_sigio := d_sigio s; d_jobs := d_jobs s; d_errno := d_errno s;
     d_inhook := d_inhook s; d_outhook := d_outhook s; d_opened := d_opened s |}.
#[global] Instance set_if_unit : Setter if_unit := ltac:(derive_setter).
#[global] Instance set_if_mtu : Setter if_mtu := ltac:(derive_setter).
#[global] Instance set_if_flags : Setter if_flags := ltac:(derive_setter).
#[global] Instance set_if_snd : Setter if_snd := ltac:(derive_setter).
#[global] Instance set_if_ipackets : Setter if_ipackets := ltac:(derive_setter).
#[global] Instance set_if_ierrors : Setter if_ierrors := ltac:(derive_setter).
#[global] Instance set_if_opackets : Setter if_opackets := ltac:(derive_setter).
#[global] Instance set_if_oerrors : Setter if_oerrors := ltac:(derive_setter).
#[global] Instance set_if_iqdrops : Setter if_iqdrops := ltac:(derive_setter).
#[global] Instance set_if_ibytes : Setter if_ibytes := ltac:(derive_setter).
#[global] Instance set_if_obytes : Setter if_obytes := ltac:(derive_setter).
#[global] Instance set_sc_flags : Setter sc_flags := ltac:(derive_setter).
#[global] Instance set_sc_mru : Setter sc_mru := ltac:(derive_setter).
#[global] Instance set_sc_inq : Setter sc_inq := ltac:(derive_setter).
#[global] Instance set_sc_fastq : Setter sc_fastq := ltac:(derive_setter).
#[global] Instance set_sc_comp : Setter sc_comp := ltac:(derive_setter).
#[global] Instance set_sc_bytessent : Setter sc_bytessent := ltac:(derive_setter).
#[global] Instance set_sc_bytesrcvd : Setter sc_bytesrcvd := ltac:(derive_setter).
#[global] Instance set_sc_ipsent : Setter sc_ipsent := ltac:(derive_setter).
#[global] Instance set_sc_iprcvd : Setter sc_iprcvd := ltac:(derive_setter).
#[global] Instance set_sc_asyncmap : Setter sc_asyncmap := ltac:(derive_setter).
#[global] Instance set_sc_rasyncmap : Setter sc_rasyncmap := ltac:(derive_setter).
#[global] Instance set_sc_outm : Setter sc_outm := ltac:(derive_setter).
#[global] Instance set_sc_m : Setter sc_m := ltac:(derive_setter).
#[global] Instance set_sc_mc : Setter sc_mc := ltac:(derive_setter).
#[global] Instance set_sc_mp : Setter sc_mp := ltac:(derive_setter).
#[global] Instance set_sc_ilen : Setter sc_ilen := ltac:(derive_setter).
#[global] Instance set_sc_fcs : Setter sc_fcs := ltac:(derive_setter).
#[global] Instance set_sc_outfcs : Setter sc_outfcs := ltac:(derive_setter).
#[global] Instance set_sc_rawin : Setter sc_rawin := ltac:(derive_setter).
#[global] Instance set_sc_rawin_count : Setter sc_rawin_count := ltac:(derive_setter).
#[global] Instance set_sc_fd : Setter sc_fd := ltac:(derive_setter).
#[global] Instance set_sc_qlen : Setter sc_qlen := ltac:(derive_setter).
#[global] Instance set_sc_wrtsem : Setter sc_wrtsem := ltac:(derive_setter).
#[global] Instance set_d_pool : Setter d_pool := ltac:(derive_setter).
#[global] Instance set_d_tty : Setter d_tty := ltac:(derive_setter).
#[global] Instance set_d_wire : Setter d_wire := ltac:(derive_setter).
#[global] Instance set_d_ipintrq : Setter d_ipintrq := ltac:(derive_setter).
#[global] Instance set_d_ip : Setter d_ip := ltac:(derive_setter).
#[global] Instance set_d_sigio : Setter d_sigio := ltac:(derive_setter).
#[global] Instance set_d_jobs : Setter d_jobs := ltac:(derive_setter).
#[global] Instance set_d_errno : Setter d_errno := ltac:(derive_setter).
#[global] Instance set_d_inhook : Setter d_inhook := ltac:(derive_setter).
#[global] Instance set_d_outhook : Setter d_outhook := ltac:(derive_setter).
#[global] Instance set_d_opened : Setter d_opened := ltac:(derive_setter).

Notation drvM X := (M drv X).
Definition D := M drv Empty_set.

(** *** Flags *)

Definition has (flags f : Z) : bool := negb (Z.land flags f =? 0).
Definition flag {X} (f : Z) : drvM X bool := w <- gets sc_flags ;; ret (has w f).
Definition set_flag {X} (f : Z) : drvM X () := modify (fun s => s <| sc_flags ::= fun x => Z.lor x f |>).
Definition clear_flag {X} (f : Z) : drvM X () :=
  modify (fun s => s <| sc_flags ::= fun x => Z.ldiff x f |>).
Definition count {X} (f : drv -> drv) : drvM X () := modify f.
Definition ierror {X} : drvM X () := modify (fun s => s <| if_ierrors ::= fun n => u32 (n + 1) |>).

(** *** The line *)

Definition write {X} (bs : list Z) : drvM X Z :=
  t <- gets d_tty ;;
  let '(cc, t) := tty_write bs t in
  modify (fun s => s <| d_tty := t |> <| d_wire ::= fun w => w ++ take (Z.to_nat cc) bs |>) ;;
  ret cc.

(** Does [c] need to be escaped? *)
Definition escapes (map : list Z) (c : Z) : option bool :=
  match map !! Z.to_nat (Z.shiftr c 5) with
  | Some w => Some (has w (Z.shiftl 1 (Z.land c 0x1F)))
  | None => None
  end.
Definition ESCAPE_P {X} (c : Z) : drvM X bool := map <- gets sc_asyncmap ;; access (escapes map c).

(** *** The pool *)

Fixpoint getm_skip (l : chain) (len : Z) : Z :=
  match l with
  | [] => len
  | m :: l => if 0 <? len then getm_skip l (len - M_DATASIZE m) else len
  end.
Fixpoint getm_alloc {X} (fuel : nat) (len : Z) : drvM X Z :=
  if 0 <? len then
    match fuel with
    | O => hang
    | S fuel =>
        p <- gets d_pool ;;
        match mHdrClGet len p with
        | (None, p) => modify (fun s => s <| d_pool := p |>) ;; ret len
        | (Some m, p) =>
            modify (fun s => s <| d_pool := p |> <| sc_m ::= fun l => l ++ [m] |>) ;;
            getm_alloc fuel (len - M_DATASIZE m)
        end
    end
  else ret len.
Definition pppgetm {X} : drvM X bool :=
  mru <- gets sc_mru ;;
  l <- gets sc_m ;;
  let len := getm_skip l (HDROFF + mru + PPP_HDRLEN + PPP_FCSLEN) in
  len <- getm_alloc (Z.to_nat len) len ;;
  ret (len <=? 0).

(** ** Input *)

Definition ppplogchar {X} (c : Z) : drvM X () :=
  when (0 <=? c)
    (n <- gets sc_rawin_count ;;
     r <- gets sc_rawin ;;
     (if (0 <=? n) && (n <? Z.of_nat (length r))
      then modify (fun s => s <| sc_rawin := <[Z.to_nat n := c]> r |> <| sc_rawin_count := n + 1 |>)
      else fault)) ;;
  n <- gets sc_rawin_count ;;
  r <- gets sc_rawin ;;
  when ((Z.of_nat (length r) <=? n) || ((c <? 0) && (0 <? n)))
    (modify (fun s => s <| sc_rawin_count := 0 |>)).

(** [ipintr] takes every packet from [ipintrq]. *)
Definition ipintr {X} : drvM X () :=
  modify (fun s => s <| d_ip ::= fun l => l ++ ifq_list (d_ipintrq s) |>
                     <| d_ipintrq ::= fun q => q <| ifq_list := [] |> |>).

(** A copy of a chain into a buffer of [size] bytes. *)
Definition copy_chain {X} (l : chain) (size : Z) : drvM X (list Z) :=
  b <- access (chain_bytes l) ;;
  if Z.of_nat (length b) <=? size then ret b else fault.
Definition run_hook {X} (h : option (list Z -> bool)) (l : chain) : drvM X bool :=
  match h with
  | None => ret false
  | Some f => b <- copy_chain l PPPBUFSIZE ;; ret (f b)
  end.

(** A VJ packet: the rest of the chain is behind the first mbuf, in which the
    header is restored. [None]: the packet has been dropped. *)
Definition uncompress (proto adrs ctrl ilen : Z) (m : mbuf) : D (option (mbuf * Z)) :=
  rej <- flag SC_REJ_COMP_TCP ;;
  if rej || ((proto =? PPP_VJC_COMP) && (m_data m <? MAX_HDR))
  then ierror ;; ret None
  else
    let cp := m_data m in
    let m := m <| m_data ::= Z.add PPP_HDRLEN |> <| m_len ::= fun n => n - PPP_HDRLEN |> in
    let ilen := ilen - PPP_HDRLEN in
    comp <- gets sc_comp ;;
    let '(xlen, m, comp) :=
      sl_uncompress_tcp m (m_len m)
        (if proto =? PPP_VJC_COMP then TYPE_COMPRESSED_TCP else TYPE_UNCOMPRESSED_TCP) comp in
    modify (fun s => s <| sc_comp := comp |>) ;;
    if xlen =? 0 then ierror ;; ret None
    else
      let xlen := xlen + PPP_HDRLEN in
      let m := m <| m_len ::= fun n => n + (xlen - ilen) |>
                 <| m_data ::= fun d => d - PPP_HDRLEN |> in
      m <- access (if cp =? m_data m then Some m else m_store (m_data m) [adrs; ctrl; 0] m) ;;
      m <- access (m_store (m_data m + 3) [PPP_IP] m) ;;
      ret (Some (m, xlen)).

(** Behind the hook: the queue of the protocol. *)
Definition to_queue (proto : Z) (l : chain) : D bool :=
  let ip := proto =? PPP_IP in
  q <- gets (fun s => if ip then d_ipintrq s else sc_inq s) ;;
  let put q := modify (fun s => if ip then s <| d_ipintrq := q |> else s <| sc_inq := q |>) in
  if IF_QFULL q then
    put (IF_DROP q) ;; ierror ;;
    modify (fun s => s <| if_iqdrops ::= fun n => u32 (n + 1) |>) ;;
    ret false
  else
    put (IF_ENQUEUE q l) ;;
    (if ip then modify (fun s => s <| sc_iprcvd ::= fun n => u32 (n + 1) |>) ;; ipintr
     else modify (fun s => s <| d_sigio ::= S |>)) ;;
    ret (negb ip).
Definition deliver (proto : Z) (m : mbuf) (rest : chain) : D bool :=
  hook <- gets d_inhook ;;
  taken <- run_hook hook (m :: rest) ;;
  if taken then ret false else
  if proto =? PPP_IP then
    up <- gets if_flags ;;
    enabled <- flag SC_ENABLE_IP ;;
    if negb (has up IFF_UP) || negb enabled then ret false
    else
      to_queue proto
        (m <| m_data ::= Z.add PPP_HDRLEN |> <| m_len ::= fun n => n - PPP_HDRLEN |> :: rest)
  else to_queue proto (m :: rest).

Definition ppppktin (l : chain) : D bool :=
  modify (fun s => s <| if_ipackets ::= fun n => u32 (n + 1) |>) ;;
  match l with
  | [] => fault
  | m :: rest =>
      hdr <- access (m_read (m_data m) PPP_HDRLEN m) ;;
      match hdr with
      | [adrs; ctrl; p2; p3] =>
          let proto := Z.shiftl p2 8 + p3 in
          let ilen := chain_len l in
          if (proto =? PPP_VJC_COMP) || (proto =? PPP_VJC_UNCOMP) then
            r <- uncompress proto adrs ctrl ilen m ;;
            match r with
            | None => ret false
            | Some (m, _) => deliver PPP_IP m rest
            end
          else deliver proto m rest
      | _ => fault
      end
  end.

Definition paritytab : list Z :=
  [0x96696996; 0x69969669; 0x69969669; 0x96696996;
   0x69969669; 0x96696996; 0x96696996; 0x69969669].

(** [sc->sc_mc] *)
Definition current {X} : drvM X (nat * mbuf) :=
  i <- gets sc_mc ;; i <- access i ;;
  l <- gets sc_m ;; m <- access (l !! i) ;; ret (i, m).
Definition put_mbuf {X} (i : nat) (m : mbuf) : drvM X () :=
  modify (fun s => s <| sc_m ::= <[i := m]> |>).
Definition shorten {X} : drvM X Z :=
  im <- current ;;
  put_mbuf (fst im) (snd im <| m_len ::= Z.pred |>) ;; ret (m_len (snd im) - 1).
(** The two bytes of the FCS; an mbuf that becomes empty is left to the next
    packet. *)
Definition remove_trailer : D () :=
  n <- shorten ;;
  when (n =? 0)
    (i <- gets sc_mc ;; i <- access i ;;
     match i with
     | O => fault
     | S i => modify (fun s => s <| sc_mc := Some i |>)
     end) ;;
  _ <- shorten ;; ret tt.
Definition excise : D chain :=
  im <- current ;;
  l <- gets sc_m ;;
  modify (fun s => s <| sc_m := drop (S (fst im)) l |> <| sc_mc := None |>) ;;
  ret (take (S (fst im)) l).

Definition input_flag : D () :=
  ilen <- gets sc_ilen ;;
  modify (fun s => s <| sc_ilen := 0 |> <| if_ibytes := sc_bytesrcvd s |>) ;;
  raw <- gets sc_rawin_count ;;
  when (0 <? raw) (ppplogchar (-1)) ;;
  bad <- flag (Z.lor SC_FLUSH SC_ESCAPED) ;;
  fcs <- gets sc_fcs ;;
  if bad || ((0 <? ilen) && negb (fcs =? PPP_GOODFCS)) then
    modify (fun s => s <| sc_comp ::= sl_uncompress_error |>) ;;
    if bad then clear_flag (Z.lor SC_FLUSH SC_ESCAPED) else ierror
  else if ilen <? PPP_HDRLEN + PPP_FCSLEN then when (negb (ilen =? 0)) ierror
  else
    remove_trailer ;;
    l <- excise ;;
    _ <- ppppktin l ;;
    _ <- pppgetm ;; ret tt.

(** [flush:]; [throw tt] is the jump. *)
Definition flush (c : Z) (m : drvM () ()) : D () := fun s =>
  match m s with
  | Ok a s => Ok a s
  | Throw _ s =>
      (f <- flag SC_FLUSH ;;
       when (negb f)
         (ierror ;; set_flag SC_FLUSH ;;
          log <- flag SC_LOG_FLUSH ;; when log (ppplogchar c))) s
  | Fault => Fault
  | Hang => Hang
  end.

(** A byte at [sc_mp], without a check of the room behind it. *)
Definition store {X} (c : Z) : drvM X () :=
  im <- current ;;
  p <- gets sc_mp ;;
  m <- access (m_store p [c] (snd im)) ;;
  put_mbuf (fst im) m ;;
  modify (fun s => s <| sc_mp := p + 1 |>).
Definition longer {X} (n : Z) : drvM X () :=
  im <- current ;; put_mbuf (fst im) (snd im <| m_len ::= Z.add n |>).
Definition more_ilen {X} (n : Z) : drvM X () :=
  modify (fun s => s <| sc_ilen ::= fun i => s16 (i + n) |>).
(** Data from offset [o] of mbuf [i] on. *)
Definition reset_mbuf {X} (i : nat) (o : Z) : drvM X () :=
  l <- gets sc_m ;;
  m <- access (l !! i) ;;
  put_mbuf i (m <| m_len := 0 |> <| m_data := o |>) ;;
  modify (fun s => s <| sc_mc := Some i |> <| sc_mp := o |>).

Definition first_octet (c : Z) : drvM () () :=
  l <- gets sc_m ;;
  when (bool_decide (l = []))
    (_ <- pppgetm ;; l <- gets sc_m ;; when (bool_decide (l = [])) (throw tt)) ;;
  l <- gets sc_m ;;
  m <- access (head l) ;;
  reset_mbuf 0 (if HDROFF + PPP_HDRLEN <=? M_DATASIZE m then HDROFF else 0) ;;
  modify (fun s => s <| sc_fcs := PPP_INITFCS |>) ;;
  when (negb (c =? PPP_ALLSTATIONS))
    (rej <- flag SC_REJ_COMP_AC ;;
     when rej (throw tt) ;;
     store PPP_ALLSTATIONS ;; store PPP_UI ;; more_ilen 2 ;; longer 2).
(** The next mbuf when the current one is full. *)
Definition room : drvM () () :=
  im <- current ;;
  when (M_TRAILINGSPACE (snd im) <=? 0)
    (l <- gets sc_m ;;
     when (Nat.leb (length l) (S (fst im)))
       (_ <- pppgetm ;; l <- gets sc_m ;;
        when (Nat.leb (length l) (S (fst im))) (throw tt)) ;;
     reset_mbuf (S (fst im)) 0).
Definition input_octet (c : Z) : drvM () () :=
  ilen <- gets sc_ilen ;;
  when (ilen =? 0) (first_octet c) ;;
  ilen <- gets sc_ilen ;;
  when ((ilen =? 1) && negb (c =? PPP_UI)) (throw tt) ;;
  when ((ilen =? 2) && (Z.land c 1 =? 1)) (store 0 ;; more_ilen 1 ;; longer 1) ;;
  ilen <- gets sc_ilen ;;
  when ((ilen =? 3) && (Z.land c 1 =? 0)) (throw tt) ;;
  more_ilen 1 ;;
  ilen <- gets sc_ilen ;;
  mru <- gets sc_mru ;;
  when (mru + PPP_HDRLEN + PPP_FCSLEN <? ilen) (throw tt) ;;
  room ;;
  longer 1 ;; store c ;;
  modify (fun s => s <| sc_fcs ::= fun f => PPP_FCS f c |>).

(** The statistics that do not depend on what the octet is. *)
Definition received (c : Z) : D () :=
  modify (fun s => s <| sc_bytesrcvd ::= fun n => u32 (n + 1) |>) ;;
  set_flag (if has c 0x80 then SC_RCV_B7_1 else SC_RCV_B7_0) ;;
  p <- access (paritytab !! Z.to_nat (Z.shiftr c 5)) ;;
  set_flag (if has p (Z.shiftl 1 (Z.land c 0x1F)) then SC_RCV_ODDP else SC_RCV_EVNP) ;;
  log <- flag SC_LOG_RAWIN ;;
  when log (ppplogchar c).
Definition pppinput (c : Z) : D () :=
  let c := Z.land c 0xff in
  received c ;;
  if c =? PPP_FLAG then input_flag else
  flushing <- flag SC_FLUSH ;;
  if flushing then log <- flag SC_LOG_FLUSH ;; when log (ppplogchar c) else
  map <- gets sc_rasyncmap ;;
  if (c <? 0x20) && has map (Z.shiftl 1 c) then ret tt else
  escaped <- flag SC_ESCAPED ;;
  if escaped then
    clear_flag SC_ESCAPED ;;
    flush (Z.lxor c PPP_TRANS) (input_octet (Z.lxor c PPP_TRANS))
  else if c =? PPP_ESCAPE then set_flag SC_ESCAPED
  else flush c (input_octet c).

(** ** Output *)

Definition interactive_ports : list Z := [0; 513; 0; 0; 0; 21; 0; 23].
Definition INTERACTIVE (p : Z) : bool := nth (Z.to_nat (Z.land p 7)) interactive_ports 0 =? p.

(** The destinations that the driver knows: IP, the header of a packet of the
    daemon, and any other family. *)
Inductive sockaddr := AF_INET | AF_UNSPEC (address control protocol : Z) | AF_OTHER.

Definition be32 (b : list Z) : Z :=
  match b with [b0; b1; b2; b3] => ((b0 * 256 + b1) * 256 + b2) * 256 + b3 | _ => 0 end.
Definition s32 (x : Z) : Z := if x <? 2 ^ 31 then x else x - 2 ^ 32.
(** Whether the packet goes to the fast queue. *)
Definition interactive (m : mbuf) : D bool :=
  pr <- access (m_byte (m_data m + 9) m) ;;
  if pr =? IPPROTO_TCP then
    b0 <- access (m_byte (m_data m) m) ;;
    w <- access (m_read (m_data m + 4 * Z.land b0 0xf) 4 m) ;;
    let p := s32 (be32 w) in
    ret (INTERACTIVE (Z.land p 0xffff) || INTERACTIVE (Z.shiftr p 16))
  else ret false.

Definition fail (e : Z) : D Z := modify (fun s => s <| d_errno := e |>) ;; ret e.

(** The PPP header in front of the packet. *)
Definition put_header (l : chain) (hdr : list Z) : D (option chain) :=
  match l with
  | [] => fault
  | m :: rest =>
      l <- (if M_LEADINGSPACE m <? PPP_HDRLEN then
              p <- gets d_pool ;;
              let '(r, p) := m_prepend l PPP_HDRLEN p in
              modify (fun s => s <| d_pool := p |>) ;;
              ret (match r with
                   | Some (m :: rest) => Some (m <| m_len := 0 |>, rest)
                   | _ => None
                   end)
            else ret (Some (m <| m_data ::= fun d => d - PPP_HDRLEN |>, rest))) ;;
      match l with
      | None => ret None
      | Some (m, rest) =>
          m <- access (m_store (m_data m) hdr m) ;;
          ret (Some (m <| m_len ::= Z.add PPP_HDRLEN |> :: rest))
      end
  end.

(** From the header on. *)
Definition output_packet (fast : bool) (l : chain) (address control protocol : Z) : D Z :=
  l <- put_header l [address; control; Z.land (Z.shiftr protocol 8) 0xff; Z.land protocol 0xff] ;;
  match l with
  | None => fail ENOBUFS
  | Some l =>
      hook <- gets d_outhook ;;
      taken <- run_hook hook l ;;
      if taken then ret 0 else
      q <- gets (if fast then sc_fastq else if_snd) ;;
      let put q := modify (fun s => if fast then s <| sc_fastq := q |> else s <| if_snd := q |>) in
      if IF_QFULL q then
        put (IF_DROP q) ;;
        modify (fun s => s <| if_oerrors ::= fun n => u32 (n + 1) |>) ;;
        fail ENOBUFS
      else
        put (IF_ENQUEUE q l) ;;
        modify (fun s => s <| sc_wrtsem := true |>) ;;
        ret 0
  end.

Definition is_unspec (dst : sockaddr) : bool :=
  match dst with AF_UNSPEC _ _ _ => true | _ => false end.
Definition pppoutput (m0 : chain) (dst : sockaddr) : D Z :=
  fd <- gets sc_fd ;;
  fl <- gets if_flags ;;
  if ((fd =? 0) || negb (has fl IFF_RUNNING) || negb (has fl IFF_UP)) && negb (is_unspec dst)
  then fail ENETDOWN
  else
    match dst with
    | AF_INET =>
        enabled <- flag SC_ENABLE_IP ;;
        if negb enabled then fail ENETDOWN else
        modify (fun s => s <| sc_ipsent ::= fun n => u32 (n + 1) |>) ;;
        m <- access (head m0) ;;
        fast <- interactive m ;;
        output_packet fast m0 PPP_ALLSTATIONS PPP_UI PPP_IP
    | AF_UNSPEC address control protocol => output_packet false m0 address control protocol
    | AF_OTHER => fail EAFNOSUPPORT
    end.

(** *** Compression of headers *)

(** TCP/IP: the head of the chain with [cp], the place of the PPP header, and
    the protocol. *)
Definition ip_mbuf (cp : Z) (m : mbuf) (rest : chain) : option (bool * mbuf * Z) :=
  if m_len m <=? PPP_HDRLEN then
    match rest with [] => None | m' :: _ => Some (false, m', m_data m') end
  else Some (true, m, cp + PPP_HDRLEN).
Definition compress_tcp (cp address control : Z) (m : mbuf) (rest : chain) :
    D (Z * Z * mbuf * chain) :=
  match ip_mbuf cp m rest with
  | None => ret (cp, PPP_IP, m, rest)
  | Some (in_head, mp, ip) =>
      pr <- access (m_byte (ip + 9) mp) ;;
      if pr =? IPPROTO_TCP then
        comp <- gets sc_comp ;;
        nocid <- flag SC_NO_TCP_CCID ;;
        let '(type, mp, comp) := sl_compress_tcp mp ip comp (negb nocid) in
        modify (fun s => s <| sc_comp := comp |>) ;;
        let m := if in_head : bool then mp else m in
        let rest := if in_head then rest else mp :: tail rest in
        let protocol := if type =? TYPE_UNCOMPRESSED_TCP then PPP_VJC_UNCOMP
                        else if type =? TYPE_COMPRESSED_TCP then PPP_VJC_COMP else PPP_IP in
        let cp := if type =? TYPE_COMPRESSED_TCP then m_data m else cp in
        m <- access (if type =? TYPE_COMPRESSED_TCP then m_store cp [address; control; 0] m
                     else Some m) ;;
        m <- access (m_store (cp + 3) [protocol] m) ;;
        ret (cp, protocol, m, rest)
      else ret (cp, PPP_IP, m, rest)
  end.
(** Address, control and protocol. *)
Definition compress_header (flags cp address control protocol : Z) (m : mbuf) : option mbuf :=
  let m :=
    if has flags SC_COMP_AC && (address =? PPP_ALLSTATIONS) && (control =? PPP_UI)
       && negb (protocol =? PPP_ALLSTATIONS) && negb (protocol =? PPP_LCP)
    then m <| m_data ::= Z.add 2 |> <| m_len ::= fun n => n - 2 |> else m in
  if has flags SC_COMP_PROT && (protocol <? 0xFF) then
    let m := if m_data m =? cp
             then match m_read cp 2 m with Some b => m_store (cp + 1) b m | None => None end
             else Some m in
    match m with
    | Some m => Some (m <| m_data ::= Z.succ |> <| m_len ::= Z.pred |>)
    | None => None
    end
  else Some m.

Definition take_packet : D (option chain) :=
  q <- gets sc_fastq ;;
  match IF_DEQUEUE q with
  | (Some m, q) => modify (fun s => s <| sc_fastq := q |>) ;; ret (Some m)
  | (None, _) =>
      q <- gets if_snd ;;
      let '(m, q) := IF_DEQUEUE q in
      modify (fun s => s <| if_snd := q |>) ;; ret m
  end.
Definition ppp_dequeue : D (option chain) :=
  l <- take_packet ;;
  match l with
  | None => ret None
  | Some [] => fault
  | Some (m :: rest) =>
      let cp := m_data m in
      hdr <- access (m_read cp PPP_HDRLEN m) ;;
      match hdr with
      | [address; control; p2; p3] =>
          let protocol := Z.shiftl p2 8 + p3 in
          tcp <- flag SC_COMP_TCP ;;
          r <- (if (protocol =? PPP_IP) && tcp then compress_tcp cp address control m rest
                else ret (cp, protocol, m, rest)) ;;
          let '(cp, protocol, m, rest) := r in
          flags <- gets sc_flags ;;
          m <- access (compress_header flags cp address control protocol m) ;;
          ret (Some (m :: rest))
      | _ => fault
      end
  end.

(** *** Framing *)

Definition sent {X} (n : Z) : drvM X () := modify (fun s => s <| sc_bytessent ::= fun b => u32 (b + n) |>).

(** The bytes before the first that is escaped. *)
Fixpoint plain (map : list Z) (l : list Z) : option nat :=
  match l with
  | [] => Some O
  | c :: l =>
      match escapes map c with
      | Some true => Some O
      | Some false => match plain map l with Some n => Some (S n) | None => None end
      | None => None
      end
  end.
(** The loop over [nleft]: every call writes from [start] again. *)
Fixpoint write_run (fuel : nat) (run : list Z) (nleft : Z) : D Z :=
  if 0 <? nleft then
    match fuel with
    | O => hang
    | S fuel =>
        cc <- write run ;;
        if cc <=? 0 then ret nleft
        else write_run fuel run (nleft - (if nleft <? cc then nleft else cc))
    end
  else ret nleft.
(** The bytes of an mbuf; returns those that are left. *)
Fixpoint send_bytes (fuel : nat) (l : list Z) : D (list Z) :=
  match l with
  | [] => ret []
  | _ =>
    match fuel with
    | O => hang
    | S fuel =>
        map <- gets sc_asyncmap ;;
        n <- access (plain map l) ;;
        nleft <- (if Nat.eqb n 0 then ret 0
                  else r <- write_run n (take n l) (Z.of_nat n) ;;
                       sent (Z.of_nat n - r) ;; ret r) ;;
        let l := drop (n - Z.to_nat nleft) l in
        if 0 <? nleft then ret l else
        match l with
        | [] => ret []
        | c :: l' =>
            w <- write [PPP_ESCAPE] ;;
            if negb (w =? 1) then ret l else
            w <- write [Z.lxor c PPP_TRANS] ;;
            if negb (w =? 1) then ret l else
            sent 2 ;; send_bytes fuel l'
        end
    end
  end.
Definition escape_byte (c : Z) : D (list Z) :=
  e <- ESCAPE_P c ;; ret (if e : bool then [PPP_ESCAPE; Z.lxor c PPP_TRANS] else [c]).
Definition send_trailer : D () :=
  fcs <- gets sc_outfcs ;;
  lo <- escape_byte (fcs_lo fcs) ;;
  hi <- escape_byte (fcs_hi fcs) ;;
  _ <- write (lo ++ hi ++ [PPP_FLAG]) ;; ret tt.
Fixpoint send_chain (l : chain) : D () :=
  match l with
  | [] => ret tt
  | m :: rest =>
      b <- access (m_bytes m) ;;
      left <- send_bytes (length b) b ;;
      match left, rest with
      | [], [] => send_trailer
      | [], m' :: _ =>
          b <- access (m_bytes m') ;;
          modify (fun s => s <| sc_outfcs ::= fun f => pppfcs f b |>) ;;
          send_chain rest
      | _, _ =>
          let n := Z.of_nat (length left) in
          modify (fun s => s <| sc_outm := Some (m <| m_data := m_data m + (m_len m - n) |>
                                                   <| m_len := n |> :: rest) |>)
      end
  end.

(** One turn of the loop of [ppp_wrt_task]: whether there was a packet.
    [ppp_wrt_flush] has the same loop but for [if_obytes]. *)
Definition wrt_packet (flushing : bool) : D bool :=
  outm <- gets sc_outm ;;
  l <- match outm with
       | Some l => ret (Some l)
       | None =>
           l <- ppp_dequeue ;;
           match l with
           | Some (m :: _) =>
               t <- gets d_tty ;;
               when (tty_nwrite t =? 0) (sent 1 ;; _ <- write [PPP_FLAG] ;; ret tt) ;;
               b <- access (m_bytes m) ;;
               modify (fun s => s <| sc_outfcs := pppfcs PPP_INITFCS b |>) ;;
               ret l
           | _ => ret None
           end
       end ;;
  match l with
  | None => ret false
  | Some l =>
      send_chain l ;;
      modify (fun s => s <| sc_outm := None |>) ;;
      sent 1 ;;
      modify (fun s => s <| if_opackets ::= fun n => u32 (n + 1) |>) ;;
      when (negb flushing) (modify (fun s => s <| if_obytes := sc_bytessent s |>)) ;;
      ret true
  end.
Fixpoint wrt_loop (flushing : bool) (fuel : nat) : D () :=
  match fuel with
  | O => hang
  | S fuel => more <- wrt_packet flushing ;; if more : bool then wrt_loop flushing fuel else ret tt
  end.
(** The packets that can be waiting, and the turn that finds none. *)
Definition queued (s : drv) : nat :=
  (S (S (length (ifq_list (sc_fastq s)) + length (ifq_list (if_snd s)))))%nat.
(** From one [semTake] of the task to the next. *)
Definition ppp_wrt_task : D () :=
  modify (fun s => s <| sc_wrtsem := false |>) ;;
  fuel <- gets queued ;; wrt_loop false fuel.
Definition ppp_wrt_flush : D () := fuel <- gets queued ;; wrt_loop true fuel.

(** ** The daemon's side *)

(** The loop over [count]: [buf] is copied from its start each time. *)
Fixpoint write_mbufs (fuel : nat) (buf : list Z) (count : Z) : D (option chain) :=
  if count =? 0 then ret (Some []) else
  match fuel with
  | O => hang
  | S fuel =>
      p <- gets d_pool ;;
      let '(m, p) := mBufClGet count p in
      modify (fun s => s <| d_pool := p |>) ;;
      match m with
      | None => ret None
      | Some m =>
          let len := if count <? M_DATASIZE m then count else M_DATASIZE m in
          m <- access (m_store (m_data m) (take (Z.to_nat len) buf) m) ;;
          l <- write_mbufs fuel buf (count - len) ;;
          ret (match l with Some l => Some (m <| m_len := len |> :: l) | None => None end)
      end
  end.
(** [buf] are the [count] bytes. *)
Definition pppwrite (buf : list Z) : D Z :=
  let count := Z.of_nat (length buf) in
  mtu <- gets if_mtu ;;
  if (u32 (mtu + PPP_HDRLEN) <? count) || (count <? PPP_HDRLEN)
  then _ <- fail EMSGSIZE ;; ret (-1)
  else
    l <- write_mbufs (length buf) buf count ;;
    match l with
    | None => _ <- fail ENOBUFS ;; ret (-1)
    | Some [] => fault
    | Some (m :: rest) =>
        h <- access (m_read (m_data m) PPP_HDRLEN m) ;;
        match h with
        | [address; control; p2; p3] =>
            pppoutput (m <| m_data ::= Z.add PPP_HDRLEN |> <| m_len ::= fun n => n - PPP_HDRLEN |>
                       :: rest)
              (AF_UNSPEC address control (p2 * 256 + p3))
        | _ => fault
        end
    end.

(** [size] is the size of [buf], which [count] should be: [copy_from_mbufs]
    only stores the bytes it copied into it. *)
Definition pppread (size : Z) : D (list Z) :=
  q <- gets sc_inq ;;
  let '(m, q) := IF_DEQUEUE q in
  modify (fun s => s <| sc_inq := q |>) ;;
  match m with
  | None => ret []
  | Some l => copy_chain l size
  end.

(** ** The line's side *)

Definition is_T (c : Z) : bool := Z.land c 0xff =? 0x54.
(** The hook of the tty, at interrupt level; a job is the [count] with which
    [ppp_tty_read] will be called. *)
Definition pppintr (c : Z) : D () :=
  qlen <- gets sc_qlen ;;
  t <- gets d_tty ;;
  when (qlen =? 0) (if tty_full t then set_flag SC_DISCARD_PKT else clear_flag SC_DISCARD_PKT) ;;
  modify (fun s => s <| sc_qlen ::= fun n => s16 (n + 1) |>) ;;
  qlen <- gets sc_qlen ;;
  let job := modify (fun s => s <| d_jobs ::= fun l => l ++ [qlen] |>) in
  if PPPBUFSIZE <? qlen then job ;; modify (fun s => s <| sc_qlen := 0 |>) else
  opened <- gets d_opened ;;
  if negb opened && is_T c then job else
  when (Z.land c 0xff =? PPP_FLAG) (job ;; modify (fun s => s <| sc_qlen := 0 |>)).

Definition CLIENT : list Z := [67; 76; 73; 69; 78; 84].
Definition CLIENTSERVER : list Z := CLIENT ++ [83; 69; 82; 86; 69; 82].
Fixpoint input_all (l : list Z) : D () :=
  match l with [] => ret tt | c :: l => pppinput c ;; input_all l end.
(** [stack] is what the buffer holds before the read. *)
Definition ppp_tty_read (stack : list Z) (count : Z) : D () :=
  t <- gets d_tty ;;
  let '(num, b, t) := tty_read count t in
  modify (fun s => s <| d_tty := t |>) ;;
  if PPPBUFSIZE <? count then ierror else
  opened <- gets d_opened ;;
  let buf := b ++ drop (length b) stack in
  if negb opened && bool_decide (take 6 buf = CLIENT) then
    modify (fun s => s <| sc_qlen := 0 |>) ;; _ <- write CLIENTSERVER ;; ret tt
  else
    discard <- flag SC_DISCARD_PKT ;;
    if discard then ierror ;; clear_flag SC_DISCARD_PKT
    else input_all (take (Z.to_nat num) b).

(** ** Requests *)

Inductive request :=
  | FIONREAD | PPPIOCGUNIT | PPPIOCGFLAGS | PPPIOCSFLAGS (flags : Z)
  | PPPIOCSASYNCMAP (map : Z) | PPPIOCGASYNCMAP | PPPIOCSRASYNCMAP (map : Z) | PPPIOCGRASYNCMAP
  | PPPIOCSXASYNCMAP (map : list Z) | PPPIOCGXASYNCMAP
  | PPPIOCSMRU (mru : Z) | PPPIOCGMRU | PPPIOCSMAXCID (n : Z) | PPPIOCXFERUNIT
  | SIOCSIFMTU (mtu : Z) | SIOCGIFMTU | PPPIOCGFD | UNKNOWN_REQUEST.

(** The protected entries of a map that may escape any character. *)
Definition protect (map : list Z) : list Z :=
  alter (Z.lor 0x60000000) 3%nat (alter (fun w => Z.ldiff w 0x40000000) 2%nat (<[1%nat := 0]> map)).
Definition set_mru (mru : Z) : D Z :=
  if (PPP_MRU <=? mru) && (mru <=? PPP_MAXMRU) then
    modify (fun s => s <| sc_mru := s16 mru |>) ;;
    ok <- pppgetm ;;
    if ok : bool then ret 0
    else
      modify (fun s => s <| sc_mru := PPP_MRU |>) ;;
      ok <- pppgetm ;;
      when (negb ok) (modify (fun s => s <| if_flags ::= fun f => Z.ldiff f IFF_UP |>)) ;;
      ret ENOBUFS
  else ret 0.
(** The result, and the integers that are stored through [data]. *)
Definition ppptioctl (r : request) : D (Z * list Z) :=
  let get f := v <- gets f ;; ret (0, [v]) in
  let set f := modify f ;; ret (0, []) in
  match r with
  | FIONREAD => get sc_qlen
  | PPPIOCGUNIT => get if_unit
  | PPPIOCGFLAGS => get sc_flags
  | PPPIOCSFLAGS v => set (fun s => s <| sc_flags ::= fun f => Z.lor (Z.ldiff f SC_MASK) (Z.land v SC_MASK) |>)
  | PPPIOCSASYNCMAP v => set (fun s => s <| sc_asyncmap ::= <[O := v]> |>)
  | PPPIOCGASYNCMAP => m <- gets sc_asyncmap ;; v <- access (m !! O) ;; ret (0, [v])
  | PPPIOCSRASYNCMAP v => set (fun s => s <| sc_rasyncmap := v |>)
  | PPPIOCGRASYNCMAP => get sc_rasyncmap
  | PPPIOCSXASYNCMAP map => set (fun s => s <| sc_asyncmap := protect map |>)
  | PPPIOCGXASYNCMAP => m <- gets sc_asyncmap ;; ret (0, m)
  | PPPIOCSMRU mru => e <- set_mru mru ;; ret (e, [])
  | PPPIOCGMRU => get sc_mru
  | PPPIOCSMAXCID n =>
      if MAX_STATES <? n then ret (EINVAL, []) else set (fun s => s <| sc_comp := sl_compress_init |>)
  | PPPIOCXFERUNIT => ret (0, [])
  | SIOCSIFMTU v => set (fun s => s <| if_mtu := v |>)
  | SIOCGIFMTU => get if_mtu
  | PPPIOCGFD => get sc_fd
  | UNKNOWN_REQUEST => ret (ENOTSUP, [])
  end.
End Driver.
