(* ===== verification/IfDemo.v ===== *)
(** * if_ppp.c: a concrete environment

    A pool whose mbufs have clusters of their own, a line that takes all that is
    written, and a line that takes one byte of a [write]; the unit behind
    [pppopen], for the runs of the other files. *)

From stdpp Require Import base list numbers.
From S2P Require Export IfPpp.

(** [cluster n]: the size of the cluster for a request of [n] bytes. *)
Definition fresh (size : Z) : mbuf := mk_mbuf (replicate (Z.to_nat size) 0) 0 0.
Definition demo_env (cluster : Z -> Z) (takes_of : Z -> Z) : DrvEnv := {|
  slcomp := unit;
  sl_compress_init := tt;
  sl_compress_tcp m ip c cid := (0x40, m, c);
  sl_uncompress_tcp m n type c := (0, m, c);
  sl_uncompress_error c := c;
  pool := nat;
  mHdrClGet n p := (Some (fresh (cluster n)), S p);
  mBufClGet n p := (Some (fresh (cluster n)), S p);
  m_prepend l n p := (Some (mk_mbuf (replicate (Z.to_nat (cluster n)) 0) 0 n :: l), S p);
  tty := unit;
  tty_write bs t := (takes_of (Z.of_nat (length bs)), t);
  tty_nwrite t := 0;
  tty_full t := false;
  tty_read n t := (0, [], t) |}.
(** The line takes everything. *)
Definition line_env : DrvEnv := demo_env (Z.max 2048) (fun n => n).
(** Clusters of eight bytes. *)
Definition small_env : DrvEnv := demo_env (fun _ => 8) (fun n => n).
(** The line takes one byte at a time. *)
Definition slow_env : DrvEnv := demo_env (Z.max 2048) (Z.min 1).

(** The map that [pppopen] begins with. *)
Definition open_map : list Z := [0xffffffff; 0; 0; 0x60000000; 0; 0; 0; 0].
Definition no_queue : ifqueue := mk_ifq [] IFQ_MAXLEN 0.
(** A unit between two packets, with the packets [snd] to be sent. *)
Definition demo_unit (E : DrvEnv) (p : @pool E) (t : @tty E) (flags : Z) (snd : list (list mbuf)) : @drv E :=
  {| if_unit := 0; if_mtu := PPP_MTU; if_flags := Z.lor IFF_UP IFF_RUNNING; if_snd := mk_ifq snd IFQ_MAXLEN 0;
     if_ipackets := 0; if_ierrors := 0; if_opackets := 0; if_oerrors := 0; if_iqdrops := 0;
     if_ibytes := 0; if_obytes := 0; sc_flags := flags; sc_mru := PPP_MRU; sc_inq := no_queue;
     sc_fastq := no_queue; sc_comp := sl_compress_init; sc_bytessent := 0; sc_bytesrcvd := 0;
     sc_ipsent := 0; sc_iprcvd := 0; sc_asyncmap := open_map; sc_rasyncmap := 0; sc_outm := None;
     sc_m := [fresh 2048]; sc_mc := None; sc_mp := 0; sc_ilen := 0; sc_fcs := 0; sc_outfcs := 0;
     sc_rawin := replicate 16 0; sc_rawin_count := 0; sc_fd := 3; sc_qlen := 0; sc_wrtsem := false;
     d_pool := p; d_tty := t; d_wire := []; d_ipintrq := no_queue; d_ip := []; d_sigio := 0;
     d_jobs := []; d_errno := 0; d_inhook := None; d_outhook := None; d_opened := true |}.
Definition line_unit (flags : Z) (snd : list (list mbuf)) : @drv line_env :=
  demo_unit line_env (0%nat : @pool line_env) (tt : @tty line_env) flags snd.

(** A Configure-Request of LCP without options, and its chain. *)
Definition lcp_packet : list Z := [PPP_ALLSTATIONS; PPP_UI; 0xc0; 0x21; 1; 1; 0; 4].
(** A packet of IP. *)
Definition ip_packet : list Z := [PPP_ALLSTATIONS; PPP_UI; 0x00; 0x21; 0x45; 0x7e; 0x7d; 0x11].
Definition in_mbuf (p : list Z) : list mbuf := [mk_mbuf p 0 (Z.of_nat (length p))].
