(* ===== verification/IfIn.v ===== *)
(** * if_ppp.c: what the receiver makes of the bytes of a frame

    The collection of a packet in the chain of mbufs against a specification
    on lists of bytes, with the compressed headers. *)

From stdpp Require Import base list numbers.
From S2P Require Export IfPpp IfDemo.

(** ** The specification: the packet so far and the next octet *)

Definition with_address (d : list Z) (c : Z) : list Z :=
  if decide (d = []) then if c =? PPP_ALLSTATIONS then [] else [PPP_ALLSTATIONS; PPP_UI] else d.
Definition with_protocol (d : list Z) (c : Z) : list Z :=
  if (Z.of_nat (length d) =? 2) && (Z.land c 1 =? 1) then d ++ [0] else d.
(** [None]: the octet cannot be there. *)
Definition oct (rej : bool) (d : list Z) (c : Z) : option (list Z) :=
  if bool_decide (d = []) && negb (c =? PPP_ALLSTATIONS) && rej then None else
  let d := with_address d c in
  if (Z.of_nat (length d) =? 1) && negb (c =? PPP_UI) then None else
  let d := with_protocol d c in
  if (Z.of_nat (length d) =? 3) && (Z.land c 1 =? 0) then None else
  Some (d ++ [c]).
Fixpoint octs (rej : bool) (d u : list Z) : option (list Z) :=
  match u with
  | [] => Some d
  | c :: u => match oct rej d c with Some d => octs rej d u | None => None end
  end.

(** With the limit of the length. *)
Definition takes (rej : bool) (mru : Z) (d : list Z) (c : Z) : option (list Z) :=
  match oct rej d c with
  | Some d' => if Z.of_nat (length d') <=? mru + PPP_HDRLEN + PPP_FCSLEN then Some d' else None
  | None => None
  end.
Fixpoint takes_all (rej : bool) (mru : Z) (d u : list Z) : option (list Z) :=
  match u with
  | [] => Some d
  | c :: u => match takes rej mru d c with Some d => takes_all rej mru d u | None => None end
  end.
(** The packet in the octets [u], of which [d] has been collected. *)
Definition packet_of (u d : list Z) : option (list Z) :=
  if (PPP_HDRLEN + PPP_FCSLEN <=? Z.of_nat (length d)) && (pppfcs PPP_INITFCS u =? PPP_GOODFCS)
  then Some (take (length d - 2) d) else None.
(** The packet in the octets between two flags. *)
Definition receive (rej : bool) (mru : Z) (u : list Z) : option (list Z) :=
  match takes_all rej mru [] u with Some d => packet_of u d | None => None end.

(** ** The line *)

Definition encode1 (map : list Z) (c : Z) : list Z :=
  match escapes map c with Some true => [PPP_ESCAPE; Z.lxor c PPP_TRANS] | _ => [c] end.
Definition encode (map : list Z) (u : list Z) : list Z := concat (encode1 map <$> u).

(** An octet that the line does not mark: neither the flag nor in the map of
    those that the receiver ignores. *)
Definition passes (rmap c : Z) : Prop :=
  (c =? PPP_FLAG) = false /\ ((c <? 0x20) && has rmap (Z.shiftl 1 c)) = false.
(** The bytes of the line, one by one: the octets [u] of the frame and what has
    been collected of them, behind an escape or not, or the rest of a frame
    that is thrown away. *)
Inductive rx := Throwing | Taking (escaped : bool) (u d : list Z).
Definition rx_start : rx := Taking false [] [].
Definition line_octet (rej : bool) (mru : Z) (u d : list Z) (c : Z) : rx :=
  match takes rej mru d c with Some d => Taking false (u ++ [c]) d | None => Throwing end.
Definition line_byte (rmap : Z) (rej : bool) (mru : Z) (st : rx) (c : Z) : rx * option (list Z) :=
  if c =? PPP_FLAG then
    (rx_start, match st with Taking false u d => packet_of u d | _ => None end)
  else
    (match st with
     | Throwing => Throwing
     | Taking escaped u d =>
         if (c <? 0x20) && has rmap (Z.shiftl 1 c) then st
         else if escaped then line_octet rej mru u d (Z.lxor c PPP_TRANS)
         else if c =? PPP_ESCAPE then Taking true u d
         else line_octet rej mru u d c
     end, None).
Fixpoint line_run (rmap : Z) (rej : bool) (mru : Z) (st : rx) (l : list Z) : rx * list (list Z) :=
  match l with
  | [] => (st, [])
  | c :: l =>
      let '(st, p) := line_byte rmap rej mru st c in
      let '(st, ps) := line_run rmap rej mru st l in
      (st, match p with Some p => p :: ps | None => ps end)
  end.

(** What the map of the one side must be for that of the other. *)
Definition maps_agree (tmap : list Z) (rmap : Z) : Prop :=
  forall c, is_u8 c ->
    match escapes tmap c with
    | Some true => passes rmap (Z.lxor c PPP_TRANS)
    | Some false => passes rmap c /\ c <> PPP_ESCAPE
    | None => False
    end.

(** ** Flags *)

Lemma has_lor f b x : has (Z.lor f b) x = has f x || has b x.
Proof.
  unfold has. rewrite Z.land_lor_distr_l.
  destruct (Z.eqb_spec (Z.land f x) 0) as [->|H1]; [by rewrite Z.lor_0_l|].
  destruct (Z.eqb_spec (Z.lor (Z.land f x) (Z.land b x)) 0) as [H2|]; [|done].
  by apply Z.lor_eq_0_iff in H2 as [].
Qed.
Lemma has_ldiff f b x : Z.land b x = 0 -> has (Z.ldiff f b) x = has f x.
Proof.
  intros H. unfold has. do 2 f_equal. apply Z.bits_inj'. intros n Hn.
  apply (f_equal (fun z => Z.testbit z n)) in H. rewrite Z.land_spec, Z.bits_0 in H.
  rewrite !Z.land_spec, Z.ldiff_spec.
  by destruct (Z.testbit f n), (Z.testbit b n), (Z.testbit x n).
Qed.
Lemma ldiff_ldiff_same f b : has (Z.ldiff f b) b = false.
Proof. unfold has. by rewrite Z.ldiff_land, <- Z.land_assoc, (Z.land_comm (Z.lnot b)), Z.land_lnot_diag,
  Z.land_0_r. Qed.

(** The flags that input changes. *)
Definition VOLATILE : Z :=
  Z.lor (Z.lor SC_ESCAPED SC_FLUSH) (Z.lor (Z.lor SC_RCV_B7_0 SC_RCV_B7_1) (Z.lor SC_RCV_EVNP SC_RCV_ODDP)).
Lemma steady_lor f b : Z.ldiff b VOLATILE = 0 -> Z.ldiff (Z.lor f b) VOLATILE = Z.ldiff f VOLATILE.
Proof.
  intros H. rewrite !Z.ldiff_land, Z.land_lor_distr_l, <- Z.ldiff_land, <- (Z.ldiff_land b), H.
  apply Z.lor_0_r.
Qed.
Lemma steady_ldiff f b : Z.ldiff b VOLATILE = 0 -> Z.ldiff (Z.ldiff f b) VOLATILE = Z.ldiff f VOLATILE.
Proof.
  intros H. apply Z.bits_inj'. intros n Hn. apply (f_equal (fun z => Z.testbit z n)) in H.
  rewrite Z.ldiff_spec, Z.bits_0 in H. rewrite !Z.ldiff_spec.
  by destruct (Z.testbit f n), (Z.testbit b n), (Z.testbit VOLATILE n).
Qed.
Lemma steady_has f f' x : Z.ldiff f' VOLATILE = Z.ldiff f VOLATILE -> Z.land VOLATILE x = 0 ->
  has f' x = has f x.
Proof. intros H Hx. by rewrite <- (has_ldiff f' VOLATILE), H, has_ldiff. Qed.

(** In the middle of an escape, or of a frame that is thrown away. *)
Definition BUSY : Z := Z.lor SC_FLUSH SC_ESCAPED.

Section Input.
Context {E : DrvEnv}.
Implicit Types w : drv.

(** ** What input leaves alone *)

Definition outside w : drv :=
  w <| sc_flags ::= fun f => Z.ldiff f VOLATILE |> <| sc_bytesrcvd := 0 |> <| if_ibytes := 0 |>
    <| sc_m := [] |> <| sc_mc := None |> <| sc_mp := 0 |> <| sc_ilen := 0 |> <| sc_fcs := 0 |>
    <| if_ierrors := 0 |> <| sc_comp := sl_compress_init |>.
Definition keeps w w' : Prop := outside w' = outside w.
#[global] Instance keeps_pre : PreOrder keeps.
Proof. unfold keeps. split; [done|intros a b c H1 H2; congruence]. Qed.

Lemma keeps_flag w w' x : keeps w w' -> Z.land VOLATILE x = 0 ->
  has (sc_flags w') x = has (sc_flags w) x.
Proof. intros H. apply (f_equal sc_flags) in H. by apply steady_has. Qed.
Lemma keeps_mru w w' : keeps w w' -> sc_mru w' = sc_mru w.
Proof. intros H. exact (f_equal sc_mru H). Qed.
Lemma keeps_map w w' : keeps w w' -> sc_rasyncmap w' = sc_rasyncmap w.
Proof. intros H. exact (f_equal sc_rasyncmap H). Qed.
Lemma keeps_raw w w' : keeps w w' -> sc_rawin_count w' = sc_rawin_count w.
Proof. intros H. exact (f_equal sc_rawin_count H). Qed.

Lemma keeps_set_flag w b : Z.ldiff b VOLATILE = 0 -> keeps w (w <| sc_flags ::= fun f => Z.lor f b |>).
Proof.
  intros H. unfold keeps, outside. cbv beta delta [upd]. cbn.
  pose proof (steady_lor (sc_flags w) b H) as Hs. cbv beta delta [set_sc_flags]. cbn. by rewrite Hs.
Qed.

(** ** A packet being collected *)

Definition sizes (l : chain) : Z := foldr (fun m n => M_DATASIZE m + n) 0 l.
(** The room of an mbuf that starts a packet. *)
Definition header_off (m : mbuf) : Z := if HDROFF + PPP_HDRLEN <=? M_DATASIZE m then HDROFF else 0.
Definition cluster_ok (m : mbuf) : Prop := 6 <= M_DATASIZE m - header_off m.
Definition full (m : mbuf) : Prop := mbuf_ok m /\ cluster_ok m /\ 6 <= m_len m.

(** The chain holds [d], with [sc_mp] behind it in mbuf [m]; [u] are the octets
    that have been counted in the FCS. *)
Record held (w0 w : drv) (u d : list Z) (pre : chain) (m : mbuf) (post : chain) : Prop := {
  h_keeps : keeps w0 w;
  h_flags : has (sc_flags w) BUSY = false;
  h_fcs : sc_fcs w = pppfcs PPP_INITFCS u;
  h_chain : sc_m w = pre ++ m :: post;
  h_cur : sc_mc w = Some (length pre);
  h_mp : sc_mp w = m_data m + m_len m;
  h_full : Forall full pre;
  h_ok : mbuf_ok m;
  h_wide : 6 <= M_DATASIZE m - m_data m;
  h_clm : cluster_ok m;
  h_post : Forall cluster_ok post;
  h_data : contents pre ++ content m = d;
  h_room : sc_mru w + 6 - Z.of_nat (length d) <= M_TRAILINGSPACE m + sizes post;
  h_sizes : HDROFF + sc_mru w + 6 <= sizes (sc_m w) }.

(** The mbufs of the next packet. *)
Definition chain_ok w : Prop :=
  Forall cluster_ok (sc_m w) /\ HDROFF + sc_mru w + 6 <= sizes (sc_m w)
  /\ 0 <= sc_mru w < 2 ^ 15 - 7.

(** Between packets. *)
Record ready (w0 w : drv) : Prop := {
  r_keeps : keeps w0 w;
  r_flags : has (sc_flags w) BUSY = false;
  r_ilen : sc_ilen w = 0;
  r_clusters : Forall cluster_ok (sc_m w);
  r_room : HDROFF + sc_mru w + 6 <= sizes (sc_m w);
  r_mru : 0 <= sc_mru w < 2 ^ 15 - 7 }.

Lemma held_short w0 w u d pre m post : held w0 w u d pre m post -> Z.of_nat (length d) < 6 ->
  pre = [] /\ content m = d.
Proof.
  intros Hh Hd. pose proof (h_data _ _ _ _ _ _ _ Hh) as Hc.
  destruct pre as [|m0 pre]; [done|]. exfalso.
  pose proof (h_full _ _ _ _ _ _ _ Hh) as Hf. inversion_clear Hf as [|? ? (Hok & _ & Hlen) _].
  rewrite <- Hc in Hd. unfold contents in Hd. cbn [fmap list_fmap concat] in Hd.
  rewrite !length_app in Hd. pose proof (length_content m0 Hok). lia.
Qed.

Lemma wp_current {X} w (Q : nat * mbuf -> drv -> Prop) (E' : X -> drv -> Prop) pre m post :
  sc_m w = pre ++ m :: post -> sc_mc w = Some (length pre) ->
  Q (length pre, m) w -> wp False (current (X:=X)) Q E' w.
Proof.
  intros Hm Hc HQ. unfold current. wp_go. eapply wp_access; [exact Hc|]. wp_go.
  eapply wp_access; [by rewrite Hm, list_lookup_middle|]. wp_go. exact HQ.
Qed.

(** The state with another current mbuf. *)
Definition with_mbuf w (pre : chain) (m : mbuf) (post : chain) (p : Z) : drv :=
  w <| sc_m := pre ++ m :: post |> <| sc_mp := p |>.

Lemma insert_middle {A} (pre : list A) x y post : <[length pre := y]> (pre ++ x :: post) = pre ++ y :: post.
Proof. by rewrite insert_app_r_alt, Nat.sub_diag by lia. Qed.

Lemma wp_store {X} w c m' (Q : () -> drv -> Prop) (E' : X -> drv -> Prop) pre m post :
  sc_m w = pre ++ m :: post -> sc_mc w = Some (length pre) -> m_store (sc_mp w) [c] m = Some m' ->
  Q tt (with_mbuf w pre m' post (sc_mp w + 1)) -> wp False (store (X:=X) c) Q E' w.
Proof.
  intros Hm Hc Hs HQ. unfold store. wp_step. apply (wp_current w _ _ pre m post); [done..|].
  cbn [fst snd]. wp_go. eapply wp_access; [exact Hs|]. unfold put_mbuf. wp_go.
  revert HQ. unfold with_mbuf. rewrite <- (insert_middle pre m m' post), <- Hm. done.
Qed.
Lemma wp_longer {X} w n (Q : () -> drv -> Prop) (E' : X -> drv -> Prop) pre m post :
  sc_m w = pre ++ m :: post -> sc_mc w = Some (length pre) ->
  Q tt (w <| sc_m := pre ++ m <| m_len ::= Z.add n |> :: post |>) -> wp False (longer (X:=X) n) Q E' w.
Proof.
  intros Hm Hc HQ. unfold longer. wp_step. apply (wp_current w _ _ pre m post); [done..|].
  unfold put_mbuf. wp_go. revert HQ. cbn [fst snd].
  rewrite <- (insert_middle pre m _ post), <- Hm. done.
Qed.

Lemma sizes_middle pre m post : sizes (pre ++ m :: post) = sizes pre + M_DATASIZE m + sizes post.
Proof.
  induction pre as [|x pre IH]; [unfold sizes; cbn; lia|].
  change (sizes ((x :: pre) ++ m :: post)) with (M_DATASIZE x + sizes (pre ++ m :: post)).
  change (sizes (x :: pre)) with (M_DATASIZE x + sizes pre). lia.
Qed.
Lemma sizes_app l m : sizes (l ++ [m]) = sizes l + M_DATASIZE m.
Proof. rewrite sizes_middle. unfold sizes. cbn. lia. Qed.
Lemma held_step w0 w w' u u' d bs pre m m' post : held w0 w u d pre m post -> keeps w w' ->
  has (sc_flags w') BUSY = false -> sc_fcs w' = pppfcs PPP_INITFCS u' ->
  sc_m w' = pre ++ m' :: post -> sc_mc w' = Some (length pre) -> sc_mp w' = m_data m' + m_len m' ->
  mbuf_ok m' -> content m' = content m ++ bs -> m_data m' = m_data m ->
  M_DATASIZE m' = M_DATASIZE m -> held w0 w' u' (d ++ bs) pre m' post.
Proof.
  intros [] Hk Hfl Hf Hm Hc Hp Hok Hcont Hd Hs. split; try done.
  - by trans w.
  - by rewrite Hs, Hd.
  - unfold cluster_ok, header_off in *. by rewrite Hs.
  - by rewrite Hcont, app_assoc, h_data0.
  - rewrite (keeps_mru _ _ Hk). unfold M_TRAILINGSPACE in *.
    assert (Hl : m_len m' = m_len m + Z.of_nat (length bs)).
    { rewrite <- !length_content, Hcont, length_app by done. lia. }
    rewrite length_app, Hs, Hd, Hl. lia.
  - rewrite (keeps_mru _ _ Hk), Hm, sizes_middle, Hs. by rewrite h_chain0, sizes_middle in h_sizes0.
Qed.
Lemma held_eq w0 w w' u d pre m post : held w0 w u d pre m post -> keeps w w' ->
  has (sc_flags w') BUSY = false -> sc_fcs w' = sc_fcs w -> sc_m w' = sc_m w ->
  sc_mc w' = sc_mc w -> sc_mp w' = sc_mp w -> held w0 w' u d pre m post.
Proof.
  intros Hh Hk Hfl Hf Hm Hc Hp. rewrite <- (app_nil_r d).
  destruct Hh as [] eqn:?. eapply held_step; try done; try congruence. by rewrite app_nil_r.
Qed.

Lemma full_ok l : Forall full l -> Forall mbuf_ok l.
Proof. intros Hl. revert Hl. apply Forall_impl. by intros ? []. Qed.
Lemma full_cluster l : Forall full l -> Forall cluster_ok l.
Proof. intros Hl. revert Hl. apply Forall_impl. by intros ? (_ & ? & _). Qed.
Lemma held_chain w0 w u d pre m post : held w0 w u d pre m post -> 0 <= sc_mru w < 2 ^ 15 - 7 ->
  chain_ok w.
Proof.
  intros [] Hmru. split; [|done]. rewrite h_chain0. apply Forall_app_2; [by apply full_cluster|].
  by apply Forall_cons_2.
Qed.

(** A jump to [flush:]. *)
Definition thrown w0 w : Prop := keeps w0 w /\ has (sc_flags w) BUSY = false /\ chain_ok w.

Lemma wp_first w0 w c (Q : () -> drv -> Prop) (E' : () -> drv -> Prop) : ready w0 w ->
  let ok := (c =? PPP_ALLSTATIONS) || negb (has (sc_flags w) SC_REJ_COMP_AC) in
  (ok = true -> forall w' m post, held w0 w' [] (with_address [] c) [] m post ->
     sc_ilen w' = Z.of_nat (length (with_address [] c)) -> Q tt w') ->
  (ok = false -> forall w', thrown w0 w' -> E' tt w') ->
  wp False (first_octet c) Q E' w.
Proof.
  intros [] ok HQ HE. unfold first_octet.
  destruct (sc_m w) as [|m l] eqn:Hl.
  { exfalso. cbn in r_room0. unfold HDROFF, MAX_HDR in *. lia. }
  wp_step. wp_step. rewrite Hl. rewrite bool_decide_false by done. cbn [when].
  do 3 wp_step. wp_step. wp_step. rewrite Hl. eapply wp_access; [done|]. fold (header_off m).
  unfold reset_mbuf. wp_step. wp_step. wp_step. rewrite Hl.
  wp_step. eapply wp_access; [done|]. unfold put_mbuf. wp_step. wp_step. wp_step.
  set (m0 := m <| m_len := 0 |> <| m_data := header_off m |>).
  wp_step. wp_step.
  inversion_clear r_clusters0 as [|? ? Hc Hl']. unfold cluster_ok in Hc.
  assert (Hoff : 0 <= header_off m).
  { unfold header_off. destruct (_ <=? _); [done|done]. }
  assert (Hok : mbuf_ok m0).
  { change (0 <= header_off m /\ 0 <= 0 /\ header_off m + 0 <= M_DATASIZE m). lia. }
  match goal with |- wp _ _ _ _ ?s => set (w1 := s) end.
  assert (Hm1 : sc_m w1 = [] ++ m0 :: l) by (change (sc_m w1) with (<[0%nat := m0]> (sc_m w)); by rewrite Hl).
  assert (Hh : held w0 w1 [] [] [] m0 l).
  { split; try done.
    - change (header_off m = header_off m + 0). lia.
    - change (sc_mru w + 6 - 0 <= M_DATASIZE m - header_off m - 0 + sizes l).
      cbn [sizes foldr] in r_room0. fold (sizes l) in r_room0. 
      assert (header_off m <= HDROFF) by (unfold header_off; by destruct (_ <=? _)). lia.
    - rewrite Hm1. exact r_room0. }
  unfold with_address in HQ. rewrite decide_True in HQ by done.
  assert (Hi1 : sc_ilen w1 = 0) by done.
  assert (Hthr : thrown w0 w1) by (split; [apply Hh|split; [apply Hh|by apply (held_chain _ _ _ _ _ _ _ Hh)]]).
  assert (Hmru1 : sc_mru w1 = sc_mru w) by done. clearbody w1. unfold ok in *. clear ok.
  destruct (c =? PPP_ALLSTATIONS) eqn:Hff; [by eapply HQ|]. cbn [negb when orb] in *.
  unfold flag. do 4 wp_step.
  rewrite (keeps_flag w0 w1), <- (keeps_flag w0 w) by (done || apply Hh).
  destruct (has (sc_flags w) SC_REJ_COMP_AC); cbn [when negb] in *; [wp_step; apply wp_throw; by apply HE|].
  specialize (HQ eq_refl). do 2 wp_step.
  destruct (m_store_two m0 PPP_ALLSTATIONS PPP_UI Hok) as (m1 & m2 & Hs1 & Hs2 & Hd & Hn & Hz & Hok2 & Hc2).
  { pose proof (h_wide _ _ _ _ _ _ _ Hh). unfold M_TRAILINGSPACE. change (m_len m0) with 0. lia. }
  pose proof (h_mp _ _ _ _ _ _ _ Hh) as Hmp.
  wp_step. eapply wp_store; [exact Hm1|apply Hh|by rewrite Hmp|].
  wp_step. eapply (wp_store _ _ m2 _ _ [] m1 l); [done|apply Hh|by rewrite <- Hs2, <- Hmp|].
  unfold more_ilen. wp_step. wp_step.
  eapply (wp_longer _ _ _ _ [] m2 l); [done|apply Hh|].
  rewrite (longer_len m2 2 (m_len m0 + 2)) by by rewrite Hn.
  apply (HQ _ (m2 <| m_len := m_len m0 + 2 |>) l); [|by change (s16 (sc_ilen w1 + 2) = 2); rewrite Hi1].
  apply (held_step w0 w1 _ [] [] [] [PPP_ALLSTATIONS; PPP_UI] [] m0); try (done || apply Hh).
  change (sc_mp w1 + 1 + 1 = m_data m2 + (m_len m0 + 2)). lia.
Qed.

(** One byte behind the data, with the length before or after it. *)
Lemma held_push w0 w u d pre m post c : held w0 w u d pre m post -> 1 <= M_TRAILINGSPACE m ->
  exists m1, m_store (sc_mp w) [c] m = Some m1
  /\ m_store (sc_mp w) [c] (m <| m_len ::= Z.add 1 |>) = Some (m1 <| m_len ::= Z.add 1 |>)
  /\ 0 < m_len (m1 <| m_len ::= Z.add 1 |>)
  /\ forall w' u', keeps w w' -> has (sc_flags w') BUSY = false ->
       sc_fcs w' = pppfcs PPP_INITFCS u' -> sc_m w' = pre ++ m1 <| m_len ::= Z.add 1 |> :: post ->
       sc_mc w' = sc_mc w -> sc_mp w' = sc_mp w + 1 ->
       held w0 w' u' (d ++ [c]) pre (m1 <| m_len ::= Z.add 1 |>) post.
Proof.
  intros Hh Hr. pose proof (h_mp _ _ _ _ _ _ _ Hh) as Hmp.
  destruct (m_store_end m [c]) as (m1 & H1 & Hd & Hl & Hz & Hk); [apply Hh|done|].
  exists m1. rewrite Hmp, (longer_len m 1 (m_len m + 1)), (longer_len m1 1 (m_len m + 1)) by (try rewrite Hl; done).
  rewrite m_store_len, H1. split_and!; [done..| |].
  { change (0 < m_len m + 1). pose proof (h_ok _ _ _ _ _ _ _ Hh) as (_ & Hl0 & _). lia. }
  intros w' u' Hkp Hfl Hf Hm Hc Hp. destruct (Hk (m_len m + 1) eq_refl) as [Hok Hcont].
  apply (held_step w0 w w' u u' d [c] pre m); try done.
  - rewrite Hc. apply Hh.
  - rewrite Hp. change (m_data m + m_len m + 1 = m_data m1 + (m_len m + 1)). lia.
Qed.

Lemma wp_protocol w0 w u d pre m post c (Q : () -> drv -> Prop) (E' : () -> drv -> Prop) :
  held w0 w u d pre m post -> sc_ilen w = Z.of_nat (length d) ->
  (forall w' m', held w0 w' u (with_protocol d c) pre m' post ->
     sc_ilen w' = Z.of_nat (length (with_protocol d c)) -> Q tt w') ->
  wp False (when ((sc_ilen w =? 2) && (Z.land c 1 =? 1)) (store 0 ;; more_ilen 1 ;; longer 1)) Q E' w.
Proof.
  intros Hh Hi HQ. unfold with_protocol in HQ. rewrite <- Hi in HQ.
  destruct ((sc_ilen w =? 2) && _) eqn:Hc; [|by eapply HQ]. cbn [when].
  apply andb_true_iff in Hc as [Hi2%Z.eqb_eq _].
  destruct (held_short _ _ _ _ _ _ _ Hh) as [-> Hcd]; [lia|].
  assert (Hr : 1 <= M_TRAILINGSPACE m).
  { pose proof (h_wide _ _ _ _ _ _ _ Hh). pose proof (length_content m (h_ok _ _ _ _ _ _ _ Hh)) as Hl.
    rewrite Hcd in Hl. unfold M_TRAILINGSPACE. lia. }
  destruct (held_push _ _ _ _ _ _ _ 0 Hh Hr) as (m1 & Hs & _ & _ & Hstep).
  wp_step. eapply wp_store; [apply Hh..|exact Hs|]. unfold more_ilen. do 2 wp_step.
  eapply (wp_longer _ _ _ _ [] m1 post); [done|apply Hh|].
  eapply HQ; [apply Hstep; try (done || apply Hh)|].
  change (s16 (sc_ilen w + 1) = Z.of_nat (length (d ++ [0]))). by rewrite length_app, Nat2Z.inj_add, <- Hi, Hi2.
Qed.

Lemma wp_room w0 w u d pre m post (Q : () -> drv -> Prop) (E' : () -> drv -> Prop) :
  held w0 w u d pre m post -> Z.of_nat (length d) <= sc_mru w + 5 ->
  (forall w' pre' m' post', held w0 w' u d pre' m' post' -> 1 <= M_TRAILINGSPACE m' ->
     sc_ilen w' = sc_ilen w -> Q tt w') ->
  wp False room Q E' w.
Proof.
  intros Hh Hd HQ. unfold room. wp_step.
  apply (wp_current w _ _ pre m post); [apply Hh..|]. cbn [fst snd].
  destruct (Z.leb_spec (M_TRAILINGSPACE m) 0) as [Hr|Hr]; cbn [when].
  2: { eapply HQ; [done|lia|done]. }
  pose proof (h_room _ _ _ _ _ _ _ Hh) as Hroom.
  destruct post as [|m2 post]; [cbn [sizes foldr] in Hroom; lia|].
  pose proof (h_chain _ _ _ _ _ _ _ Hh) as Hch.
  wp_step. wp_step. rewrite Hch.
  replace (Nat.leb (length (pre ++ m :: m2 :: post)) (S (length pre))) with false
    by (symmetry; apply Nat.leb_gt; rewrite length_app; cbn; lia).
  cbn [when]. wp_step. wp_step. unfold reset_mbuf. do 3 wp_step. eapply wp_access.
  { rewrite Hch, (cons_middle m), app_assoc. apply list_lookup_middle. rewrite length_app. cbn. lia. }
  set (m0 := m2 <| m_len := 0 |> <| m_data := 0 |>). unfold put_mbuf. do 3 wp_step.
  assert (Hins : <[S (length pre) := m0]> (sc_m w) = (pre ++ [m]) ++ m0 :: post).
  { rewrite Hch, (cons_middle m), app_assoc.
    replace (S (length pre)) with (length (pre ++ [m])) by (rewrite length_app; cbn; lia).
    apply insert_middle. }
  pose proof (h_post _ _ _ _ _ _ _ Hh) as Hp. inversion_clear Hp as [|? ? Hc2 Hp'].
  unfold cluster_ok in Hc2. assert (0 <= header_off m2) by (unfold header_off; by destruct (_ <=? _)).
  destruct Hh.
  assert (Hfull : full m) by (split_and!; [done..|unfold M_TRAILINGSPACE in Hr; lia]).
  eapply (HQ _ (pre ++ [m]) m0 post); [|change (1 <= M_DATASIZE m2 - 0 - 0); lia|done].
  split; try done.
  - change (Some (S (length pre)) = Some (length (pre ++ [m]))). rewrite length_app. f_equal. cbn. lia.
  - apply Forall_app_2; [done|]. by apply Forall_cons_2.
  - change (0 <= 0 /\ 0 <= 0 /\ 0 + 0 <= M_DATASIZE m2). lia.
  - change (6 <= M_DATASIZE m2 - 0). lia.
  - rewrite <- h_data0. unfold contents. rewrite fmap_app, concat_app. cbn. by rewrite !app_nil_r.
  - change (sc_mru w + 6 - Z.of_nat (length d) <= M_DATASIZE m2 - 0 - 0 + sizes post).
    cbn [sizes foldr] in Hroom. fold (sizes post) in Hroom. lia.
  - change (HDROFF + sc_mru w + 6 <= sizes (<[S (length pre) := m0]> (sc_m w))).
    rewrite Hins, sizes_middle, sizes_app. rewrite h_chain0, sizes_middle in h_sizes0.
    change (sizes (m2 :: post)) with (M_DATASIZE m2 + sizes post) in h_sizes0.
    change (M_DATASIZE m0) with (M_DATASIZE m2). lia.
Qed.

(** Between packets or in one. *)
Definition collecting (w0 w : drv) (u d : list Z) : Prop :=
  sc_ilen w = Z.of_nat (length d) /\ chain_ok w /\ Z.of_nat (length d) <= sc_mru w + 6
  /\ if decide (d = []) then u = [] /\ ready w0 w
     else exists pre m post, held w0 w u d pre m post /\ 0 < m_len m.

Lemma oct_length rej d c d' : oct rej d c = Some d' -> (length d < length d')%nat.
Proof.
  unfold oct. destruct (_ && rej); [done|]. destruct (_ && negb (c =? PPP_UI)); [done|].
  destruct (_ && (Z.land c 1 =? 0)); [done|]. intros [= <-]. rewrite length_app. cbn [length].
  unfold with_protocol. destruct ((_ =? 2) && _); rewrite ?length_app;
    unfold with_address; destruct (decide (d = [])) as [->|]; cbn [length]; try lia.
Qed.

Lemma octs_length rej u : forall d d', octs rej d u = Some d' -> (length d <= length d')%nat.
Proof.
  induction u as [|c u IH]; intros d d'; [by intros [= ->]|]. cbn [octs].
  destruct (oct rej d c) as [d1|] eqn:Ho; [|done]. intros H%IH. apply oct_length in Ho. lia.
Qed.
Lemma takes_all_octs rej mru u : forall d d', octs rej d u = Some d' ->
  Z.of_nat (length d') <= mru + PPP_HDRLEN + PPP_FCSLEN -> takes_all rej mru d u = Some d'.
Proof.
  induction u as [|c u IH]; intros d d' Ho Hl; [done|]. cbn [octs takes_all] in *. unfold takes.
  destruct (oct rej d c) as [d1|]; [|done]. pose proof (octs_length _ _ _ _ Ho).
  rewrite (proj2 (Z.leb_le _ _)) by lia. by apply IH.
Qed.

Lemma header_length d c :
  (length (with_protocol (with_address d c) c) <= Nat.max (length d) 3)%nat.
Proof.
  unfold with_protocol, with_address.
  destruct (decide (d = [])) as [->|]; [destruct (c =? PPP_ALLSTATIONS), (Z.land c 1 =? 1); vm_compute; lia|].
  destruct (Z.eqb_spec (Z.of_nat (length d)) 2), (Z.land c 1 =? 1); cbn [andb]; rewrite ?length_app; cbn; lia.
Qed.

Lemma collecting_keeps w0 w u d : collecting w0 w u d -> keeps w0 w /\ has (sc_flags w) BUSY = false.
Proof.
  intros (_ & _ & _ & Hc). destruct (decide (d = [])).
  - destruct Hc as [_ []]. done.
  - destruct Hc as (? & ? & ? & [] & _). done.
Qed.

(** What an octet makes of a packet: the next state of it, or a jump. *)
Lemma wp_octet w0 w u d c : collecting w0 w u d ->
  let r := takes (has (sc_flags w) SC_REJ_COMP_AC) (sc_mru w) d c in
  wp False (input_octet c)
    (fun _ w' => exists d', r = Some d' /\ collecting w0 w' (u ++ [c]) d')
    (fun _ w' => r = None /\ thrown w0 w') w.
Proof.
  intros Hcol r. pose proof (collecting_keeps _ _ _ _ Hcol) as [Hk0 Hb0].
  destruct Hcol as (Hi & Hchain & Hlen & Hc). pose proof Hchain as (_ & _ & Hmru).
  unfold input_octet. do 3 wp_step. rewrite Hi.
  assert (Hkeep : forall w' v e pre m post, held w0 w' v e pre m post -> sc_mru w' = sc_mru w).
  { intros * Hh. rewrite (keeps_mru w0 w'), (keeps_mru w0 w); [done..|apply Hh]. }
  assert (Hthrown : forall w' v e pre m post, held w0 w' v e pre m post -> thrown w0 w').
  { intros * Hh. split; [apply Hh|]. split; [apply Hh|]. apply (held_chain _ _ _ _ _ _ _ Hh).
    by rewrite (Hkeep _ _ _ _ _ _ Hh). }
  unfold r, takes, oct.
  set (refuse := bool_decide (d = []) && negb (c =? PPP_ALLSTATIONS) && has (sc_flags w) SC_REJ_COMP_AC).
  (* the header in front *)
  apply (wp_mono _ (fun _ w' => refuse = false /\ (exists pre m post, held w0 w' u (with_address d c) pre m post)
       /\ sc_ilen w' = Z.of_nat (length (with_address d c))) _ (fun _ w' => refuse = true /\ thrown w0 w'));
    [clear Hthrown Hkeep| |intros [] w1 [-> Ht]; done].
  { unfold with_address in *. destruct (decide (d = [])) as [->|Hd].
    - destruct Hc as [-> Hr]. apply (wp_first w0); [done|..].
      + intros Hok w' m post Hh Hl'. unfold with_address in *. rewrite decide_True in * by done.
        split; [|eauto]. unfold refuse. by destruct (c =? PPP_ALLSTATIONS), (has _ _).
      + intros Hok w' Ht. split; [|done]. unfold refuse. rewrite bool_decide_true by done.
        by destruct (c =? PPP_ALLSTATIONS), (has _ _).
    - unfold refuse. rewrite bool_decide_false by done. destruct d as [|x d]; [done|].
      cbn [length Z.of_nat Z.eqb when andb].
      destruct Hc as (pre & m & post & Hh & _). apply wp_ret. split; [done|]. split; [by exists pre, m, post|done]. }
  clear Hc. intros [] w1 (-> & (pre & m & post & Hh) & Hi1). do 2 wp_step. rewrite Hi1.
  destruct ((Z.of_nat (length (with_address d c)) =? 1) && negb (c =? PPP_UI)) eqn:H1; cbn [when].
  { wp_step. apply wp_throw. split; [done|by eapply Hthrown]. }
  do 3 wp_step. rewrite <- Hi1.
  apply (wp_protocol w0 w1 u (with_address d c) pre m post c); [done..|]. intros w2 m2 Hh2 Hi2. do 2 wp_step.
  rewrite Hi2.
  destruct ((Z.of_nat (length (with_protocol (with_address d c) c)) =? 3) && (Z.land c 1 =? 0)) eqn:H3; cbn [when].
  { wp_step. apply wp_throw. split; [done|by eapply Hthrown]. }
  unfold more_ilen. do 9 wp_step.
  match goal with |- wp _ _ _ _ ?s => set (w3 := s) end.
  pose proof (header_length d c) as Hhl. set (e := with_protocol (with_address d c) c) in *.
  assert (Hi3 : sc_ilen w3 = Z.of_nat (length e) + 1).
  { change (sc_ilen w3) with (s16 (sc_ilen w2 + 1)). rewrite Hi2. apply s16_id. lia. }
  assert (Hh3 : held w0 w3 u e pre m2 post)
    by (apply (held_eq w0 w2); try (done || apply Hh2)).
  assert (Hmru3 := Hkeep _ _ _ _ _ _ Hh3). rewrite Hi3, Hmru3. clearbody w3.
  rewrite length_app. cbn [length]. rewrite Nat2Z.inj_add. change (Z.of_nat 1) with 1.
  rewrite Z.leb_antisym.
  destruct (Z.ltb_spec (sc_mru w + PPP_HDRLEN + PPP_FCSLEN) (Z.of_nat (length e) + 1)) as [Hlt|Hle]; cbn [when].
  { wp_step. split; [done|by eapply Hthrown]. }
  unfold PPP_HDRLEN, PPP_FCSLEN in Hle. do 2 wp_step.
  eapply (wp_room w0 w3); [done|rewrite (Hkeep _ _ _ _ _ _ Hh3); lia|].
  intros w4 pre4 m4 post4 Hh4 Hr4 Hi4. wp_step.
  destruct (held_push _ _ _ _ _ _ _ c Hh4 Hr4) as (m5 & _ & Hs5 & Hpos & Hstep).
  apply (wp_longer _ _ _ _ pre4 m4 post4); [apply Hh4..|]. wp_step.
  eapply (wp_store _ _ _ _ _ pre4 _ post4); [done|apply Hh4|exact Hs5|]. wp_step.
  exists (e ++ [c]). split; [done|].
  match goal with |- collecting _ ?s _ _ => set (w5 := s) end.
  assert (Hh5 : held w0 w5 (u ++ [c]) (e ++ [c]) pre4 (m5 <| m_len ::= Z.add 1 |>) post4).
  { apply Hstep; try (done || apply Hh4).
    change (PPP_FCS (sc_fcs w4) c = pppfcs PPP_INITFCS (u ++ [c])).
    by rewrite (h_fcs _ _ _ _ _ _ _ Hh4), pppfcs_app. }
  pose proof (Hkeep _ _ _ _ _ _ Hh5) as Hmru5. split; [|split; [|split]].
  - change (sc_ilen w4 = Z.of_nat (length (e ++ [c]))).
    rewrite Hi4, Hi3, length_app. cbn [length]. lia.
  - apply (held_chain _ _ _ _ _ _ _ Hh5). by rewrite Hmru5.
  - rewrite Hmru5, length_app. cbn [length]. lia.
  - rewrite decide_False by by destruct e. eauto.
Qed.
End Input.
