(* ===== verification/IfRecv.v ===== *)
(** * if_ppp.c: the bytes of the line

    The receiver against its specification on the bytes of the line: every
    byte, flags and escapes included, and where the packets go. *)

From stdpp Require Import base list numbers.
From S2P Require Export IfIn.

(** ** The specification and frames *)

Section Spec.
Context (rmap mru : Z) (rej : bool).
#[local] Notation line_run := (line_run rmap rej mru).
#[local] Notation line_byte := (line_byte rmap rej mru).

Lemma line_run_app l1 : forall st l2,
  line_run st (l1 ++ l2) =
    let '(st1, p1) := line_run st l1 in let '(st2, p2) := line_run st1 l2 in (st2, p1 ++ p2).
Proof.
  induction l1 as [|c l1 IH]; intros st l2; cbn [line_run app].
  - by destruct (line_run st l2).
  - destruct (line_byte st c) as [st1 p]. rewrite IH. destruct (line_run st1 l1) as [st2 p1].
    destruct (line_run st2 l2) as [st3 p2]. by destruct p.
Qed.

(** No flag is inside of a frame. *)
Lemma encode_no_flag tmap u : maps_agree tmap rmap -> bytes u ->
  bytes (encode tmap u) /\ Forall (fun c => (c =? PPP_FLAG) = false) (encode tmap u).
Proof.
  intros Hm. induction 1 as [|c u Hc Hu [IH1 IH2]]; [split; constructor|].
  change (encode tmap (c :: u)) with (encode1 tmap c ++ encode tmap u).
  specialize (Hm c Hc). unfold encode1. split; apply Forall_app_2; try done.
  - destruct (escapes tmap c) as [[]|]; repeat apply Forall_cons_2; try done. by apply u8_lxor.
  - destruct (escapes tmap c) as [[]|]; [|destruct Hm|done]; repeat apply Forall_cons_2; try done;
      [apply Hm|]. by destruct H.
Qed.
Lemma line_throwing l : Forall (fun c => (c =? PPP_FLAG) = false) l -> line_run Throwing l = (Throwing, []).
Proof.
  induction 1 as [|c l Hc _ IH]; [done|]. cbn [line_run]. unfold line_byte. by rewrite Hc, IH.
Qed.
Lemma line_encode1 tmap c u d l : maps_agree tmap rmap -> is_u8 c ->
  line_run (Taking false u d) (encode1 tmap c ++ l) = line_run (line_octet rej mru u d c) l.
Proof.
  intros Hm Hc. specialize (Hm c Hc). unfold encode1. destruct (escapes tmap c) as [[]|]; [| |done].
  - destruct Hm as [H1 H2]. cbn [app line_run]. unfold line_byte.
    change (PPP_ESCAPE =? PPP_FLAG) with false. change (PPP_ESCAPE <? 0x20) with false.
    cbn [andb]. rewrite Z.eqb_refl, H1, H2.
    assert (Hx : Z.lxor (Z.lxor c PPP_TRANS) PPP_TRANS = c)
      by by rewrite Z.lxor_assoc, Z.lxor_nilpotent, Z.lxor_0_r.
    rewrite Hx. by destruct (line_run (line_octet rej mru u d c) l).
  - destruct Hm as [[H1 H2] H3]. cbn [app line_run]. unfold line_byte.
    rewrite H1, H2, (proj2 (Z.eqb_neq _ _) H3). by destruct (line_run (line_octet rej mru u d c) l).
Qed.
(** The octets of a frame come out of its bytes. *)
Lemma line_encode tmap u : maps_agree tmap rmap -> bytes u -> forall v d,
  line_run (Taking false v d) (encode tmap u) =
    (match takes_all rej mru d u with Some d => Taking false (v ++ u) d | None => Throwing end, []).
Proof.
  intros Hm. induction 1 as [|c u Hc Hu IH]; intros v d; [by cbn; rewrite app_nil_r|].
  change (encode tmap (c :: u)) with (encode1 tmap c ++ encode tmap u).
  rewrite line_encode1 by done. unfold line_octet. cbn [takes_all].
  destruct (takes rej mru d c) as [d1|].
  - by rewrite IH, <- app_assoc.
  - apply line_throwing. by apply encode_no_flag.
Qed.
Lemma line_frame tmap u : maps_agree tmap rmap -> bytes u ->
  line_run rx_start (encode tmap u ++ [PPP_FLAG]) =
    (rx_start, match receive rej mru u with Some p => [p] | None => [] end).
Proof.
  intros Hm Hu. unfold rx_start. rewrite line_run_app, (line_encode tmap u Hm Hu). unfold receive.
  rewrite app_nil_l. destruct (takes_all rej mru [] u) as [d|]; [|done]. cbn. by destruct (packet_of u d).
Qed.
End Spec.

Section Input.
Context {E : DrvEnv}.
Implicit Types w : drv.

(** ** A byte of the line *)

(** The same packet, whatever the flags and the counters. *)
Definition same w w' : Prop :=
  keeps w w' /\ sc_m w' = sc_m w /\ sc_mc w' = sc_mc w /\ sc_mp w' = sc_mp w
  /\ sc_ilen w' = sc_ilen w /\ sc_fcs w' = sc_fcs w.
#[global] Instance same_pre : PreOrder same.
Proof.
  unfold same. split; [done|]. intros a b c (H1&H2&H3&H4&H5&H6) (K1&K2&K3&K4&K5&K6).
  split; [by trans b|]. split_and!; congruence.
Qed.
Lemma has_mask f a b : has f (Z.lor a b) = has f a || has f b.
Proof. unfold has. rewrite !(Z.land_comm f). apply has_lor. Qed.
Lemma ready_same w0 w w' : ready w0 w -> same w w' -> has (sc_flags w') BUSY = false -> ready w0 w'.
Proof.
  intros [] (Hk & Hm & _ & _ & Hi & _) Hf. pose proof (keeps_mru _ _ Hk).
  split; congruence || by trans w.
Qed.
Lemma collecting_same w0 w w' u d : collecting w0 w u d -> same w w' ->
  has (sc_flags w') BUSY = false -> collecting w0 w' u d.
Proof.
  intros (Hi & Hch & Hlen & Hc) Hs Hf. pose proof Hs as (Hk & Hm & Hmc & Hmp & Hi' & Hfcs).
  split; [congruence|]. unfold chain_ok. rewrite (keeps_mru _ _ Hk), Hm. split; [done|]. split; [done|].
  destruct (decide (d = [])).
  - destruct Hc as [? Hr]. split; [done|]. by apply (ready_same w0 w).
  - destruct Hc as (pre & m & post & Hh & Hp). exists pre, m, post. split; [|done].
    by apply (held_eq w0 w).
Qed.

(** Nothing is logged. *)
Definition quiet w : Prop :=
  has (sc_flags w) SC_LOG_RAWIN = false /\ has (sc_flags w) SC_LOG_FLUSH = false
  /\ sc_rawin_count w <= 0.
Lemma keeps_quiet w w' : keeps w w' -> quiet w -> quiet w'.
Proof. intros Hk. unfold quiet. by rewrite !(keeps_flag _ _ _ Hk), (keeps_raw _ _ Hk). Qed.

Lemma same_flags w b : Z.ldiff b VOLATILE = 0 -> same w (w <| sc_flags ::= fun f => Z.lor f b |>).
Proof. intros H. split; [by apply keeps_set_flag|done]. Qed.
Lemma same_clear w b : Z.ldiff b VOLATILE = 0 -> same w (w <| sc_flags ::= fun f => Z.ldiff f b |>).
Proof.
  intros H. split; [|done]. unfold keeps, outside. cbv beta delta [upd]. cbn.
  pose proof (steady_ldiff (sc_flags w) b H) as Hs. cbv beta delta [set_sc_flags]. cbn. by rewrite Hs.
Qed.

Lemma wp_received w c (Q : () -> drv -> Prop) (E' : Empty_set -> drv -> Prop) : is_u8 c -> quiet w ->
  (forall w', same w w' -> has (sc_flags w') SC_FLUSH = has (sc_flags w) SC_FLUSH ->
     has (sc_flags w') SC_ESCAPED = has (sc_flags w) SC_ESCAPED -> Q tt w') ->
  wp False (received c) Q E' w.
Proof.
  intros Hc Hq HQ. unfold received, set_flag. do 4 wp_step.
  destruct (paritytab !! Z.to_nat (Z.shiftr c 5)) as [p|] eqn:Hp.
  2: { apply lookup_ge_None in Hp. rewrite Z.shiftr_div_pow2 in Hp by done. cbn [length paritytab] in Hp.
       change (2 ^ 5) with 32 in Hp. exfalso. revert Hp. int_lia. }
  wp_step. eapply wp_access; [done|]. unfold flag. do 6 wp_step.
  match goal with |- wp _ _ _ _ ?s => set (w1 := s) end.
  set (b1 := if has c 0x80 then SC_RCV_B7_1 else SC_RCV_B7_0) in *.
  set (b2 := if has p _ then SC_RCV_ODDP else SC_RCV_EVNP) in *.
  assert (Hb1 : Z.ldiff b1 VOLATILE = 0) by (unfold b1; by destruct (has c _)).
  assert (Hb2 : Z.ldiff b2 VOLATILE = 0) by (unfold b2; by destruct (has p _)).
  assert (Hsame : same w w1).
  { trans (w <| sc_bytesrcvd ::= fun n => u32 (n + 1) |>); [done|].
    etrans; [apply (same_flags _ b1 Hb1)|]. apply (same_flags _ b2 Hb2). }
  assert (Hflags : forall x, Z.land b1 x = 0 -> Z.land b2 x = 0 ->
    has (sc_flags w1) x = has (sc_flags w) x).
  { intros x H1 H2. change (sc_flags w1) with (Z.lor (Z.lor (sc_flags w) b1) b2).
    rewrite !has_lor. unfold has at 2 3. rewrite H1, H2. by rewrite !orb_false_r. }
  destruct (keeps_quiet w w1) as [Hq1 _]; [apply Hsame|done|].
  rewrite Hq1. cbn [when]. wp_step.
  apply HQ; [done|apply Hflags|apply Hflags]; unfold b1, b2; by destruct (has c _), (has p _).
Qed.

Lemma not_busy w : has (sc_flags w) BUSY = false <->
  has (sc_flags w) SC_FLUSH = false /\ has (sc_flags w) SC_ESCAPED = false.
Proof. unfold BUSY. rewrite has_mask. apply orb_false_iff. Qed.

(** A frame that is thrown away. *)
Definition flushing w0 w : Prop :=
  keeps w0 w /\ has (sc_flags w) SC_FLUSH = true /\ has (sc_flags w) SC_ESCAPED = false /\ chain_ok w.

Lemma wp_flush w0 w c (m : M drv () ()) Q (E' : Empty_set -> drv -> Prop) : quiet w0 ->
  wp False m Q (fun _ w' => thrown w0 w' /\ forall w'', flushing w0 w'' -> Q tt w'') w ->
  wp False (flush c m) Q E' w.
Proof.
  intros Hq Hm. unfold wp, flush in *. destruct (m w) as [a w'|x w'| |]; [done| |done..].
  destruct Hm as [(Hk & Hb & Hch) HQ]. apply not_busy in Hb as [Hb1 Hb2].
  destruct (keeps_quiet _ _ Hk Hq) as (_ & Hlog & _).
  change (wp False (f <- flag SC_FLUSH ;; when (negb f)
         (ierror ;; set_flag SC_FLUSH ;; log <- flag SC_LOG_FLUSH ;; when log (ppplogchar c))) Q E' w').
  unfold flag, ierror, set_flag. do 4 wp_step. rewrite Hb1. cbn [negb when]. do 8 wp_step.
  match goal with |- wp _ _ _ _ ?s => set (w2 := s) end.
  assert (Hk2 : keeps w0 w2).
  { trans (w' <| if_ierrors ::= fun n => u32 (n + 1) |>); [exact Hk|]. by apply keeps_set_flag. }
  destruct (keeps_quiet _ _ Hk2 Hq) as (_ & Hlog2 & _). rewrite Hlog2. cbn [when]. wp_step.
  apply HQ. change (sc_flags w2) with (Z.lor (sc_flags w') SC_FLUSH) in *.
  split; [done|]. change (sc_flags w2) with (Z.lor (sc_flags w') SC_FLUSH).
  rewrite !has_lor, Hb2. split; [apply orb_true_r|]. done.
Qed.

Section Frame.
Context (w0 : drv) (Hquiet : quiet w0).
#[local] Notation map := (sc_rasyncmap w0).
#[local] Notation rej := (has (sc_flags w0) SC_REJ_COMP_AC).
#[local] Notation mru := (sc_mru w0).

(** Where the octets [u], of which the packet [r] has been made, lead to. *)
Definition after (u : list Z) (r : option (list Z)) w : Prop :=
  match r with Some d => collecting w0 w u d | None => flushing w0 w end.

Lemma wp_octet_flush w u d c (E' : Empty_set -> drv -> Prop) : collecting w0 w u d ->
  wp False (flush c (input_octet c)) (fun _ w' => after (u ++ [c]) (takes rej mru d c) w') E' w.
Proof.
  intros Hc. destruct (collecting_keeps _ _ _ _ Hc) as [Hk _]. apply (wp_flush w0); [done|].
  pose proof (wp_octet w0 w u d c Hc) as Ho. cbv zeta in Ho.
  rewrite (keeps_flag w0 w), (keeps_mru w0 w) in Ho by done.
  eapply wp_mono; [exact Ho| |].
  - intros [] w' (d' & -> & Hd). exact Hd.
  - intros [] w' [-> Ht]. done.
Qed.

(** The rest of a frame that is thrown away. *)
Lemma wp_ignored w c (E' : Empty_set -> drv -> Prop) : flushing w0 w -> is_u8 c -> (c =? PPP_FLAG) = false ->
  wp False (pppinput c) (fun _ w' => flushing w0 w') E' w.
Proof.
  intros (Hk & Hf & He & Hch) Hb Hp1. unfold pppinput. rewrite land_ff_id by done. wp_step.
  apply wp_received; [done|by apply (keeps_quiet w0)|]. intros w1 Hs Hfl1 He1.
  rewrite Hf in Hfl1. rewrite He in He1. rewrite Hp1. unfold flag. do 4 wp_step. rewrite Hfl1. do 4 wp_step.
  pose proof Hs as (Hk' & Hm & _).
  assert (Hk1 : keeps w0 w1) by by trans w.
  destruct (keeps_quiet _ _ Hk1 Hquiet) as (_ & Hlog & _). rewrite Hlog. cbn [when]. wp_step.
  split; [done|]. split; [done|]. split; [done|]. unfold chain_ok. by rewrite Hm, (keeps_mru _ _ Hk').
Qed.

(** Behind an escape: [w] but for the flag is the state of the packet. *)
Definition escaped_from (u d : list Z) w : Prop :=
  exists w1, collecting w0 w1 u d /\ same w1 w /\ has (sc_flags w) SC_FLUSH = false
    /\ has (sc_flags w) SC_ESCAPED = true.
Definition taking (escaped : bool) (u d : list Z) w : Prop :=
  if escaped then escaped_from u d w else collecting w0 w u d.
Lemma taking_flags e u d w : taking e u d w ->
  keeps w0 w /\ has (sc_flags w) SC_FLUSH = false /\ has (sc_flags w) SC_ESCAPED = e.
Proof.
  destruct e; cbn.
  - intros (w1 & Hc & Hs & Hf & He). destruct (collecting_keeps _ _ _ _ Hc) as [Hk _].
    split; [|done]. trans w1; [done|apply Hs].
  - intros Hc. destruct (collecting_keeps _ _ _ _ Hc) as [Hk Hb]. by apply not_busy in Hb as [].
Qed.
Lemma taking_same e u d w w' : taking e u d w -> same w w' ->
  has (sc_flags w') SC_FLUSH = has (sc_flags w) SC_FLUSH ->
  has (sc_flags w') SC_ESCAPED = has (sc_flags w) SC_ESCAPED -> taking e u d w'.
Proof.
  intros Ht Hs Hf He. destruct (taking_flags _ _ _ _ Ht) as (_ & Hf0 & He0). rewrite Hf0 in Hf. rewrite He0 in He.
  destruct e; cbn in *.
  - destruct Ht as (w1 & Hc & Hs1 & _). exists w1. split; [done|]. split; [by trans w|done].
  - apply (collecting_same w0 w); [done..|]. by apply not_busy.
Qed.
(** The escape itself, and what ends it. *)
Lemma taking_escape u d w : taking false u d w -> taking true u d (w <| sc_flags ::= fun x => Z.lor x SC_ESCAPED |>).
Proof.
  intros Hc. destruct (taking_flags _ _ _ _ Hc) as (_ & Hf & _).
  exists w. split; [done|]. split; [by apply same_flags|].
  change (sc_flags (w <| sc_flags ::= fun x => Z.lor x SC_ESCAPED |>)) with (Z.lor (sc_flags w) SC_ESCAPED).
  rewrite !has_lor, Hf. split; [done|]. apply orb_true_r.
Qed.
Lemma taking_unescape u d w : taking true u d w -> taking false u d (w <| sc_flags ::= fun x => Z.ldiff x
  SC_ESCAPED |>).
Proof.
  intros (w1 & Hc & Hs & Hf & He). set (w2 := w <| sc_flags ::= _ |>).
  apply (collecting_same w0 w1); [done| |].
  - trans w; [done|]. by apply same_clear.
  - apply not_busy. change (sc_flags w2) with (Z.ldiff (sc_flags w) SC_ESCAPED).
    split; [by rewrite has_ldiff|apply ldiff_ldiff_same].
Qed.

(** A byte of the line that is not the flag. *)
Definition at_line (st : rx) w : Prop :=
  match st with Throwing => flushing w0 w | Taking e u d => taking e u d w end.
Lemma wp_line_octet w u d c (E' : Empty_set -> drv -> Prop) : taking false u d w ->
  wp False (flush c (input_octet c)) (fun _ w' => at_line (line_octet rej mru u d c) w') E' w.
Proof.
  intros Ht. eapply wp_mono; [by apply wp_octet_flush| |done]. intros [] w' Ha. unfold line_octet.
  by destruct (takes rej mru d c).
Qed.
Lemma wp_no_flag st w c (E' : Empty_set -> drv -> Prop) : at_line st w -> is_u8 c ->
  (c =? PPP_FLAG) = false ->
  wp False (pppinput c) (fun _ w' => at_line (fst (line_byte map rej mru st c)) w') E' w.
Proof.
  intros Hst Hc Hf. unfold line_byte. rewrite Hf. cbn [fst]. destruct st as [|e u d]; [by apply wp_ignored|].
  cbn [at_line] in Hst. destruct (taking_flags _ _ _ _ Hst) as (Hk & Hf0 & He0).
  unfold pppinput. rewrite land_ff_id by done. wp_step.
  apply wp_received; [done|by apply (keeps_quiet w0)|]. intros w1 Hs Hfl He.
  apply (taking_same e u d w w1) in Hst; [|done..].
  rewrite Hf0 in Hfl. rewrite He0 in He. rewrite Hf. unfold flag. do 4 wp_step. rewrite Hfl. do 2 wp_step.
  assert (Hk1 : keeps w0 w1) by (trans w; [done|apply Hs]). rewrite (keeps_map w0 w1 Hk1).
  destruct ((c <? 0x20) && has map (Z.shiftl 1 c)); [by wp_step|]. do 4 wp_step. rewrite He.
  destruct e.
  - unfold clear_flag. do 2 wp_step. by apply wp_line_octet, taking_unescape.
  - destruct (c =? PPP_ESCAPE); [|by apply wp_line_octet]. unfold set_flag. wp_step. by apply taking_escape.
Qed.

(** *** The closing flag *)

Lemma wp_shorten w pre m post (Q : Z -> drv -> Prop) (E' : Empty_set -> drv -> Prop) :
  sc_m w = pre ++ m :: post -> sc_mc w = Some (length pre) ->
  Q (m_len m - 1) (w <| sc_m := pre ++ m <| m_len ::= Z.pred |> :: post |>) ->
  wp False shorten Q E' w.
Proof.
  intros Hm Hc HQ. unfold shorten. wp_step. apply (wp_current w _ _ pre m post); [done..|].
  unfold put_mbuf. wp_go. revert HQ. cbn [fst snd].
  rewrite <- (insert_middle pre m _ post), <- Hm. done.
Qed.

(** A chain with the packet [p], its header in the first mbuf. *)
Definition packet (l : chain) (p : list Z) : Prop :=
  Forall mbuf_ok l /\ contents l = p /\ exists m rest, l = m :: rest /\ 4 <= m_len m.


(** Behind the cut the packet is the chain up to [sc_mc]. *)
Definition cut w w' (p : list Z) : Prop :=
  keeps w w' /\ sc_flags w' = sc_flags w /\ sc_ilen w' = sc_ilen w
  /\ exists pre m rest, sc_m w' = pre ++ m :: rest /\ sc_mc w' = Some (length pre)
     /\ packet (pre ++ [m]) p /\ Forall cluster_ok rest.

Lemma packet_2 pre m k d : Forall full pre -> mbuf_ok m -> contents pre ++ content m = d ->
  0 <= k -> k = m_len m - 2 -> 6 <= Z.of_nat (length d) ->
  packet (pre ++ [m <| m_len := k |>]) (take (length d - 2) d).
Proof.
  intros Hf Hm Hd Hk -> Hl. pose proof (length_content m Hm) as Hlm.
  destruct (content_shorter m (m_len m - 2) Hm) as [Hok Hc]; [lia|].
  assert (Hlen : length d = (length (contents pre) + length (content m))%nat)
    by by rewrite <- Hd, length_app.
  split_and!.
  - apply Forall_app_2; [by apply full_ok|]. by apply Forall_cons_2.
  - rewrite contents_app, contents_1, Hc, <- Hd, take_app_ge by (rewrite length_app; lia).
    f_equal. rewrite Hd. f_equal. lia.
  - destruct pre as [|m0 pre]; cbn [app].
    + exists (m <| m_len := m_len m - 2 |>), []. split; [done|].
      change (4 <= m_len m - 2). cbn in Hlen. lia.
    + inversion_clear Hf as [|? ? (_ & _ & ?) _]. exists m0. eexists. split; [done|lia].
Qed.
Lemma packet_1 pre p m d : Forall full pre -> full p -> contents (pre ++ [p]) ++ content m = d ->
  length (content m) = 1%nat -> 6 <= Z.of_nat (length d) ->
  packet (pre ++ [p <| m_len := m_len p - 1 |>]) (take (length d - 2) d).
Proof.
  intros Hf (Hp & _ & Hp6) Hd Hm Hl. pose proof (length_content p Hp) as Hlp.
  destruct (content_shorter p (m_len p - 1) Hp) as [Hok Hc]; [lia|].
  rewrite contents_app, contents_1 in Hd.
  assert (Hlen : length d = (length (contents pre) + length (content p) + 1)%nat)
    by by rewrite <- Hd, !length_app, Hm.
  split_and!.
  - apply Forall_app_2; [by apply full_ok|]. by apply Forall_cons_2.
  - rewrite contents_app, contents_1, Hc, <- Hd, take_app_le by (rewrite !length_app; lia).
    rewrite take_app_ge by (rewrite !length_app; lia). f_equal. f_equal.
    rewrite !length_app, Hm. lia.
  - destruct pre as [|m0 pre]; cbn [app].
    + exists (p <| m_len := m_len p - 1 |>), []. split; [done|].
      change (4 <= m_len p - 1). lia.
    + inversion_clear Hf as [|? ? (_ & _ & ?) _]. exists m0. eexists. split; [done|lia].
Qed.

Lemma wp_remove w u d pre m post (E' : Empty_set -> drv -> Prop) :
  held w0 w u d pre m post -> 0 < m_len m -> 6 <= Z.of_nat (length d) ->
  wp False remove_trailer (fun _ w' => cut w w' (take (length d - 2) d)) E' w.
Proof.
  intros Hh Hm Hl. pose proof (h_data _ _ _ _ _ _ _ Hh) as Hd. unfold remove_trailer. wp_step.
  apply (wp_shorten _ pre m post); [apply Hh..|]. rewrite shorter_len.
  set (w1 := w <| sc_m := pre ++ m <| m_len := m_len m - 1 |> :: post |>).
  destruct (Z.eqb_spec (m_len m - 1) 0) as [H1|H1]; cbn [when].
  - assert (Hm1 : length (content m) = 1%nat).
    { pose proof (length_content m (h_ok _ _ _ _ _ _ _ Hh)). lia. }
    destruct pre as [|p pre _] using rev_ind.
    { exfalso. change (content m = d) in Hd. rewrite <- Hd, Hm1 in Hl. lia. }
    pose proof (h_full _ _ _ _ _ _ _ Hh) as Hf. apply Forall_app in Hf as [Hf Hp].
    apply Forall_inv in Hp.
    do 4 wp_step. eapply wp_access; [apply Hh|].
    replace (length (pre ++ [p])) with (S (length pre)) by (rewrite length_app; cbn; lia).
    do 2 wp_step. set (w2 := w1 <| sc_mc := Some (length pre) |>).
    eapply (wp_shorten w2 pre p (m <| m_len := m_len m - 1 |> :: post)); [|done|].
    { change ((pre ++ [p]) ++ m <| m_len := m_len m - 1 |> :: post
              = pre ++ p :: m <| m_len := m_len m - 1 |> :: post). by rewrite <- app_assoc. }
    wp_step. split; [done|]. split; [done|]. split; [done|].
    exists pre, (p <| m_len ::= Z.pred |>), (m <| m_len := m_len m - 1 |> :: post).
    split; [done|]. split; [done|]. rewrite shorter_len. split; [by apply (packet_1 pre p m)|].
    apply Forall_cons_2; [exact (h_clm _ _ _ _ _ _ _ Hh)|apply Hh].
  - do 2 wp_step.  wp_step.
    eapply (wp_shorten w1 pre (m <| m_len := m_len m - 1 |>) post); [done|apply Hh|].
    wp_step. split; [done|]. split; [done|]. split; [done|].
    exists pre, (m <| m_len := m_len m - 1 |> <| m_len ::= Z.pred |>), post.
    split; [done|]. split; [apply Hh|]. split; [|apply Hh].
    apply (packet_2 pre m (m_len m - 1 - 1)); [apply Hh..|done| |lia|done]. lia.
Qed.

(** The flag: the start of [input_flag] up to its first test. *)
Lemma wp_flag_start w (Q : () -> drv -> Prop) (E' : Empty_set -> drv -> Prop) : keeps w0 w ->
  (forall w', same (w <| sc_ilen := 0 |>) w' -> has (sc_flags w') SC_FLUSH = has (sc_flags w) SC_FLUSH ->
     has (sc_flags w') SC_ESCAPED = has (sc_flags w) SC_ESCAPED ->
     wp False (let ilen := sc_ilen w in
               let bad := has (sc_flags w) BUSY in
               if bad || ((0 <? ilen) && negb (sc_fcs w =? PPP_GOODFCS)) then
                 modify (fun s => s <| sc_comp ::= sl_uncompress_error |>) ;;
                 if bad then clear_flag (Z.lor SC_FLUSH SC_ESCAPED) else ierror
               else if ilen <? PPP_HDRLEN + PPP_FCSLEN then when (negb (ilen =? 0)) ierror
               else remove_trailer ;; l <- excise ;; _ <- ppppktin l ;; _ <- pppgetm ;; ret tt) Q E' w') ->
  wp False (pppinput PPP_FLAG) Q E' w.
Proof.
  intros Hk HQ. unfold pppinput. rewrite land_ff_id by done. wp_step.
  apply wp_received; [done|by apply (keeps_quiet w0)|]. intros w1 Hs Hfl He.
  rewrite Z.eqb_refl. unfold input_flag. do 6 wp_step.
  match goal with |- wp _ _ _ _ ?s => set (w2 := s) end.
  pose proof Hs as (Hk1 & H1 & H2 & H3 & H4 & H5).
  assert (Hk2 : keeps w0 w2) by (trans w; [done|exact Hk1]).
  destruct (keeps_quiet _ _ Hk2 Hquiet) as (_ & _ & Hraw).
  destruct (Z.ltb_spec 0 (sc_rawin_count w2)); [lia|]. cbn [when].
  unfold flag. do 8 wp_step. fold BUSY. rewrite H4.
  change (sc_fcs w2) with (sc_fcs w1). rewrite H5.
  assert (Hb : has (sc_flags w2) BUSY = has (sc_flags w) BUSY).
  { change (sc_flags w2) with (sc_flags w1). unfold BUSY. by rewrite !has_mask, Hfl, He. }
  rewrite Hb. apply HQ; [|done..]. split; [exact Hk1|]. split_and!; done.
Qed.

(** A frame that is dropped: the next one finds everything as before. *)
Lemma ready_intro w w' : keeps w0 w -> chain_ok w -> keeps w w' -> sc_m w' = sc_m w -> sc_ilen w' = 0 ->
  has (sc_flags w') BUSY = false -> ready w0 w'.
Proof.
  intros Hk (H1 & H2 & H3) Hk' Hm Hi Hb. pose proof (keeps_mru _ _ Hk') as Hmru.
  split; [by trans w|done|done|by rewrite Hm|by rewrite Hm, Hmru|by rewrite Hmru].
Qed.
Lemma wp_flag_bad w (Q : () -> drv -> Prop) (E' : Empty_set -> drv -> Prop) : keeps w0 w -> chain_ok w ->
  has (sc_flags w) BUSY = true -> (forall w', ready w0 w' -> Q tt w') -> wp False (pppinput PPP_FLAG) Q E' w.
Proof.
  intros Hk Hch Hb HQ. apply wp_flag_start; [done|]. intros w1 (Hk1 & Hm & _ & _ & Hi & Hf) Hfl He.
  cbv zeta. rewrite Hb. cbn [orb]. do 2 wp_step. unfold clear_flag. fold BUSY. wp_step.
  match goal with |- Q tt ?s => set (w2 := s) end.
  assert (Hk2 : keeps w w2).
  { trans w1; [exact Hk1|]. trans (w1 <| sc_comp ::= sl_uncompress_error |>); [done|].
    by apply (proj1 (same_clear (w1 <| sc_comp ::= sl_uncompress_error |>) BUSY eq_refl)). }
  apply HQ, (ready_intro w); [done..|exact Hm|exact Hi|apply ldiff_ldiff_same].
Qed.
Lemma wp_flag_none w u d (Q : () -> drv -> Prop) (E' : Empty_set -> drv -> Prop) : collecting w0 w u d ->
  packet_of u d = None -> (forall w', ready w0 w' -> Q tt w') -> wp False (pppinput PPP_FLAG) Q E' w.
Proof.
  intros Hc Hp HQ. destruct (collecting_keeps _ _ _ _ Hc) as [Hk Hbusy].
  apply wp_flag_start; [done|]. intros w1 (Hk1 & Hm & _ & _ & Hi & Hf) Hfl He.
  assert (Hb1 : has (sc_flags w1) BUSY = false).
  { apply not_busy in Hbusy as [H1 H2]. apply not_busy. by rewrite Hfl, He. }
  pose proof Hc as (Hil & Hch & _ & Hd).
  assert (Hready : forall w2, keeps w1 w2 -> sc_m w2 = sc_m w1 -> sc_ilen w2 = sc_ilen w1 ->
    has (sc_flags w2) BUSY = false -> Q tt w2).
  { intros w2 Hk2 Hm2 Hi2 Hb2. apply HQ, (ready_intro w); try done.
    - trans w1; [exact Hk1|done].
    - by rewrite Hm2, Hm.
    - by rewrite Hi2, Hi. }
  cbv zeta. rewrite Hbusy, Hil. cbn [orb]. unfold packet_of in Hp.
  destruct (Z.ltb_spec 0 (Z.of_nat (length d))) as [Hpos|Hpos]; cbn [andb].
  - rewrite decide_False in Hd by (intros ->; done). destruct Hd as (pre & m & post & Hh & _).
    rewrite (h_fcs _ _ _ _ _ _ _ Hh). destruct (pppfcs PPP_INITFCS u =? PPP_GOODFCS); cbn [negb].
    + rewrite andb_true_r, Z.leb_antisym in Hp.
      destruct (Z.of_nat (length d) <? PPP_HDRLEN + PPP_FCSLEN); [|done].
      rewrite (proj2 (Z.eqb_neq _ _)) by lia. cbn [negb when]. unfold ierror. wp_step. by apply Hready.
    + do 2 wp_step. unfold ierror. wp_step. by apply Hready.
  - destruct d; [|done]. change (Z.of_nat (length [])) with 0.
    change (0 <? PPP_HDRLEN + PPP_FCSLEN) with true. change (negb (0 =? 0)) with false. cbn [when].
    wp_step. by apply Hready.
Qed.

Lemma wp_flag w u d (Q : () -> drv -> Prop) (E' : Empty_set -> drv -> Prop) :
  collecting w0 w u d -> 6 <= Z.of_nat (length d) -> pppfcs PPP_INITFCS u = PPP_GOODFCS ->
  (forall l w', keeps w0 w' -> packet l (take (length d - 2) d) -> sc_ilen w' = 0 ->
     has (sc_flags w') BUSY = false -> Forall cluster_ok (sc_m w') ->
     wp False (_ <- ppppktin l ;; _ <- pppgetm ;; ret tt) Q E' w') ->
  wp False (pppinput PPP_FLAG) Q E' w.
Proof.
  intros Hc Hl Hf HQ. destruct (collecting_keeps _ _ _ _ Hc) as [Hk Hbusy].
  pose proof Hbusy as [Hb1 Hb2]%not_busy. apply wp_flag_start; [done|].
  intros w2 (Hk1 & Hm2 & Hc2 & Hp2 & Hi2 & Hf2) Hfl He. rewrite Hb1 in Hfl. rewrite Hb2 in He.
  destruct Hc as (Hi & _ & _ & Hc). rewrite decide_False in Hc by (intros ->; cbn in Hl; lia).
  destruct Hc as (pre & m & post & Hh & Hm). cbv zeta.
  assert (Hh2 : held w0 w2 u d pre m post) by (apply (held_eq w0 w); try done; by apply not_busy).
  rewrite Hbusy, (h_fcs _ _ _ _ _ _ _ Hh), Hf, Z.eqb_refl, andb_false_r, Hi. cbn [orb].
  destruct (Z.ltb_spec (Z.of_nat (length d)) (PPP_HDRLEN + PPP_FCSLEN)) as [Hlt|_];
    [unfold PPP_HDRLEN, PPP_FCSLEN in Hlt; lia|].
  wp_step. eapply wp_mono; [by eapply wp_remove| |done].
  intros [] w3 (Hk3 & Hfl3 & Hi3 & l & ml & rest & Hch & Hmc & Hp & Hrest).
  unfold excise. do 2 wp_step. apply (wp_current w3 _ _ l ml rest); [done..|]. cbn [fst].
  do 5 wp_step. rewrite Hch.
  assert (Hdrop : drop (S (length l)) (l ++ ml :: rest) = rest)
    by (rewrite drop_app_ge, Nat.sub_succ_l, Nat.sub_diag by lia; done).
  assert (Htake : take (S (length l)) (l ++ ml :: rest) = l ++ [ml])
    by (rewrite take_app_ge, Nat.sub_succ_l, Nat.sub_diag by lia; done).
  rewrite Hdrop, Htake. apply HQ; try done.
  - trans w3; [|done]. trans w2; [|done]. apply Hh2.
  - change (sc_ilen w3 = 0). by rewrite Hi3.
  - change (has (sc_flags w3) BUSY = false). rewrite Hfl3. apply Hh2.
Qed.
End Frame.

(** ** The next packet *)

(** A pool that is never empty. *)
Definition generous : Prop := forall n p, exists m p', mHdrClGet n p = (Some m, p') /\ cluster_ok m.

Lemma getm_skip_sizes l : forall len, getm_skip l len <= 0 \/ getm_skip l len = len - sizes l.
Proof.
  induction l as [|m l IH]; intros len; cbn [getm_skip sizes foldr]; [right; lia|].
  destruct (Z.ltb_spec 0 len); [|by left]. destruct (IH (len - M_DATASIZE m)) as [|IH']; [by left|].
  right. rewrite IH'. unfold sizes. lia.
Qed.
Lemma getm_skip_done l : Forall cluster_ok l -> forall len, getm_skip l len <= 0 -> len <= sizes l.
Proof.
  induction 1 as [|m l Hm Hl IH]; intros len; cbn [getm_skip sizes foldr]; [lia|].
  assert (0 <= sizes l).
  { clear -Hl. induction Hl as [|m l Hm Hl IH]; cbn; [done|]. fold (sizes l). unfold M_DATASIZE. lia. }
  fold (sizes l). destruct (Z.ltb_spec 0 len); [|unfold M_DATASIZE; lia].
  intros Hs. apply IH in Hs. lia.
Qed.

(** Only the pool and the chain change. *)
Definition refilled w w' : Prop :=
  exists p l, w' = w <| d_pool := p |> <| sc_m := l |> /\ Forall cluster_ok l.
Lemma refilled_refl w : Forall cluster_ok (sc_m w) -> refilled w w.
Proof. intros H. exists (d_pool w), (sc_m w). split; [by destruct w|done]. Qed.
Lemma wp_getm_alloc fuel : forall w len (Q : Z -> drv -> Prop) (E' : Empty_set -> drv -> Prop),
  generous -> len <= Z.of_nat fuel -> Forall cluster_ok (sc_m w) ->
  (forall r w', refilled w w' -> r <= 0 -> sizes (sc_m w') = sizes (sc_m w) + (len - r) ->
     sizes (sc_m w) <= sizes (sc_m w') -> Q r w') ->
  wp False (getm_alloc fuel len) Q E' w.
Proof.
  induction fuel as [|fuel IH]; intros w len Q E' Hpool Hlen Hcl HQ; cbn [getm_alloc];
    destruct (Z.ltb_spec 0 len) as [Hpos|Hpos]; try lia.
  1, 3: by apply wp_ret, HQ; [apply refilled_refl|lia..].
  do 2 wp_step. destruct (Hpool len (d_pool w)) as (m & p' & -> & Hm). do 2 wp_step.
  set (w1 := w <| d_pool := p' |> <| sc_m ::= fun l => l ++ [m] |>).
  assert (Hm1 : sc_m w1 = sc_m w ++ [m]) by done.
  assert (1 <= M_DATASIZE m).
  { revert Hm. unfold cluster_ok, header_off. destruct (_ <=? _); unfold HDROFF, MAX_HDR; lia. }
  apply IH; [done|lia|rewrite Hm1; by apply Forall_app_2; [|apply Forall_cons_2]|].
  intros r w' (p & l & -> & Hl) Hr Hsz Hmore. rewrite Hm1, sizes_app in Hsz, Hmore.
  apply HQ; [by exists p, l|done|lia..].
Qed.
Lemma wp_getm w (Q : bool -> drv -> Prop) (E' : Empty_set -> drv -> Prop) :
  generous -> Forall cluster_ok (sc_m w) ->
  (forall w', refilled w w' -> HDROFF + sc_mru w + 6 <= sizes (sc_m w') -> Q true w') ->
  wp False pppgetm Q E' w.
Proof.
  intros Hpool Hcl HQ. unfold pppgetm. do 5 wp_step.
  set (len := HDROFF + sc_mru w + PPP_HDRLEN + PPP_FCSLEN).
  apply wp_getm_alloc; [done|lia|done|]. intros r w' Hw' Hr Hs Hmore. wp_step.
  rewrite (proj2 (Z.leb_le _ _) Hr). apply HQ; [done|].
  unfold PPP_HDRLEN, PPP_FCSLEN in len. destruct (getm_skip_sizes (sc_m w) len) as [H|H]; [|lia].
  apply (getm_skip_done _ Hcl) in H. lia.
Qed.

(** ** Where a packet goes *)

Lemma packet_header l p h q : packet l p -> p = h ++ q -> Z.of_nat (length h) = PPP_HDRLEN ->
  exists m rest, l = m :: rest /\ m_read (m_data m) PPP_HDRLEN m = Some h /\ mbuf_ok m
  /\ Forall mbuf_ok rest /\ 4 <= m_len m /\ content m ++ contents rest = p.
Proof.
  intros (Hl & Hc & m & rest & -> & Hm) Hp Hh. inversion_clear Hl as [|? ? Hok Hrest].
  change (content m ++ contents rest = p) in Hc. exists m, rest. split; [done|].
  unfold PPP_HDRLEN in *. assert (length h = 4%nat) as Hh4 by lia.
  pose proof (length_content m Hok) as Hlm. split; [|done].
  destruct Hok as (H1 & H2 & H3). rewrite m_read_ok by lia. f_equal.
  assert (Ht : take 4 (content m ++ contents rest) = h) by (by rewrite Hc, Hp, take_app_length').
  rewrite take_app_le in Ht by lia. rewrite <- Ht. unfold content. rewrite take_take.
  f_equal. lia.
Qed.

(** What the hook of etherLib gets fits into its buffer; what it takes goes no
    further. *)
Definition hook_fits (h : option (list Z -> bool)) (p : list Z) : Prop :=
  match h with None => True | Some _ => Z.of_nat (length p) <= PPPBUFSIZE end.
Definition hook_takes (h : option (list Z -> bool)) (p : list Z) : bool :=
  match h with None => false | Some f => f p end.
Definition hook_passes (h : option (list Z -> bool)) (p : list Z) : Prop :=
  hook_fits h p /\ hook_takes h p = false.
Lemma wp_hook {X} w h l p (Q : bool -> drv -> Prop) (E' : X -> drv -> Prop) :
  hook_fits h p -> Forall mbuf_ok l -> contents l = p -> Q (hook_takes h p) w ->
  wp False (run_hook h l) Q E' w.
Proof.
  intros Hh Hl Hp HQ. destruct h as [f|]; [|by apply wp_ret]. cbn in Hh.
  unfold run_hook, copy_chain. do 2 wp_step. eapply wp_access; [by apply chain_bytes_contents|].
  rewrite Hp, (proj2 (Z.leb_le _ _) Hh). do 2 wp_step. exact HQ.
Qed.

Definition proto_of (p : list Z) : Z :=
  match p with _ :: _ :: p2 :: p3 :: _ => Z.shiftl p2 8 + p3 | _ => 0 end.
(** A whole header, and not one of the protocols of compressed TCP. *)
Definition plain_packet (p : list Z) : Prop :=
  4 <= Z.of_nat (length p) /\ proto_of p <> PPP_VJC_COMP /\ proto_of p <> PPP_VJC_UNCOMP.
Definition daemon_packet (p : list Z) : Prop := plain_packet p /\ proto_of p <> PPP_IP.

(** What becomes of the packet [p], which [l] holds. *)
Definition counted w : drv := w <| if_ipackets ::= fun n => u32 (n + 1) |>.
Definition behind (l : chain) : chain :=
  match l with
  | [] => []
  | m :: rest => m <| m_data ::= Z.add PPP_HDRLEN |> <| m_len ::= fun n => n - PPP_HDRLEN |> :: rest
  end.
Definition to_ip w (l : chain) : drv :=
  counted w <| d_ip ::= fun q => q ++ ifq_list (d_ipintrq w) ++ [behind l] |>
    <| d_ipintrq ::= fun q => q <| ifq_list := [] |> |> <| sc_iprcvd ::= fun n => u32 (n + 1) |>.
Definition to_daemon w (l : chain) : drv :=
  counted w <| sc_inq ::= fun q => IF_ENQUEUE q l |> <| d_sigio ::= S |>.
Definition lost w (ip : bool) : drv :=
  (if ip then counted w <| d_ipintrq ::= IF_DROP |> else counted w <| sc_inq ::= IF_DROP |>)
    <| if_ierrors ::= fun n => u32 (n + 1) |> <| if_iqdrops ::= fun n => u32 (n + 1) |>.
Definition ip_on w : bool := has (if_flags w) IFF_UP && has (sc_flags w) SC_ENABLE_IP.
Inductive settled (l : chain) (p : list Z) w : drv -> Prop :=
  | settled_hook : hook_takes (d_inhook w) p = true -> settled l p w (counted w)
  | settled_off : hook_takes (d_inhook w) p = false -> proto_of p = PPP_IP -> ip_on w = false ->
      settled l p w (counted w)
  | settled_ip : hook_takes (d_inhook w) p = false -> proto_of p = PPP_IP -> ip_on w = true ->
      IF_QFULL (d_ipintrq w) = false -> settled l p w (to_ip w l)
  | settled_ip_full : hook_takes (d_inhook w) p = false -> proto_of p = PPP_IP -> ip_on w = true ->
      IF_QFULL (d_ipintrq w) = true -> settled l p w (lost w true)
  | settled_daemon : hook_takes (d_inhook w) p = false -> proto_of p <> PPP_IP ->
      IF_QFULL (sc_inq w) = false -> settled l p w (to_daemon w l)
  | settled_full : hook_takes (d_inhook w) p = false -> proto_of p <> PPP_IP ->
      IF_QFULL (sc_inq w) = true -> settled l p w (lost w false).

Lemma wp_pktin w l p (Q : bool -> drv -> Prop) (E' : Empty_set -> drv -> Prop) :
  packet l p -> plain_packet p -> hook_fits (d_inhook w) p ->
  (forall b w', settled l p w w' -> Q b w') -> wp False (ppppktin l) Q E' w.
Proof.
  intros Hl (Hp & Hv1 & Hv2) Hh HQ. pose proof Hl as (Hok & Hc & _).
  destruct p as [|adrs [|ctrl [|p2 [|p3 q]]]]; cbn [length] in Hp; try lia.
  destruct (packet_header l _ [adrs; ctrl; p2; p3] q Hl) as (m & rest & -> & Hr & _); [done..|].
  set (p := adrs :: ctrl :: p2 :: p3 :: q) in *.
  unfold ppppktin. do 3 wp_step. eapply wp_access; [exact Hr|]. cbv iota zeta. fold (counted w).
  change (Z.shiftl p2 8 + p3) with (proto_of p).
  apply Z.eqb_neq in Hv1, Hv2. rewrite Hv1, Hv2. cbn [orb]. unfold deliver. do 3 wp_step.
  eapply (wp_hook _ _ _ p); [exact Hh|done|done|].
  change (d_inhook (counted w)) with (d_inhook w).
  destruct (hook_takes (d_inhook w) p) eqn:Ht.
  { wp_step. apply HQ. by apply settled_hook. }
  destruct (Z.eqb_spec (proto_of p) PPP_IP) as [Hip|Hip].
  - unfold flag. do 6 wp_step.
    change (if_flags (counted w)) with (if_flags w). change (sc_flags (counted w)) with (sc_flags w).
    destruct (ip_on w) eqn:Hon.
    2: { rewrite <- negb_andb. fold (ip_on w). rewrite Hon. cbn [negb]. wp_step. apply HQ. by apply settled_off. }
    rewrite <- negb_andb. fold (ip_on w). rewrite Hon. cbn [negb].
    unfold to_queue. rewrite Hip, Z.eqb_refl. do 2 wp_step.
    change (d_ipintrq (counted w)) with (d_ipintrq w).
    destruct (IF_QFULL (d_ipintrq w)) eqn:Hf.
    + unfold ierror. do 6 wp_step. apply HQ. by apply settled_ip_full.
    + unfold ipintr. do 6 wp_step. apply HQ. by apply settled_ip.
  - unfold to_queue. rewrite (proj2 (Z.eqb_neq _ _) Hip). do 2 wp_step.
    change (sc_inq (counted w)) with (sc_inq w).
    destruct (IF_QFULL (sc_inq w)) eqn:Hf.
    + unfold ierror. do 6 wp_step. apply HQ. by apply settled_full.
    + do 4 wp_step. apply HQ. by apply settled_daemon.
Qed.


Lemma settled_same l p w w' : settled l p w w' ->
  sc_m w' = sc_m w /\ sc_ilen w' = sc_ilen w /\ sc_flags w' = sc_flags w /\ sc_mru w' = sc_mru w
  /\ sc_rasyncmap w' = sc_rasyncmap w /\ sc_rawin_count w' = sc_rawin_count w
  /\ d_inhook w' = d_inhook w /\ if_flags w' = if_flags w.
Proof. by intros []. Qed.

(** ** The receiver refines its specification *)

(** The packet [p], in the chain [l], has gone where it should. *)
Definition next w l p w' : Prop :=
  exists w1 w2 pl, keeps w w1 /\ settled l p w1 w2 /\ keeps (w2 <| d_pool := pl |>) w'.
(** The packets [ps], one after the other. *)
Inductive arrivals w : list (list Z) -> drv -> Prop :=
  | arrivals_nil w' : keeps w w' -> arrivals w [] w'
  | arrivals_cons l p w1 ps w2 : packet l p -> next w l p w1 -> arrivals w1 ps w2 ->
      arrivals w (p :: ps) w2.
Lemma keeps_arrivals w w1 ps w2 : keeps w w1 -> arrivals w1 ps w2 -> arrivals w ps w2.
Proof.
  intros Hk [w' Hk'|l p w3 ps' w' Hp (wa & wb & pl & Hn1 & Hn) Ha].
  - apply arrivals_nil. by trans w1.
  - apply (arrivals_cons _ l p w3); [done| |done]. exists wa, wb, pl. split; [by trans w1|done].
Qed.
Lemma arrivals_1 w l p w' : packet l p -> next w l p w' -> arrivals w [p] w'.
Proof. intros Hp Hn. by apply (arrivals_cons _ l p w'); [..|apply arrivals_nil]. Qed.
Lemma arrivals_app w ps w1 qs w2 : arrivals w ps w1 -> arrivals w1 qs w2 -> arrivals w (ps ++ qs) w2.
Proof.
  induction 1 as [w w1 Hk|w l p wa ps w1 Hp Hn _ IH]; intros Hq; [by apply (keeps_arrivals w w1)|].
  apply (arrivals_cons _ l p wa); [done..|by apply IH].
Qed.

(** What the receiver is configured with. *)
Definition configured w w' : Prop :=
  (quiet w -> quiet w') /\ sc_rasyncmap w' = sc_rasyncmap w /\ sc_mru w' = sc_mru w
  /\ has (sc_flags w') SC_REJ_COMP_AC = has (sc_flags w) SC_REJ_COMP_AC
  /\ d_inhook w' = d_inhook w /\ ip_on w' = ip_on w.
#[global] Instance configured_pre : PreOrder configured.
Proof.
  unfold configured. split; [done|]. intros a b c (H1&H2&H3&H4&H5&H6) (K1&K2&K3&K4&K5&K6).
  split; [by auto|]. split_and!; congruence.
Qed.
Lemma keeps_configured w w' : keeps w w' -> configured w w'.
Proof.
  intros Hk. split; [by apply keeps_quiet|]. unfold ip_on.
  rewrite !(keeps_flag w w'), (keeps_map w w'), (keeps_mru w w') by done.
  by rewrite (f_equal d_inhook Hk : d_inhook w' = d_inhook w), (f_equal if_flags Hk : if_flags w' = if_flags w).
Qed.
Lemma settled_configured l p w w' : settled l p w w' -> configured w w'.
Proof.
  intros H%settled_same. destruct H as (_ & _ & H1 & H2 & H3 & H4 & H5 & H6).
  unfold configured, quiet, ip_on. rewrite H1, H2, H3, H4, H5, H6. done.
Qed.
Lemma next_configured w l p w' : next w l p w' -> configured w w'.
Proof.
  intros (w1 & w2 & pl & Hk1 & Hs & Hk2). trans w1; [by apply keeps_configured|].
  trans w2; [by apply (settled_configured l p)|].
  trans (w2 <| d_pool := pl |>); [done|by apply keeps_configured].
Qed.
Lemma arrivals_configured w ps w' : arrivals w ps w' -> configured w w'.
Proof.
  induction 1 as [w w' Hk|w l p w1 ps w' _ Hn _ IH]; [by apply keeps_configured|].
  trans w1; [by apply (next_configured w l p)|done].
Qed.

(** The state of the receiver: the chain of mbufs at [sc_m], the length, the
    FCS and the two flags stand for a state of the specification. *)
Definition receiver (st : rx) w : Prop := at_line w st w.
Lemma held_self w0 w u d pre m post : held w0 w u d pre m post -> held w w u d pre m post.
Proof. intros []. by split. Qed.
Lemma ready_self w0 w : ready w0 w -> ready w w.
Proof. intros []. by split. Qed.
Lemma collecting_self w0 w u d : collecting w0 w u d -> collecting w w u d.
Proof.
  intros (Hi & Hch & Hl & Hc). split; [done|]. split; [done|]. split; [done|]. destruct (decide (d = [])).
  - destruct Hc as [-> Hr]. split; [done|by apply (ready_self w0)].
  - destruct Hc as (pre & m & post & Hh & Hm). exists pre, m, post. split; [by apply (held_self w0)|done].
Qed.
Lemma collecting_base w0 w1 w u d : collecting w0 w u d -> keeps w1 w -> collecting w1 w u d.
Proof.
  intros (Hi & Hch & Hl & Hc) Hk. split; [done|]. split; [done|]. split; [done|]. destruct (decide (d = [])).
  - destruct Hc as [-> []]. split; [done|by split].
  - destruct Hc as (pre & m & post & [] & Hm). exists pre, m, post. split; [by split|done].
Qed.
Lemma at_line_self w0 st w : at_line w0 st w -> receiver st w /\ keeps w0 w.
Proof.
  unfold receiver. destruct st as [|[] u d]; cbn.
  - intros (Hk & Hf & He & Hch). by split.
  - intros (w1 & Hc & Hs & Hf & He). destruct (collecting_keeps _ _ _ _ Hc) as [Hk _].
    split; [|trans w1; [done|apply Hs]]. exists w1. split; [|done].
    apply (collecting_base w0); [done|]. destruct Hs as [Hs _]. unfold keeps in *. congruence.
  - intros Hc. split; [by apply (collecting_self w0)|]. by destruct (collecting_keeps _ _ _ _ Hc).
Qed.
Lemma receiver_start w : ready w w <-> receiver rx_start w.
Proof.
  unfold receiver, rx_start. cbn [at_line taking]. split.
  - intros Hr. pose proof Hr as []. split; [done|]. split; [done|]. split; [cbn; lia|]. by rewrite decide_True.
  - intros (_ & _ & _ & Hc). rewrite decide_True in Hc by done. apply Hc.
Qed.

(** What a packet must be for the theorems: a header of a protocol other than
    those of compressed TCP, and no longer than the buffer of a hook. *)
Definition receivable w (p : list Z) : Prop := plain_packet p /\ hook_fits (d_inhook w) p.

Lemma ready_receiver w0 w : ready w0 w -> receiver rx_start w.
Proof. intros Hr. by apply receiver_start, (ready_self w0). Qed.
Lemma wp_byte st w c (E' : Empty_set -> drv -> Prop) : generous -> quiet w -> receiver st w -> is_u8 c ->
  let r := line_byte (sc_rasyncmap w) (has (sc_flags w) SC_REJ_COMP_AC) (sc_mru w) st c in
  (forall p, snd r = Some p -> receivable w p) ->
  wp False (pppinput c)
    (fun _ w' => receiver (fst r) w' /\ arrivals w (match snd r with Some p => [p] | None => [] end) w') E' w.
Proof.
  intros Hpool Hq Hst Hc r Hr. destruct (c =? PPP_FLAG) eqn:Hf.
  2: { eapply wp_mono; [by apply (wp_no_flag w Hq st)| |done]. intros [] w' [Hs Hk]%at_line_self.
       unfold r, line_byte in *. rewrite Hf. split; [|by apply arrivals_nil].
       revert Hs. by rewrite Hf. }
  assert (Hnone : forall w', ready w w' -> receiver rx_start w' /\ arrivals w [] w').
  { intros w' Hw. split; [by apply (ready_receiver w)|apply arrivals_nil; apply Hw]. }
  apply Z.eqb_eq in Hf as ->. unfold r, line_byte in *. rewrite Z.eqb_refl in *. cbn [fst snd] in *.
  destruct st as [|[] u d]; unfold receiver in Hst; cbn [at_line taking] in Hst.
  - destruct Hst as (Hk & Hfl & He & Hch). apply (wp_flag_bad w Hq); [done..| |done].
    unfold BUSY. by rewrite has_mask, Hfl.
  - destruct Hst as (w1 & Hcol & Hs & Hfl & He). apply (wp_flag_bad w Hq); [done| | |done].
    + destruct Hcol as (_ & (H1 & H2 & H3) & _). destruct Hs as (Hk & Hm & _).
      unfold chain_ok. by rewrite Hm, (keeps_mru _ _ Hk).
    + unfold BUSY. by rewrite has_mask, Hfl, He.
  - destruct (packet_of u d) as [p|] eqn:Hp.
    2: { by eapply (wp_flag_none w Hq w u d). }
    destruct (Hr p eq_refl) as [Hpp Hhf]. unfold packet_of, PPP_HDRLEN, PPP_FCSLEN in Hp.
    destruct (Z.leb_spec (4 + 2) (Z.of_nat (length d))) as [Hl|]; [|done].
    destruct (Z.eqb_spec (pppfcs PPP_INITFCS u) PPP_GOODFCS) as [Hg|]; [|done]. injection Hp as <-.
    eapply (wp_flag w Hq w u d); [done|lia|done|]. intros l w2 Hk Hpk Hi Hb Hcl. wp_step.
    set (p := take (length d - 2) d) in *.
    apply (wp_pktin w2 l p); [done|done|by rewrite (f_equal d_inhook Hk : d_inhook w2 = d_inhook w)|].
    intros b w3 Hs. wp_step. destruct (settled_same _ _ _ _ Hs) as (Sm & Si & Sf & Sr & _).
    apply wp_getm; [done|by rewrite Sm|]. intros w4 (pl & ch & -> & Hch) Hsz. wp_step. split.
    + apply receiver_start.
      split; [done|by change (has (sc_flags w3) BUSY = false); rewrite Sf
             |by change (sc_ilen w3 = 0); rewrite Si|exact Hch|exact Hsz|].
      change (0 <= sc_mru w3 < 2 ^ 15 - 7). rewrite Sr, (keeps_mru w w2) by done.
      by destruct Hst as (_ & (_ & _ & ?) & _).
    + apply (arrivals_1 w l); [done|]. exists w2, w3, pl. done.
Qed.

Lemma wp_line bs : forall st w (E' : Empty_set -> drv -> Prop), generous -> quiet w -> receiver st w -> bytes bs ->
  let r := line_run (sc_rasyncmap w) (has (sc_flags w) SC_REJ_COMP_AC) (sc_mru w) st bs in
  Forall (receivable w) (snd r) ->
  wp False (input_all bs) (fun _ w' => receiver (fst r) w' /\ arrivals w (snd r) w') E' w.
Proof.
  induction bs as [|c bs IH]; intros st w E' Hpool Hq Hst Hbs.
  - cbn. intros _. split; [done|by apply arrivals_nil].
  - inversion_clear Hbs as [|? ? Hc Hbs']. cbn [line_run input_all]. cbv zeta.
    pose proof (wp_byte st w c E' Hpool Hq Hst Hc) as Hb. cbv zeta in Hb.
    destruct (line_byte _ _ _ st c) as [st1 p]. cbn [fst snd] in *.
    destruct (line_run _ _ _ st1 bs) as [st2 ps] eqn:Hrun. cbn [fst snd] in *. intros Hps.
    assert (Hps' : Forall (receivable w) ((match p with Some p => [p] | None => [] end) ++ ps)) by by destruct p.
    apply Forall_app in Hps' as [Hp Hps'].
    wp_step. eapply wp_mono; [apply Hb| |done].
    { intros q ->. by inversion_clear Hp. }
    intros [] w1 [Hst1 Ha1]. pose proof (arrivals_configured _ _ _ Ha1) as (C1 & C2 & C3 & C4 & C5 & C6).
    specialize (IH st1 w1 E' Hpool (C1 Hq) Hst1 Hbs'). cbv zeta in IH. rewrite C2, C3, C4, Hrun in IH.
    eapply wp_mono; [apply IH| |done].
    { cbn [snd]. revert Hps'. apply Forall_impl. intros q. unfold receivable. by rewrite C5. }
    cbn [fst snd]. intros [] w2 [Hst2 Ha2]. split; [done|].
    assert (Heq : match p with Some p => p :: ps | None => ps end
                  = (match p with Some p => [p] | None => [] end) ++ ps) by by destruct p.
    rewrite Heq. by apply (arrivals_app w _ w1).
Qed.

(** *** Where the packets are *)

(** What has arrived: the packets that wait for the daemon, the signals it has
    got, and the packets that IP has taken. *)
Record inbox := mk_inbox { ib_daemon : list (list Z); ib_signals : nat; ib_ip : list (list Z) }.
Definition view w : inbox :=
  mk_inbox (contents <$> ifq_list (sc_inq w)) (d_sigio w) (contents <$> d_ip w).
Definition arrive (hook : option (list Z -> bool)) (ip : bool) (limit : Z) (s : inbox) (p : list Z) : inbox :=
  if hook_takes hook p then s
  else if proto_of p =? PPP_IP then
    (if ip then mk_inbox (ib_daemon s) (ib_signals s) (ib_ip s ++ [drop 4 p]) else s)
  else if limit <=? Z.of_nat (length (ib_daemon s)) then s
  else mk_inbox (ib_daemon s ++ [p]) (S (ib_signals s)) (ib_ip s).

Lemma contents_behind l p : packet l p -> contents (behind l) = drop 4 p.
Proof.
  intros (Hok & Hc & m & rest & -> & Hm). inversion_clear Hok as [|? ? Hmok _].
  change (content m ++ contents rest = p) in Hc. pose proof (length_content m Hmok) as Hlm.
  destruct (content_drop m PPP_HDRLEN Hmok) as [_ Hd]; [unfold PPP_HDRLEN; lia|].
  change (contents (behind (m :: rest))) with (content (m <| m_data ::= Z.add PPP_HDRLEN |>
    <| m_len ::= fun n => n - PPP_HDRLEN |>) ++ contents rest).
  rewrite Hd, <- Hc, drop_app_le by lia. done.
Qed.

(** The queue of IP between packets. *)
Definition ip_idle w : Prop := ifq_list (d_ipintrq w) = [] /\ 1 <= ifq_maxlen (d_ipintrq w).
Lemma next_view w l p w' : packet l p -> ip_idle w -> next w l p w' ->
  ip_idle w' /\ ifq_maxlen (sc_inq w') = ifq_maxlen (sc_inq w)
  /\ view w' = arrive (d_inhook w) (ip_on w) (ifq_maxlen (sc_inq w)) (view w) p.
Proof.
  intros Hp [Hi1 Hi2] (w1 & w2 & pl & Hk1 & Hs & Hk2).
  pose proof (keeps_configured _ _ Hk1) as (_ & _ & _ & _ & Hh & Hip).
  assert (Hq : d_ipintrq w1 = d_ipintrq w) by exact (f_equal d_ipintrq Hk1).
  assert (Hinq : sc_inq w1 = sc_inq w) by exact (f_equal sc_inq Hk1).
  assert (Hv1 : view w1 = view w) by exact (f_equal view Hk1).
  assert (Hv2 : view w' = view w2) by exact (f_equal view Hk2).
  assert (Hq2 : d_ipintrq w' = d_ipintrq w2) by exact (f_equal d_ipintrq Hk2).
  assert (Hinq2 : sc_inq w' = sc_inq w2) by exact (f_equal sc_inq Hk2).
  unfold ip_idle, arrive. rewrite Hv2, Hq2, Hinq2, <- Hv1, <- Hinq, <- Hh, <- Hip.
  rewrite <- Hq in Hi1, Hi2. clear Hv2 Hq2 Hinq2 Hk2 Hv1 Hinq Hh Hip Hq Hk1.
  assert (Hfull : IF_QFULL (d_ipintrq w1) = false)
    by (unfold IF_QFULL, ifq_len; rewrite Hi1; apply Z.leb_gt; cbn [length]; lia).
  assert (Hlen : length (ib_daemon (view w1)) = length (ifq_list (sc_inq w1)))
    by apply length_fmap.
  rewrite Hlen. change (?a <=? Z.of_nat (length (ifq_list (sc_inq w1)))) with (IF_QFULL (sc_inq w1)).
  destruct Hs as [Ht|Ht Hpr Hon|Ht Hpr Hon Hf|Ht Hpr Hon Hf|Ht Hpr Hf|Ht Hpr Hf]; rewrite Ht;
    try rewrite Hpr, Hon; rewrite ?(proj2 (Z.eqb_neq _ _) Hpr), ?Hf, ?Z.eqb_refl; try done; [| congruence|].
  - split; [done|]. split; [done|].
    change (mk_inbox (contents <$> ifq_list (sc_inq w1)) (d_sigio w1)
      (contents <$> (d_ip w1 ++ ifq_list (d_ipintrq w1) ++ [behind l]))
      = mk_inbox (ib_daemon (view w1)) (ib_signals (view w1)) (ib_ip (view w1) ++ [drop 4 p])).
    by rewrite Hi1, fmap_app, <- (contents_behind l p).
  - split; [done|]. split; [done|].
    change (mk_inbox (contents <$> (ifq_list (sc_inq w1) ++ [l])) (S (d_sigio w1)) (contents <$> d_ip w1)
      = mk_inbox (ib_daemon (view w1) ++ [p]) (S (ib_signals (view w1))) (ib_ip (view w1))).
    rewrite fmap_app. destruct Hp as (_ & <- & _). done.
Qed.
Lemma arrivals_view w ps w' : arrivals w ps w' -> ip_idle w ->
  view w' = foldl (arrive (d_inhook w) (ip_on w) (ifq_maxlen (sc_inq w))) (view w) ps.
Proof.
  induction 1 as [w w' Hk|w l p w1 ps w' Hp Hn _ IH]; intros Hi; [exact (f_equal view Hk)|].
  destruct (next_view _ _ _ _ Hp Hi Hn) as (Hi1 & Hm1 & Hv1).
  destruct (next_configured _ _ _ _ Hn) as (_ & _ & _ & _ & Hh & Hip).
  rewrite (IH Hi1), Hm1, Hh, Hip, Hv1. done.
Qed.

Lemma wp_run {A} (m : D A) Q w : wp False m Q (fun _ _ => False) w -> exists a w', m w = Ok a w' /\ Q a w'.
Proof. unfold wp. intros HQ. destruct (m w) as [a w'|[]| |]; [by exists a, w'|done..]. Qed.

(** C5: while there is memory for mbufs and the input is not logged, the receiver
    refines its specification on every sequence of bytes in which each packet
    is receivable: not one of compressed TCP, and, where there is a hook for
    input, within the 3000 bytes of the buffer from which the hook reads (the
    code does not check this).  The collection in mbufs runs without a fault,
    its state stands for that of the specification, and the packets that the
    specification finds go to the daemon, to IP or nowhere as [arrive] says, in
    their order. *)
Theorem rx_refines bs st w : generous -> quiet w -> receiver st w -> ip_idle w -> bytes bs ->
  let '(st', ps) := line_run (sc_rasyncmap w) (has (sc_flags w) SC_REJ_COMP_AC) (sc_mru w) st bs in
  Forall (receivable w) ps ->
  exists w', input_all bs w = Ok tt w' /\ receiver st' w'
  /\ view w' = foldl (arrive (d_inhook w) (ip_on w) (ifq_maxlen (sc_inq w))) (view w) ps.
Proof.
  intros Hpool Hq Hst Hi Hbs. pose proof (wp_line bs st w (fun _ _ => False) Hpool Hq Hst Hbs) as Hw.
  cbv zeta in Hw. destruct (line_run _ _ _ st bs) as [st' ps]. cbn [fst snd] in Hw. intros Hps.
  destruct (wp_run _ _ _ (Hw Hps)) as ([] & w' & Hrun & Hst' & Ha). exists w'. split; [done|]. split; [done|].
  by apply arrivals_view.
Qed.
End Input.

(** The unit of the examples is between two packets. *)
Lemma line_generous : @generous line_env.
Proof.
  intros n p. exists (fresh (Z.max 2048 n)), (S p). split; [done|].
  unfold cluster_ok, header_off, M_DATASIZE, fresh. cbn [m_ext]. rewrite length_replicate.
  unfold HDROFF, MAX_HDR, PPP_HDRLEN. rewrite Z2Nat.id by lia. destruct (_ <=? _); lia.
Qed.
Lemma line_quiet flags snd : has flags SC_LOG_RAWIN = false -> has flags SC_LOG_FLUSH = false ->
  quiet (line_unit flags snd).
Proof. by split. Qed.
Lemma fresh_ok : cluster_ok (fresh 2048).
Proof. by vm_compute. Qed.
Lemma line_ready flags snd : has flags BUSY = false -> ready (line_unit flags snd) (line_unit flags snd).
Proof. intros H. split; [done|exact H|done|by apply Forall_cons_2;
  [apply fresh_ok|]|by vm_compute|by vm_compute]. Qed.

(** A frame of LCP, one of IP with the escapes, and the start of another. *)
Definition demo_bytes : list Z :=
  encode open_map (lcp_packet ++ trailer lcp_packet) ++ [PPP_FLAG; PPP_FLAG]
  ++ encode open_map (ip_packet ++ trailer ip_packet) ++ [PPP_FLAG; 0xff; PPP_ESCAPE].
Lemma bytes_check l : forallb (fun c => (0 <=? c) && (c <? 256)) l = true -> bytes l.
Proof.
  induction l as [|c l IH]; [constructor|]. cbn [forallb].
  intros [[H1%Z.leb_le H2%Z.ltb_lt]%andb_true_iff H]%andb_true_iff.
  apply Forall_cons_2; [split; [done|exact H2]|by apply IH].
Qed.
Lemma rx_refines_witness :
  exists w', input_all (E:=line_env) demo_bytes (line_unit SC_ENABLE_IP []) = Ok tt w'
  /\ receiver (Taking true [0xff] [0xff]) w'
  /\ view w' = mk_inbox [lcp_packet] 1 [[0x45; 0x7e; 0x7d; 0x11]].
Proof.
  set (w := line_unit SC_ENABLE_IP []).
  assert (Hb : bytes demo_bytes) by (apply bytes_check; vm_compute; reflexivity).
  assert (Hr : receiver rx_start w) by (apply receiver_start, line_ready; reflexivity).
  assert (Hq : quiet w) by (apply line_quiet; reflexivity).
  assert (Hi : ip_idle w) by (split; [reflexivity|vm_compute; discriminate]).
  pose proof (rx_refines (E:=line_env) demo_bytes rx_start w line_generous Hq Hr Hi Hb) as H.
  assert (Hrun : line_run (sc_rasyncmap w) (has (sc_flags w) SC_REJ_COMP_AC) (sc_mru w) rx_start demo_bytes
                 = (Taking true [0xff] [0xff], [lcp_packet; ip_packet])) by (vm_compute; reflexivity).
  rewrite Hrun in H. apply H.
  apply Forall_cons_2; [|apply Forall_cons_2; [|constructor]];
    (split; [split; [|split]|exact I]; vm_compute; discriminate).
Defined.
