(* ===== verification/IfOut.v ===== *)
(** * if_ppp.c: what the transmitter puts on the line

    Packets from the queues, with the headers that the flags allow to be
    compressed, as frames: escaped bytes, the FCS, the flag. *)

From stdpp Require Import base list numbers.
From S2P Require Export IfRecv.

(** ** The specification *)

(** The header of a packet on the line. *)
Definition squeeze (flags : Z) (p : list Z) : list Z :=
  match p with
  | address :: control :: p2 :: p3 :: q =>
      let protocol := Z.shiftl p2 8 + p3 in
      (if has flags SC_COMP_AC && (address =? PPP_ALLSTATIONS) && (control =? PPP_UI)
          && negb (protocol =? PPP_ALLSTATIONS) && negb (protocol =? PPP_LCP)
       then [] else [address; control])
      ++ (if has flags SC_COMP_PROT && (protocol <? 0xFF) then [p3] else [p2; p3]) ++ q
  | _ => p
  end.
Definition frame (map : list Z) (p : list Z) : list Z := encode map (p ++ trailer p) ++ [PPP_FLAG].

(** A packet as PPP has them: the address, the control field, a protocol number
    whose first byte is even and whose second is odd. *)
Definition wf_packet (p : list Z) : Prop :=
  match p with
  | address :: control :: p2 :: p3 :: _ =>
      address = PPP_ALLSTATIONS /\ control = PPP_UI /\ Z.land p2 1 = 0 /\ Z.land p3 1 = 1
  | _ => False
  end.

Lemma octs_tail rej u : forall d, 4 <= Z.of_nat (length d) -> octs rej d u = Some (d ++ u).
Proof.
  induction u as [|c u IH]; intros d Hd; cbn [octs]; [by rewrite app_nil_r|].
  assert (Ho : oct rej d c = Some (d ++ [c])).
  { destruct d as [|x d]; [done|]. unfold oct, with_address. rewrite bool_decide_false by done.
    rewrite decide_False by done. cbn [andb].
    assert (forall n, n < 4 -> (Z.of_nat (length (x :: d)) =? n) = false) as Hn by lia.
    unfold with_protocol. by rewrite !Hn by lia. }
  rewrite Ho, IH by (rewrite length_app; lia). by rewrite <- app_assoc.
Qed.
Lemma octs_app rej u v : forall d d', octs rej d u = Some d' -> octs rej d (u ++ v) = octs rej d' v.
Proof.
  induction u as [|c u IH]; intros d d' H; cbn in *; [by injection H as <-|].
  destruct (oct rej d c); [|done]. by apply IH.
Qed.

(** The octets of a header, one by one. *)
Lemma oct_even rej d c : (d = [PPP_ALLSTATIONS; PPP_UI]
    \/ (d = [] /\ (c =? PPP_ALLSTATIONS) = false /\ rej = false)) -> Z.land c 1 = 0 ->
  oct rej d c = Some [PPP_ALLSTATIONS; PPP_UI; c].
Proof.
  intros Hd Hc. unfold oct, with_protocol, with_address.
  destruct Hd as [->|(-> & Hff & ->)]; [|rewrite andb_false_r, decide_True, Hff by done];
    by rewrite Hc.
Qed.
Lemma oct_odd rej d c : (d = [PPP_ALLSTATIONS; PPP_UI]
    \/ (d = [] /\ (c =? PPP_ALLSTATIONS) = false /\ rej = false)) -> Z.land c 1 = 1 ->
  oct rej d c = Some [PPP_ALLSTATIONS; PPP_UI; 0; c].
Proof.
  intros Hd Hc. unfold oct, with_protocol, with_address.
  destruct Hd as [->|(-> & Hff & ->)]; [|rewrite andb_false_r, decide_True, Hff by done];
    by rewrite Hc.
Qed.
Lemma oct_last rej p2 c : Z.land c 1 = 1 ->
  oct rej [PPP_ALLSTATIONS; PPP_UI; p2] c = Some [PPP_ALLSTATIONS; PPP_UI; p2; c].
Proof. intros Hc. unfold oct, with_protocol, with_address. by rewrite Hc. Qed.
Lemma octs_cons rej d d' c u : oct rej d c = Some d' -> octs rej d (c :: u) = octs rej d' u.
Proof. cbn [octs]. by intros ->. Qed.

(** What is squeezed out the receiver puts back. *)
Lemma octs_squeeze flags rej p : wf_packet p -> bytes p ->
  has flags SC_COMP_AC && rej = false -> octs rej [] (squeeze flags p) = Some p.
Proof.
  destruct p as [|a [|b [|p2 [|p3 q]]]]; try done. intros (-> & -> & H2 & H3) Hb Hrej.
  unfold bytes in Hb. rewrite !Forall_cons_iff in Hb. destruct Hb as (_ & _ & Hp2 & Hp3 & _).
  unfold squeeze. set (protocol := Z.shiftl p2 8 + p3).
  assert (Hproto : protocol = p2 * 256 + p3) by (unfold protocol; by rewrite Z.shiftl_mul_pow2).
  assert (Hne2 : (p2 =? PPP_ALLSTATIONS) = false) by (apply Z.eqb_neq; by intros ->).
  rewrite !Z.eqb_refl, !andb_true_r.
  destruct (has flags SC_COMP_AC && negb (protocol =? PPP_ALLSTATIONS) && negb (protocol =? PPP_LCP)) eqn:Hac;
    destruct (has flags SC_COMP_PROT && (protocol <? 0xFF)) eqn:Hpr; cbn [app].
  all: try (apply andb_true_iff in Hpr as [_ Hlt]; apply Z.ltb_lt in Hlt;
            assert (p2 = 0) as -> by (revert Hp2 Hp3; unfold_int; lia)).
  all: try (apply andb_true_iff in Hac as [[Hf Hne]%andb_true_iff _]; rewrite Hf in Hrej; cbn in Hrej; subst rej).
  - assert (Hne3 : (p3 =? PPP_ALLSTATIONS) = false) by (apply negb_true_iff in Hne; rewrite Hproto in Hne; exact Hne).
    rewrite (octs_cons _ _ _ _ _ (oct_odd false [] p3 ltac:(by right) H3)). by apply octs_tail.
  - rewrite (octs_cons _ _ _ _ _ (oct_even false [] p2 ltac:(by right) H2)).
    rewrite (octs_cons _ _ _ _ _ (oct_last _ _ _ H3)). by apply octs_tail.
  - rewrite (octs_cons _ _ [PPP_ALLSTATIONS]), (octs_cons _ _ [PPP_ALLSTATIONS; PPP_UI]) by done.
    rewrite (octs_cons _ _ _ _ _ (oct_odd rej [PPP_ALLSTATIONS; PPP_UI] p3 ltac:(by left) H3)). by apply octs_tail.
  - rewrite (octs_cons _ _ [PPP_ALLSTATIONS]), (octs_cons _ _ [PPP_ALLSTATIONS; PPP_UI]) by done.
    rewrite (octs_cons _ _ _ _ _ (oct_even rej [PPP_ALLSTATIONS; PPP_UI] p2 ltac:(by left) H2)).
    rewrite (octs_cons _ _ _ _ _ (oct_last _ _ _ H3)). by apply octs_tail.
Qed.

(** ** The line takes what it is given *)

Section Output.
Context {E : DrvEnv}.
Implicit Types w : drv.

(** [write] to a tty waits until it has taken all the bytes. *)
Definition complete_writes : Prop := forall bs t, fst (tty_write bs t) = Z.of_nat (length bs).
Hypothesis Hwrite : complete_writes.

(** The line, the bytes written to it, the count of them and the FCS. *)
Definition put_line w (t : tty) (l : list Z) (n f : Z) : drv :=
  mk_drv
         (if_unit w) (if_mtu w) (if_flags w) (if_snd w) (if_ipackets w) (if_ierrors w)
         (if_opackets w) (if_oerrors w) (if_iqdrops w) (if_ibytes w) (if_obytes w)
         (sc_flags w) (sc_mru w) (sc_inq w) (sc_fastq w) (sc_comp w) n (sc_bytesrcvd w)
         (sc_ipsent w) (sc_iprcvd w) (sc_asyncmap w) (sc_rasyncmap w) (sc_outm w) (sc_m w)
         (sc_mc w) (sc_mp w) (sc_ilen w) (sc_fcs w) f (sc_rawin w) (sc_rawin_count w)
         (sc_fd w) (sc_qlen w) (sc_wrtsem w) (d_pool w) t l (d_ipintrq w) (d_ip w)
         (d_sigio w) (d_jobs w) (d_errno w) (d_inhook w) (d_outhook w) (d_opened w).
(** [bs] have been written; the FCS and the count of bytes may have changed. *)
Definition wired w (bs : list Z) w' : Prop :=
  exists t n f, w' = put_line w t (d_wire w ++ bs) n f.
Lemma wired_intro w w' t n f : w' = put_line w t (d_wire w) n f -> wired w [] w'.
Proof. intros ->. exists t, n, f. by rewrite app_nil_r. Qed.
Lemma wired_refl w : wired w [] w.
Proof. apply (wired_intro _ _ (d_tty w) (sc_bytessent w) (sc_outfcs w)). by destruct w. Qed.
Lemma wired_trans w a w1 b w2 : wired w a w1 -> wired w1 b w2 -> wired w (a ++ b) w2.
Proof.
  intros (t & n & f & ->) (t' & n' & f' & ->). exists t', n', f'. by rewrite app_assoc.
Qed.
Lemma wired_eq w a b w' : wired w a w' -> a = b -> wired w b w'.
Proof. by intros H <-. Qed.
Lemma wired_map w bs w' : wired w bs w' -> sc_asyncmap w' = sc_asyncmap w.
Proof. by intros (t & n & f & ->). Qed.

Lemma wired_fields w bs w' : wired w bs w' -> d_wire w' = d_wire w ++ bs /\ sc_flags w' = sc_flags w
  /\ sc_asyncmap w' = sc_asyncmap w /\ sc_outm w' = sc_outm w
  /\ sc_fastq w' = sc_fastq w /\ if_snd w' = if_snd w.
Proof. by intros (t & n & f & ->). Qed.

Lemma wp_write {X} w bs (Q : Z -> drv -> Prop) (E' : X -> drv -> Prop) :
  (forall w', wired w bs w' -> sc_outfcs w' = sc_outfcs w -> Q (Z.of_nat (length bs)) w') ->
  wp False (write bs) Q E' w.
Proof.
  intros HQ. unfold write. do 2 wp_step. destruct (tty_write bs (d_tty w)) as [cc t] eqn:Ht.
  pose proof (Hwrite bs (d_tty w)) as Hcc. rewrite Ht in Hcc. cbn [fst] in Hcc. subst cc.
  rewrite Nat2Z.id, firstn_all. do 3 wp_step. apply HQ; [|done].
  by exists t, (sc_bytessent w), (sc_outfcs w).
Qed.
Lemma wp_sent {X} w n (Q : () -> drv -> Prop) (E' : X -> drv -> Prop) :
  (forall w', wired w [] w' -> sc_outfcs w' = sc_outfcs w -> Q tt w') -> wp False (sent n) Q E' w.
Proof.
  intros HQ. unfold sent. wp_step. apply HQ; [|done].
  by apply (wired_intro _ _ (d_tty w) (u32 (sc_bytessent w + n)) (sc_outfcs w)).
Qed.

Definition map_total (map : list Z) : Prop := forall c, is_u8 c -> escapes map c <> None.

Lemma plain_spec map l : map_total map -> bytes l ->
  exists pre post, plain map l = Some (length pre) /\ l = pre ++ post /\ encode map pre = pre
  /\ (post = [] \/ exists c q, post = c :: q /\ escapes map c = Some true).
Proof.
  intros Hm. induction 1 as [|c l Hc Hl IH]; [by exists [], []; repeat split; auto|].
  cbn [plain]. destruct (escapes map c) as [[]|] eqn:He; [| |by apply Hm in He].
  - exists [], (c :: l). repeat split; eauto.
  - destruct IH as (pre & post & -> & -> & Hpre & Hpost). exists (c :: pre), post.
    split; [done|]. split; [done|]. split; [|done]. unfold encode in *. cbn [fmap list_fmap concat].
    unfold encode1 at 1. rewrite He. cbn [app]. by rewrite Hpre.
Qed.
Lemma encode_app map a b : encode map (a ++ b) = encode map a ++ encode map b.
Proof. unfold encode. by rewrite fmap_app, concat_app. Qed.

Lemma wp_write_run w run (Q : Z -> drv -> Prop) (E' : Empty_set -> drv -> Prop) : run <> [] ->
  (forall w', wired w run w' -> sc_outfcs w' = sc_outfcs w -> Q 0 w') ->
  wp False (write_run (length run) run (Z.of_nat (length run))) Q E' w.
Proof.
  intros Hrun HQ. destruct run as [|c run]; [done|]. cbn [length write_run].
  destruct (Z.ltb_spec 0 (Z.of_nat (S (length run)))); [|lia]. wp_step. apply wp_write. intros w' Hw Hf.
  cbn [length]. destruct (Z.leb_spec (Z.of_nat (S (length run))) 0); [lia|].
  rewrite Z.ltb_irrefl, Z.sub_diag.
  assert (Hz : forall n (r : list Z), write_run n r 0 = ret 0) by by intros [].
  rewrite Hz. apply wp_ret. by apply HQ.
Qed.

Lemma wp_send_bytes map fuel : forall l w (Q : list Z -> drv -> Prop) (E' : Empty_set -> drv -> Prop),
  (length l <= fuel)%nat -> sc_asyncmap w = map -> map_total map -> bytes l ->
  (forall w', wired w (encode map l) w' -> sc_outfcs w' = sc_outfcs w -> Q [] w') ->
  wp False (send_bytes fuel l) Q E' w.
Proof.
  induction fuel as [|fuel IH]; intros l w Q E' Hlen Hmap Htot Hl HQ.
  { destruct l; [|cbn in Hlen; lia]. apply HQ; [apply wired_refl|done]. }
  destruct (decide (l = [])) as [->|Hne]; [apply HQ; [apply wired_refl|done]|].
  assert (Hsb : send_bytes (S fuel) l =
    (map <- gets sc_asyncmap ;;
        n <- access (plain map l) ;;
        nleft <- (if Nat.eqb n 0 then ret 0
                  else r <- write_run n (take n l) (Z.of_nat n) ;;
                       sent (Z.of_nat n - r) ;; ret r) ;;
        let l := drop (n - Z.to_nat nleft) l in
        if 0 <? nleft then ret l else
        match l with
        | [] => ret []
        | c :: l' =>
            w <- write [PPP_ESCAPE] ;;
            if negb (w =? 1) then ret l else
            w <- write [Z.lxor c PPP_TRANS] ;;
            if negb (w =? 1) then ret l else
            sent 2 ;; send_bytes fuel l'
        end)) by by destruct l.
  rewrite Hsb. clear Hsb. do 2 wp_step. rewrite Hmap.
  destruct (plain_spec map l Htot Hl) as (pre & post & Hpl & -> & Hpre & Hpost).
  wp_step. eapply wp_access; [exact Hpl|]. rewrite take_app_length.
  wp_step. apply (wp_mono _ (fun r w1 => r = 0 /\ wired w pre w1 /\ sc_outfcs w1 = sc_outfcs w) _
    (fun _ _ => False)); [|intros r w1 (-> & Hw1 & Hf1)|done].
  { destruct pre as [|x pre]; [apply wp_ret; split_and!; [done|apply wired_refl|done]|].
    cbn [length Nat.eqb]. wp_step. apply (wp_write_run w (x :: pre)); [done|]. intros w1 Hw1 Hf1.
    wp_step. apply wp_sent. intros w2 Hw2 Hf2. wp_step. split_and!; [done| |congruence].
    eapply wired_eq; [by eapply wired_trans|apply app_nil_r]. }
  rewrite Z.ltb_irrefl. change (Z.to_nat 0) with 0%nat. rewrite Nat.sub_0_r, drop_app_length. cbv zeta.
  rewrite encode_app, Hpre in HQ.
  destruct Hpost as [->|(c & q & -> & Hc)]; [apply wp_ret, HQ; [by rewrite app_nil_r|done]|].
  apply Forall_app in Hl as [_ Hl]. inversion_clear Hl as [|? ? _ Hq].
  wp_step. apply wp_write. intros w2 Hw2 Hf2. change (Z.of_nat (length [PPP_ESCAPE]) =? 1) with true.
  cbn [negb]. wp_step. apply wp_write. intros w3 Hw3 Hf3.
  change (Z.of_nat (length [Z.lxor c PPP_TRANS]) =? 1) with true. cbn [negb].
  wp_step. apply wp_sent. intros w4 Hw4 Hf4.
  assert (Hall : wired w (pre ++ [PPP_ESCAPE; Z.lxor c PPP_TRANS]) w4).
  { eapply wired_eq; 
      [exact (wired_trans _ _ _ _ _ Hw1 (wired_trans _ _ _ _ _ Hw2 (wired_trans _ _ _ _ _ Hw3 Hw4)))|done]. }
  apply IH; [rewrite length_app in Hlen; cbn in Hlen; lia| |done|done|].
  { by rewrite (wired_map _ _ _ Hall). }
  intros w5 Hw5 Hf5. apply HQ; [|congruence].
  eapply wired_eq; [by eapply wired_trans|]. rewrite <- app_assoc. f_equal.
  change (encode map (c :: q)) with (encode1 map c ++ encode map q). unfold encode1. by rewrite Hc.
Qed.

Lemma wp_escape_byte w c (Q : list Z -> drv -> Prop) (E' : Empty_set -> drv -> Prop) :
  map_total (sc_asyncmap w) -> is_u8 c -> Q (encode1 (sc_asyncmap w) c) w ->
  wp False (escape_byte c) Q E' w.
Proof.
  intros Ht Hc HQ. unfold escape_byte, ESCAPE_P. do 3 wp_step. unfold encode1 in HQ.
  destruct (escapes (sc_asyncmap w) c) as [[]|] eqn:He; [..|by apply Ht in He];
    (eapply wp_access; [done|by wp_step]).
Qed.
Lemma wp_send_trailer w p (Q : () -> drv -> Prop) (E' : Empty_set -> drv -> Prop) :
  map_total (sc_asyncmap w) -> sc_outfcs w = pppfcs PPP_INITFCS p ->
  (forall w', wired w (encode (sc_asyncmap w) (trailer p) ++ [PPP_FLAG]) w' -> Q tt w') ->
  wp False send_trailer Q E' w.
Proof.
  intros Ht Hf HQ. unfold send_trailer. do 2 wp_step. rewrite Hf.
  wp_step. apply wp_escape_byte; [done|apply land_ff|]. wp_step. apply wp_escape_byte; [done|apply land_ff|].
  wp_step. apply wp_write. intros w' Hw _. wp_step. apply HQ. eapply wired_eq; [exact Hw|].
  unfold trailer, encode. cbn [fmap list_fmap concat]. by rewrite app_nil_r, <- app_assoc.
Qed.

Lemma wp_send_chain l : forall w pre (Q : () -> drv -> Prop) (E' : Empty_set -> drv -> Prop),
  l <> [] -> map_total (sc_asyncmap w) -> Forall mbuf_ok l -> bytes (contents l) ->
  sc_outfcs w = pppfcs PPP_INITFCS (pre ++ from_option content [] (head l)) ->
  (forall w', wired w (encode (sc_asyncmap w) (contents l ++ trailer (pre ++ contents l)) ++ [PPP_FLAG]) w' ->
     Q tt w') ->
  wp False (send_chain l) Q E' w.
Proof.
  induction l as [|m rest IH]; intros w pre Q E' Hne Ht Hok Hb Hf HQ; [done|].
  inversion_clear Hok as [|? ? Hm Hrest]. cbn [send_chain]. cbn [head from_option] in Hf.
  change (contents (m :: rest)) with (content m ++ contents rest) in *. apply Forall_app in Hb as [Hbm Hbr].
  wp_step. eapply wp_access; [by apply m_bytes_content|].
  wp_step. apply (wp_send_bytes (sc_asyncmap w)); [done..|]. intros w1 Hw1 Hf1.
  pose proof (wired_map _ _ _ Hw1) as Hmap1.
  destruct rest as [|m' rest'].
  - apply (wp_send_trailer _ (pre ++ content m)); [by rewrite Hmap1|congruence|].
    intros w2 Hw2. apply HQ. change (contents []) with (@nil Z). rewrite app_nil_r.
    eapply wired_eq; [by eapply wired_trans|]. rewrite Hmap1, encode_app. by rewrite app_assoc.
  - wp_step. pose proof (Forall_inv Hrest) as Hm'. cbn beta in Hm'.
    eapply wp_access; [by apply m_bytes_content|]. do 2 wp_step.
    set (w2 := w1 <| sc_outfcs ::= fun f => pppfcs f (content m') |>).
    assert (Hw2 : wired w1 [] w2).
    { by apply (wired_intro _ _ (d_tty w1) (sc_bytessent w1) (pppfcs (sc_outfcs w1) (content m'))). }
    apply (IH w2 (pre ++ content m)); [done| |done|done| |].
    + by rewrite (wired_map _ _ _ Hw2), Hmap1.
    + change (sc_outfcs w2) with (pppfcs (sc_outfcs w1) (content m')).
      cbn [head from_option]. by rewrite Hf1, Hf, <- pppfcs_app.
    + intros w3 Hw3. apply HQ. rewrite (wired_map _ _ _ Hw2), Hmap1 in Hw3.
      eapply wired_eq; [eapply wired_trans; [exact Hw1|eapply wired_trans; [exact Hw2|exact Hw3]]|].
      cbn [app]. rewrite <- (app_assoc (content m)), !encode_app, <- (app_assoc pre), <- !app_assoc. done.
Qed.

(** ** The packets that wait *)

Lemma compress_header_spec flags m a b p2 p3 q : mbuf_ok m -> content m = a :: b :: p2 :: p3 :: q ->
  exists m', compress_header flags (m_data m) a b (Z.shiftl p2 8 + p3) m = Some m' /\ mbuf_ok m'
  /\ content m' = squeeze flags (content m).
Proof.
  intros Hm Hc. pose proof (length_content m Hm) as Hl. rewrite Hc in Hl. cbn [length] in Hl.
  destruct (content_drop m 2 Hm) as [Hok2 Hc2]; [lia|].
  rewrite Hc. unfold compress_header, squeeze. set (protocol := Z.shiftl p2 8 + p3).
  set (m2 := m <| m_data ::= Z.add 2 |> <| m_len ::= fun n => n - 2 |>) in *.
  assert (Hl2 : m_len m2 = m_len m - 2) by done. assert (Hd2 : m_data m2 = 2 + m_data m) by done.
  destruct (_ && _ && _ && _ && _), (has flags SC_COMP_PROT && (protocol <? 255)); cbn [app].
  - rewrite (proj2 (Z.eqb_neq _ _)) by lia.
    destruct (content_drop m2 1 Hok2) as [Hok3 Hc3]; [lia|]. eexists. split; [done|].
    rewrite one_byte_on. split; [exact Hok3|]. etrans; [exact Hc3|]. by rewrite Hc2, Hc.
  - eexists. split; [done|]. split; [done|]. by rewrite Hc2, Hc.
  - rewrite Z.eqb_refl. destruct (split_mbuf m Hm) as (pre & post & He & Hpre & Hpost).
    pose proof Hm as (H1 & H2 & H3). rewrite m_read_ok by lia.
    assert (Ht : take (Z.to_nat 2) (drop (Z.to_nat (m_data m)) (m_ext m)) = [a; b]).
    { rewrite He, <- Hpre, Nat2Z.id, drop_app_length, Hc. done. }
    rewrite Ht. unfold m_store. rewrite (proj2 (Z.leb_le _ _)) by lia.
    rewrite He, Hc. change ((a :: b :: p2 :: p3 :: q) ++ post) with ([a] ++ b :: p2 :: p3 :: q ++ post).
    replace (Z.to_nat (m_data m + 1)) with (length (pre ++ [a])) by (rewrite length_app; cbn; lia).
    rewrite poke_at_end by (cbn; lia). cbv iota. eexists. split; [done|].
    apply (content_intro _ (pre ++ [a]) _ post).
    + change (pre ++ [a] ++ [a; b] ++ p3 :: q ++ post = (pre ++ [a]) ++ (a :: b :: p3 :: q) ++ post).
      by rewrite <- app_assoc.
    + change (Z.of_nat (length (pre ++ [a])) = Z.succ (m_data m)). rewrite length_app. cbn [length]. lia.
    + change (Z.of_nat (length (a :: b :: p3 :: q)) = Z.pred (m_len m)). cbn [length]. lia.
  - eexists. done.
Qed.

Definition pending w : list chain := ifq_list (sc_fastq w) ++ ifq_list (if_snd w).
Definition no_tcp (flags : Z) (p : list Z) : Prop :=
  match p with
  | _ :: _ :: p2 :: p3 :: _ => (Z.shiftl p2 8 + p3 =? PPP_IP) && has flags SC_COMP_TCP = false
  | _ => True
  end.

(** The queues only. *)
Definition dequeued w w' : Prop :=
  exists q q', w' = w <| sc_fastq := q |> <| if_snd := q' |>.
Lemma wp_take w l ls (Q : option chain -> drv -> Prop) (E' : Empty_set -> drv -> Prop) :
  pending w = l :: ls -> (forall w', dequeued w w' -> pending w' = ls -> Q (Some l) w') ->
  wp False take_packet Q E' w.
Proof.
  intros Hp HQ. unfold take_packet. do 2 wp_step. unfold IF_DEQUEUE, pending in *.
  destruct (sc_fastq w) as [fl fm fd] eqn:Hfq. cbn [ifq_list] in *. destruct fl as [|x fl].
  - do 2 wp_step. destruct (if_snd w) as [sl sm sd] eqn:Hs. cbn [ifq_list app] in *. subst sl.
    do 3 wp_step. apply HQ.
    + exists (sc_fastq w), (mk_ifq ls sm sd). by destruct w.
    + cbv beta delta [upd set_if_snd]. cbn. by rewrite Hfq.
  - injection Hp as -> <-. do 3 wp_step. apply HQ.
    + exists (mk_ifq fl fm fd), (if_snd w). by destruct w.
    + done.
Qed.
Lemma wp_take_none w (Q : option chain -> drv -> Prop) (E' : Empty_set -> drv -> Prop) :
  pending w = [] -> Q None w -> wp False take_packet Q E' w.
Proof.
  intros Hp HQ. apply app_eq_nil in Hp as [H1 H2]. unfold take_packet, IF_DEQUEUE. do 2 wp_step.
  rewrite H1. do 2 wp_step. rewrite H2. do 3 wp_step.
  assert (w <| if_snd := if_snd w |> = w) as -> by by destruct w. exact HQ.
Qed.

Lemma wp_dequeue w l ls p (Q : option chain -> drv -> Prop) (E' : Empty_set -> drv -> Prop) :
  pending w = l :: ls -> packet l p -> no_tcp (sc_flags w) p ->
  (forall l' w', dequeued w w' -> pending w' = ls -> l' <> [] -> Forall mbuf_ok l' ->
     contents l' = squeeze (sc_flags w) p -> Q (Some l') w') ->
  wp False ppp_dequeue Q E' w.
Proof.
  intros Hp Hl Ht HQ. unfold ppp_dequeue. wp_step. eapply wp_take; [exact Hp|]. intros w1 Hw1 Hp1.
  pose proof Hl as (Hok & Hc & m & rest & -> & Hm). inversion_clear Hok as [|? ? Hmok Hrest].
  change (contents (m :: rest)) with (content m ++ contents rest) in Hc.
  pose proof (length_content m Hmok) as Hlm.
  destruct (content m) as [|a [|b [|p2 [|p3 q]]]] eqn:Hcm; cbn [length] in Hlm; try lia.
  destruct (packet_header (m :: rest) p [a; b; p2; p3] (q ++ contents rest) Hl) as
    (m0 & rest0 & [= <- <-] & Hr & _); [by rewrite <- Hc|done|].
  wp_step. eapply wp_access; [exact Hr|]. cbv iota zeta. unfold flag. do 4 wp_step.
  assert (Hfl : sc_flags w1 = sc_flags w) by by destruct Hw1 as (? & ? & ->).
  rewrite <- Hc in Ht. cbn [app no_tcp] in Ht. rewrite Hfl, Ht. do 4 wp_step. rewrite Hfl.
  destruct (compress_header_spec (sc_flags w) m a b p2 p3 q Hmok Hcm) as (m' & -> & Hok' & Hc').
  wp_step. eapply wp_access; [done|]. wp_step. apply HQ; [done|done|done|by apply Forall_cons_2|].
  change (contents (m' :: rest)) with (content m' ++ contents rest). rewrite Hc', Hcm, <- Hc.
  unfold squeeze. cbn [app]. by rewrite <- !app_assoc.
Qed.

(** ** The task that writes *)

(** The flag in front of a frame on an idle line. *)
Definition idle_flag (bs : list Z) : Prop := bs = [] \/ bs = [PPP_FLAG].
(** What the line gets for packets [ps]. *)
Inductive frames (map : list Z) (flags : Z) : list (list Z) -> list Z -> Prop :=
  | frames_nil : frames map flags [] []
  | frames_cons p ps fl bs : idle_flag fl -> frames map flags ps bs ->
      frames map flags (p :: ps) (fl ++ frame map (squeeze flags p) ++ bs).

(** A chain in a queue: the packet [p] with its header in the first mbuf. *)
Definition waiting (flags : Z) (l : chain) (p : list Z) : Prop :=
  packet l p /\ bytes p /\ no_tcp flags p.

(** What writing leaves alone. *)
Record writer w : Prop := {
  wr_out : sc_outm w = None;
  wr_map : map_total (sc_asyncmap w) }.
Definition wrote w w' : Prop :=
  sc_flags w' = sc_flags w /\ sc_asyncmap w' = sc_asyncmap w
  /\ (sc_fd w' = sc_fd w /\ if_unit w' = if_unit w).

Lemma bytes_squeeze flags p : bytes p -> bytes (squeeze flags p).
Proof.
  intros Hb. destruct p as [|a [|b [|p2 [|p3 q]]]]; try done. unfold bytes in *.
  rewrite !Forall_cons_iff in Hb. destruct Hb as (Ha & Hb & H2 & H3 & Hq). unfold squeeze.
  destruct (_ && _ && _ && _ && _), (has _ SC_COMP_PROT && _); cbn [app];
    by repeat apply Forall_cons_2.
Qed.

Lemma wp_wrt_packet flushing w l ls p (Q : bool -> drv -> Prop) (E' : Empty_set -> drv -> Prop) :
  writer w -> pending w = l :: ls -> waiting (sc_flags w) l p ->
  (forall w' fl, writer w' -> wrote w w' -> pending w' = ls -> idle_flag fl ->
     d_wire w' = d_wire w ++ fl ++ frame (sc_asyncmap w) (squeeze (sc_flags w) p) -> Q true w') ->
  wp False (wrt_packet flushing) Q E' w.
Proof.
  intros [Hout Hmap] Hp (Hl & Hb & Ht) HQ. unfold wrt_packet. do 2 wp_step. rewrite Hout.
  do 2 wp_step. eapply wp_dequeue; [done..|]. intros l' w1 Hw1 Hp1 Hne Hok Hc.
  destruct l' as [|m rest]; [done|]. inversion Hok as [|? ? Hm Hrest]; subst.
  destruct Hw1 as (q & q' & ->). set (w1 := w <| sc_fastq := q |> <| if_snd := q' |>) in *.
  do 3 wp_step.
  apply (wp_mono _ (fun _ w2 => exists fl, idle_flag fl /\ wired w1 fl w2) _ (fun _ _ => False)); [| |done].
  { destruct (tty_nwrite (d_tty w1) =? 0); cbn [when]; [|apply wp_ret; exists []; split; [by left|apply wired_refl]].
    wp_step. apply wp_sent. intros w2 Hw2 _. wp_step. apply wp_write. intros w3 Hw3 _. wp_step.
    exists [PPP_FLAG]. split; [by right|]. eapply wired_eq; [by eapply wired_trans|done]. }
  intros [] w2 (fl & Hfl & Hw2). wp_step. eapply wp_access; [by apply m_bytes_content|]. do 3 wp_step.
  set (w3 := w2 <| sc_outfcs := pppfcs PPP_INITFCS (content m) |>).
  assert (Hmap3 : sc_asyncmap w3 = sc_asyncmap w) by (unfold w3; destruct Hw2 as (? & ? & ? & ->); done).
  wp_step. apply (wp_send_chain (m :: rest) w3 []); [done|by rewrite Hmap3|done| |done|].
  { rewrite Hc. by apply bytes_squeeze. }
  intros w4 Hw4. rewrite Hmap3, Hc in Hw4. do 2 wp_step. wp_step.
  apply wp_sent. intros w5 Hw5 _.
  assert (Hfinal : forall w6, (sc_outm w6 = None /\ sc_flags w6 = sc_flags w5 /\ sc_asyncmap w6 = sc_asyncmap w5
      /\ sc_fastq w6 = sc_fastq w5 /\ if_snd w6 = if_snd w5 /\ d_wire w6 = d_wire w5
      /\ sc_fd w6 = sc_fd w5 /\ if_unit w6 = if_unit w5) -> Q true w6).
  { intros w6 (H1 & H2 & H3 & H4 & H5 & H6 & H7 & H8).
    assert (Hfd : sc_fd w5 = sc_fd w /\ if_unit w5 = if_unit w).
    { destruct Hw5 as (? & ? & ? & ->), Hw4 as (? & ? & ? & ->). unfold w3. by destruct Hw2 as (? & ? & ? & ->). }
    assert (Hall : sc_flags w5 = sc_flags w /\ sc_asyncmap w5 = sc_asyncmap w
      /\ sc_fastq w5 = q /\ if_snd w5 = q' /\ d_wire w5 = d_wire w ++ fl
           ++ (encode (sc_asyncmap w) (squeeze (sc_flags w) p ++ trailer (squeeze (sc_flags w) p)) ++ [PPP_FLAG])).
    { destruct (wired_fields _ _ _ Hw5) as (A1 & A2 & A3 & _ & A5 & A6).
      destruct (wired_fields _ _ _ Hw4) as (B1 & B2 & B3 & _ & B5 & B6).
      destruct (wired_fields _ _ _ Hw2) as (C1 & C2 & C3 & _ & C5 & C6).
      rewrite A1, A2, A3, A5, A6.
      change (d_wire (w4 <| sc_outm := None |>)) with (d_wire w4).
      change (sc_flags (w4 <| sc_outm := None |>)) with (sc_flags w4).
      change (sc_asyncmap (w4 <| sc_outm := None |>)) with (sc_asyncmap w4).
      change (sc_fastq (w4 <| sc_outm := None |>)) with (sc_fastq w4).
      change (if_snd (w4 <| sc_outm := None |>)) with (if_snd w4).
      rewrite B1, B2, B3, B5, B6. unfold w3.
      change (d_wire (w2 <| sc_outfcs := ?f |>)) with (d_wire w2). rewrite C1.
      split; [exact C2|]. split; [exact C3|]. split; [exact C5|]. split; [exact C6|].
      cbn [app]. rewrite app_nil_r, <- app_assoc. done. }
    destruct Hall as (K1 & K2 & K3 & K4 & K5).
    apply (HQ w6 fl).
    - split; [done|by rewrite H3, K2].
    - destruct Hfd. split; [congruence|]. split; [congruence|]. split; congruence.
    - unfold pending. rewrite H4, H5, K3, K4. done.
    - done.
    - rewrite H6, K5. done. }
  assert (Ho5 : sc_outm w5 = None) by (destruct Hw5 as (? & ? & ? & ->); done).
  do 3 wp_step. apply wp_when; intros _; wp_go; by apply Hfinal.
Qed.

Lemma wp_wrt_loop flushing : forall ps w fuel (Q : () -> drv -> Prop) (E' : Empty_set -> drv -> Prop),
  writer w -> Forall2 (waiting (sc_flags w)) (pending w) ps -> (length ps < fuel)%nat ->
  (forall w' bs, writer w' -> wrote w w' -> pending w' = [] ->
     frames (sc_asyncmap w) (sc_flags w) ps bs -> d_wire w' = d_wire w ++ bs -> Q tt w') ->
  wp False (wrt_loop flushing fuel) Q E' w.
Proof.
  induction ps as [|p ps IH]; intros w [|fuel] Q E' Hw Hps Hlen HQ; try (cbn in Hlen; lia); cbn [wrt_loop].
  - apply Forall2_nil_inv_r in Hps. wp_step. unfold wrt_packet. do 2 wp_step. rewrite (wr_out _ Hw).
    do 2 wp_step. unfold ppp_dequeue. wp_step. apply wp_take_none; [done|]. do 4 wp_step.
    apply (HQ w []); [done|done|done|constructor|by rewrite app_nil_r].
  - apply Forall2_cons_inv_r in Hps as (l & ls & Hl & Hls & Hp). wp_step.
    eapply wp_wrt_packet; [done|exact Hp|exact Hl|]. intros w1 fl Hw1 (Hfl & Hmap & Hfd & Hun) Hp1 Hidle Hwire.
    apply IH; [done|by rewrite Hp1, Hfl|cbn in Hlen; lia|].
    intros w2 bs Hw2 (Hfl2 & Hmap2 & Hfd2 & Hun2) Hp2 Hbs Hwire2. rewrite Hmap, Hfl in Hbs.
    apply (HQ w2 (fl ++ frame (sc_asyncmap w) (squeeze (sc_flags w) p) ++ bs)); [done| |done| |].
    + split; [congruence|]. split; [congruence|]. split; congruence.
    + by constructor.
    + by rewrite Hwire2, Hwire, <- !app_assoc.
Qed.

Lemma ppp_wrt_task_run w ps : writer w -> Forall2 (waiting (sc_flags w)) (pending w) ps ->
  exists w' bs, ppp_wrt_task w = Ok tt w' /\ pending w' = []
  /\ frames (sc_asyncmap w) (sc_flags w) ps bs /\ d_wire w' = d_wire w ++ bs.
Proof.
  intros Hw Hps.
  assert (H : wp False ppp_wrt_task (fun _ w' => exists bs, pending w' = []
    /\ frames (sc_asyncmap w) (sc_flags w) ps bs /\ d_wire w' = d_wire w ++ bs) (fun _ _ => False) w).
  { unfold ppp_wrt_task. do 4 wp_step. set (w1 := w <| sc_wrtsem := false |>).
    assert (Hw1 : writer w1) by (destruct Hw; by split).
    apply (wp_wrt_loop false ps w1); [done|done| |].
    - apply Forall2_length in Hps. unfold pending in Hps. rewrite length_app in Hps.
      change (queued w1) with (queued w). unfold queued. lia.
    - intros w2 bs _ _ Hp Hf Hwire. by exists bs. }
  unfold wp in H. destruct (ppp_wrt_task w) as [[] w'| | |]; try done.
  destruct H as (bs & H). by exists w', bs.
Qed.

(** C10: one turn of the task that writes: every packet that waits goes to the
    line, the fast queue first and each queue in its order, as a frame: the
    header compressed as far as the flags allow, the bytes of the map
    escaped, the FCS, the closing flag; nothing of them is left. *)
Theorem ppp_wrt_task_frames w ps : writer w -> Forall2 (waiting (sc_flags w)) (pending w) ps ->
  exists w' bs, ppp_wrt_task w = Ok tt w' /\ pending w' = []
  /\ frames (sc_asyncmap w) (sc_flags w) ps bs /\ d_wire w' = d_wire w ++ bs.
Proof. apply ppp_wrt_task_run. Qed.
End Output.

Lemma line_complete : @complete_writes line_env.
Proof. by intros bs t. Qed.
Lemma open_map_total : map_total open_map.
Proof.
  intros c Hc. pose proof (below_256 (fun k => bool_decide (escapes open_map (Z.of_nat k) <> None)) c) as H.
  cbv beta in H. rewrite Z2Nat.id in H by apply Hc. apply bool_decide_eq_true in H; [done|by vm_compute|done].
Qed.
Lemma ppp_wrt_task_frames_witness :
  let w := line_unit (Z.lor SC_COMP_AC SC_COMP_PROT) [in_mbuf lcp_packet; in_mbuf ip_packet] in
  exists w' bs, ppp_wrt_task (E:=line_env) w = Ok tt w' /\ pending w' = []
  /\ frames open_map (Z.lor SC_COMP_AC SC_COMP_PROT) [lcp_packet; ip_packet] bs /\ d_wire w' = bs.
Proof.
  intros w. apply (ppp_wrt_task_frames (E:=line_env) line_complete w [lcp_packet; ip_packet]).
  - split; [reflexivity|apply open_map_total].
  - repeat apply Forall2_cons_2; try apply Forall2_nil_2;
      (split; [|split; [apply bytes_check; vm_compute; reflexivity|reflexivity]];
       split; [apply Forall_cons_2; [|constructor]; split; [|split]; vm_compute; discriminate
              |split; [vm_compute; reflexivity|do 2 eexists; split; [reflexivity|vm_compute; discriminate]]]).
Defined.
