(* ===== verification/IfLink.v ===== *)
(** * if_ppp.c: two drivers and the line between them

    What one daemon writes the other reads. *)

From stdpp Require Import base list numbers.
From S2P Require Export IfOut.

Section Link.
Context {E : DrvEnv}.
Implicit Types w : drv.

(** ** Receiving frames *)

(** The packets that a receiver takes for the daemon. *)
Definition acceptable w (p : list Z) : Prop :=
  bytes p /\ wf_packet p /\ daemon_packet p /\ hook_passes (d_inhook w) p
  /\ Z.of_nat (length p) <= sc_mru w + PPP_HDRLEN.

Lemma wf_packet_length p : wf_packet p -> 4 <= Z.of_nat (length p).
Proof. destruct p as [|a [|b [|c [|d p]]]]; cbn [length wf_packet]; try done. lia. Qed.

Lemma next_daemon w l p w' : next w l p w' -> daemon_packet p -> hook_passes (d_inhook w) p ->
  IF_QFULL (sc_inq w) = false -> sc_inq w' = IF_ENQUEUE (sc_inq w) l /\ d_sigio w' = S (d_sigio w).
Proof.
  intros (w1 & w2 & pl & Hk1 & Hs & Hk2) [_ Hip] [_ Ht] Hfull.
  assert (Hh : d_inhook w1 = d_inhook w) by exact (f_equal d_inhook Hk1).
  assert (Hi : sc_inq w1 = sc_inq w) by exact (f_equal sc_inq Hk1).
  assert (Hk : keeps (to_daemon w1 l <| d_pool := pl |>) w') by (destruct Hs; congruence).
  assert (Hq : sc_inq w' = IF_ENQUEUE (sc_inq w1) l) by exact (f_equal sc_inq Hk).
  assert (Hd : d_sigio w' = S (d_sigio w1)) by exact (f_equal d_sigio Hk).
  assert (Hd1 : d_sigio w1 = d_sigio w) by exact (f_equal d_sigio Hk1).
  by rewrite Hq, Hd, Hi, Hd1.
Qed.

(** Packets for the daemon, while its queue has room. *)
Lemma arrivals_daemon w ps w' : arrivals w ps w' -> Forall (acceptable w) ps ->
  ifq_len (sc_inq w) + Z.of_nat (length ps) <= ifq_maxlen (sc_inq w) ->
  exists ls, Forall2 packet ls ps /\ ifq_list (sc_inq w') = ifq_list (sc_inq w) ++ ls
  /\ d_sigio w' = (length ps + d_sigio w)%nat.
Proof.
  induction 1 as [w w' Hk|w l p w1 ps w' Hp Hn _ IH]; intros Hps Hroom.
  - exists []. split; [constructor|]. rewrite app_nil_r.
    split; [exact (f_equal (fun w => ifq_list (sc_inq w)) Hk)|exact (f_equal d_sigio Hk)].
  - apply Forall_cons_iff in Hps as [(_ & _ & Hd & Hh & _) Hps]. cbn [length] in Hroom.
    destruct (next_daemon _ _ _ _ Hn Hd Hh) as [Hq Hs]; [unfold IF_QFULL; apply Z.leb_gt; lia|].
    destruct (next_configured _ _ _ _ Hn) as (_ & _ & Hmru & _ & Hhook & _).
    destruct IH as (ls & Hls & Hl & Hsig).
    + revert Hps. apply Forall_impl. intros q. unfold acceptable. by rewrite Hmru, Hhook.
    + rewrite Hq. unfold IF_ENQUEUE, ifq_len in *. cbv beta delta [upd set_ifq_list].
      cbn [ifq_list ifq_maxlen]. rewrite length_app. cbn [length] in *. lia.
    + exists (l :: ls). split; [by constructor|]. rewrite Hl, Hsig, Hs, Hq. split.
      * unfold IF_ENQUEUE. cbv beta delta [upd set_ifq_list]. cbn [ifq_list]. by rewrite <- app_assoc.
      * cbn [length]. lia.
Qed.

Lemma trailer_good p : bytes p -> pppfcs PPP_INITFCS (p ++ trailer p) = PPP_GOODFCS.
Proof. intros Hp. apply fcs_good; [|done]. apply Forall_app_2; [done|apply bytes_trailer]. Qed.

(** The octets of a frame are received as its packet. *)
Lemma receive_frame flags rej mru p : bytes p -> wf_packet p ->
  has flags SC_COMP_AC && rej = false -> Z.of_nat (length p) <= mru + PPP_HDRLEN ->
  receive rej mru (squeeze flags p ++ trailer (squeeze flags p)) = Some p.
Proof.
  intros Hb Hwf Hrej Hlen. pose proof (wf_packet_length p Hwf) as H4.
  pose proof (bytes_squeeze flags p Hb) as Hbs. set (q := squeeze flags p) in *.
  assert (Ho : octs rej [] (q ++ trailer q) = Some (p ++ trailer q)).
  { rewrite (octs_app _ q (trailer q) [] p) by by apply octs_squeeze. by apply octs_tail. }
  assert (Hl2 : length (p ++ trailer q) = (length p + 2)%nat) by by rewrite length_app.
  unfold receive, packet_of, PPP_HDRLEN, PPP_FCSLEN in *.
  rewrite (takes_all_octs _ _ _ _ _ Ho) by (unfold PPP_HDRLEN, PPP_FCSLEN; lia).
  rewrite trailer_good, Z.eqb_refl, (proj2 (Z.leb_le _ _)) by (done || lia). cbn [andb].
  f_equal. apply take_app_length'. lia.
Qed.

(** The packets come out of the frames. *)
Lemma line_frames tmap flags rmap rej mru ps bs : frames tmap flags ps bs ->
  maps_agree tmap rmap -> has flags SC_COMP_AC && rej = false ->
  Forall (fun p => bytes p /\ wf_packet p /\ Z.of_nat (length p) <= mru + PPP_HDRLEN) ps ->
  bytes bs /\ line_run rmap rej mru rx_start bs = (rx_start, ps).
Proof.
  intros Hf Hm Hrej. induction Hf as [|p ps fl bs Hfl _ IH]; intros Hps; [split; [constructor|done]|].
  apply Forall_cons_iff in Hps as [(Hb & Hwf & Hlen) Hps]. destruct (IH Hps) as [Hbs Hrun].
  set (u := squeeze flags p ++ trailer (squeeze flags p)).
  assert (Hu : bytes u) by (apply Forall_app_2; [by apply bytes_squeeze|apply bytes_trailer]).
  assert (H7e : is_u8 PPP_FLAG) by done.
  assert (Hidle : bytes fl /\ line_run rmap rej mru rx_start fl = (rx_start, [])).
  { destruct Hfl as [->| ->]; [by split; [constructor|]|]. split; [by apply Forall_cons_2|done]. }
  destruct Hidle as [Hbfl Hrfl]. unfold frame. fold u. split.
  - apply Forall_app_2; [done|]. apply Forall_app_2; [|done].
    apply Forall_app_2; [by eapply encode_no_flag|by apply Forall_cons_2].
  - rewrite line_run_app, Hrfl, line_run_app, line_frame by done. unfold u.
    by rewrite receive_frame, Hrun.
Qed.

Lemma wp_rx_frames tmap flags ps bs w (E' : Empty_set -> drv -> Prop) : frames tmap flags ps bs ->
  generous -> quiet w -> ready w w -> maps_agree tmap (sc_rasyncmap w) -> Forall (acceptable w) ps ->
  has flags SC_COMP_AC && has (sc_flags w) SC_REJ_COMP_AC = false ->
  ifq_len (sc_inq w) + Z.of_nat (length ps) <= ifq_maxlen (sc_inq w) ->
  wp False (input_all bs)
    (fun _ w' => exists ls, Forall2 packet ls ps /\ ifq_list (sc_inq w') = ifq_list (sc_inq w) ++ ls
       /\ d_sigio w' = (length ps + d_sigio w)%nat /\ ready w' w') E' w.
Proof.
  intros Hf Hpool Hq Hr Hmaps Hps Hrej Hroom.
  destruct (line_frames tmap flags (sc_rasyncmap w) _ (sc_mru w) ps bs Hf Hmaps Hrej) as [Hb Hrun].
  { revert Hps. apply Forall_impl. by intros p (H1 & H2 & _ & _ & H3). }
  assert (Hst : receiver rx_start w) by by apply receiver_start.
  pose proof (wp_line bs rx_start w E' Hpool Hq Hst Hb) as Hw. cbv zeta in Hw. rewrite Hrun in Hw.
  eapply wp_mono; [apply Hw| |done].
  - revert Hps. apply Forall_impl. by intros p (_ & _ & [H1 _] & [H2 _] & _).
  - cbn [fst snd]. intros [] w' [Hst' Ha]. destruct (arrivals_daemon _ _ _ Ha Hps Hroom) as (ls & H1 & H2 & H3).
    exists ls. split; [done|]. split; [done|]. split; [done|by apply receiver_start].
Qed.

(** ** The maps *)

(** What [pppopen] and the requests make of the map: nothing that an escape
    would turn into the flag or a control character is escaped, the flag and
    the escape are. *)
Definition tx_map (map : list Z) : Prop :=
  exists v0 v2 v3 v4 v5 v6 v7, map = [v0; 0; v2; v3; v4; v5; v6; v7]
  /\ has v2 0x40000000 = false /\ has v3 0x20000000 = true /\ has v3 0x40000000 = true.
(** The sender escapes what the receiver ignores. *)
Definition covers (map : list Z) (rmap : Z) : Prop :=
  forall c, 0 <= c < 32 -> has rmap (Z.shiftl 1 c) = true ->
    has (nth 0 map 0) (Z.shiftl 1 c) = true.

(** Facts about the 256 bytes, in the order of the words of the map. *)
Definition byte_facts (k : nat) : bool :=
  let c := Z.of_nat k in
  let x := Z.lxor c 0x20 in
  let j := Z.shiftr c 5 in
  (j =? c / 32)
  && implb (c <? 32) ((Z.land c 0x1F =? c) && (32 <=? x) && negb (x =? 0x7e))
  && implb ((64 <=? c) && (c <? 96))
       ((32 <=? x) && implb (x =? 0x7e) (Z.shiftl 1 (Z.land c 0x1F) =? 0x40000000))
  && implb ((96 <=? c) && (c <? 128))
       ((32 <=? x) && negb (x =? 0x7e)
        && implb (c =? 0x7d) (Z.shiftl 1 (Z.land c 0x1F) =? 0x20000000)
        && implb (c =? 0x7e) (Z.shiftl 1 (Z.land c 0x1F) =? 0x40000000))
  && implb (128 <=? c) (128 <=? x).
Lemma byte_facts_hold c : is_u8 c -> byte_facts (Z.to_nat c) = true.
Proof. apply below_256. by vm_compute. Qed.

Lemma passes_high rmap c : 32 <= c -> c <> PPP_FLAG -> passes rmap c.
Proof.
  intros Hc Hf. split; [by apply Z.eqb_neq|]. destruct (Z.ltb_spec c 0x20); [lia|done].
Qed.
Lemma tx_map_agree map rmap : tx_map map -> covers map rmap -> maps_agree map rmap.
Proof.
  intros (w0 & w2 & w3 & w4 & w5 & w6 & w7 & -> & H2 & H3 & H3') Hcov c Hc.
  pose proof (byte_facts_hold c Hc) as Hf. unfold byte_facts in Hf.
  rewrite Z2Nat.id in Hf by (unfold_int; lia).
  rewrite !andb_true_iff in Hf. destruct Hf as ((((Hj & F0) & F2) & F3) & F4).
  apply Z.eqb_eq in Hj. unfold escapes. rewrite Hj. unfold PPP_TRANS, PPP_FLAG, PPP_ESCAPE in *.
  assert (Hcase : c < 32 \/ 32 <= c < 64 \/ 64 <= c < 96 \/ 96 <= c < 128 \/ 128 <= c < 256) by (revert Hc;
    unfold_int; lia).
  destruct Hcase as [Hr|[Hr|[Hr|[Hr|Hr]]]].
  - replace (c / 32) with 0 by (revert Hc; int_lia).
    change (_ !! Z.to_nat 0) with (Some w0). cbv iota.
    rewrite (proj2 (Z.ltb_lt _ _) Hr) in F0. cbn [implb] in F0. rewrite !andb_true_iff in F0.
    destruct F0 as ((Hl%Z.eqb_eq & Hx%Z.leb_le) & Hx'%negb_true_iff%Z.eqb_neq). rewrite Hl.
    destruct (has w0 (Z.shiftl 1 c)) eqn:He; [by apply passes_high|].
    split; [|unfold_int; lia]. split; [apply Z.eqb_neq; unfold PPP_FLAG; lia|].
    destruct (has rmap (Z.shiftl 1 c)) eqn:Hrm; [|by rewrite andb_false_r].
    apply Hcov in Hrm; [|revert Hc; unfold_int; lia]. cbn [nth] in Hrm. congruence.
  - replace (c / 32) with 1 by (revert Hc; int_lia).
    change (_ !! Z.to_nat 1) with (Some 0). cbv iota.
    change (has 0 ?x) with false. split; [apply passes_high; unfold PPP_FLAG; lia|lia].
  - replace (c / 32) with 2 by (revert Hc; int_lia).
    change (_ !! Z.to_nat 2) with (Some w2). cbv iota.
    rewrite (proj2 (Z.leb_le 64 c)), (proj2 (Z.ltb_lt c 96)) in F2 by lia. cbn [andb implb] in F2.
    apply andb_true_iff in F2 as [Hx%Z.leb_le Hx'].
    destruct (has w2 (Z.shiftl 1 (Z.land c 31))) eqn:He; cbv iota; [|split; [apply passes_high;
      unfold PPP_FLAG; lia|lia]]. apply passes_high; [done|].
    intros Hxe. unfold PPP_FLAG in Hxe. rewrite (proj2 (Z.eqb_eq _ _) Hxe) in Hx'. cbn [implb] in Hx'.
    apply Z.eqb_eq in Hx'.
    rewrite Hx' in He. congruence.
  - replace (c / 32) with 3 by (revert Hc; int_lia).
    change (_ !! Z.to_nat 3) with (Some w3). cbv iota.
    rewrite (proj2 (Z.leb_le 96 c)), (proj2 (Z.ltb_lt c 128)) in F3 by lia. cbn [andb implb] in F3.
    rewrite !andb_true_iff in F3. destruct F3 as (((Hx%Z.leb_le & Hx'%negb_true_iff%Z.eqb_neq) & Hd) & He').
    destruct (has w3 (Z.shiftl 1 (Z.land c 31))) eqn:He; cbv iota; [by apply passes_high|]. split.
    + apply passes_high; [lia|]. intros ->. cbn in He'. apply Z.eqb_eq in He'. rewrite He' in He. congruence.
    + intros ->. cbn in Hd. apply Z.eqb_eq in Hd. rewrite Hd in He. congruence.
  - assert (Hd : 4 <= c / 32 < 8) by (revert Hc; int_lia).
    rewrite (proj2 (Z.leb_le 128 c)) in F4 by lia. cbn [implb] in F4. apply Z.leb_le in F4.
    assert (Hany : forall b : bool, if b then passes rmap (Z.lxor c 32) else passes rmap c /\ c <> 0x7d).
    { intros []; [apply passes_high; unfold PPP_FLAG; lia|]. split; [apply passes_high; unfold PPP_FLAG; lia|lia]. }
    assert (Hk : c / 32 = 4 \/ c / 32 = 5 \/ c / 32 = 6 \/ c / 32 = 7) by lia.
    destruct Hk as [->|[->|[->| ->]]]; apply Hany.
Qed.

(** ** The daemon writes *)

(** The smallest cluster of netBufLib.h. *)
Definition CL_SIZE_MIN := 64.
(** There is memory for clusters: an empty one of at least the smallest size,
    which need not be as large as it was asked for, since [pppwrite] does not
    ask for the best fit. *)
Definition clusters : Prop := forall n p, exists m p',
  mBufClGet n p = (Some m, p') /\ m_data m = 0 /\ CL_SIZE_MIN <= M_DATASIZE m.
(** The next cluster holds the packet [p]. *)
Definition holds w (p : list Z) : Prop := forall m p',
  mBufClGet (Z.of_nat (length p)) (d_pool w) = (Some m, p') -> Z.of_nat (length p) <= M_DATASIZE m.

(** The clusters that the loop fills with [count] bytes, each from the start of
    [buf]. *)
Inductive written (buf : list Z) : Z -> chain -> Prop :=
  | written_nil : written buf 0 []
  | written_cons count n m l :
      mbuf_ok m -> content m = take n buf -> Z.of_nat n = m_len m ->
      0 < Z.of_nat n <= count -> Z.min count CL_SIZE_MIN <= Z.of_nat n ->
      written buf (count - Z.of_nat n) l -> written buf count (m :: l).
(** What is then sent: pieces that all begin where [p] begins, together as long
    as [p]; the first is [p] itself or at least as long as the smallest
    cluster. *)
Definition repeated (p q : list Z) : Prop := exists n ns,
  q = concat ((fun n => take n p) <$> n :: ns) /\ length q = length p
  /\ Z.min (Z.of_nat (length p)) CL_SIZE_MIN <= Z.of_nat n.

Lemma written_contents buf count l : written buf count l -> count <= Z.of_nat (length buf) ->
  Forall mbuf_ok l /\ Z.of_nat (length (contents l)) = count
  /\ exists ns, contents l = concat ((fun n => take n buf) <$> ns).
Proof.
  induction 1 as [|count n m l Hm Hc Hn H0 _ _ IH]; intros Hl; [split; [constructor|split; [done|by exists []]]|].
  destruct IH as (Hl' & Hlen & ns & Ens); [lia|]. split; [by constructor|].
  unfold contents in *. cbn [fmap list_fmap concat]. rewrite length_app, Hc, length_take, Ens in *. split; [lia|].
  by exists (n :: ns).
Qed.
Lemma written_repeated p l : p <> [] -> written p (Z.of_nat (length p)) l -> repeated p (contents l).
Proof.
  intros Hp Hw. inversion Hw as [Hz|count n m l' Hm Hc Hn H0 Hmin Hw']; [by destruct p|]; subst.
  destruct (written_contents _ _ _ Hw' ltac:(lia)) as (_ & Hlen & ns & Ens). exists n, ns.
  unfold contents in *. cbn [fmap list_fmap concat]. rewrite Hc, Ens in *. split; [done|].
  split; [|done]. rewrite length_app, length_take. lia.
Qed.
Lemma repeated_refl p : repeated p p.
Proof. exists (length p), []. cbn. rewrite app_nil_r, take_ge by done. split; [done|]. split; [done|lia]. Qed.
(** The header is there, and no byte that was not. *)
Lemma repeated_head a b c d p q : repeated (a :: b :: c :: d :: p) q -> exists q', q = a :: b :: c :: d :: q'.
Proof.
  intros (n & ns & -> & _ & Hn). unfold CL_SIZE_MIN in Hn. cbn [length] in Hn.
  destruct n as [|[|[|[|n]]]]; [lia..|]. by eexists.
Qed.
Lemma repeated_bytes p q : bytes p -> repeated p q -> bytes q.
Proof.
  intros Hp (n & ns & -> & _). apply Forall_concat, Forall_fmap, Forall_true. intros k. by apply Forall_take.
Qed.
Lemma repeated_acceptable w p q : acceptable w p -> hook_passes (d_inhook w) q -> repeated p q -> acceptable w q.
Proof.
  intros (Hb & Hwf & Hd & _ & Hlen) Hh Hq. pose proof (wf_packet_length p Hwf) as H4.
  pose proof (repeated_bytes _ _ Hb Hq) as Hbq. assert (Hl : length q = length p) by by destruct Hq as (? &
    ? & _ & ? & _).
  destruct p as [|a [|b [|c [|d p]]]]; cbn [length] in H4; try lia.
  destruct (repeated_head _ _ _ _ _ _ Hq) as [q' ->]. split; [done|]. split; [exact Hwf|].
  split; [|by rewrite Hl]. destruct Hd as [[_ Hd] Hip]. split; [split; [rewrite Hl; exact H4|exact Hd]|exact Hip].
Qed.

Lemma store_at_start m bs : m_data m = 0 -> Z.of_nat (length bs) <= M_DATASIZE m ->
  exists m', m_store 0 bs m = Some m' /\ m_data m' = 0 /\ M_DATASIZE m' = M_DATASIZE m
  /\ mbuf_ok (m' <| m_len := Z.of_nat (length bs) |>)
  /\ content (m' <| m_len := Z.of_nat (length bs) |>) = bs.
Proof.
  intros Hd Hs. set (m0 := m <| m_len := 0 |>).
  assert (Hok : mbuf_ok m0).
  { change (0 <= m_data m /\ 0 <= 0 /\ m_data m + 0 <= M_DATASIZE m). lia. }
  destruct (m_store_end m0 bs Hok) as (m1 & H1 & Hd1 & _ & Hs1 & Hk).
  { unfold M_TRAILINGSPACE. change (M_DATASIZE m0) with (M_DATASIZE m).
    change (m_data m0) with (m_data m). change (m_len m0) with 0. lia. }
  change (m_data m0) with (m_data m) in *. change (m_len m0) with 0 in *. rewrite Hd in H1.
  unfold m0 in H1. rewrite m_store_len in H1. change (0 + 0) with 0 in H1.
  destruct (m_store 0 bs m) as [m2|] eqn:H2; [|done]. injection H1 as <-.
  exists m2. split; [done|]. split; [by rewrite <- Hd, <- Hd1|]. split; [exact Hs1|].
  exact (Hk (Z.of_nat (length bs)) eq_refl).
Qed.
Lemma store_same m h q : mbuf_ok m -> content m = h ++ q -> m_store (m_data m) h m = Some m.
Proof.
  intros Hm Hc. destruct (split_mbuf m Hm) as (pre & post & He & Hpre & _).
  pose proof Hm as (H1 & _). unfold m_store. rewrite (proj2 (Z.leb_le _ _) H1).
  rewrite He, Hc, <- Hpre, Nat2Z.id, <- app_assoc.
  pose proof (poke_at_end pre [] (h ++ q ++ post) h) as Hp. cbn [app] in Hp.
  rewrite app_nil_r in Hp. rewrite Hp by (rewrite length_app; lia). rewrite drop_app_length.
  f_equal. destruct m as [e d n]. cbn in *. by rewrite He, Hc, <- app_assoc.
Qed.

Lemma byte_of_protocol p2 p3 : is_u8 p2 -> is_u8 p3 ->
  Z.land (Z.shiftr (p2 * 256 + p3) 8) 0xff = p2 /\ Z.land (p2 * 256 + p3) 0xff = p3.
Proof.
  intros H2 H3. change 0xff with (Z.ones 8). rewrite !Z.land_ones, Z.shiftr_div_pow2 by done.
  change (2 ^ 8) with 256. revert H2 H3. int_lia.
Qed.

Lemma m_back m : m <| m_data ::= Z.add PPP_HDRLEN |> <| m_len ::= fun n => n - PPP_HDRLEN |>
    <| m_data ::= fun d => d - PPP_HDRLEN |> = m <| m_len ::= fun n => n - PPP_HDRLEN |>.
Proof.
  cbv beta delta [upd set_m_data set_m_len eta_of]. cbn. f_equal. unfold PPP_HDRLEN. lia.
Qed.

Lemma wp_write_mbufs buf fuel : forall count w (Q : option chain -> drv -> Prop) (E' : Empty_set -> drv -> Prop),
  clusters -> 0 <= count <= Z.of_nat (length buf) -> count <= Z.of_nat fuel ->
  (forall l p, written buf count l ->
     ((forall m p', mBufClGet count (d_pool w) = (Some m, p') -> count <= M_DATASIZE m) ->
      contents l = take (Z.to_nat count) buf) ->
     Q (Some l) (w <| d_pool := p |>)) ->
  wp False (write_mbufs fuel buf count) Q E' w.
Proof.
  induction fuel as [|fuel IH]; intros count w Q E' Hcl Hc Hf HQ; cbn [write_mbufs];
    (destruct (Z.eqb_spec count 0) as [->|Hz];
     [apply wp_ret; pose proof (HQ [] (d_pool w) (written_nil _) ltac:(done)) as H; by destruct w|]); [lia|].
  do 2 wp_step. destruct (Hcl count (d_pool w)) as (m & p' & Eg & Hd & Hs). rewrite Eg. do 2 wp_step.
  unfold CL_SIZE_MIN in Hs. set (len := if count <? M_DATASIZE m then count else M_DATASIZE m).
  assert (Hlen : 0 < len <= count /\ Z.min count CL_SIZE_MIN <= len /\ len <= M_DATASIZE m
    /\ (count <= M_DATASIZE m -> len = count))
    by (unfold len, CL_SIZE_MIN; destruct (Z.ltb_spec count (M_DATASIZE m)); lia).
  destruct Hlen as (Hlen & Hmin & Hfit & Hall). set (bs := take (Z.to_nat len) buf).
  assert (Hbs : Z.of_nat (length bs) = len) by (unfold bs; rewrite length_take; lia).
  destruct (store_at_start m bs Hd) as (m' & Hst & _ & _ & Hok & Hcm); [by rewrite Hbs|].
  wp_step. eapply wp_access; [by rewrite Hd|]. wp_step.
  apply IH; [done|lia|lia|]. intros l pl Hl _. wp_step.
  rewrite <- Hbs. apply (HQ (m' <| m_len := Z.of_nat (length bs) |> :: l) pl).
  - apply (written_cons _ _ (Z.to_nat len)); [done|done|..].
    + change (m_len (m' <| m_len := _ |>)) with (Z.of_nat (length bs)). lia.
    + lia.
    + lia.
    + by rewrite Z2Nat.id by lia.
  - intros H. apply H, Hall in Eg. rewrite Eg in Hl.
    rewrite Z.sub_diag in Hl. inversion Hl; [|lia]; subst l. unfold contents. cbn [fmap list_fmap concat].
    rewrite app_nil_r, Hcm. unfold bs. by rewrite Eg.
Qed.

(** What [pppwrite] does to the queues. *)
Definition queued_for w l w' : Prop :=
  pending w' = pending w ++ [l] /\ sc_flags w' = sc_flags w /\ sc_asyncmap w' = sc_asyncmap w
  /\ sc_outm w' = sc_outm w /\ d_wire w' = d_wire w.

Lemma wp_pppwrite w p (Q : Z -> drv -> Prop) (E' : Empty_set -> drv -> Prop) : clusters -> bytes p ->
  PPP_HDRLEN <= Z.of_nat (length p) <= u32 (if_mtu w + PPP_HDRLEN) ->
  (forall q, repeated p q -> hook_passes (d_outhook w) q) ->
  IF_QFULL (if_snd w) = false ->
  (forall l q w', packet l q -> repeated p q -> (holds w p -> q = p) -> queued_for w l w' -> Q 0 w') ->
  wp False (pppwrite p) Q E' w.
Proof.
  intros Hfit Hb Hlen Hh Hq HQ. unfold pppwrite. do 2 wp_step.
  rewrite (proj2 (Z.ltb_ge _ _)), (proj2 (Z.ltb_ge _ _)) by lia. cbn [orb]. wp_step.
  unfold PPP_HDRLEN in Hlen.
  apply wp_write_mbufs; [done|lia|lia|]. intros l pl Hw Hwhole. rewrite Nat2Z.id, firstn_all in Hwhole.
  destruct p as [|a [|b [|p2 [|p3 p]]]]; cbn [length] in Hlen; try lia. set (pk := a :: b :: p2 :: p3 :: p) in *.
  pose proof (written_repeated pk l ltac:(done) Hw) as Hrep.
  destruct (written_contents _ _ _ Hw (Z.le_refl _)) as (Hoks & _).
  inversion Hw as [|count n m rest Hok Hcm Hn H0 Hmin _]; subst l; subst.
  unfold CL_SIZE_MIN in Hmin. cbn [pk length] in Hmin.
  destruct n as [|[|[|[|n]]]]; [lia..|]. set (q := take n p). assert (Hc : content m = [a; b; p2; p3] ++ q) by done.
  destruct (repeated_head _ _ _ _ _ _ Hrep) as [q' Hq'].
  assert (Hpk : packet (m :: rest) (a :: b :: p2 :: p3 :: q')).
  { split; [done|]. split; [done|]. exists m, rest. split; [done|lia]. }
  destruct (packet_header (m :: rest) _ [a; b; p2; p3] q' Hpk) as (m0 & r0 & [= <- <-] & Hr & _); [done..|].
  wp_step. eapply wp_access; [exact Hr|]. cbv iota zeta. unfold pppoutput. do 4 wp_step.
  cbn [is_unspec negb]. rewrite andb_false_r. unfold output_packet. wp_step. unfold put_header.
  assert (Hlead : (M_LEADINGSPACE (m <| m_data ::= Z.add PPP_HDRLEN |>
    <| m_len ::= fun n => n - PPP_HDRLEN |>) <? PPP_HDRLEN) = false).
  { apply Z.ltb_ge. change (PPP_HDRLEN <= PPP_HDRLEN + m_data m). destruct Hok. lia. }
  rewrite Hlead. do 2 wp_step. rewrite m_back.
  set (m1 := m <| m_len ::= fun n => n - PPP_HDRLEN |>).
  unfold pk, bytes in Hb. rewrite !Forall_cons_iff in Hb. destruct Hb as (_ & _ & H2 & H3 & _).
  destruct (byte_of_protocol p2 p3 H2 H3) as [-> ->].
  wp_step. eapply wp_access.
  { unfold m1. rewrite (m_store_len _ _ m (m_len m - PPP_HDRLEN) : m_store _ _ (m <| m_len ::= _ |>) = _).
    change (m_data (m <| m_len ::= _ |>)) with (m_data m).
    rewrite (store_same m [a; b; p2; p3] q Hok Hc). done. }
  wp_step.
  assert (Hm2 : m <| m_len := m_len m - PPP_HDRLEN |> <| m_len ::= Z.add PPP_HDRLEN |> = m).
  { destruct m as [me md ml]. cbv beta delta [upd set_m_len eta_of]. cbn. f_equal. unfold PPP_HDRLEN. lia. }
  rewrite Hm2. do 3 wp_step. rewrite Hq' in Hrep.
  eapply (wp_hook _ (d_outhook w)); [by apply Hh|apply Hpk|apply Hpk|].
  rewrite (proj2 (Hh _ Hrep)). do 2 wp_step.
  change (if_snd (w <| d_pool := pl |>)) with (if_snd w). rewrite Hq. do 4 wp_step. wp_step.
  apply (HQ (m :: rest) (a :: b :: p2 :: p3 :: q')); [done|done|by rewrite <- Hq'|]. split; [|done].
  unfold pending, IF_ENQUEUE. by rewrite <- app_assoc.
Qed.

(** ** From one daemon to the other *)

Lemma agree_total map rmap : maps_agree map rmap -> map_total map.
Proof. intros H c Hc He. specialize (H c Hc). by rewrite He in H. Qed.

(** Two units at the ends of a line: the sender's map is one that the requests
    make, it escapes what the receiver ignores, and it compresses addresses
    only for a receiver that does not refuse it; the receiver is between two
    packets and does not log. *)
Record connected (s r : drv) : Prop := {
  cn_out : sc_outm s = None;
  cn_map : tx_map (sc_asyncmap s);
  cn_covers : covers (sc_asyncmap s) (sc_rasyncmap r);
  cn_quiet : quiet r;
  cn_ready : ready r r;
  cn_ac : has (sc_flags s) SC_COMP_AC && has (sc_flags r) SC_REJ_COMP_AC = false }.

Lemma connected_writer s r : connected s r -> writer s.
Proof.
  intros []. split; [done|]. by apply (agree_total _ (sc_rasyncmap r)), tx_map_agree.
Qed.

Lemma link_run s r ps : complete_writes -> generous -> connected s r ->
  Forall2 (waiting (sc_flags s)) (pending s) ps -> Forall (acceptable r) ps ->
  ifq_len (sc_inq r) + Z.of_nat (length ps) <= ifq_maxlen (sc_inq r) ->
  exists s' r' bs ls, ppp_wrt_task s = Ok tt s' /\ d_wire s' = d_wire s ++ bs
  /\ input_all bs r = Ok tt r' /\ Forall2 packet ls ps
  /\ ifq_list (sc_inq r') = ifq_list (sc_inq r) ++ ls /\ d_sigio r' = (length ps + d_sigio r)%nat.
Proof.
  intros Hw Hpool Hc Hps Hacc Hroom.
  destruct (ppp_wrt_task_run Hw s ps (connected_writer _ _ Hc) Hps) as (s' & bs & Hrun & _ & Hf & Hwire).
  destruct (wp_run _ _ _ (wp_rx_frames _ _ ps bs r (fun _ _ => False) Hf Hpool (cn_quiet _ _ Hc)
    (cn_ready _ _ Hc) (tx_map_agree _ _ (cn_map _ _ Hc) (cn_covers _ _ Hc)) Hacc (cn_ac _ _ Hc) Hroom))
    as ([] & r' & Hin & ls & Hls & Hq & Hsig & _).
  by exists s', r', bs, ls.
Qed.

(** C20: between two connected units, on a line whose writes are complete and
    while there is memory for mbufs: packets that wait in the queues of the
    one, all of them for the daemon (not for IP or compressed TCP), within the
    MRU of the other, which no hook takes and for which its queue has room,
    written to the line as frames and received byte by byte, wait for the
    daemon of the other, unchanged, complete and in the order of the queues,
    and the daemon gets a signal for each. *)
Theorem link_delivers s r ps : complete_writes -> generous -> connected s r ->
  Forall2 (waiting (sc_flags s)) (pending s) ps -> Forall (acceptable r) ps ->
  ifq_len (sc_inq r) + Z.of_nat (length ps) <= ifq_maxlen (sc_inq r) ->
  exists s' r' bs ls, ppp_wrt_task s = Ok tt s' /\ d_wire s' = d_wire s ++ bs
  /\ input_all bs r = Ok tt r' /\ Forall2 packet ls ps
  /\ ifq_list (sc_inq r') = ifq_list (sc_inq r) ++ ls /\ d_sigio r' = (length ps + d_sigio r)%nat.
Proof. apply link_run. Qed.

Lemma pppread_packet w l q p size : ifq_list (sc_inq w) = l :: q -> packet l p ->
  Z.of_nat (length p) <= size -> exists w', pppread size w = Ok p w'.
Proof.
  intros Hq (Hok & Hc & _) Hlen. unfold pppread, bind, gets, IF_DEQUEUE, modify. rewrite Hq.
  unfold copy_chain, bind. rewrite chain_bytes_contents, Hc by done. cbn [access ret].
  rewrite (proj2 (Z.leb_le _ _) Hlen). by eexists.
Qed.

Lemma daemon_no_tcp flags p : daemon_packet p -> no_tcp flags p.
Proof.
  destruct p as [|a [|b [|p2 [|p3 q]]]]; try done. intros [_ H]. cbn [no_tcp proto_of] in *.
  by rewrite (proj2 (Z.eqb_neq _ _) H).
Qed.

Lemma daemon_run s r p size : complete_writes -> clusters -> generous -> connected s r ->
  pending s = [] -> ifq_list (sc_inq r) = [] -> IF_QFULL (if_snd s) = false ->
  1 <= ifq_maxlen (sc_inq r) -> acceptable r p ->
  (forall q, repeated p q -> hook_passes (d_outhook s) q /\ hook_passes (d_inhook r) q) ->
  Z.of_nat (length p) <= u32 (if_mtu s + PPP_HDRLEN) -> Z.of_nat (length p) <= size ->
  exists q s1 s2 bs r1 r2, repeated p q /\ (holds s p -> q = p)
  /\ pppwrite p s = Ok 0 s1 /\ ppp_wrt_task s1 = Ok tt s2
  /\ d_wire s2 = d_wire s ++ bs /\ input_all bs r = Ok tt r1 /\ d_sigio r1 = S (d_sigio r)
  /\ pppread size r1 = Ok q r2.
Proof.
  intros Hw Hcl Hpool Hc Hp Hq Hfull Hmax Hacc Hhooks Hmtu Hsize.
  pose proof Hacc as (Hb & Hwf & _). pose proof (wf_packet_length p Hwf) as H4.
  destruct (wp_run (pppwrite p) (fun e w => e = 0 /\ exists l q, packet l q /\ repeated p q
    /\ (holds s p -> q = p) /\ queued_for s l w) s)
    as (e & s1 & Hrun1 & -> & l & q & Hl & Hrep & Hwhole & (Q1 & Q2 & Q3 & Q4 & Q5)).
  { apply wp_pppwrite; try done; [by intros q Hr; apply Hhooks|].
    intros l q w' Hl Hrep Hwh Hqf. split; [done|]. by exists l, q. }
  destruct (Hhooks q Hrep) as [_ Hin]. pose proof (repeated_acceptable _ _ _ Hacc Hin Hrep) as Haq.
  assert (Hlq : length q = length p) by by destruct Hrep as (? & ? & _ & ? & _).
  assert (Hc1 : connected s1 r) by (destruct Hc; by split; rewrite ?Q2, ?Q3, ?Q4).
  destruct (link_run s1 r [q] Hw Hpool Hc1) as (s2 & r1 & bs & ls & Hrun2 & Hwire & Hinp & Hls & Hinq & Hsig).
  { rewrite Q1, Hp. cbn [app]. constructor; [|constructor]. split; [done|]. split; [apply Haq|].
    apply daemon_no_tcp, Haq. }
  { by apply Forall_cons_2. }
  { unfold ifq_len. rewrite Hq. cbn [length]. lia. }
  rewrite Hq in Hinq. cbn [app] in Hinq.
  apply Forall2_cons_inv_r in Hls as (l' & ls' & Hl' & _ & ->).
  destruct (pppread_packet r1 l' ls' q size Hinq Hl' ltac:(lia)) as (r2 & Hread).
  exists q, s1, s2, bs, r1, r2. rewrite <- Q5. done.
Qed.

(** C6: between two connected units with nothing in their queues, on a line whose
    writes are complete and while there is memory for mbufs, what the daemon of
    the one gives to [pppwrite] reaches the daemon of the other with a signal,
    if it is a packet that is not for IP or compressed TCP, within the MTU of
    the one and the MRU and the buffer of the other, and no hook takes it: the
    packet itself when the cluster that the pool gives for it holds it, which
    [pppwrite] does not ask for; otherwise as many bytes in pieces that all
    begin like the packet. *)
Theorem daemon_to_daemon s r p size : complete_writes -> clusters -> generous -> connected s r ->
  pending s = [] -> ifq_list (sc_inq r) = [] -> IF_QFULL (if_snd s) = false ->
  1 <= ifq_maxlen (sc_inq r) -> acceptable r p ->
  (forall q, repeated p q -> hook_passes (d_outhook s) q /\ hook_passes (d_inhook r) q) ->
  Z.of_nat (length p) <= u32 (if_mtu s + PPP_HDRLEN) -> Z.of_nat (length p) <= size ->
  exists q s1 s2 bs r1 r2, repeated p q /\ (holds s p -> q = p)
  /\ pppwrite p s = Ok 0 s1 /\ ppp_wrt_task s1 = Ok tt s2
  /\ d_wire s2 = d_wire s ++ bs /\ input_all bs r = Ok tt r1 /\ d_sigio r1 = S (d_sigio r)
  /\ pppread size r1 = Ok q r2.
Proof. apply daemon_run. Qed.
End Link.

Lemma demo_clusters cluster takes_of : (forall n, CL_SIZE_MIN <= cluster n) ->
  @clusters (demo_env cluster takes_of).
Proof.
  intros Hc n p. exists (fresh (cluster n)), (S p). split; [done|]. split; [done|]. specialize (Hc n).
  unfold CL_SIZE_MIN, M_DATASIZE, fresh in *. cbn [m_ext]. rewrite length_replicate, Z2Nat.id; lia.
Qed.
Lemma line_clusters : @clusters line_env.
Proof. apply demo_clusters. unfold CL_SIZE_MIN. lia. Qed.
Lemma line_holds w p : @holds line_env w p.
Proof.
  intros m p' [= <- _]. unfold M_DATASIZE, fresh. cbn [m_ext]. rewrite length_replicate, Z2Nat.id; lia.
Qed.
Lemma tx_map_open : tx_map open_map.
Proof. by exists 0xffffffff, 0, 0x60000000, 0, 0, 0, 0. Qed.
Lemma line_connected flags flags' snd snd' : has flags SC_COMP_AC && has flags' SC_REJ_COMP_AC = false ->
  has flags' BUSY = false -> has flags' SC_LOG_RAWIN = false -> has flags' SC_LOG_FLUSH = false ->
  connected (line_unit flags snd) (line_unit flags' snd').
Proof.
  intros Hac Hb H1 H2. split; [done|apply tx_map_open| |by apply line_quiet|by apply line_ready|done].
  intros c _ H. by rewrite Z.land_0_l in H || (unfold has in H; cbn in H; discriminate).
Qed.
Lemma lcp_waits flags : waiting flags (in_mbuf lcp_packet) lcp_packet.
Proof.
  split; [|split; [by apply bytes_check|reflexivity]].
  split; [by apply Forall_cons_2; [|constructor]; split|]. split; [reflexivity|].
  do 2 eexists. split; [reflexivity|vm_compute; discriminate].
Qed.
Lemma lcp_acceptable flags snd : acceptable (line_unit flags snd) lcp_packet.
Proof.
  split; [by apply bytes_check|]. split; [by split|]. split; [by split; [split|]|]. by split.
Qed.
Lemma link_delivers_witness :
  let s := line_unit SC_COMP_AC [in_mbuf lcp_packet; in_mbuf lcp_packet] in
  let r := line_unit 0 [] in
  exists s' r' bs ls, ppp_wrt_task (E:=line_env) s = Ok tt s' /\ d_wire s' = bs
  /\ input_all bs r = Ok tt r' /\ Forall2 packet ls [lcp_packet; lcp_packet]
  /\ ifq_list (sc_inq r') = ls /\ d_sigio r' = 2%nat.
Proof.
  intros s r. apply (link_delivers (E:=line_env) s r [lcp_packet; lcp_packet] line_complete line_generous).
  - by apply line_connected.
  - repeat apply Forall2_cons_2; [apply lcp_waits..|apply Forall2_nil_2].
  - repeat apply Forall_cons_2; [apply lcp_acceptable..|apply Forall_nil_2].
  - vm_compute. discriminate.
Defined.
(** On a line with large clusters, and with the smallest ones: 70 bytes arrive
    as the first 64 and the first 6. *)
Definition tight_env : DrvEnv := demo_env (fun _ => CL_SIZE_MIN) (fun n => n).
Definition long_packet : list Z := lcp_packet ++ replicate 58 1 ++ [2; 3; 4; 5].
Definition tight_unit : @drv tight_env := demo_unit tight_env (0%nat : @pool tight_env) (tt : @tty tight_env) 0 [].
Lemma tight_generous : @generous tight_env.
Proof. intros n p. exists (fresh CL_SIZE_MIN), (S p). split; [done|]. by vm_compute. Qed.
Lemma tight_connected : connected tight_unit tight_unit.
Proof.
  split; [done|apply tx_map_open| |by split| |done].
  - intros c _ H. unfold has in H. cbn in H. discriminate.
  - split; [done..|by apply Forall_cons_2; [apply fresh_ok|]|by vm_compute|by vm_compute].
Qed.
Lemma daemon_to_daemon_witness :
  let s := line_unit (Z.lor SC_COMP_AC SC_COMP_PROT) [] in
  let r := line_unit 0 [] in
  (exists q s1 s2 bs r1 r2, repeated lcp_packet q /\ (holds s lcp_packet -> q = lcp_packet)
   /\ pppwrite (E:=line_env) lcp_packet s = Ok 0 s1 /\ ppp_wrt_task s1 = Ok tt s2
   /\ d_wire s2 = bs /\ input_all bs r = Ok tt r1 /\ d_sigio r1 = 1%nat
   /\ pppread 1500 r1 = Ok q r2)
  /\ holds s lcp_packet
  /\ (exists q s1 s2 bs r1 r2, repeated long_packet q /\ (holds tight_unit long_packet -> q = long_packet)
   /\ pppwrite (E:=tight_env) long_packet tight_unit = Ok 0 s1 /\ ppp_wrt_task s1 = Ok tt s2
   /\ d_wire s2 = bs /\ input_all bs tight_unit = Ok tt r1 /\ d_sigio r1 = 1%nat
   /\ pppread 1500 r1 = Ok q r2).
Proof.
  intros s r. split; [|split; [apply line_holds|]].
  - apply (daemon_to_daemon (E:=line_env) s r lcp_packet 1500 line_complete line_clusters line_generous);
      [by apply line_connected|reflexivity|reflexivity|reflexivity|vm_compute; discriminate|apply lcp_acceptable
      |by intros q _; split; split|vm_compute; discriminate|vm_compute; discriminate].
  - apply (daemon_to_daemon (E:=tight_env) tight_unit tight_unit long_packet 1500).
    + intros bs t. reflexivity.
    + apply demo_clusters. done.
    + apply tight_generous.
    + apply tight_connected.
    + reflexivity.
    + reflexivity.
    + reflexivity.
    + vm_compute. discriminate.
    + split; [by apply bytes_check|]. split; [by split|]. split; [by split; [split|]|]. by split.
    + by intros q _; split; split.
    + vm_compute. discriminate.
    + vm_compute. discriminate.
Defined.
