(* ===== verification/IfRun.v ===== *)
(** * if_ppp.c: requests and limits

    The map of escaped characters under the requests of the daemon, and what the
    driver does at its limits: a short buffer, a slow line, small clusters, a
    large MRU. *)

From stdpp Require Import base list numbers.
From S2P Require Export IfLink.

Section Requests.
Context {E : DrvEnv}.
Implicit Types w : drv.

(** A request with a map of eight words, as its type [ext_accm] says. *)
Definition typed (r : request) : Prop :=
  match r with PPPIOCSXASYNCMAP map => length map = 8%nat | _ => True end.

Lemma has_lor_bit f b x : Z.land b x <> 0 -> has (Z.lor f b) x = true.
Proof. intros H. rewrite has_lor. unfold has at 2. by rewrite (proj2 (Z.eqb_neq _ _) H), orb_true_r. Qed.

Lemma tx_map_protect map : length map = 8%nat -> tx_map (protect map).
Proof.
  destruct map as [|v0 [|v1 [|v2 [|v3 [|v4 [|v5 [|v6 [|v7 [|]]]]]]]]]; try done. intros _.
  exists v0, (Z.ldiff v2 0x40000000), (Z.lor 0x60000000 v3), v4, v5, v6, v7. split; [done|].
  split; [apply ldiff_ldiff_same|]. rewrite Z.lor_comm. split; by apply has_lor_bit.
Qed.
Lemma tx_map_first map v : tx_map map -> tx_map (<[0%nat := v]> map).
Proof. intros (v0 & v2 & v3 & v4 & v5 & v6 & v7 & -> & H). by exists v, v2, v3, v4, v5, v6, v7. Qed.

Lemma getm_alloc_map fuel : forall len w,
  wp True (getm_alloc (X:=Empty_set) fuel len) (fun _ w' => sc_asyncmap w' = sc_asyncmap w) (fun _ _ => True) w.
Proof.
  induction fuel as [|fuel IH]; intros len w; cbn [getm_alloc];
    destruct (0 <? len); try by apply wp_ret.
  1: done.
  do 2 wp_step. destruct (mHdrClGet len _) as [[m|] p].
  - do 2 wp_step. wp_use IH; [|done]. intros r w' Hr. exact Hr.
  - by wp_go.
Qed.
Lemma getm_map w : wp True (pppgetm (X:=Empty_set)) (fun _ w' => sc_asyncmap w' = sc_asyncmap w) (fun _ _ => True) w.
Proof. unfold pppgetm. do 5 wp_step. wp_use (getm_alloc_map); [|done]. intros r w' H. by wp_step. Qed.

(** Whatever the daemon requests, the map of characters to escape stays one
    with which a frame can be read back: the flag and the escape are in it,
    the characters that an escape would turn into a flag or into a control
    character are not. *)
Theorem ppptioctl_map r w : typed r -> tx_map (sc_asyncmap w) ->
  wp True (ppptioctl r) (fun _ w' => tx_map (sc_asyncmap w')) (fun _ _ => True) w.
Proof.
  intros Ht Hm. destruct r; cbn [ppptioctl]; try (wp_go; exact Hm).
  - wp_go. by apply tx_map_first.
  - wp_go. apply wp_access'; [intros a _; by wp_go|done].
  - wp_go. by apply tx_map_protect.
  - unfold set_mru. wp_step. wp_step; [|by wp_go]. do 3 wp_step. wp_use getm_map; [|done].
    intros [] w1 H1; [by wp_go; rewrite H1|]. do 3 wp_step. wp_use getm_map; [|done].
    intros [] w2 H2; cbn [negb when]; wp_go;
      change (tx_map (sc_asyncmap w2)); rewrite H2; change (tx_map (sc_asyncmap w1)); by rewrite H1.
Qed.
(** *** Limits *)

(** [pppread] copies the whole packet, whatever the size of the buffer. *)
Theorem pppread_overflows w l q size : ifq_list (sc_inq w) = l :: q -> Forall mbuf_ok l ->
  size < Z.of_nat (length (contents l)) -> pppread size w = Fault.
Proof.
  intros Hq Hok Hlen. unfold pppread, bind, gets, IF_DEQUEUE, modify. rewrite Hq.
  unfold copy_chain, bind. rewrite chain_bytes_contents by done. cbn [access ret].
  by rewrite (proj2 (Z.leb_gt _ _) Hlen).
Qed.

(** What is left of a packet that the line did not take is forgotten: the next
    turn of the loop begins another. *)
Theorem wrt_packet_forgets flushing w :
  wp True (wrt_packet flushing) (fun more w' => more = true -> sc_outm w' = None) (fun _ _ => True) w.
Proof.
  unfold wrt_packet, wp, bind. destruct (gets sc_outm w) as [outm w1|[]| |]; try done.
  destruct (_ w1) as [[l|] w2|[]| |]; try done.
  destruct (send_chain l w2) as [[] w3|[]| |]; try done. by destruct flushing.
Qed.

(** An MRU that a short does not hold: no octet is taken any more. *)
Theorem large_mru_takes_nothing mru rej d c : 2 ^ 15 <= mru <= PPP_MAXMRU ->
  takes rej (s16 mru) d c = None.
Proof.
  intros Hm. unfold takes. destruct (oct rej d c) as [d'|]; [|done].
  assert (Hs : s16 mru = mru - 2 ^ 16).
  { unfold s16, PPP_MAXMRU in *. change (2 ^ 15) with 32768 in *. change (2 ^ 16) with 65536.
    rewrite Z.mod_small by lia. destruct (Z.ltb_spec mru 32768); lia. }
  unfold PPP_MAXMRU, PPP_HDRLEN, PPP_FCSLEN in *. change (2 ^ 15) with 32768 in *. change (2 ^ 16) with 65536 in *.
  destruct (Z.leb_spec (Z.of_nat (length d')) (s16 mru + 4 + 2)); [lia|done].
Qed.
End Requests.

Lemma ppptioctl_map_witness :
  let w := line_unit 0 [] in
  tx_map (sc_asyncmap w) /\
  wp True (ppptioctl (E:=line_env) (PPPIOCSXASYNCMAP (replicate 8 0xffffffff)))
    (fun _ w' => tx_map (sc_asyncmap w')) (fun _ _ => True) w.
Proof.
  split; [apply tx_map_open|].
  apply (ppptioctl_map (E:=line_env) (PPPIOCSXASYNCMAP (replicate 8 0xffffffff))); [reflexivity|apply tx_map_open].
Defined.

(** With clusters of eight bytes: the second mbuf repeats the first bytes. *)
Theorem pppwrite_repeats_the_start :
  match write_mbufs (E:=small_env) 12 [1;2;3;4;5;6;7;8;9;10;11;12] 12
          (demo_unit small_env (0%nat : @pool small_env) (tt : @tty small_env) 0 []) with
  | Ok (Some l) _ => contents l = [1;2;3;4;5;6;7;8;1;2;3;4]
  | _ => False
  end.
Proof. by vm_compute. Qed.

(** A line that takes a byte at a time gets the first byte each time. *)
Theorem slow_line_repeats_the_start :
  match write_run (E:=slow_env) 3 [1;2;3] 3
          (demo_unit slow_env (0%nat : @pool slow_env) (tt : @tty slow_env) 0 []) with
  | Ok n w => n = 0 /\ d_wire w = [1;1;1]
  | _ => False
  end.
Proof. by vm_compute. Qed.
