(* ===== verification/IfOpen.v ===== *)
(** * if_ppp.c: units that come and go

    [pppopen] and [pppclose] with the routines below them, the requests of the
    interface, and what an opened unit can do. *)

From stdpp Require Import base list numbers.
From S2P Require Export IfLink.

Definition NPPP := 16.
Definition OK_STATUS := 0.
Definition ERROR := -1.

(** What a unit asks of the system. *)
Inductive dcall :=
  | c_open (fd : Z) | c_close (fd : Z) | c_read_buffer (fd size : Z) | c_write_buffer (fd size : Z)
  | c_hook (fd : Z) (on : bool) | c_hook_arg (fd unit : Z) | c_flush (fd : Z)
  | c_attach (unit : Z) | c_down (unit : Z) | c_detach (unit : Z)
  | c_spawn (task : Z) | c_delete (task : Z).
(** What the system answers: whether [calloc] and the requests to the tty
    succeed, the descriptor ([ERROR] if there is none), the task that is
    spawned and the one that calls. *)
Record answers := {
  a_calloc : bool; a_open : Z; a_rbuf : bool; a_wbuf : bool; a_hook : bool; a_arg : bool;
  a_spawn : Z; a_self : Z }.

Section Units.
Context {E : DrvEnv}.

(** The place of a unit in [ppp_softc]: whether there is a structure, the unit
    with what it shares with the system ([s_drv]; its own fields mean nothing
    when there is no structure), [sc_wrt_task_id], [sc_tid], the calls so far with the last in front. *)
Record slot := mk_slot {
  s_used : bool; s_drv : drv; s_task : Z; s_tid : Z; s_calls : list dcall }.
#[global] Instance eta_slot : Eta slot := fun s =>
  {| s_used := s_used s; s_drv := s_drv s; s_task := s_task s; s_tid := s_tid s; s_calls := s_calls s |}.
#[global] Instance set_s_used : Setter s_used := ltac:(derive_setter).
#[global] Instance set_s_drv : Setter s_drv := ltac:(derive_setter).
#[global] Instance set_s_task : Setter s_task := ltac:(derive_setter).
#[global] Instance set_s_tid : Setter s_tid := ltac:(derive_setter).
#[global] Instance set_s_calls : Setter s_calls := ltac:(derive_setter).

Definition U := M slot Empty_set.
Definition unit_do {A} (m : D A) : U A := fun s =>
  match m (s_drv s) with
  | Ok a w => Ok a (s <| s_drv := w |>)
  | Throw x _ => match x with end
  | Fault => Fault
  | Hang => Hang
  end.
Definition unit_set (f : drv -> drv) : U () := modify (fun s => s <| s_drv ::= f |>).
Definition call (c : dcall) : U () := modify (fun s => s <| s_calls ::= cons c |>).

(** The structure that [calloc] returns, around the same system. *)
Definition zero_queue : ifqueue := mk_ifq [] 0 0.
Definition zeroed (w : drv) : drv := {|
  if_unit := 0; if_mtu := 0; if_flags := 0; if_snd := zero_queue; if_ipackets := 0; if_ierrors := 0;
  if_opackets := 0; if_oerrors := 0; if_iqdrops := 0; if_ibytes := 0; if_obytes := 0;
  sc_flags := 0; sc_mru := 0; sc_inq := zero_queue; sc_fastq := zero_queue; sc_comp := sc_comp w;
  sc_bytessent := 0; sc_bytesrcvd := 0; sc_ipsent := 0; sc_iprcvd := 0; sc_asyncmap := replicate 8 0;
  sc_rasyncmap := 0; sc_outm := None; sc_m := []; sc_mc := None; sc_mp := 0; sc_ilen := 0; sc_fcs := 0;
  sc_outfcs := 0; sc_rawin := replicate 16 0; sc_rawin_count := 0; sc_fd := 0; sc_qlen := 0;
  sc_wrtsem := false; d_pool := d_pool w; d_tty := d_tty w; d_wire := d_wire w;
  d_ipintrq := d_ipintrq w; d_ip := d_ip w; d_sigio := d_sigio w; d_jobs := d_jobs w;
  d_errno := d_errno w; d_inhook := d_inhook w; d_outhook := d_outhook w; d_opened := d_opened w |}.

Definition pinit : D () := modify (fun w => w <| if_flags ::= fun f => Z.lor f (Z.lor IFF_UP IFF_RUNNING) |>).

Definition pppattach (unit : Z) : U Z :=
  unit_set (fun w => w <| if_unit := unit |>) ;;
  unit_set (fun w => w <| if_mtu := PPP_MTU |>) ;;
  unit_set (fun w => w <| if_flags := Z.lor IFF_POINTOPOINT IFF_MULTICAST |>) ;;
  unit_set (fun w => w <| if_snd ::= fun q => q <| ifq_maxlen := IFQ_MAXLEN |> |>) ;;
  unit_set (fun w => w <| sc_inq ::= fun q => q <| ifq_maxlen := IFQ_MAXLEN |> |>) ;;
  unit_set (fun w => w <| sc_fastq ::= fun q => q <| ifq_maxlen := IFQ_MAXLEN |> |>) ;;
  call (c_attach unit) ;; ret OK_STATUS.

Definition pppdealloc : U () :=
  unit <- gets (fun s => if_unit (s_drv s)) ;;
  call (c_down unit) ;;
  unit_set (fun w => w <| sc_inq ::= fun q => q <| ifq_list := [] |> |>) ;;
  unit_set (fun w => w <| sc_fastq ::= fun q => q <| ifq_list := [] |> |>) ;;
  unit_set (fun w => w <| if_flags ::= fun f => Z.ldiff f (Z.lor IFF_UP IFF_RUNNING) |>) ;;
  call (c_detach unit) ;;
  modify (fun s => s <| s_used := false |>).

(** The structure is given back before the interface is attached. *)
Definition give_back : U bool := modify (fun s => s <| s_used := false |>) ;; ret false.
(** [false]: the routine returns NULL. *)
Definition pppalloc (unit : Z) (a : answers) : U bool :=
  used <- gets s_used ;;
  if used then ret false else
  if negb (a_calloc a) then ret false else
  modify (fun s => s <| s_used := true |> <| s_drv ::= zeroed |>) ;;
  unit_set (fun w => w <| sc_fd := a_open a |>) ;;
  if a_open a =? ERROR then give_back else
  let fd := a_open a in
  call (c_open fd) ;;
  call (c_read_buffer fd (4 * PPP_MTU)) ;;
  when (a_rbuf a) (call (c_write_buffer fd (4 * PPP_MTU))) ;;
  if negb (a_rbuf a && a_wbuf a) then call (c_close fd) ;; give_back else
  st <- pppattach unit ;;
  if st =? ERROR then call (c_close fd) ;; give_back else
  call (c_hook fd true) ;;
  when (a_hook a) (call (c_hook_arg fd unit)) ;;
  if negb (a_hook a && a_arg a) then call (c_close fd) ;; pppdealloc ;; ret false else
  unit_set (fun w => w <| sc_flags := 0 |>) ;;
  unit_set (fun w => w <| sc_mru := PPP_MRU |>) ;;
  unit_set (fun w => w <| sc_comp := sl_compress_init |>) ;;
  unit_set (fun w => w <| if_flags ::= fun f => Z.lor f IFF_RUNNING |>) ;;
  ret true.

Definition pppopen (unit : Z) (a : answers) : U Z :=
  if (unit <? 0) || (NPPP <=? unit) then fault else
  ok <- pppalloc unit a ;;
  if negb ok then ret ERROR else
  unit_set (fun w => w <| sc_outm := None |>) ;;
  got <- unit_do pppgetm ;;
  if negb got then
    unit_set (fun w => w <| if_flags ::= fun f => Z.ldiff f (Z.lor IFF_UP IFF_RUNNING) |>) ;; ret ERROR
  else
    unit_set (fun w => w <| sc_ilen := 0 |>) ;;
    unit_set (fun w => w <| sc_asyncmap := <[3%nat := 0x60000000]> (<[0%nat := 0xffffffff]> (replicate 8 0)) |>) ;;
    unit_set (fun w => w <| sc_rasyncmap := 0 |>) ;;
    unit_set (fun w => w <| sc_qlen := 0 |>) ;;
    modify (fun s => s <| s_tid := a_self a |>) ;;
    unit_set (fun w => w <| sc_wrtsem := false |>) ;;
    fd <- gets (fun s => sc_fd (s_drv s)) ;;
    call (c_flush fd) ;;
    modify (fun s => s <| s_task := a_spawn a |>) ;;
    if a_spawn a =? ERROR then call (c_close fd) ;; pppdealloc ;; ret ERROR
    else call (c_spawn (a_spawn a)) ;; ret OK_STATUS.

Definition pppclose (unit : Z) : U Z :=
  if negb ((0 <=? unit) && (unit <? NPPP)) then ret ERROR else
  used <- gets s_used ;;
  if negb used then ret ERROR else
  unit_do ppp_wrt_flush ;;
  fd <- gets (fun s => sc_fd (s_drv s)) ;;
  call (c_hook fd false) ;;
  task <- gets s_task ;;
  call (c_delete task) ;;
  call (c_close fd) ;;
  unit_set (fun w => w <| sc_outm := None |>) ;;
  unit_set (fun w => w <| sc_m := [] |>) ;;
  pppdealloc ;; ret OK_STATUS.

(** The requests of the interface: [family] is the address family of [data],
    whether [data] is there; [baud] and [unknown] are from the task of the
    daemon. The result, and the counters that are stored. *)
Inductive if_request :=
  | SIOCGIFFLAGS | SIOCSIFFLAGS | SIOCSIFADDR (inet : bool) | SIOCSIFDSTADDR (inet : bool)
  | IF_SIOCSIFMTU (mtu : Z) | IF_SIOCGIFMTU | SIOCADDMULTI (data : option bool)
  | SIOCDELMULTI (data : option bool) | SIOCGMIB2CNFG
  | SIOCGMIB2CNTRS (unknown baud : Z) | UNKNOWN_IF_REQUEST.
Definition M2_ifType_ppp := 23.
Definition pppioctl (r : if_request) : D (Z * list Z) :=
  let family (inet : bool) := ret (if inet then 0 else EAFNOSUPPORT, []) in
  let multi (d : option bool) :=
    match d with Some inet => family inet | None => ret (EAFNOSUPPORT, []) end in
  match r with
  | SIOCGIFFLAGS => f <- gets if_flags ;; ret (0, [s16 f])
  | SIOCSIFFLAGS =>
      f <- gets if_flags ;;
      when (negb (has f IFF_RUNNING)) (modify (fun w => w <| if_flags ::= fun f => Z.ldiff f IFF_UP |>)) ;;
      ret (0, [])
  | SIOCSIFADDR inet | SIOCSIFDSTADDR inet => family inet
  | IF_SIOCSIFMTU mtu => modify (fun w => w <| if_mtu := mtu |>) ;; ret (0, [])
  | IF_SIOCGIFMTU => m <- gets if_mtu ;; ret (0, [m])
  | SIOCADDMULTI d | SIOCDELMULTI d => multi d
  | SIOCGMIB2CNFG => ret (0, [M2_ifType_ppp; 0])
  | SIOCGMIB2CNTRS unknown baud =>
      i <- gets sc_bytesrcvd ;; o <- gets sc_bytessent ;;
      ret (0, [i; 0; 0; unknown; o; 0; 0; if baud =? 0 then 9600 else baud])
  | UNKNOWN_IF_REQUEST => ret (EINVAL, [])
  end.

Implicit Types s : slot.

(** ** Opening *)

(** Steps that are not a choice. *)
Ltac steps :=
  repeat (lazymatch goal with
    | |- wp _ (if _ then _ else _) _ _ _ => fail
    | |- wp _ (when _ _) _ _ _ => fail
    | |- _ => wp_step
    end).

Lemma wp_unit_do {A} F (m : D A) (Q : A -> slot -> Prop) (E' : Empty_set -> slot -> Prop) s :
  wp F m (fun a w => Q a (s <| s_drv := w |>)) (fun _ _ => False) (s_drv s) -> wp F (unit_do m) Q E' s.
Proof. unfold wp, unit_do. destruct (m (s_drv s)) as [a w|[]| |]; done. Qed.

(** The descriptors that are open after the calls [l]. *)
Definition without (fd : Z) (l : list Z) : list Z := filter (fun x => x <> fd) l.
Fixpoint open_fds (l : list dcall) : list Z :=
  match l with
  | [] => []
  | c_open fd :: l => fd :: open_fds l
  | c_close fd :: l => without fd (open_fds l)
  | _ :: l => open_fds l
  end.

(** A unit that has just been opened. *)
Record fresh_unit (unit : Z) (w0 w : drv) : Prop := {
  fu_ready : ready w w;
  fu_quiet : quiet w;
  fu_map : tx_map (sc_asyncmap w);
  fu_rmap : sc_rasyncmap w = 0;
  fu_flags : sc_flags w = 0;
  fu_sizes : sc_mru w = PPP_MRU /\ if_mtu w = PPP_MTU;
  fu_out : sc_outm w = None /\ pending w = [] /\ ifq_list (sc_inq w) = [];
  fu_limits : ifq_maxlen (if_snd w) = IFQ_MAXLEN /\ ifq_maxlen (sc_inq w) = IFQ_MAXLEN;
  fu_hooks : d_inhook w = d_inhook w0 /\ d_outhook w = d_outhook w0 /\ d_wire w = d_wire w0 }.

Definition good_answers (a : answers) : Prop :=
  a_calloc a && a_rbuf a && a_wbuf a && a_hook a && a_arg a = true /\ a_open a <> ERROR /\ a_spawn a <> ERROR.

(** What [pppalloc] asks for, and what it needs of the answers. *)
Definition alloc_calls (unit fd : Z) : list dcall :=
  [c_hook_arg fd unit; c_hook fd true; c_attach unit; c_write_buffer fd (4 * PPP_MTU);
   c_read_buffer fd (4 * PPP_MTU); c_open fd].
Definition alloc_granted (a : answers) : Prop :=
  a_calloc a && a_rbuf a && a_wbuf a && a_hook a && a_arg a = true /\ a_open a <> ERROR.
(** The state behind [pppalloc]. *)
Definition allocated (unit : Z) (a : answers) s s' : Prop :=
  alloc_granted a /\ s_used s' = true /\ sc_fd (s_drv s') = a_open a
  /\ s_calls s' = alloc_calls unit (a_open a) ++ s_calls s
  /\ (sc_flags (s_drv s') = 0 /\ sc_mru (s_drv s') = PPP_MRU /\ if_mtu (s_drv s') = PPP_MTU)
  /\ (sc_m (s_drv s') = [] /\ pending (s_drv s') = [] /\ ifq_list (sc_inq (s_drv s')) = [])
  /\ (ifq_maxlen (if_snd (s_drv s')) = IFQ_MAXLEN /\ ifq_maxlen (sc_inq (s_drv s')) = IFQ_MAXLEN)
  /\ (sc_rawin_count (s_drv s') = 0 /\ d_inhook (s_drv s') = d_inhook (s_drv s)
      /\ d_outhook (s_drv s') = d_outhook (s_drv s) /\ d_wire (s_drv s') = d_wire (s_drv s)
      /\ d_pool (s_drv s') = d_pool (s_drv s)).
(** A failure that leaves no descriptor and no unit behind. *)
Definition undone (a : answers) s s' : Prop :=
  s' = s \/ s_used s' = false /\ (open_fds (s_calls s') = open_fds (s_calls s)
    \/ open_fds (s_calls s') = without (a_open a) (a_open a :: open_fds (s_calls s))).

Lemma wp_pppalloc unit a s (E' : Empty_set -> slot -> Prop) :
  wp False (pppalloc unit a)
    (fun ok s' => if ok : bool then s_used s = false /\ allocated unit a s s'
                  else undone a s s' /\ (s_used s = true \/ ~ good_answers a)) E' s.
Proof.
  unfold pppalloc, good_answers, allocated, alloc_granted, unit_set, call, give_back, pppdealloc. steps.
  destruct (s_used s) eqn:Hu.
  { steps. split; [by left|by left]. }
  destruct (a_calloc a); cbn [negb andb].
  2: { steps. split; [by left|right]. by intros [? _]. }
  steps. destruct (Z.eqb_spec (a_open a) ERROR) as [Ho|Ho].
  { steps. split; [|right; by intros (_ & ? & _)]. right. split; [done|by left]. }
  steps. destruct (a_rbuf a); cbn [when andb negb].
  2: { steps. split; [right; split; [done|by right]|right; by intros [? _]]. }
  steps. destruct (a_wbuf a); cbn [when andb negb].
  2: { steps. split; [right; split; [done|by right]|right; by intros [? _]]. }
  unfold pppattach, call, unit_set. steps. change (OK_STATUS =? ERROR) with false. cbv iota.
  steps. destruct (a_hook a); cbn [when andb negb].
  2: { steps. split; [right; split; [done|by right]|right; by intros [? _]]. }
  steps. destruct (a_arg a); cbn [when andb negb].
  2: { steps. split; [right; split; [done|by right]|right; by intros [? _]]. }
  steps. split; [done|]. by repeat split.
Qed.

Definition unit_ok (unit : Z) : Prop := 0 <= unit < NPPP.
Lemma unit_in_range unit : unit_ok unit -> (unit <? 0) || (NPPP <=? unit) = false.
Proof. unfold unit_ok, NPPP. intros H. apply orb_false_iff. split; [apply Z.ltb_ge|apply Z.leb_gt]; lia. Qed.

(** What becomes of [pppopen]: the unit, and what has been asked for. *)
Definition opened (unit : Z) (a : answers) s s' : Prop :=
  s_used s' = true /\ fresh_unit unit (s_drv s) (s_drv s')
  /\ sc_fd (s_drv s') = a_open a /\ s_task s' = a_spawn a /\ s_tid s' = a_self a
  /\ s_calls s' = c_spawn (a_spawn a) :: c_flush (a_open a) :: alloc_calls unit (a_open a) ++ s_calls s.
Lemma allocated_fds unit a s s' : allocated unit a s s' ->
  open_fds (s_calls s') = a_open a :: open_fds (s_calls s).
Proof. by intros (_ & _ & _ & -> & _). Qed.
Lemma wp_pppopen unit a s (E' : Empty_set -> slot -> Prop) : generous -> unit_ok unit ->
  wp False (pppopen unit a)
    (fun r s' => r = OK_STATUS /\ (s_used s = false /\ good_answers a) /\ opened unit a s s'
              \/ r = ERROR /\ undone a s s' /\ (s_used s = true \/ ~ good_answers a)) E' s.
Proof.
  intros Hpool Hu. unfold pppopen. rewrite unit_in_range by done. wp_step.
  eapply wp_mono; [apply (wp_pppalloc unit a s (fun _ _ => False))| |done]. intros [] s1 Hs1; cbn [negb] in *.
  2: { wp_step. right. done. }
  pose proof (allocated_fds _ _ _ _ (proj2 Hs1)) as Hfds.
  destruct Hs1 as (Hused & [Hgr Hop] & Hu1 & Hfd & Hcalls & (Hfl & Hmru & Hmtu) & (Hm & Hp & Hq) & (Hl1 &
    Hl2) & (Hraw & Hh1 & Hh2 & Hw & Hpl)).
  unfold unit_set, call, pppdealloc. steps. apply wp_unit_do.
  apply wp_getm; [done|change (Forall cluster_ok (sc_m (s_drv s1))); by rewrite Hm|].
  intros w' (pl & ch & -> & Hch) Hsz. cbn [negb]. steps.
  destruct (Z.eqb_spec (a_spawn a) ERROR) as [Hsp|Hsp].
  - steps. right. split; [done|]. split; [|right; by intros (_ & _ & ?)]. right. split; [done|]. right.
    change (without (sc_fd (s_drv s1)) (open_fds (s_calls s1)) = without (a_open a) (a_open a :: open_fds
      (s_calls s))).
    by rewrite Hfd, Hfds.
  - steps. left. split; [done|]. split; [by split|]. split; [done|]. split.
    2: { do 3 (split; [done|]).
      change (c_spawn (a_spawn a) :: c_flush (sc_fd (s_drv s1)) :: s_calls s1
        = c_spawn (a_spawn a) :: c_flush (a_open a) :: alloc_calls unit (a_open a) ++ s_calls s).
      by rewrite Hfd, Hcalls. }
    split; try done.
    + split; [done| |done|exact Hch| |].
      * change (has (sc_flags (s_drv s1)) BUSY = false). by rewrite Hfl.
      * exact Hsz.
      * change (0 <= sc_mru (s_drv s1) < 2 ^ 15 - 7). rewrite Hmru. done.
    + unfold quiet. change (has (sc_flags (s_drv s1)) SC_LOG_RAWIN = false
        /\ has (sc_flags (s_drv s1)) SC_LOG_FLUSH = false /\ sc_rawin_count (s_drv s1) <= 0).
      rewrite Hfl, Hraw. done.
    + by exists 0xffffffff, 0, 0x60000000, 0, 0, 0, 0.
Qed.

(** C39: with memory for mbufs [pppopen] returns OK exactly when the place of the
    unit is free and the system grants everything that is asked of it: memory,
    a descriptor, both buffers, both hooks and a task.  Then the unit is ready
    to receive and to send, and precisely these have been asked for.  Otherwise
    it returns ERROR, and leaves things as they were or at least the place of
    the unit free and its descriptor closed. *)
Theorem pppopen_opens unit a s : generous -> unit_ok unit ->
  exists r s', pppopen unit a s = Ok r s'
  /\ (r = OK_STATUS <-> s_used s = false /\ good_answers a)
  /\ (r = OK_STATUS -> opened unit a s s')
  /\ (r <> OK_STATUS -> r = ERROR /\ undone a s s').
Proof.
  intros Hpool Hu. pose proof (wp_pppopen unit a s (fun _ _ => False) Hpool Hu) as H.
  unfold wp in H. destruct (pppopen unit a s) as [r s'|[]| |]; [|done..]. exists r, s'. split; [done|].
  destruct H as [(-> & Hg & Ho)|(-> & Hun & Hbad)]; [done|]. split; [|done].
  split; [done|]. intros [Hf Hg]. exfalso. destruct Hbad; [congruence|done].
Qed.

Lemma wp_getm_none w (Q : bool -> drv -> Prop) (E' : Empty_set -> drv -> Prop) :
  (forall n p, mHdrClGet n p = (None, p)) -> sc_m w = [] -> 0 <= sc_mru w ->
  Q false (w <| d_pool := d_pool w |>) -> wp False pppgetm Q E' w.
Proof.
  intros Hpool Hm Hmru HQ. unfold pppgetm. steps. rewrite Hm. cbn [getm_skip].
  set (len := HDROFF + sc_mru w + PPP_HDRLEN + PPP_FCSLEN).
  assert (Hlen : 0 < len) by (unfold len, HDROFF, MAX_HDR, PPP_HDRLEN, PPP_FCSLEN; lia).
  destruct (Z.to_nat len) as [|fuel] eqn:Hf; [lia|]. cbn [getm_alloc].
  rewrite (proj2 (Z.ltb_lt _ _) Hlen). do 2 wp_step. rewrite Hpool. do 3 wp_step. wp_step.
  by rewrite (proj2 (Z.leb_gt _ _) Hlen).
Qed.

(** Without memory for mbufs the unit stays as it is, neither open nor free:
    its descriptor is never closed, and the unit cannot be opened again. *)
Theorem pppopen_leaks unit a a' s : (forall n p, mHdrClGet n p = (None, p)) -> unit_ok unit ->
  s_used s = false -> good_answers a ->
  exists s', pppopen unit a s = Ok ERROR s' /\ s_used s' = true
  /\ open_fds (s_calls s') = a_open a :: open_fds (s_calls s) /\ pppopen unit a' s' = Ok ERROR s'.
Proof.
  intros Hpool Hu Hfree Hgood.
  assert (H : wp False (pppopen unit a) (fun r s' => r = ERROR /\ s_used s' = true
    /\ open_fds (s_calls s') = a_open a :: open_fds (s_calls s)) (fun _ _ => False) s).
  { unfold pppopen. rewrite unit_in_range by done. wp_step.
    eapply wp_mono; [apply (wp_pppalloc unit a s (fun _ _ => False))| |done]. intros [] s1 Hs1; cbn [negb] in *.
    2: { exfalso. destruct Hs1 as [_ [?|?]]; [congruence|done]. }
    pose proof (allocated_fds _ _ _ _ (proj2 Hs1)) as Hfds.
    destruct Hs1 as (_ & _ & Hu1 & _ & _ & (_ & Hmru & _) & (Hm & _) & _).
    unfold unit_set. steps. apply wp_unit_do.
    apply wp_getm_none; [done|exact Hm|change (0 <= sc_mru (s_drv s1)); by rewrite Hmru|].
    cbn [negb]. steps. done. }
  unfold wp in H. destruct (pppopen unit a s) as [r s'|[]| |]; [|done..].
  destruct H as (-> & Hu' & Hfds). exists s'. split; [done|]. split; [done|]. split; [done|].
  unfold pppopen. rewrite unit_in_range by done. unfold pppalloc, bind, gets. by rewrite Hu'.
Qed.

(** ** Opened units and the line between them *)

Lemma fresh_connected us ur (s0 s r0 r : drv) : fresh_unit us s0 s -> fresh_unit ur r0 r -> connected s r.
Proof.
  intros Hs Hr. destruct (fu_out _ _ _ Hs) as (Ho & _). split; [done|apply Hs| |apply Hr|apply Hr|].
  - intros c _ H. rewrite (fu_rmap _ _ _ Hr) in H. unfold has in H. by rewrite Z.land_0_l in H.
  - by rewrite (fu_flags _ _ _ Hs).
Qed.

(** C40: two units that [pppopen] has opened, without hooks, at the ends of a line
    whose writes are complete and while there is memory for mbufs: a packet of
    the daemon that is not for IP or compressed TCP and no longer than the
    default MRU reaches the other daemon with a signal: the packet itself when
    the cluster that the pool gives for it holds it, otherwise as many bytes in
    pieces that all begin like the packet. *)
Theorem opened_units_talk us a s0 s ur b r0 r p : complete_writes -> clusters -> generous ->
  unit_ok us -> unit_ok ur ->
  pppopen us a s0 = Ok OK_STATUS s -> pppopen ur b r0 = Ok OK_STATUS r ->
  d_outhook (s_drv s0) = None -> d_inhook (s_drv r0) = None ->
  bytes p -> wf_packet p -> daemon_packet p -> Z.of_nat (length p) <= PPP_MRU + PPP_HDRLEN ->
  exists q (w1 w2 : drv) bs (v1 v2 : drv), repeated p q /\ (holds (s_drv s) p -> q = p)
  /\ pppwrite p (s_drv s) = Ok 0 w1 /\ ppp_wrt_task w1 = Ok tt w2
  /\ d_wire w2 = d_wire (s_drv s0) ++ bs /\ input_all bs (s_drv r) = Ok tt v1
  /\ d_sigio v1 = S (d_sigio (s_drv r)) /\ pppread (PPP_MRU + PPP_HDRLEN) v1 = Ok q v2.
Proof.
  intros Hw Hcl Hpool Hus Hur Hs Hr Hout Hin Hb Hwf Hd Hlen.
  assert (Hopened : forall u c x y, unit_ok u -> pppopen u c x = Ok OK_STATUS y -> fresh_unit u (s_drv x) (s_drv y)).
  { intros u c x y Hu Hrun. pose proof (wp_pppopen u c x (fun _ _ => False) Hpool Hu) as H.
    unfold wp in H. rewrite Hrun in H. by destruct H as [(_ & _ & _ & ? & _)|[? _]]. }
  apply Hopened in Hs, Hr; [|done..]. pose proof (fresh_connected _ _ _ _ _ _ Hs Hr) as Hc.
  destruct (fu_out _ _ _ Hs) as (_ & Hp & _), (fu_out _ _ _ Hr) as (_ & _ & Hq).
  destruct (fu_limits _ _ _ Hs) as [Hls _], (fu_limits _ _ _ Hr) as [_ Hlr].
  destruct (fu_hooks _ _ _ Hs) as (_ & Hhs & Hws), (fu_hooks _ _ _ Hr) as (Hhr & _).
  destruct (fu_sizes _ _ _ Hs) as [_ Hmtu], (fu_sizes _ _ _ Hr) as [Hmru _].
  assert (Hhooks : forall q, hook_passes (d_outhook (s_drv s)) q /\ hook_passes (d_inhook (s_drv r)) q).
  { intros q. unfold hook_passes. by rewrite Hhs, Hout, Hhr, Hin. }
  rewrite <- Hws. apply daemon_run; try done.
  - unfold IF_QFULL, ifq_len. rewrite Hls. apply app_eq_nil in Hp as [_ Hp]. by rewrite Hp.
  - by rewrite Hlr.
  - split; [done|]. split; [done|]. split; [done|]. split; [apply Hhooks|by rewrite Hmru].
  - by rewrite Hmtu.
Qed.

(** ** Closing *)

(** What [pppclose] asks the system for. *)
Definition close_calls (w : drv) (task : Z) : list dcall :=
  [c_detach (if_unit w); c_down (if_unit w); c_close (sc_fd w); c_delete task; c_hook (sc_fd w) false].

End Units.

Definition granted (fd : Z) : answers := {|
  a_calloc := true; a_open := fd; a_rbuf := true; a_wbuf := true; a_hook := true; a_arg := true;
  a_spawn := 77; a_self := 5 |}.
Definition free_slot : @slot line_env := mk_slot false (line_unit 0 []) 0 0 [].
Definition opened_slot (fd : Z) : @slot line_env :=
  match pppopen 3 (granted fd) free_slot with Ok _ s => s | _ => free_slot end.
Lemma opened_slot_run : pppopen 3 (granted 8) free_slot = Ok OK_STATUS (opened_slot 8).
Proof. vm_compute. reflexivity. Qed.
Lemma unit_3 : unit_ok 3.
Proof. split; [discriminate|reflexivity]. Qed.

Lemma pppopen_opens_witness :
  unit_ok 3 /\ exists r s', pppopen (E:=line_env) 3 (granted 8) free_slot = Ok r s'
  /\ (r = OK_STATUS <-> s_used free_slot = false /\ good_answers (granted 8))
  /\ (r = OK_STATUS -> opened 3 (granted 8) free_slot s')
  /\ (r <> OK_STATUS -> r = ERROR /\ undone (granted 8) free_slot s').
Proof. split; [apply unit_3|]. apply (pppopen_opens (E:=line_env)); [apply line_generous|apply unit_3]. Defined.
Lemma opened_units_talk_witness :
  exists q (w1 w2 : @drv line_env) bs (v1 v2 : @drv line_env), repeated lcp_packet q
  /\ (holds (s_drv (opened_slot 8)) lcp_packet -> q = lcp_packet)
  /\ pppwrite lcp_packet (s_drv (opened_slot 8)) = Ok 0 w1 /\ ppp_wrt_task w1 = Ok tt w2
  /\ d_wire w2 = [] ++ bs /\ input_all bs (s_drv (opened_slot 8)) = Ok tt v1
  /\ d_sigio v1 = S (d_sigio (s_drv (opened_slot 8))) /\ pppread (PPP_MRU + PPP_HDRLEN) v1 = Ok q v2.
Proof.
  destruct (lcp_acceptable 0 []) as (Hb & Hwf & Hd & _).
  apply (opened_units_talk (E:=line_env) 3 (granted 8) free_slot (opened_slot 8) 3 (granted 8) free_slot
    (opened_slot 8)
    lcp_packet line_complete line_clusters line_generous unit_3 unit_3 opened_slot_run opened_slot_run
    eq_refl eq_refl Hb Hwf Hd).
  vm_compute. discriminate.
Defined.
Definition busy_slot : @slot line_env := mk_slot true (line_unit 0 [in_mbuf lcp_packet]) 77 5 [c_open 3].
