(* ===== verification/Cksum.v ===== *)
(** * in_cksum.c: the checksum of the Internet protocols

    The portable routine of src/vxworks_test/netinet/in_cksum.c, which sums the
    words of a chain of mbufs whose data may begin at odd addresses and have
    odd lengths, against the sum with end-around carry of RFC 1071, on machines
    of both byte orders. *)

From stdpp Require Import base list numbers.
From S2P Require Export Prelude.

(** An mbuf: the address of its data ([mtod]) and the [m_len] bytes there. *)
Record seg := mk_seg { w_addr : Z; w_bytes : list Z }.

Section Cksum.
(** The byte order of the machine. *)
Context (big : bool).

(** The [u_short] that two bytes in memory are. *)
Definition word (a b : Z) : Z := if big then a * 256 + b else a + b * 256.

(** ** The code *)

Definition ADDCARRY (x : Z) : Z := if 65535 <? x then x - 65535 else x.
(** [sum] is an [int], which the code takes apart as two [u_short]s: it is kept
    here as the number of its 32 bits. *)
Definition REDUCE (sum : Z) : Z := ADDCARRY (sum mod 65536 + sum / 65536).
Definition add (sum w : Z) : Z := u32 (sum + w).
Definition shift8 (sum : Z) : Z := u32 (sum * 256).

(** [n] words from [w] on: the sum and where [w] is then; [None] behind the
    data. *)
Fixpoint add_words (n : nat) (sum : Z) (w : list Z) : option (Z * list Z) :=
  match n with
  | O => Some (sum, w)
  | S n => match w with a :: b :: w => add_words n (add sum (word a b)) w | _ => None end
  end.
(** [while ((mlen -= 2 * n) >= 0)] with [n] words in each round. *)
Fixpoint sum_loop (n fuel : nat) (mlen sum : Z) (w : list Z) : option (Z * Z * list Z) :=
  let mlen := mlen - 2 * Z.of_nat n in
  if 0 <=? mlen then
    match fuel with
    | O => None
    | S fuel =>
        match add_words n sum w with
        | Some (sum, w) => sum_loop n fuel mlen sum w
        | None => None
        end
    end
  else Some (mlen, sum, w).

(** What the loop over the mbufs keeps: [s_util.c[0]] is a byte of which the
    other half of the word is still to come, when [mlen] is -1. *)
Record cksum := mk_cksum { c_sum : Z; c_mlen : Z; c_first : Z; c_len : Z }.

(** From the alignment on; [w] are the bytes behind the pointer. *)
Definition sum_tail (odd : bool) (w : list Z) (mlen sum first : Z) : option (Z * Z * Z) :=
  let swapped := odd && (0 <? mlen) in
  match (if swapped then
           match w with c :: w => Some (shift8 (REDUCE sum), w, mlen - 1, c) | [] => None end
         else Some (sum, w, mlen, first)) with
  | None => None
  | Some (sum, w, mlen, first) =>
      match sum_loop 16 (length w) mlen sum w with
      | None => None
      | Some (mlen, sum, w) =>
          match sum_loop 4 (length w) (mlen + 32) sum w with
          | None => None
          | Some (mlen, sum, w) =>
              let mlen := mlen + 8 in
              if (mlen =? 0) && negb swapped then Some (mlen, sum, first) else
              match sum_loop 1 (length w) mlen (REDUCE sum) w with
              | None => None
              | Some (mlen, sum, w) =>
                  if swapped then
                    let sum := shift8 (REDUCE sum) in
                    if mlen =? -1 then
                      match w with c :: _ => Some (0, add sum (word first c), first) | [] => None end
                    else Some (-1, sum, first)
                  else if mlen =? -1 then
                    match w with c :: _ => Some (mlen, sum, c) | [] => None end
                  else Some (mlen, sum, first)
              end
          end
      end
  end.
Definition sum_seg (m : seg) (s : cksum) : option cksum :=
  match w_bytes m with
  | [] => Some s
  | c :: w =>
      let n := Z.of_nat (length (c :: w)) in
      let '(sum, w, addr, mlen, len) :=
        if c_mlen s =? -1
        then (add (c_sum s) (word (c_first s) c), w, w_addr m + 1, n - 1, c_len s - 1)
        else (c_sum s, c :: w, w_addr m, n, c_len s) in
      let mlen := if len <? mlen then len else mlen in
      match sum_tail (Z.odd addr) w mlen sum (c_first s) with
      | Some (mlen', sum, first) => Some (mk_cksum sum mlen' first (len - mlen))
      | None => None
      end
  end.
Fixpoint sum_segs (l : list seg) (s : cksum) : option cksum :=
  match l with
  | [] => Some s
  | m :: l =>
      if c_len s =? 0 then Some s else
      match sum_seg m s with Some s => sum_segs l s | None => None end
  end.
Definition in_cksum (l : list seg) (len : Z) : option Z :=
  match sum_segs l (mk_cksum 0 0 0 len) with
  | None => None
  | Some s =>
      let sum := if c_mlen s =? -1 then add (c_sum s) (word (c_first s) 0) else c_sum s in
      Some (Z.land (Z.lnot (REDUCE sum)) 0xffff)
  end.

(** ** The specification: RFC 1071 *)

(** Addition with end-around carry. *)
Definition carry_add (a b : Z) : Z := let s := a + b in if 65535 <? s then s - 65535 else s.
Fixpoint words (l : list Z) : list Z :=
  match l with
  | a :: b :: l => word a b :: words l
  | [a] => [word a 0]
  | [] => []
  end.
Definition rfc1071 (l : list Z) : Z := 65535 - foldl carry_add 0 (words l).
End Cksum.

(** ** Sums modulo 65535 *)

(** [s] stands for the sum [x]: equal modulo 65535, and zero only together. *)
Definition stands (s x : Z) : Prop :=
  0 <= s /\ 0 <= x /\ s mod 65535 = x mod 65535 /\ (s = 0 <-> x = 0).
Lemma stands_refl x : 0 <= x -> stands x x.
Proof. by intros. Qed.
Lemma stands_trans a b c : stands a b -> stands b c -> stands a c.
Proof. intros (H1&H2&H3&H4) (K1&K2&K3&K4). unfold stands. rewrite H3, H4. done. Qed.
Lemma stands_sym a b : stands a b -> stands b a.
Proof. intros (H1&H2&H3&H4). split_and!; [done..|]. by symmetry. Qed.
Lemma stands_add a b x y : stands a x -> stands b y -> stands (a + b) (x + y).
Proof.
  intros (H1&H2&H3&H4) (K1&K2&K3&K4). split_and!; [lia..| |lia].
  by rewrite (Z.add_mod a), (Z.add_mod x), H3, K3 by done.
Qed.
Lemma stands_mul k a x : 0 < k -> stands a x -> stands (k * a) (k * x).
Proof.
  intros Hk (H1&H2&H3&H4). split_and!; [lia..| |lia].
  by rewrite (Z.mul_mod k a), (Z.mul_mod k x), H3 by done.
Qed.
Lemma stands_swap a : 0 <= a -> stands (256 * (256 * a)) a.
Proof.
  intros Ha. split_and!; [lia..| |lia].
  replace (256 * (256 * a)) with (a + a * 65535) by lia. apply Z.mod_add. lia.
Qed.
Lemma stands_unique a b : stands a b -> a <= 65535 -> b <= 65535 -> a = b.
Proof.
  intros (H1&H2&H3&H4) Ha Hb.
  destruct (Z.eq_dec a 0) as [->|Ha0]; [by rewrite (proj1 H4)|].
  assert (b <> 0) by (intros ->; by apply Ha0, H4).
  destruct (Z.eq_dec a 65535) as [->|Ha1], (Z.eq_dec b 65535) as [->|Hb1]; try done.
  - rewrite Z_mod_same_full, Z.mod_small in H3 by lia. lia.
  - rewrite Z_mod_same_full, Z.mod_small in H3 by lia. lia.
  - rewrite !Z.mod_small in H3 by lia. done.
Qed.

Lemma carry_stands s : 0 <= s <= 131070 -> let c := ADDCARRY s in stands c s /\ c <= 65535.
Proof.
  intros Hs. unfold ADDCARRY. destruct (Z.ltb_spec 65535 s); cbv zeta; [|by split; [apply stands_refl|]; lia].
  split; [|lia]. split_and!; [lia..| |lia].
  replace s with (s - 65535 + 1 * 65535) at 2 by lia. symmetry. apply Z.mod_add. lia.
Qed.
Lemma reduce_stands s : 0 <= s < 2 ^ 32 -> stands (REDUCE s) s /\ REDUCE s <= 65535.
Proof.
  intros Hs. change (2 ^ 32) with 4294967296 in Hs. unfold REDUCE.
  assert (Hb : 0 <= s mod 65536 + s / 65536 <= 131070) by (revert Hs; Z.to_euclidean_division_equations; lia).
  destruct (carry_stands _ Hb) as [H1 H2]. split; [|done]. eapply stands_trans; [exact H1|].
  pose proof (Z.div_mod s 65536 ltac:(lia)) as Hd.
  assert (0 <= s / 65536) by (apply Z.div_pos; lia). assert (0 <= s mod 65536) by (by apply Z.mod_pos_bound).
  split_and!; [lia..| |lia].
  rewrite Hd at 3. replace (65536 * (s / 65536) + s mod 65536)
    with (s mod 65536 + s / 65536 + (s / 65536) * 65535) by lia. symmetry. apply Z.mod_add. lia.
Qed.

(** The bytes of [l] with the weights 256 and 1 by turns, 256 first if [h]. *)
Fixpoint wsum (h : bool) (l : list Z) : Z :=
  match l with [] => 0 | a :: l => (if h then 256 * a else a) + wsum (negb h) l end.
Lemma wsum_nonneg h l : bytes l -> 0 <= wsum h l.
Proof.
  intros H. revert h. induction H as [|a l [Ha _] _ IH]; intros h; cbn [wsum]; [done|].
  specialize (IH (negb h)). destruct h; lia.
Qed.
Lemma wsum_app a : forall h b, wsum h (a ++ b) = wsum h a + wsum (if Nat.even (length a) then h else negb h) b.
Proof.
  induction a as [|x a IH]; intros h b; cbn [wsum app length]; [done|]. rewrite IH, Nat.even_succ, <- Nat.negb_even.
  destruct (Nat.even (length a)); cbn [negb]; rewrite ?negb_involutive; lia.
Qed.
Lemma wsum_turn l : bytes l -> forall h, stands (256 * wsum h l) (wsum (negb h) l).
Proof.
  induction 1 as [|a l Ha Hl IH]; intros h; cbn [wsum]; [done|]. rewrite Z.mul_add_distr_l.
  apply stands_add; [|apply IH]. destruct Ha as [Ha _]. destruct h; cbn [negb].
  - by apply stands_swap.
  - apply stands_refl. lia.
Qed.

Section Cksum.
Context (big : bool).
#[local] Notation word := (word big).

Lemma word_wsum a b : word a b = wsum big [a; b].
Proof. unfold Cksum.word. destruct big; cbn; lia. Qed.
Lemma word_snoc a : word a 0 = wsum big [a].
Proof. rewrite word_wsum. cbn [wsum]. destruct big; cbn [negb]; lia. Qed.
Lemma word_range a b : is_u8 a -> is_u8 b -> 0 <= word a b <= 65535.
Proof. unfold Cksum.word, is_u8. destruct big; lia. Qed.

Lemma wsum_even_bound n : forall l, bytes l -> length l = (2 * n)%nat -> wsum big l <= 65535 * Z.of_nat n.
Proof.
  induction n as [|n IH]; intros l Hl Hn.
  - destruct l; [done|done].
  - destruct l as [|a [|b l]]; cbn [length] in Hn; try lia. unfold bytes in Hl.
    rewrite !Forall_cons_iff in Hl. destruct Hl as (Ha & Hb & Hl).
    specialize (IH l Hl ltac:(lia)). change (a :: b :: l) with ([a; b] ++ l). rewrite wsum_app.
    change (Nat.even (length [a; b])) with true. cbv iota. rewrite <- word_wsum.
    pose proof (word_range a b Ha Hb). lia.
Qed.
Lemma add_words_spec n : forall sum w, (2 * n <= length w)%nat -> bytes w -> 0 <= sum ->
  sum + 65535 * Z.of_nat n < 4294967296 ->
  add_words big n sum w = Some (sum + wsum big (take (2 * n) w), drop (2 * n) w).
Proof.
  induction n as [|n IH]; intros sum w Hn Hw Hs Hb; [cbn; by rewrite Z.add_0_r|].
  destruct w as [|a [|b w]]; cbn [length] in Hn; try lia. unfold bytes in Hw.
  rewrite !Forall_cons_iff in Hw. destruct Hw as (Ha & Hb' & Hw). pose proof (word_range a b Ha Hb') as Hr.
  cbn [add_words]. unfold add. rewrite u32_id by (unfold is_u32; change (2 ^ 32) with 4294967296; lia).
  rewrite IH by (done || lia).
  replace (2 * S n)%nat with (S (S (2 * n))) by lia. cbn [take drop].
  change (a :: b :: take (2 * n) w) with ([a; b] ++ take (2 * n) w). rewrite wsum_app, <- word_wsum.
  change (Nat.even (length [a; b])) with true. cbv iota. by rewrite Z.add_assoc.
Qed.

Lemma take_even_add (w : list Z) k j :
  take (2 * (k + j)) w = take (2 * k) w ++ take (2 * j) (drop (2 * k) w).
Proof.
  replace (2 * (k + j))%nat with (2 * k + 2 * j)%nat by lia.
  by rewrite <- (take_drop (2 * k) (take (2 * k + 2 * j) w)), take_take, <- take_drop_commute, Nat.min_l by lia.
Qed.
(** Even pieces one after the other. *)
Lemma wsum_even_app n a b : length a = (2 * n)%nat -> wsum big (a ++ b) = wsum big a + wsum big b.
Proof. intros Hn. rewrite wsum_app, Hn. replace (Nat.even (2 * n)) with true; [done|]. symmetry.
apply Nat.even_spec. by exists n. Qed.

Lemma sum_loop_spec n fuel : (0 < n)%nat -> forall mlen sum w, (length w <= fuel)%nat -> bytes w ->
  0 <= mlen <= Z.of_nat (length w) -> 0 <= sum -> 2 * sum + 65535 * mlen < 8589934592 ->
  exists k, sum_loop big n fuel mlen sum w
    = Some (mlen - 2 * Z.of_nat k - 2 * Z.of_nat n, sum + wsum big (take (2 * k) w), drop (2 * k) w)
    /\ 2 * Z.of_nat k <= mlen /\ mlen - 2 * Z.of_nat k < 2 * Z.of_nat n.
Proof.
  intros Hn. induction fuel as [|fuel IH]; intros mlen sum w Hf Hw Hm Hs Hb; cbn [sum_loop];
    destruct (Z.leb_spec 0 (mlen - 2 * Z.of_nat n)) as [Hle|Hlt]; try lia.
  1, 3: exists 0%nat; split; [|lia]; change (wsum big (take (2 * 0) w)) with 0; change (drop (2 * 0) w) with w;
    do 3 f_equal; lia.
  rewrite add_words_spec by (done || lia).
  destruct (IH (mlen - 2 * Z.of_nat n) (sum + wsum big (take (2 * n) w)) (drop (2 * n) w)) as (k & -> & H1 & H2).
  - rewrite length_drop. lia.
  - by apply Forall_drop.
  - rewrite length_drop. lia.
  - pose proof (wsum_nonneg big (take (2 * n) w) ltac:(by apply Forall_take)). lia.
  - pose proof (wsum_even_bound n (take (2 * n) w) ltac:(by apply Forall_take)) as H.
    rewrite length_take in H. specialize (H ltac:(lia)). lia.
  - exists (n + k)%nat. split; [|lia]. do 2 f_equal; [f_equal|].
    + lia.
    + replace (2 * (n + k))%nat with (2 * n + 2 * k)%nat by lia.
      rewrite <- (take_drop (2 * n) (take (2 * n + 2 * k) w)), (wsum_even_app n).
      2: { rewrite !length_take. lia. }
      rewrite take_take, <- take_drop_commute. rewrite Nat.min_l by lia. lia.
    + rewrite drop_drop. f_equal. lia.
Qed.

(** The sum so far, after [c] bytes. *)
Definition bounded (c sum : Z) : Prop := 0 <= sum /\ 2 * sum <= 33553920 + 65535 * c.

(** The first two loops. *)
Lemma two_loops mlen sum w c : bytes w -> 0 <= mlen <= Z.of_nat (length w) -> bounded c sum ->
  0 <= c -> c + mlen <= 65535 ->
  exists k r, match sum_loop big 16 (length w) mlen sum w with
    | Some (mlen, sum, w) => sum_loop big 4 (length w) (mlen + 32) sum w
    | None => None
    end = Some (mlen - 2 * Z.of_nat k - 8, r, drop (2 * k) w)
    /\ r = sum + wsum big (take (2 * k) w) /\ 2 * Z.of_nat k <= mlen /\ bounded (c + 2 * Z.of_nat k) r.
Proof.
  intros Hw Hm [Hs Hb] Hc Hlen. 
  destruct (sum_loop_spec 16 (length w) ltac:(lia) mlen sum w) as (k & -> & H1 & H2); try (done || lia).
  replace (mlen - 2 * Z.of_nat k - 2 * Z.of_nat 16 + 32) with (mlen - 2 * Z.of_nat k) by lia.
  assert (Hwk : bytes (take (2 * k) w)) by by apply Forall_take.
  pose proof (wsum_nonneg big _ Hwk). pose proof (wsum_even_bound k (take (2 * k) w) Hwk) as H6.
  rewrite length_take in H6. specialize (H6 ltac:(lia)).
  destruct (sum_loop_spec 4 (length (drop (2 * k) w)) ltac:(lia) (mlen - 2 * Z.of_nat k)
    (sum + wsum big (take (2 * k) w)) (drop (2 * k) w)) as (j & -> & H3 & H4);
    try (rewrite ?length_drop; lia); [by apply Forall_drop|].
  assert (Hsplit : take (2 * (k + j)) w = take (2 * k) w ++ take (2 * j) (drop (2 * k) w)).
  { apply take_even_add. }
  exists (k + j)%nat. eexists. split; [|split; [reflexivity|]].
  - rewrite drop_drop, Hsplit, (wsum_even_app k) by (rewrite length_take; lia).
    do 2 f_equal; [f_equal; lia|f_equal; lia].
  - assert (Hwj : bytes (take (2 * (k + j)) w)) by by apply Forall_take.
    pose proof (wsum_nonneg big _ Hwj). pose proof (wsum_even_bound (k + j) _ Hwj) as H5.
    rewrite length_take in H5. specialize (H5 ltac:(lia)). unfold bounded. lia.
Qed.

(** The last loop, from a reduced sum; less than a word is left. *)
Lemma last_loop mlen sum w c : bytes w -> 0 <= mlen <= Z.of_nat (length w) -> bounded c sum ->
  0 <= c -> c + mlen <= 65535 ->
  exists k r, sum_loop big 1 (length w) mlen (REDUCE sum) w = Some (mlen - 2 * Z.of_nat k - 2, r, drop (2 * k) w)
    /\ stands r (sum + wsum big (take (2 * k) w)) /\ 0 <= mlen - 2 * Z.of_nat k < 2
    /\ bounded (c + 2 * Z.of_nat k) r.
Proof.
  intros Hw Hm [Hs Hb] Hc Hlen.
  destruct (reduce_stands sum) as [Hr1 Hr2]; [change (2 ^ 32) with 4294967296; lia|].
  pose proof Hr1 as (Hr0 & _).
  destruct (sum_loop_spec 1 (length w) ltac:(lia) mlen (REDUCE sum) w) as (k & -> & H1 & H2); try (done || lia).
  assert (Hwk : bytes (take (2 * k) w)) by by apply Forall_take.
  pose proof (wsum_nonneg big _ Hwk) as H0. pose proof (wsum_even_bound k (take (2 * k) w) Hwk) as H6.
  rewrite length_take in H6. specialize (H6 ltac:(lia)).
  exists k, (REDUCE sum + wsum big (take (2 * k) w)). split; [reflexivity|].
  split; [apply stands_add; [done|by apply stands_refl]|]. split; [lia|]. unfold bounded. lia.
Qed.

Lemma shift8_stands sum c : bounded c sum -> 0 <= c <= 65535 ->
  shift8 (REDUCE sum) = 256 * REDUCE sum /\ stands (REDUCE sum) sum /\ 0 <= 256 * REDUCE sum <= 16776960.
Proof.
  intros [Hs Hb] Hc. destruct (reduce_stands sum) as [Hr1 Hr2]; [change (2 ^ 32) with 4294967296; lia|].
  pose proof Hr1 as (Hr0 & _). unfold shift8. rewrite u32_id; [split; [lia|]; split; [done|lia]|].
  unfold is_u32. change (2 ^ 32) with 4294967296. lia.
Qed.

(** What a piece of data makes of a sum: [mlen] is -1 when the first half of a
    word waits for its second. *)
Definition summed (total mlen sum first : Z) (data : list Z) : Prop :=
  is_u8 first /\ if mlen =? -1
  then Nat.even (length data) = false /\ stands (sum + word first 0) (total + wsum big data)
  else Nat.even (length data) = true /\ stands sum (total + wsum big data).

Lemma even_take (w : list Z) k : (2 * k <= length w)%nat -> Nat.even (length (take (2 * k) w)) = true.
Proof. intros H. rewrite length_take, Nat.min_l by lia. apply Nat.even_spec. by exists k. Qed.
Lemma take_more (w : list Z) k c l : drop (2 * k) w = c :: l -> take (S (2 * k)) w = take (2 * k) w ++ [c].
Proof. intros H. rewrite <- (take_drop (2 * k) (take (S (2 * k)) w)), take_take, Nat.min_l by lia. f_equal.
  replace (S (2 * k)) with (2 * k + 1)%nat by lia. rewrite <- take_drop_commute, H. done. Qed.
Lemma wsum_snoc h l c : Nat.even (length l) = true -> wsum h (l ++ [c]) = wsum h l + wsum h [c].
Proof. intros He. by rewrite wsum_app, He. Qed.
Lemma even_snoc (l : list Z) c : Nat.even (length (l ++ [c])) = negb (Nat.even (length l)).
Proof. by rewrite length_app, Nat.add_1_r, Nat.even_succ, <- Nat.negb_even. Qed.

Lemma tail_even w mlen sum first c : bytes w -> 0 <= mlen <= Z.of_nat (length w) -> bounded c sum ->
  0 <= c -> c + mlen <= 65535 -> is_u8 first ->
  exists mlen' sum' first', sum_tail big false w mlen sum first = Some (mlen', sum', first')
  /\ bounded (if mlen' =? -1 then c + mlen - 1 else c + mlen) sum'
    /\ summed sum mlen' sum' first' (take (Z.to_nat mlen) w).
Proof.
  intros Hw Hm Hs Hc Hlen Hf. unfold sum_tail. cbn [andb].
  destruct (two_loops mlen sum w c) as (k & r & Htl & -> & Hk & Hb); try done.
  destruct (sum_loop big 16 (length w) mlen sum w) as [[[m1 s1] w1]|]; [|done]. rewrite Htl.
  replace (mlen - 2 * Z.of_nat k - 8 + 8) with (mlen - 2 * Z.of_nat k) by lia. cbn [negb]. rewrite andb_true_r.
  destruct (Z.eqb_spec (mlen - 2 * Z.of_nat k) 0) as [H0|H0].
  { do 3 eexists. split; [reflexivity|]. split; [by rewrite H0; change (0 =? -1) with false; cbv iota;
    replace mlen with (2 * Z.of_nat k) by lia|].
    replace (Z.to_nat mlen) with (2 * k)%nat by lia. rewrite H0. split; [done|].
    change (0 =? -1) with false. cbv iota. split; [apply even_take; lia|]. apply stands_refl, Hb. }
  set (r := sum + wsum big (take (2 * k) w)) in *.
  destruct (last_loop (mlen - 2 * Z.of_nat k) r (drop (2 * k) w) (c + 2 * Z.of_nat k))
    as (j & r2 & -> & Hst & Hj & Hb2); try (rewrite ?length_drop; lia || done); [by apply Forall_drop|].
  rewrite drop_drop. replace (2 * k + 2 * j)%nat with (2 * (k + j))%nat by lia.
  assert (Hall : sum + wsum big (take (2 * (k + j)) w) = r + wsum big (take (2 * j) (drop (2 * k) w))).
  { unfold r. by rewrite <- Z.add_assoc, <- (wsum_even_app k), take_even_add by (rewrite length_take; lia). }
  destruct (Z.eqb_spec (mlen - 2 * Z.of_nat k - 2 * Z.of_nat j - 2) (-1)) as [H1|H1].
  - destruct (drop (2 * (k + j)) w) as [|y l] eqn:Hd.
    { apply (f_equal length) in Hd. rewrite length_drop in Hd. cbn in Hd. lia. }
    assert (Hy : is_u8 y).
    { assert (Hdr : bytes (drop (2 * (k + j)) w)) by by apply Forall_drop. rewrite Hd in Hdr.
    by inversion_clear Hdr. }
    do 3 eexists. split; [reflexivity|]. destruct Hb2. split; [rewrite H1; change (-1 =? -1) with true;
      cbv iota; split; lia|].
    replace (Z.to_nat mlen) with (S (2 * (k + j)))%nat by lia. split; [done|].
    rewrite H1. change (-1 =? -1) with true. cbv iota. rewrite (take_more w _ y l Hd), even_snoc, even_take by lia.
    split; [done|]. rewrite wsum_snoc by (apply even_take; lia). rewrite Z.add_assoc, Hall.
    apply stands_add; [done|]. rewrite word_snoc. apply stands_refl, wsum_nonneg. by constructor.
  - do 3 eexists. split; [reflexivity|]. destruct Hb2. rewrite (proj2 (Z.eqb_neq _ _)) by done. split; [split; lia|].
    replace (Z.to_nat mlen) with (2 * (k + j))%nat by lia. split; [done|].
    rewrite (proj2 (Z.eqb_neq _ _)) by done. split; [apply even_take; lia|]. by rewrite Hall.
Qed.

(** All three loops with the reductions, when the first two did not end them. *)
Lemma loops mlen sum w c : bytes w -> 0 <= mlen <= Z.of_nat (length w) -> bounded c sum ->
  0 <= c -> c + mlen <= 65535 ->
  exists k r, match sum_loop big 16 (length w) mlen sum w with
    | Some (mlen, sum, w) =>
        match sum_loop big 4 (length w) (mlen + 32) sum w with
        | Some (mlen, sum, w) => sum_loop big 1 (length w) (mlen + 8) (REDUCE sum) w
        | None => None
        end
    | None => None
    end = Some (mlen - 2 * Z.of_nat k - 2, r, drop (2 * k) w)
    /\ stands r (sum + wsum big (take (2 * k) w)) /\ 0 <= mlen - 2 * Z.of_nat k < 2
    /\ bounded (c + 2 * Z.of_nat k) r.
Proof.
  intros Hw Hm Hs Hc Hlen.
  destruct (two_loops mlen sum w c) as (k & r & Htl & Hr & Hk & Hb); try done.
  destruct (sum_loop big 16 (length w) mlen sum w) as [[[m1 s1] w1]|]; [|done]. rewrite Htl.
  replace (mlen - 2 * Z.of_nat k - 8 + 8) with (mlen - 2 * Z.of_nat k) by lia.
  destruct (last_loop (mlen - 2 * Z.of_nat k) r (drop (2 * k) w) (c + 2 * Z.of_nat k))
    as (j & r2 & -> & Hst & Hj & Hb2); try (rewrite ?length_drop; lia || done); [by apply Forall_drop|].
  exists (k + j)%nat, r2. rewrite drop_drop. split; [do 2 f_equal; [f_equal; lia|f_equal; lia]|].
  split; [|split; [lia|destruct Hb2; split; lia]].
  rewrite take_even_add, (wsum_even_app k) by (rewrite length_take; lia).
  by rewrite Z.add_assoc, <- Hr.
Qed.

(** The data of a chain at an odd address: the sum is turned over, twice. *)
Lemma turned r sum l : bytes l -> 0 <= r -> stands (REDUCE sum) sum -> stands r (256 * REDUCE sum + wsum big l) ->
  stands (REDUCE r) r -> stands (256 * REDUCE r) (sum + wsum (negb big) l).
Proof.
  intros Hl Hr0 Hs Hr Hrr.
  eapply stands_trans; [apply stands_mul, Hrr; lia|]. eapply stands_trans; [apply stands_mul, Hr; lia|].
  rewrite Z.mul_add_distr_l. apply stands_add; [|by apply wsum_turn].
  eapply stands_trans; [apply stands_swap, Hs|exact Hs].
Qed.
Lemma tail_odd w mlen sum first c : bytes w -> 0 < mlen <= Z.of_nat (length w) -> bounded c sum ->
  0 <= c -> c + mlen <= 65535 ->
  exists mlen' sum' first', sum_tail big true w mlen sum first = Some (mlen', sum', first')
  /\ bounded (if mlen' =? -1 then c + mlen - 1 else c + mlen) sum'
    /\ summed sum mlen' sum' first' (take (Z.to_nat mlen) w).
Proof.
  intros Hw Hm Hs Hc Hlen. destruct w as [|x w]; [cbn in Hm; lia|]. cbn [length] in Hm.
  apply Forall_cons_iff in Hw. destruct Hw as [Hx Hw].
  destruct (shift8_stands sum c Hs ltac:(lia)) as (Hsh & Hst & Hr).
  unfold sum_tail. rewrite (proj2 (Z.ltb_lt 0 mlen)) by lia. cbn [andb negb]. rewrite Hsh.
  destruct (loops (mlen - 1) (256 * REDUCE sum) w (c + 1)) as (k & r & Hl & Hr1 & Hk & Hb);
    [done|lia|split; lia|lia|lia|].
  destruct (sum_loop big 16 (length w) (mlen - 1) _ w) as [[[m1 s1] w1]|]; [|done].
  destruct (sum_loop big 4 (length w1) _ s1 w1) as [[[m2 s2] w2]|]; [|done].
  rewrite andb_false_r, Hl. clear Hl.
  destruct (shift8_stands r (c + 1 + 2 * Z.of_nat k) Hb ltac:(lia)) as (-> & Hst2 & Hr2).
  pose proof (turned r sum (take (2 * k) w) ltac:(by apply Forall_take) (proj1 Hb) Hst Hr1 Hst2) as Ht.
  destruct (Z.eqb_spec (mlen - 1 - 2 * Z.of_nat k - 2) (-1)) as [H1|H1].
  - destruct (drop (2 * k) w) as [|y l] eqn:Hd.
    { apply (f_equal length) in Hd. rewrite length_drop in Hd. cbn in Hd. lia. }
    assert (Hy : is_u8 y).
    { assert (Hdr : bytes (drop (2 * k) w)) by by apply Forall_drop. rewrite Hd in Hdr. by inversion_clear Hdr. }
    pose proof (word_range x y Hx Hy) as Hxy.
    unfold add. rewrite u32_id by (unfold is_u32; change (2 ^ 32) with 4294967296; lia).
    do 3 eexists. split; [reflexivity|]. split; [change (0 =? -1) with false; cbv iota; split; lia|].
    replace (Z.to_nat mlen) with (S (S (2 * k)))%nat by lia. cbn [take]. rewrite (take_more w _ y l Hd).
    split; [done|]. change (0 =? -1) with false. cbv iota. 
    cbn [length wsum]. rewrite Nat.even_succ, <- Nat.negb_even, even_snoc, even_take by lia. split; [done|].
    rewrite wsum_snoc by (apply even_take; lia). rewrite word_wsum. cbn [wsum].
    match goal with |- stands _ (?S + (?A + (?B + ?C))) => replace (S + (A + (B + C))) with (S + B + (A +
      C)) by lia end.
    apply stands_add; [done|]. apply stands_refl. rewrite word_wsum in Hxy. cbn [wsum] in Hxy. lia.
  - do 3 eexists. split; [reflexivity|]. split; [change (-1 =? -1) with true; cbv iota; split; lia|].
    replace (Z.to_nat mlen) with (S (2 * k))%nat by lia. cbn [take]. split; [done|].
    change (-1 =? -1) with true. cbv iota. cbn [length wsum].
    rewrite Nat.even_succ, <- Nat.negb_even, even_take by lia. split; [done|].
    rewrite word_snoc. cbn [wsum].
    match goal with |- stands _ (?S + (?A + ?B)) => replace (S + (A + B)) with (S + B + (A + 0)) by lia end.
    apply stands_add; [done|]. apply stands_refl. destruct Hx. destruct big; lia.
Qed.

Lemma sum_tail_spec odd w mlen sum first c : bytes w -> 0 <= mlen <= Z.of_nat (length w) -> bounded c sum ->
  0 <= c -> c + mlen <= 65535 -> is_u8 first ->
  exists mlen' sum' first', sum_tail big odd w mlen sum first = Some (mlen', sum', first')
  /\ bounded (if mlen' =? -1 then c + mlen - 1 else c + mlen) sum'
    /\ summed sum mlen' sum' first' (take (Z.to_nat mlen) w).
Proof.
  intros. destruct odd; [|by apply tail_even].
  destruct (Z.eq_dec mlen 0) as [->|Hne]; [|apply tail_odd; (done || lia)].
  apply (tail_even w 0 sum first c); done.
Qed.

(** ** The chain *)

(** After the bytes [C]. *)
Definition cksum_inv (C : list Z) (s : cksum) : Prop :=
  bytes C /\ bounded (Z.of_nat (length C) - if c_mlen s =? -1 then 1 else 0) (c_sum s)
  /\ summed 0 (c_mlen s) (c_sum s) (c_first s) C.

Lemma summed_app s0 mlen sum first C data : Nat.even (length C) = true -> 0 <= s0 -> bytes data ->
  stands s0 (wsum big C) -> summed s0 mlen sum first data -> summed 0 mlen sum first (C ++ data).
Proof.
  intros He Hs0 Hd Hs [Hf H]. split; [done|].
  rewrite length_app, Nat.even_add, He, wsum_app, He. 
  assert (Hall : stands (s0 + wsum big data) (0 + (wsum big C + wsum big data))).
  { rewrite Z.add_0_l. apply stands_add; [done|]. by apply stands_refl, wsum_nonneg. }
  destruct (mlen =? -1); destruct H as [H1 H2]; rewrite H1; (split; [done|]); eapply stands_trans; eauto.
Qed.
Lemma seg_end sum mlen first odd w c s0 C len : Nat.even (length C) = true -> bytes C -> bytes w ->
  c = Z.of_nat (length C) -> stands sum (wsum big C) -> bounded c sum -> is_u8 first -> 
  0 <= mlen <= Z.of_nat (length w) -> c + mlen <= 65535 -> s0 = len - mlen ->
  exists s', match sum_tail big odd w mlen sum first with
    | Some (mlen', sum, first) => Some (mk_cksum sum mlen' first (len - mlen))
    | None => None
    end = Some s' /\ c_len s' = s0 /\ cksum_inv (C ++ take (Z.to_nat mlen) w) s'.
Proof.
  intros He HC Hw Hc Hst Hb Hf Hm Hlen ->.
  destruct (sum_tail_spec odd w mlen sum first c) as (m' & s' & f' & -> & Hb' & Hs); try (done || lia).
  eexists. split; [reflexivity|]. split; [done|]. split; [|split].
  - apply Forall_app. split; [done|]. by apply Forall_take.
  - cbn [c_mlen c_sum]. rewrite length_app, length_take. destruct Hb' as [H1 H2]. destruct (m' =? -1); split; lia.
  - cbn [c_mlen c_sum c_first]. eapply summed_app; [done|apply Hb|by apply Forall_take|done|done].
Qed.
Lemma sum_seg_spec m C s : bytes (w_bytes m) -> cksum_inv C s -> 0 < c_len s ->
  Z.of_nat (length C) + c_len s <= 65535 ->
  exists s', sum_seg big m s = Some s'
  /\ c_len s' = c_len s - Z.min (c_len s) (Z.of_nat (length (w_bytes m)))
  /\ cksum_inv (C ++ take (Z.to_nat (c_len s)) (w_bytes m)) s'.
Proof.
  intros Hm Hi Hl Hlen. unfold sum_seg. destruct (w_bytes m) as [|x w] eqn:Hw.
  { exists s. rewrite take_nil, app_nil_r. split; [done|]. split; [cbn; lia|done]. }
  destruct Hi as (HC & Hb & Hf & Hs). unfold bytes in Hm. apply Forall_cons_iff in Hm as [Hx Hbw].
  cbn [length]. destruct (Z.eqb_spec (c_mlen s) (-1)) as [Hp|Hp].
  - destruct Hs as [He Hst]. pose proof (word_range (c_first s) x Hf Hx) as Hr. destruct Hb as [Hb1 Hb2].
    assert (HC0 : (0 < length C)%nat) by (destruct C; [done|cbn; lia]).
    unfold add. rewrite u32_id by (unfold is_u32; change (2 ^ 32) with 4294967296; lia).
    set (k := if c_len s - 1 <? Z.of_nat (S (length w)) - 1 then c_len s - 1 else Z.of_nat (S (length w)) - 1).
    assert (Hk : k = Z.min (c_len s - 1) (Z.of_nat (length w))) by (unfold k;
      destruct (Z.ltb_spec (c_len s - 1) (Z.of_nat (S (length w)) - 1)); lia).
    destruct (seg_end (c_sum s + word (c_first s) x) k (c_first s) (Z.odd (w_addr m + 1)) w
      (Z.of_nat (length C) + 1) (c_len s - 1 - k) (C ++ [x]) (c_len s - 1)) as (s' & -> & H1 & H2); try (done || lia).
    + by rewrite even_snoc, He.
    + apply Forall_app. split; [done|]. by constructor.
    + rewrite length_app. cbn. lia.
    + rewrite wsum_app, He. replace (word (c_first s) x) with (word (c_first s) 0 + wsum (negb big) [x]).
      2: { rewrite !word_wsum. cbn [wsum]. destruct big; cbn [negb]; lia. }
      rewrite Z.add_assoc. apply stands_add; [done|]. apply stands_refl, wsum_nonneg. by constructor.
    + split; lia.
    + exists s'. split; [reflexivity|]. split; [lia|].
      rewrite <- app_assoc in H2. cbn [app] in H2.
      replace (take (Z.to_nat (c_len s)) (x :: w)) with (x :: take (Z.to_nat k) w); [done|].
      replace (Z.to_nat (c_len s)) with (S (Z.to_nat (c_len s - 1))) by lia. cbn [take]. f_equal.
      destruct (Z.le_gt_cases (c_len s - 1) (Z.of_nat (length w))).
      * f_equal. lia.
      * rewrite !take_ge by lia. done.
  - destruct Hs as [He Hst]. rewrite Z.sub_0_r in Hb.
    set (k := if c_len s <? Z.of_nat (S (length w)) then c_len s else Z.of_nat (S (length w))).
    assert (Hk : k = Z.min (c_len s) (Z.of_nat (S (length w)))) by (unfold k;
      destruct (Z.ltb_spec (c_len s) (Z.of_nat (S (length w)))); lia).
    destruct (seg_end (c_sum s) k (c_first s) (Z.odd (w_addr m)) (x :: w) (Z.of_nat (length C)) (c_len s -
      k) C (c_len s))
      as (s' & -> & H1 & H2); try (done || (cbn [length]; lia)).
    { by constructor. }
    exists s'. split; [reflexivity|]. split; [lia|].
    replace (take (Z.to_nat (c_len s)) (x :: w)) with (take (Z.to_nat k) (x :: w)); [done|].
    destruct (Z.le_gt_cases (c_len s) (Z.of_nat (length (x :: w)))) as [Hle|Hgt]; cbn [length] in *.
    * f_equal. lia.
    * rewrite !take_ge by (cbn; lia). done.
Qed.
Lemma take_take_app n (a b : list Z) : 0 <= n ->
  take (Z.to_nat n) a ++ take (Z.to_nat (n - Z.min n (Z.of_nat (length a)))) b = take (Z.to_nat n) (a ++ b).
Proof. intros Hn. rewrite take_app. f_equal. f_equal. lia. Qed.
Lemma sum_segs_spec l : forall C s, Forall (fun m => bytes (w_bytes m)) l -> cksum_inv C s -> 0 <= c_len s ->
  Z.of_nat (length C) + c_len s <= 65535 ->
  exists s', sum_segs big l s = Some s' /\ cksum_inv (C ++ take (Z.to_nat (c_len s)) (concat (w_bytes <$> l))) s'.
Proof.
  induction l as [|m l IH]; intros C s Hl Hi Hn Hlen; cbn [sum_segs].
  { exists s. cbn. by rewrite take_nil, app_nil_r. }
  apply Forall_cons_iff in Hl as [Hm Hl].
  destruct (Z.eqb_spec (c_len s) 0) as [H0|H0].
  { exists s. rewrite H0. cbn. by rewrite app_nil_r. }
  destruct (sum_seg_spec m C s Hm Hi ltac:(lia) Hlen) as (s1 & -> & Hc & Hi1).
  destruct (IH _ s1 Hl Hi1) as (s' & -> & Hi'); [lia|rewrite length_app, length_take; lia|].
  exists s'. split; [done|]. rewrite <- app_assoc, Hc, take_take_app in Hi' by done. exact Hi'.
Qed.

Lemma carry_add_stands a b : 0 <= a <= 65535 -> 0 <= b <= 65535 ->
  stands (carry_add a b) (a + b) /\ carry_add a b <= 65535.
Proof. intros Ha Hb. apply carry_stands. lia. Qed.
Lemma words_stand n : forall l s, (length l <= n)%nat -> bytes l -> 0 <= s <= 65535 ->
  let f := foldl carry_add s (words big l) in stands f (s + wsum big l) /\ f <= 65535.
Proof.
  induction n as [|n IH]; intros l s Hn Hl Hs; destruct l as [|a [|b l]]; cbn [length] in Hn; try lia;
    unfold bytes in Hl; rewrite ?Forall_cons_iff in Hl; cbn [words foldl].
  1, 2: cbn; rewrite Z.add_0_r; split; [apply stands_refl|]; lia.
  - rewrite word_snoc. apply carry_add_stands; [done|]. rewrite <- word_snoc. apply word_range; [apply Hl|by split].
  - destruct Hl as (Ha & Hb & Hl). pose proof (word_range a b Ha Hb) as Hr.
    destruct (carry_add_stands s (word a b) Hs Hr) as [H1 H2].
    destruct (IH l (carry_add s (word a b)) ltac:(lia) Hl ltac:(destruct H1; lia)) as [H3 H4]. split; [|done].
    change (a :: b :: l) with ([a; b] ++ l). rewrite wsum_app. change (Nat.even (length [a; b])) with true. cbv iota.
    rewrite <- word_wsum, Z.add_assoc. eapply stands_trans; [exact H3|].
    apply stands_add; [done|]. by apply stands_refl, wsum_nonneg.
Qed.
(** What characterises the sum of RFC 1071: at most 65535, and standing for the
    weighted sum of the bytes. *)
Lemma rfc1071_unique l r : bytes l -> r <= 65535 -> stands r (wsum big l) -> rfc1071 big l = 65535 - r.
Proof.
  intros Hl Hr Hs. unfold rfc1071. destruct (words_stand (length l) l 0 ltac:(lia) Hl ltac:(lia)) as [H1 H2].
  f_equal. apply stands_unique; [|done..]. eapply stands_trans; [exact H1|]. by apply stands_sym.
Qed.
Lemma rfc1071_stands l : bytes l -> stands (65535 - rfc1071 big l) (wsum big l) /\ 0 <= rfc1071 big l <= 65535.
Proof.
  intros Hl. unfold rfc1071. destruct (words_stand (length l) l 0 ltac:(lia) Hl ltac:(lia)) as [H1 H2].
  destruct H1 as (H0 & H1). split; [|lia]. replace (65535 - _) with (foldl carry_add 0 (words big l)) by
    lia. by split.
Qed.
Lemma lnot_ffff x : 0 <= x <= 65535 -> Z.land (Z.lnot x) 65535 = 65535 - x.
Proof. intros Hx. unfold Z.lnot. change 65535 with (Z.ones 16) at 1. rewrite Z.land_ones by done.
  change (2 ^ 16) with 65536. rewrite <- (Z.mod_add _ 1), Z.mod_small by lia. lia. Qed.

Lemma cksum_rfc1071 l len : Forall (fun m => bytes (w_bytes m)) l -> 0 <= len <= 65535 ->
  in_cksum big l len = Some (rfc1071 big (take (Z.to_nat len) (concat (w_bytes <$> l)))).
Proof.
  intros Hl Hn. unfold in_cksum.
  destruct (sum_segs_spec l [] (mk_cksum 0 0 0 len) Hl) as (s & -> & HC & Hb & Hf & Hs);
    cbn [c_len length]; [|lia..|].
  { split; [constructor|]. split; [split; cbn; lia|]. split; [by split|]. cbn. by split. }
  cbn [app c_len] in *. set (C := take (Z.to_nat len) _) in *. f_equal.
  assert (HlC : Z.of_nat (length C) <= 65535) by (unfold C; rewrite length_take; lia).
  set (sum := if c_mlen s =? -1 then _ else _).
  assert (Hsum : stands sum (wsum big C) /\ 0 <= sum < 2 ^ 32).
  { change (2 ^ 32) with 4294967296. unfold sum. destruct Hb as [Hb1 Hb2].
    destruct (c_mlen s =? -1); destruct Hs as [_ Hs]; [|split; [done|lia]].
    pose proof (word_range (c_first s) 0 Hf ltac:(by split)).
    unfold add. rewrite u32_id by (unfold is_u32; change (2 ^ 32) with 4294967296; lia). split; [done|lia]. }
  destruct Hsum as [Hst Hr]. destruct (reduce_stands sum Hr) as [H1 H2].
  rewrite (rfc1071_unique C (REDUCE sum)); [apply lnot_ffff; destruct H1; lia|done..|].
  eapply stands_trans; eauto.
Qed.
End Cksum.

(** ** The results *)

(** C11: over every chain of mbufs, whatever the addresses and the lengths of
    its pieces, [in_cksum] is the Internet checksum of the first [len] bytes of
    the data: its sum never overflows the [int], it never reads behind the
    data, and the turned sums come out as if the bytes had stood in one piece. *)
Theorem in_cksum_rfc1071 big l len : Forall (fun m => bytes (w_bytes m)) l -> 0 <= len <= 65535 ->
  in_cksum big l len = Some (rfc1071 big (take (Z.to_nat len) (concat (w_bytes <$> l)))).
Proof. apply cksum_rfc1071. Qed.

Lemma in_cksum_all big l data : concat (w_bytes <$> l) = data -> bytes data -> Z.of_nat (length data) <= 65535 ->
  in_cksum big l (Z.of_nat (length data)) = Some (rfc1071 big data).
Proof.
  intros <- Hd Hn. rewrite cksum_rfc1071; [rewrite take_ge by lia; done| |lia].
  clear Hn. induction l as [|m l IH]; [constructor|]. cbn in Hd. apply Forall_app in Hd as [H1 H2].
  constructor; [done|by apply IH].
Qed.
Lemma wsum_field big a h1 h2 b : Nat.even (length a) = true ->
  wsum big (a ++ [h1; h2] ++ b) = wsum big (a ++ [0; 0] ++ b) + word big h1 h2.
Proof.
  intros He. rewrite !wsum_app, He. change (Nat.even (length [h1; h2])) with true.
  change (Nat.even (length [0; 0])) with true. cbv iota. rewrite word_wsum.
  replace (wsum big [0; 0]) with 0 by by destruct big. lia.
Qed.

(** What [ipintr] tests: over data in which the two bytes at an even
    offset are the checksum of the rest, taken with zeros in their place,
    [in_cksum] is 0, in any chain; and when it is 0 they are that checksum, or
    are all ones where the checksum is 0. *)
Theorem in_cksum_verifies big l a h1 h2 b : bytes (a ++ [h1; h2] ++ b) -> Nat.even (length a) = true ->
  concat (w_bytes <$> l) = a ++ [h1; h2] ++ b -> Z.of_nat (length (a ++ [h1; h2] ++ b)) <= 65535 ->
  let r := rfc1071 big (a ++ [0; 0] ++ b) in
  in_cksum big l (Z.of_nat (length (a ++ [h1; h2] ++ b))) = Some 0
  <-> word big h1 h2 = r \/ (r = 0 /\ word big h1 h2 = 65535).
Proof.
  intros Hd He Hc Hn r. rewrite (in_cksum_all big l _ Hc Hd Hn).
  pose proof Hd as Hd'. unfold bytes in Hd'. rewrite !Forall_app, !Forall_cons_iff in Hd'.
  destruct Hd' as (Ha & (Hh1 & Hh2 & _) & Hb). pose proof (word_range big h1 h2 Hh1 Hh2) as Hw.
  assert (Hz : bytes (a ++ [0; 0] ++ b)).
  { unfold bytes. rewrite !Forall_app, !Forall_cons_iff. repeat split; (done || constructor). }
  destruct (rfc1071_stands big _ Hz) as [(_ & H0 & Hm & H0') Hr]. fold r in Hm, H0', Hr.
  destruct (rfc1071_stands big _ Hd) as [(_ & G0 & Gm & G0') Gr]. rewrite wsum_field in Gm, G0, G0' by done.
  set (S := wsum big (a ++ [0; 0] ++ b)) in *. set (w := word big h1 h2) in *.
  set (q := rfc1071 big (a ++ [h1; h2] ++ b)) in *.
  assert (Hq : q = 0 <-> (S + w) mod 65535 = 0 /\ S + w <> 0).
  { split; [intros Hq0|intros [E1 E2]].
    - rewrite Hq0 in Gm, G0'. change ((65535 - 0) mod 65535) with 0 in Gm. split; [done|lia].
    - rewrite E1 in Gm. destruct (Z.eq_dec q 0) as [|Hq0]; [done|].
      rewrite Z.mod_small in Gm by lia. lia. }
  rewrite <- Zplus_mod_idemp_l, <- Hm, Zplus_mod_idemp_l in Hq.
  transitivity (q = 0); [split; [by intros [= ->]|by intros ->]|]. rewrite Hq. clear Hq Hm Gm.
  split; [intros [E1 E2]|intros [E|[E1 E2]]].
  - destruct (Z.eq_dec (65535 - r + w) 0) as [E|E]; [lia|].
    destruct (Z.eq_dec (65535 - r + w) 65535) as [E'|E']; [lia|].
    destruct (Z.eq_dec (65535 - r + w) 131070) as [E''|E'']; [lia|].
    exfalso. destruct (Z.lt_ge_cases (65535 - r + w) 65535).
    + rewrite Z.mod_small in E1; lia.
    + rewrite <- (Z.mod_add _ (-1)), Z.mod_small in E1 by lia. lia.
  - rewrite E. replace (65535 - r + r) with 65535 by lia. split; [done|]. lia.
  - rewrite E1, E2. split; [done|]. lia.
Qed.

(** The checksum does not depend on the byte order: the bytes that a
    machine of one order stores of the sum of some data are those that a machine
    of the other order stores, however each has the data in its mbufs. *)
Theorem in_cksum_order l l' a b data : concat (w_bytes <$> l) = data -> concat (w_bytes <$> l') = data ->
  bytes data -> Z.of_nat (length data) <= 65535 -> is_u8 a -> is_u8 b ->
  in_cksum true l (Z.of_nat (length data)) = Some (word true a b) ->
  in_cksum false l' (Z.of_nat (length data)) = Some (word false a b).
Proof.
  intros Hc Hc' Hd Hn Ha Hb. rewrite (in_cksum_all true l data), (in_cksum_all false l' data) by done.
  intros [= Hr]. f_equal. unfold is_u8 in *. change (2 ^ 8) with 256 in *.
  destruct (rfc1071_stands true data Hd) as [H1 _]. rewrite Hr in H1. unfold word in *.
  rewrite (rfc1071_unique false data (65535 - (a + b * 256))); [lia|done|lia|].
  eapply stands_trans; [|apply (wsum_turn data Hd true)].
  eapply stands_trans; [|apply stands_mul, H1; lia].
  replace (256 * (65535 - (a * 256 + b))) with (256 * (256 * (255 - a)) + 256 * (255 - b)) by lia.
  replace (65535 - (a + b * 256)) with ((255 - a) + 256 * (255 - b)) by lia.
  apply stands_add; [apply stands_sym, stands_swap; lia|apply stands_refl; lia].
Qed.

(** ** Witnesses *)

#[local] Ltac by_bytes := repeat (apply Forall_cons_2; [by split|]); apply Forall_nil_2.
(** An IP header in pieces, some at odd addresses, one of them empty. *)
Definition demo_chain : list seg :=
  [mk_seg 4097 [69; 0; 0]; mk_seg 8 []; mk_seg 256 [115; 0; 0; 64; 0; 64; 17; 184; 97; 192];
   mk_seg 513 [168; 0; 1; 192; 168; 0; 199]].
Definition demo_header : list Z :=
  [69; 0; 0; 115; 0; 0; 64; 0; 64; 17] ++ [184; 97] ++ [192; 168; 0; 1; 192; 168; 0; 199].

Lemma in_cksum_rfc1071_witness :
  in_cksum true demo_chain 13 = Some (rfc1071 true (take 13 (concat (w_bytes <$> demo_chain)))).
Proof. apply (in_cksum_rfc1071 true demo_chain 13); [repeat constructor; lia|lia]. Defined.
Lemma in_cksum_verifies_witness : in_cksum true demo_chain 20 = Some 0.
Proof.
  refine (proj2 (in_cksum_verifies true demo_chain [69; 0; 0; 115; 0; 0; 64; 0; 64; 17] 184 97
    [192; 168; 0; 1; 192; 168; 0; 199] _ _ _ _) _); [|done..|].
  - unfold bytes, is_u8. cbn [app]. by_bytes.
  - left. vm_compute. reflexivity.
Defined.
Lemma in_cksum_order_witness : in_cksum false [mk_seg 3 (take 12 demo_header)] 12 = Some (word false 0x82 0x19).
Proof.
  apply (in_cksum_order [mk_seg 0 (take 5 demo_header); mk_seg 1 (take 7 (drop 5 demo_header))]
    [mk_seg 3 (take 12 demo_header)] 0x82 0x19 (take 12 demo_header));
    [reflexivity|reflexivity|apply Forall_take; unfold demo_header, is_u8; cbn [app];
      by_bytes|done|done|done|vm_compute; reflexivity].
Defined.
