(* ===== verification/IpInput.v ===== *)
(** * ip_input.c: fragments of IP datagrams

    The part of [ipintr] behind the label [ours], [ipReAssemble], [ip_freef],
    [ip_slowtimo] and [ip_drain] of src/vxworks_test/netinet/ip_input.c, with the
    header of ip.h and the queue of ip_var.h.  [m_adj] and [m_cat] belong to the
    library of mbufs, which is not in the repository: they are parameters, with
    their effect on the data as laws.  The transport protocol that gets a
    datagram is its end: what it gets is recorded.  The length in the packet header
    of an mbuf ([m_pkthdr.len]) and the hook for broadcasts are left out. *)

From stdpp Require Import base list numbers.
From S2P Require Export Prelude.

(** A chain of mbufs by [m_next]: the [m_len] bytes at [mtod] of each. *)
Notation data_chain := (list (list Z)).

(** ** The library of mbufs *)

Class MbufLib := {
  m_adj : data_chain -> Z -> data_chain;
  m_cat : data_chain -> data_chain -> data_chain
}.
(** A negative count takes bytes from the tail; [m_cat] appends. *)
Class MbufLaws `{MbufLib} := {
  m_adj_tail c n : 0 <= n <= Z.of_nat (length (concat c)) ->
    let k := (length (concat c) - Z.to_nat n)%nat in
    concat (m_adj c (- n)) = take k (concat c) /\ hd [] (m_adj c (- n)) = take k (hd [] c);
  m_cat_data a b : concat (m_cat a b) = concat a ++ concat b
}.

(** ** Data *)

(** [struct ip] in host order, or [struct ipasfrag], whose [ipf_mff] is the
    [ip_tos] of the former, with the chain that begins with it.  [ip_len] has
    16 bits, [ip_off] is a [short]. *)
Record pkt := mk_pkt {
  ip_hl : Z; ipf_mff : Z; ip_len : Z; ip_id : Z; ip_off : Z; ip_p : Z; ip_src : Z; ip_dst : Z;
  p_m : data_chain
}.
#[export] Instance eta_pkt : Eta pkt := fun p =>
  {| ip_hl := ip_hl p; ipf_mff := ipf_mff p; ip_len := ip_len p; ip_id := ip_id p; ip_off := ip_off p;
     ip_p := ip_p p; ip_src := ip_src p; ip_dst := ip_dst p; p_m := p_m p |}.
#[export] Instance set_ipf_mff : Setter ipf_mff := ltac:(derive_setter).
#[export] Instance set_ip_len : Setter ip_len := ltac:(derive_setter).
#[export] Instance set_ip_off : Setter ip_off := ltac:(derive_setter).
#[export] Instance set_p_m : Setter p_m := ltac:(derive_setter).

Definition IP_DF : Z := 0x4000.
Definition IP_MF : Z := 0x2000.
Definition USHORT (z : Z) : Z := u16 z.

(** [struct ipq]: the fragments of one datagram, by [m_nextpkt]. *)
Record ipq := mk_ipq {
  ipq_ttl : Z; ipq_p : Z; ipq_id : Z; ipq_src : Z; ipq_dst : Z; pMbufPkt : list pkt
}.
#[export] Instance eta_ipq : Eta ipq := fun q =>
  {| ipq_ttl := ipq_ttl q; ipq_p := ipq_p q; ipq_id := ipq_id q; ipq_src := ipq_src q;
     ipq_dst := ipq_dst q; pMbufPkt := pMbufPkt q |}.
#[export] Instance set_ipq_ttl : Setter ipq_ttl := ltac:(derive_setter).
#[export] Instance set_pMbufPkt : Setter pMbufPkt := ltac:(derive_setter).

(** A call [pr_input (m, hlen)] of the protocol [d_p]. *)
Record delivery := mk_dlv { d_p : Z; d_pkt : pkt; d_hlen : Z }.

(** The list headed by the global [ipq], the counters of [ipstat], how many
    mbufs hold a [struct ipq], the packets given to [m_freem], the calls of
    [pr_input]. *)
Record ipstate := mk_ips {
  ipqs : list ipq; ips_fragments : Z; ips_fragdropped : Z; ips_fragtimeout : Z;
  ips_reassembled : Z; ips_delivered : Z; s_tables : Z; s_freed : list pkt; s_out : list delivery
}.
#[export] Instance eta_ipstate : Eta ipstate := fun s =>
  {| ipqs := ipqs s; ips_fragments := ips_fragments s; ips_fragdropped := ips_fragdropped s;
     ips_fragtimeout := ips_fragtimeout s; ips_reassembled := ips_reassembled s;
     ips_delivered := ips_delivered s; s_tables := s_tables s; s_freed := s_freed s; s_out := s_out s |}.
#[export] Instance set_ipqs : Setter ipqs := ltac:(derive_setter).
#[export] Instance set_ips_fragments : Setter ips_fragments := ltac:(derive_setter).
#[export] Instance set_ips_fragdropped : Setter ips_fragdropped := ltac:(derive_setter).
#[export] Instance set_ips_fragtimeout : Setter ips_fragtimeout := ltac:(derive_setter).
#[export] Instance set_ips_reassembled : Setter ips_reassembled := ltac:(derive_setter).
#[export] Instance set_ips_delivered : Setter ips_delivered := ltac:(derive_setter).
#[export] Instance set_s_tables : Setter s_tables := ltac:(derive_setter).
#[export] Instance set_s_freed : Setter s_freed := ltac:(derive_setter).
#[export] Instance set_s_out : Setter s_out := ltac:(derive_setter).

Definition count (n : Z) : Z := u32 (n + 1).

Section IpInput.
Context `{MbufLib}.
(** The configuration parameter, for an [u_char]. *)
Context (ipfragttl : Z).

(** ** A fragment among those that came before *)

Definition frag_end (f : pkt) : Z := USHORT (ip_off f) + ip_len f.
(** Shorter by [len] bytes at the end. *)
Definition trim (len : Z) (f : pkt) : pkt :=
  f <| ip_len := u16 (ip_len f - len) |> <| p_m := m_adj (p_m f) (- len) |>.

(** The [while] loop: the fragments left, and those dropped. *)
Fixpoint complete_overlap (new : pkt) (l : list pkt) : list pkt * list pkt :=
  match l with
  | [] => ([], [])
  | f :: l' =>
      if frag_end f <=? frag_end new
      then let '(rest, gone) := complete_overlap new l' in (rest, f :: gone)
      else (f :: l', [])
  end.
(** [ip_off] of the fragment behind is used as a [short] here. *)
Definition partial_overlap (new : pkt) (rest : list pkt) : pkt :=
  match rest with
  | [] => new
  | f :: _ => let len := frag_end new - ip_off f in if 0 <? len then trim len new else new
  end.

(** [goto dropFrag], or on with these fragments, and those freed; [Lost] when
    there is none in the queue to begin with. *)
Inductive placed := DropFrag (l : list pkt) | Placed (l gone : list pkt) | Lost.
Fixpoint place (new : pkt) (l : list pkt) : placed :=
  match l with
  | [] => Lost
  | f :: l' =>
      if USHORT (ip_off f) <? USHORT (ip_off new) then
        let len := frag_end f - USHORT (ip_off new) in
        if (0 <? len) && (ip_len new <=? len) then DropFrag (f :: l') else
        let f := if 0 <? len then trim len f else f in
        match l' with
        | [] => Placed [f; new] []
        | _ :: _ =>
            match place new l' with
            | DropFrag l => DropFrag (f :: l)
            | Placed l gone => Placed (f :: l) gone
            | Lost => Lost
            end
        end
      else
        let '(rest, gone) := complete_overlap new (f :: l') in
        Placed (partial_overlap new rest :: rest) gone
  end.

(** ** All of them together *)

(** [len] and [pIpHdrFrag] behind the loop, when it does not return. *)
Fixpoint contiguous (len : Z) (hdr : option pkt) (l : list pkt) : option (Z * option pkt) :=
  match l with
  | [] => Some (len, hdr)
  | f :: l => if USHORT (ip_off f) =? len then contiguous (len + ip_len f) (Some f) l else None
  end.
Definition hlen_of (f : pkt) : Z := ip_hl f * 4.
(** [m_data += hl; m_len -= hl]: [None] when the first mbuf has less. *)
Definition remove_header (f : pkt) : option data_chain :=
  match p_m f with
  | b :: c => if hlen_of f <=? Z.of_nat (length b) then Some (drop (Z.to_nat (hlen_of f)) b :: c) else None
  | [] => None
  end.
Fixpoint concatenate (m : data_chain) (l : list pkt) : option data_chain :=
  match l with
  | [] => Some m
  | f :: l => match remove_header f with Some c => concatenate (m_cat m c) l | None => None end
  end.

Definition drop_frag (m : pkt) (s : ipstate) : ipstate :=
  s <| ips_fragdropped ::= count |> <| s_freed ::= cons m |>.
Definition remque (i : nat) (s : ipstate) : ipstate := s <| ipqs ::= delete i |>.
Definition set_frags (i : nat) (l : list pkt) (s : ipstate) : ipstate :=
  s <| ipqs ::= alter (fun q => q <| pMbufPkt := l |>) i |>.

(** [ipChkReAssembly]: the datagram when it is complete; [None] on the outside
    for an access through a wild pointer. *)
Definition ipChkReAssembly (i : nat) (l : list pkt) (s : ipstate) : option (option pkt * ipstate) :=
  match contiguous 0 None l with
  | None => Some (None, s)
  | Some (len, hdr) =>
      match hdr, l with
      | Some f, f0 :: l =>
          if Z.testbit (ipf_mff f) 0 then Some (None, s) else
          match concatenate (p_m f0) l with
          | Some c =>
              Some (Some (f0 <| p_m := c |> <| ip_len := u16 len |> <| ipf_mff ::= fun t => Z.land t 0xfe |>),
                    remque i s <| s_tables ::= Z.pred |>)
          | None => None
          end
      | _, _ => None
      end
  end.
(** [mem]: whether [mBufClGet] has an mbuf; [fp]: which queue, if there is one. *)
Definition ipReAssemble (mem : bool) (m : pkt) (fp : option nat) (s : ipstate) : option (option pkt * ipstate) :=
  match fp with
  | None =>
      if mem then
        ipChkReAssembly 0 [m]
          (s <| s_tables ::= Z.succ |>
             <| ipqs ::= cons (mk_ipq ipfragttl (ip_p m) (ip_id m) (ip_src m) (ip_dst m) [m]) |>)
      else Some (None, drop_frag m s)
  | Some i =>
      match ipqs s !! i with
      | None => None
      | Some q =>
          match place m (pMbufPkt q) with
          | DropFrag l => Some (None, drop_frag m (set_frags i l s))
          | Placed l gone => ipChkReAssembly i l (set_frags i l s <| s_freed ::= app gone |>)
          | Lost => ipChkReAssembly i [] s
          end
      end
  end.

Definition ip_freef (i : nat) (s : ipstate) : ipstate :=
  match ipqs s !! i with
  | Some q => remque i s <| s_freed ::= app (pMbufPkt q) |> <| s_tables ::= Z.pred |>
  | None => s
  end.

(** ** The packets for this host *)

Definition same_datagram (m : pkt) (q : ipq) : bool :=
  (ip_id m =? ipq_id q) && (ip_src m =? ipq_src q) && (ip_dst m =? ipq_dst q) && (ip_p m =? ipq_p q).
Definition find_queue (m : pkt) (l : list ipq) : option nat :=
  fst <$> list_find (fun q => same_datagram m q = true) l.
(** [hlen] and [ip->ip_p] are those of the packet that came in. *)
Definition deliver (p hlen : Z) (m : pkt) (s : ipstate) : ipstate :=
  s <| ips_delivered ::= count |> <| s_out ::= fun l => l ++ [mk_dlv p m hlen] |>.
Definition as_fragment (m : pkt) : pkt :=
  m <| ip_len := u16 (ip_len m - hlen_of m) |>
    <| ipf_mff := Z.lor (Z.land (ipf_mff m) 0xfe) (if Z.land (ip_off m) IP_MF =? 0 then 0 else 1) |>
    <| ip_off := s16 (ip_off m * 8) |>.
Definition ours (mem : bool) (m : pkt) (s : ipstate) : option ipstate :=
  let hlen := hlen_of m in
  if negb (Z.land (ip_off m) (Z.lnot IP_DF) =? 0) then
    let fp := find_queue m (ipqs s) in
    let f := as_fragment m in
    if Z.testbit (ipf_mff f) 0 || negb (ip_off f =? 0) then
      match ipReAssemble mem f fp (s <| ips_fragments ::= count |>) with
      | None => None
      | Some (None, s) => Some s
      | Some (Some m', s) => Some (deliver (ip_p m) hlen m' (s <| ips_reassembled ::= count |>))
      end
    else Some (deliver (ip_p m) hlen f (match fp with Some i => ip_freef i s | None => s end))
  else Some (deliver (ip_p m) hlen (m <| ip_len := u16 (ip_len m - hlen) |>) s).

(** ** Timeouts *)

(** The loop from [ipq.next] on: what is left of the queues, and the freed ones. *)
Fixpoint slowtimo_loop (l : list ipq) : list ipq * list ipq :=
  match l with
  | [] => ([], [])
  | q :: l =>
      let '(rest, gone) := slowtimo_loop l in
      let q := q <| ipq_ttl ::= fun t => u8 (t - 1) |> in
      if ipq_ttl q =? 0 then (rest, q :: gone) else (q :: rest, gone)
  end.
(** The fragments of the queues [gone] and the mbufs that held them. *)
Definition freed (gone : list ipq) (s : ipstate) : ipstate :=
  s <| s_freed ::= app (concat (pMbufPkt <$> gone)) |> <| s_tables ::= fun n => n - Z.of_nat (length gone) |>.
Definition ip_slowtimo (s : ipstate) : ipstate :=
  let '(rest, gone) := slowtimo_loop (ipqs s) in
  freed gone (s <| ipqs := rest |> <| ips_fragtimeout ::= fun n => u32 (n + Z.of_nat (length gone)) |>).
(** The loop [while (ipq.next != &ipq)]. *)
Fixpoint drain_loop (n : nat) (s : ipstate) : ipstate :=
  match n, ipqs s with
  | S n, _ :: _ => drain_loop n (ip_freef 0 (s <| ips_fragdropped ::= count |>))
  | _, _ => s
  end.
Definition ip_drain (s : ipstate) : ipstate := drain_loop (length (ipqs s)) s.

(** ** What happens to a host *)

Inductive ip_event := Arrive (mem : bool) (m : pkt) | Slowtimo | Drain.
Definition ip_step (e : ip_event) (s : ipstate) : option ipstate :=
  match e with
  | Arrive mem m => ours mem m s
  | Slowtimo => Some (ip_slowtimo s)
  | Drain => Some (ip_drain s)
  end.
Fixpoint ip_run (l : list ip_event) (s : ipstate) : option ipstate :=
  match l with
  | [] => Some s
  | e :: l => match ip_step e s with Some s => ip_run l s | None => None end
  end.
End IpInput.
