(* ===== verification/IpReass.v ===== *)
(** * Reassembly: from any order of fragments to the datagram

    The specification of the reassembly of ip_input.c collects the intervals that
    have come of each datagram; the code refines it. *)

From stdpp Require Import base list numbers.
From S2P Require Export IpInput.

(** What tells datagrams apart: [ip_id], [ip_src], [ip_dst], [ip_p]. *)
Definition key : Type := Z * Z * Z * Z.
Definition key_of (m : pkt) : key := (ip_id m, ip_src m, ip_dst m, ip_p m).
Definition key_q (q : ipq) : key := (ipq_id q, ipq_src q, ipq_dst q, ipq_p q).

Definition len (l : list Z) : Z := Z.of_nat (length l).
(** A datagram: the length of its header, and the data behind it. *)
Notation dgram := (Z * list Z)%type.
Definition payload (m : pkt) : list Z := drop (Z.to_nat (hlen_of m)) (concat (p_m m)).
Definition frag_off (m : pkt) : Z := Z.land (ip_off m) 0x1fff * 8.
Definition more (m : pkt) : bool := negb (Z.land (ip_off m) IP_MF =? 0).
Definition is_frag (m : pkt) : bool := more m || negb (frag_off m =? 0).

(** ** The specification *)

(** A set of bytes by intervals (first, length). *)
Definition inside (ivs : list (Z * Z)) (x : Z) : bool :=
  existsb (fun '(o, n) => (o <=? x) && (x <? o + n)) ivs.
Definition covers (n : Z) (ivs : list (Z * Z)) : bool := forallb (inside ivs) (seqZ 0 n).
(** For each datagram that is not complete: its time to live and its intervals;
    the last begun first. *)
Notation collecting := (list (key * (Z * list (Z * Z)))).
Definition find_key (k : key) (c : collecting) : option nat :=
  fst <$> list_find (fun e => e.1 = k) c.

Section Spec.
Context (ipfragttl : Z).
(** The datagram that the fragments with a key are of. *)
Context (D : key -> dgram).

(** What comes out: the datagram, with the length of the header of the packet
    that completed it. *)
Definition collect (m : pkt) (i : nat) (c : collecting) : list (key * dgram * Z) * collecting :=
  match c !! i with
  | Some (k, (_, ivs)) =>
      if covers (len (D k).2) ivs then ([(k, D k, hlen_of m)], delete i c) else ([], c)
  | None => ([], c)
  end.
Definition spec_step (e : ip_event) (c : collecting) : list (key * dgram * Z) * collecting :=
  match e with
  | Arrive mem m =>
      if is_frag m then
        let iv := (frag_off m, len (payload m)) in
        match find_key (key_of m) c with
        | Some i => collect m i (alter (fun '(k, (t, ivs)) => (k, (t, iv :: ivs))) i c)
        | None => if mem then collect m 0 ((key_of m, (ipfragttl, [iv])) :: c) else ([], c)
        end
      else ([(key_of m, (hlen_of m, payload m), hlen_of m)], c)
  | Slowtimo => ([], omap (fun '(k, (t, ivs)) =>
      if u8 (t - 1) =? 0 then None else Some (k, (u8 (t - 1), ivs))) c)
  | Drain => ([], [])
  end.
Fixpoint spec_run (l : list ip_event) (c : collecting) : list (key * dgram * Z) * collecting :=
  match l with
  | [] => ([], c)
  | e :: l => let '(o, c) := spec_step e c in let '(o', c) := spec_run l c in (o ++ o', c)
  end.
End Spec.

Lemma covers_spec n ivs : covers n ivs = true <-> forall x, 0 <= x < n -> inside ivs x = true.
Proof.
  unfold covers. rewrite forallb_forall. split.
  - intros Hf x Hx. apply Hf. rewrite <- list_elem_of_In, elem_of_seqZ. lia.
  - intros Hf x Hx. apply Hf. rewrite <- list_elem_of_In, elem_of_seqZ in Hx. lia.
Qed.
Lemma inside_spec ivs x : inside ivs x = true <-> exists o n, (o, n) ∈ ivs /\ o <= x < o + n.
Proof.
  unfold inside. rewrite existsb_exists. split.
  - intros ([o n] & Hin & Hx). apply andb_true_iff in Hx as [H1 H2]. exists o, n.
    rewrite list_elem_of_In. split; [done|lia].
  - intros (o & n & Hin & Hx). exists (o, n). rewrite <- list_elem_of_In. split; [done|lia].
Qed.

(** ** Packets that are fragments of the datagrams *)

Record arrives (D : key -> dgram) (m : pkt) : Prop := {
  a_hl : 20 <= hlen_of m;
  a_first : hlen_of m <= len (hd [] (p_m m));
  a_len : ip_len m = len (concat (p_m m));
  a_16 : ip_len m <= 65535;
  a_off : 0 <= ip_off m < 32768;
  a_slice : is_frag m = true -> let n := len (D (key_of m)).2 in let l := len (payload m) in
    n <= 65535 /\ frag_off m < 32768 /\ 0 < l /\ frag_off m + l <= n /\
    more m = (frag_off m + l <? n) /\
    payload m = take (Z.to_nat l) (drop (Z.to_nat (frag_off m)) (D (key_of m)).2) /\
    (frag_off m = 0 -> hlen_of m = (D (key_of m)).1)
}.
Definition event_ok (D : key -> dgram) (e : ip_event) : Prop :=
  match e with Arrive _ m => arrives D m | _ => True end.

(** The field [ip_off] without the reserved bit: the flags [h] and the offset. *)
Lemma land_low o c : 0 <= o < 8192 -> Z.land o c = Z.land o (Z.land (Z.ones 13) c).
Proof.
  intros Ho. rewrite Z.land_assoc, Z.land_ones by done. change (2 ^ 13) with 8192. by rewrite Z.mod_small.
Qed.
Lemma land_field h o c : 0 <= h < 4 -> 0 <= o < 8192 ->
  Z.land (8192 * h + o) c = Z.lor (Z.land (8192 * h) c) (Z.land o (Z.land (Z.ones 13) c)).
Proof.
  intros Hh Ho. rewrite <- land_low, <- Z.land_lor_distr_l by done. f_equal. apply Z.add_nocarry_lor.
  rewrite Z.land_comm, land_low by done.
  assert (h = 0 \/ h = 1 \/ h = 2 \/ h = 3) as [->|[->|[->| ->]]] by lia; apply Z.land_0_r.
Qed.
Lemma field_spec h o : 0 <= h < 4 -> 0 <= o < 8192 -> let x := 8192 * h + o in
  Z.land x 0x1fff = o /\ (Z.land x IP_MF =? 0) = negb (Z.odd h)
  /\ (Z.land x (Z.lnot IP_DF) =? 0) = negb (Z.odd h) && (o =? 0)
  /\ s16 (x * 8) = if o * 8 <? 32768 then o * 8 else o * 8 - 65536.
Proof.
  intros Hh Ho x. unfold x. rewrite !land_field by done.
  assert (Hl : Z.land o (Z.ones 13) = o) by (rewrite Z.land_ones by done; by apply Z.mod_small).
  change (Z.land (Z.ones 13) 0x1fff) with (Z.ones 13). change (Z.land (Z.ones 13) IP_MF) with 0.
  change (Z.land (Z.ones 13) (Z.lnot IP_DF)) with (Z.ones 13). rewrite Hl, Z.land_0_r.
  split; [|split; [|split]].
  - assert (h = 0 \/ h = 1 \/ h = 2 \/ h = 3) as [->|[->|[->| ->]]] by lia; done.
  - assert (h = 0 \/ h = 1 \/ h = 2 \/ h = 3) as [->|[->|[->| ->]]] by lia; done.
  - assert (h = 0 \/ h = 1 \/ h = 2 \/ h = 3) as [->|[->|[->| ->]]] by lia; cbn [Z.odd negb andb]; try done;
      apply Z.eqb_neq; intros [? _]%Z.lor_eq_0_iff; done.
  - unfold s16. change (2 ^ 16) with 65536. change (2 ^ 15) with 32768.
    replace ((8192 * h + o) * 8) with (o * 8 + h * 65536) by lia. rewrite Z.mod_add, Z.mod_small by lia. done.
Qed.
Lemma off_field m : 0 <= ip_off m < 32768 ->
  negb (Z.land (ip_off m) (Z.lnot IP_DF) =? 0) = is_frag m /\
  s16 (ip_off m * 8) = if frag_off m <? 32768 then frag_off m else frag_off m - 65536.
Proof.
  intros Hx. unfold is_frag, more, frag_off. pose proof (Z.mod_pos_bound (ip_off m) 8192 ltac:(lia)) as Ho.
  assert (Hh : 0 <= ip_off m / 8192 < 4) by (revert Hx; Z.to_euclidean_division_equations; lia).
  pose proof (field_spec (ip_off m / 8192) (ip_off m mod 8192) Hh Ho) as Hf. cbv zeta in Hf.
  rewrite <- Z.div_mod in Hf by done. destruct Hf as (-> & -> & -> & ->).
  split; [|done]. rewrite negb_andb. f_equal. f_equal. lia.
Qed.

Section Reass.
Context `{ML : MbufLaws}.

(** ** Fragments in the queue *)

(** A part of the datagram [d]. *)
Record part (k : key) (d : dgram) (f : pkt) : Prop := {
  t_key : key_of f = k;
  t_hl : 20 <= hlen_of f <= len (hd [] (p_m f));
  t_off : 0 <= ip_off f < 32768;
  t_len : 0 <= ip_len f;
  t_end : ip_off f + ip_len f <= len d.2;
  t_mff : Z.testbit (ipf_mff f) 0 = (ip_off f + ip_len f <? len d.2);
  t_data : payload f = take (Z.to_nat (ip_len f)) (drop (Z.to_nat (ip_off f)) d.2);
  t_first : ip_off f = 0 -> hlen_of f = d.1
}.
Lemma USHORT_id z : 0 <= z < 65536 -> USHORT z = z.
Proof. intros Hz. by apply Z.mod_small. Qed.
Lemma part_off k d f : part k d f -> USHORT (ip_off f) = ip_off f.
Proof. intros Hf. apply USHORT_id. pose proof (t_off _ _ _ Hf). lia. Qed.
Lemma part_frag_end k d f : part k d f -> frag_end f = ip_off f + ip_len f.
Proof. intros Hf. unfold frag_end. by rewrite (part_off k d f Hf). Qed.
Lemma payload_len f : hlen_of f <= len (hd [] (p_m f)) -> 0 <= hlen_of f ->
  len (concat (p_m f)) = hlen_of f + len (payload f).
Proof.
  intros Hh H0. unfold payload, len. rewrite length_drop.
  destruct (p_m f) as [|b c]; cbn [hd concat] in *; unfold len in Hh; rewrite ?length_app; cbn in *; lia.
Qed.
Lemma part_payload_len k d f : part k d f -> len (payload f) = ip_len f.
Proof.
  intros Hf. rewrite (t_data _ _ _ Hf). unfold len. rewrite length_take, length_drop.
  pose proof (t_end _ _ _ Hf). pose proof (t_len _ _ _ Hf). pose proof (t_off _ _ _ Hf). unfold len in *. lia.
Qed.

(** Trimmed at the end, with something of the datagram behind it. *)
Lemma part_trim k d f j : len d.2 <= 65535 -> part k d f -> 0 <= j <= ip_len f ->
  ip_off f + ip_len f < len d.2 -> part k d (trim j f).
Proof.
  intros Hd Hf Hj Hlt. pose proof Hf as [Hk Hh Ho Hl He Hm Hp Hfi].
  pose proof (part_payload_len k d f Hf) as Hpl.
  pose proof (payload_len f ltac:(lia) ltac:(lia)) as Hc.
  assert (Hu : u16 (ip_len f - j) = ip_len f - j) by (apply Z.mod_small; change (2 ^ 16) with 65536; lia).
  destruct (m_adj_tail (p_m f) j) as [H1 H2]; [unfold len in *; lia|].
  split.
  - exact Hk.
  - split; [apply Hh|]. change (hlen_of f <= len (hd [] (m_adj (p_m f) (- j)))). rewrite H2.
    unfold len in *. rewrite length_take. lia.
  - exact Ho.
  - change (0 <= u16 (ip_len f - j)). lia.
  - change (ip_off f + u16 (ip_len f - j) <= len d.2). lia.
  - change (Z.testbit (ipf_mff f) 0 = (ip_off f + u16 (ip_len f - j) <? len d.2)). rewrite Hm, Hu.
    transitivity true; [lia|symmetry; lia].
  - change (drop (Z.to_nat (hlen_of f)) (concat (m_adj (p_m f) (- j)))
      = take (Z.to_nat (u16 (ip_len f - j))) (drop (Z.to_nat (ip_off f)) d.2)).
    rewrite H1, Hu. unfold payload in Hp.
    replace (length (concat (p_m f)) - Z.to_nat j)%nat with (Z.to_nat (hlen_of f) + Z.to_nat (ip_len f - j))%nat
      by (unfold len in *; lia).
    rewrite <- take_drop_commute, Hp, take_take. f_equal. lia.
  - exact Hfi.
Qed.

(** In order, apart from each other, from [lo] on. *)
Fixpoint chained (lo : Z) (l : list pkt) : Prop :=
  match l with [] => True | f :: l => lo <= ip_off f /\ chained (ip_off f + ip_len f) l end.
Lemma chained_le lo lo' l : lo' <= lo -> chained lo l -> chained lo' l.
Proof. destruct l as [|f l]; [done|]. cbn. intros Hl [H1 H2]. split; [lia|done]. Qed.
Definition has (f : pkt) (x : Z) : Prop := ip_off f <= x < ip_off f + ip_len f.
Definition cover (l : list pkt) (x : Z) : Prop := Exists (fun f => has f x) l.
Lemma cover_nil x : cover [] x <-> False.
Proof. apply Exists_nil. Qed.
Lemma cover_cons f l x : cover (f :: l) x <-> has f x \/ cover l x.
Proof. apply Exists_cons. Qed.
Lemma cover_app a b x : cover (a ++ b) x <-> cover a x \/ cover b x.
Proof. apply Exists_app. Qed.
Lemma cover_from k d l : forall lo x, chained lo l -> Forall (part k d) l -> cover l x -> lo <= x < len d.2.
Proof.
  induction l as [|f l IH]; intros lo x Hc Hp; [by intros ?%cover_nil|].
  destruct Hc as [Hlo Hc]. apply Forall_cons_iff in Hp as [Hf Hp]. pose proof Hf as [_ _ Ho Hl He _ _ _].
  intros [Hx|Hx]%cover_cons; [unfold has in Hx; lia|]. specialize (IH _ x Hc Hp Hx). lia.
Qed.

Lemma complete_overlap_spec k d new l : part k d new -> forall lo, chained lo l -> ip_off new <= lo ->
  Forall (part k d) l ->
  let '(rest, gone) := complete_overlap new l in
  l = gone ++ rest /\ chained lo rest
  /\ Forall (fun g => ip_off new <= ip_off g /\ ip_off g + ip_len g <= ip_off new + ip_len new) gone
  /\ match rest with [] => True | f :: _ => ip_off new + ip_len new < ip_off f + ip_len f end.
Proof.
  intros Hn. induction l as [|f l IH]; intros lo Hc Hlo Hp; cbn [complete_overlap]; [by repeat split|].
  destruct Hc as [Hlf Hc]. apply Forall_cons_iff in Hp as [Hf Hp].
  rewrite (part_frag_end k d f Hf), (part_frag_end k d new Hn).
  destruct (Z.leb_spec (ip_off f + ip_len f) (ip_off new + ip_len new)) as [Hle|Hgt].
  2: { split; [done|]. split; [done|]. split; [constructor|lia]. }
  pose proof (t_len _ _ _ Hf) as Hlen.
  specialize (IH _ Hc ltac:(lia) Hp). destruct (complete_overlap new l) as [rest gone].
  destruct IH as (-> & H1 & H2 & H3). split; [done|]. split; [apply (chained_le (ip_off f + ip_len f)); [lia|done]|].
  split; [|done]. constructor; [lia|done].
Qed.
Lemma partial_overlap_spec k d new rest lo : len d.2 <= 65535 -> part k d new -> chained lo rest ->
  Forall (part k d) rest ->
  ip_off new <= lo -> match rest with [] => True | f :: _ => ip_off new + ip_len new < ip_off f + ip_len f end ->
  let new' := partial_overlap new rest in
  part k d new' /\ ip_off new' = ip_off new /\ chained (ip_off new' + ip_len new') rest
  /\ forall x, cover (new' :: rest) x <-> cover (new :: rest) x.
Proof.
  intros Hd Hn Hc Hp Hlo Hr. destruct rest as [|f l]; cbn [partial_overlap]; [done|].
  destruct Hc as [Hlf Hc]. apply Forall_cons_iff in Hp as [Hf Hp].
  rewrite (part_frag_end k d new Hn). pose proof Hf as [_ _ Hfo Hfl Hfe _ _ _].
  destruct (Z.ltb_spec 0 (ip_off new + ip_len new - ip_off f)) as [Hlt|Hge].
  2: { cbv zeta. split; [done|]. split; [done|]. split; [split; [lia|done]|done]. }
  cbv zeta. set (j := ip_off new + ip_len new - ip_off f) in *.
  pose proof Hn as [_ _ Hno Hnl Hne _ _ _].
  assert (Hu : u16 (ip_len new - j) = ip_len new - j) by (apply Z.mod_small; change (2 ^ 16) with 65536; lia).
  split; [apply part_trim; (done || lia)|]. split; [done|]. split.
  - split; [|done]. change (ip_off new + u16 (ip_len new - j) <= ip_off f). lia.
  - intros x. rewrite !cover_cons. unfold has.
    change (ip_off (trim j new)) with (ip_off new). change (ip_len (trim j new)) with (u16 (ip_len new - j)).
    rewrite Hu. destruct (Z.lt_ge_cases x (ip_off f)); [intuition lia|].
    destruct (Z.lt_ge_cases x (ip_off f + ip_len f)); intuition lia.
Qed.

(** ** Where a fragment goes *)

Definition keeps (k : key) (d : dgram) (lo : Z) (l l' : list pkt) (new : pkt) : Prop :=
  l' <> [] /\ chained lo l' /\ Forall (part k d) l' /\ forall x, cover l' x <-> cover (new :: l) x.

(** The fragment before the new one, trimmed if it reaches into it. *)
Lemma before_spec k d f new : len d.2 <= 65535 -> part k d f -> part k d new -> ip_off f < ip_off new ->
  let n := ip_off f + ip_len f - ip_off new in n < ip_len new ->
  let f' := if 0 <? n then trim n f else f in
  part k d f' /\ ip_off f' = ip_off f /\ ip_off f' + ip_len f' <= ip_off new /\ ip_len f' <= ip_len f
  /\ forall x, has f' x \/ has new x <-> has f x \/ has new x.
Proof.
  intros Hd Hf Hn Hlt n Hnl. pose proof Hf as [_ _ Hfo Hfl Hfe _ _ _]. pose proof Hn as [_ _ Hno Hnl' Hne _ _ _].
  unfold n in *. destruct (Z.ltb_spec 0 (ip_off f + ip_len f - ip_off new)) as [Hp|Hp]; cbv zeta.
  2: { split; [done|]. split; [done|]. split; [lia|]. split; [lia|done]. }
  set (j := ip_off f + ip_len f - ip_off new) in *.
  assert (Hu : u16 (ip_len f - j) = ip_len f - j) by (apply Z.mod_small; change (2 ^ 16) with 65536; lia).
  split; [apply part_trim; (done || lia)|]. split; [done|]. unfold has.
  change (ip_off (trim j f)) with (ip_off f). change (ip_len (trim j f)) with (u16 (ip_len f - j)). rewrite Hu.
  split; [lia|]. split; [lia|]. intros x. destruct (Z.lt_ge_cases x (ip_off new)); intuition lia.
Qed.
Lemma place_spec k d new : len d.2 <= 65535 -> part k d new -> 0 < ip_len new ->
  forall l lo, l <> [] -> chained lo l -> Forall (part k d) l -> lo <= ip_off new ->
  match place new l with
  | DropFrag l' | Placed l' _ => keeps k d lo l l' new
  | Lost => False
  end.
Proof.
  intros Hd Hn H0. induction l as [|f l IH]; intros lo Hne Hc Hp Hlo; [done|]. clear Hne. cbn [place].
  destruct Hc as [Hlf Hc]. apply Forall_cons_iff in Hp as [Hf Hp].
  rewrite (part_off k d f Hf), (part_off k d new Hn). 
  destruct (Z.ltb_spec (ip_off f) (ip_off new)) as [Hlt|Hge].
  - rewrite (part_frag_end k d f Hf).
    destruct (Z.leb_spec (ip_len new) (ip_off f + ip_len f - ip_off new)) as [Hin|Hout].
    { rewrite (proj2 (Z.ltb_lt 0 _)) by lia. cbn [andb]. split; [done|]. split; [by split|].
      split; [by constructor|]. intros x. rewrite !cover_cons. unfold has. intuition lia. }
    rewrite andb_false_r.
    destruct (before_spec k d f new Hd Hf Hn Hlt Hout) as (Hf' & Ho' & He' & Hl' & Hx').
    set (f' := if 0 <? _ then _ else _) in *. destruct l as [|g l].
    + split; [done|]. split; [split; [lia|split; [lia|done]]|]. split; [by do 2 (apply Forall_cons_2; [done|])|].
      intros x. rewrite !cover_cons, cover_nil. specialize (Hx' x). tauto.
    + specialize (IH (ip_off f' + ip_len f') ltac:(done)).
      assert (Hc' : chained (ip_off f' + ip_len f') (g :: l)) by (eapply chained_le; [|exact Hc]; lia).
      specialize (IH Hc' Hp He'). destruct (place new (g :: l)) as [l2|l2 gone|]; [| |done];
        destruct IH as (_ & H1 & H2 & H3);
        (split; [done|]; split; [by split; [lia|]|]; split; [by constructor|]; intros x;
          rewrite cover_cons, H3, !cover_cons;
         specialize (Hx' x); tauto).
  - pose proof (complete_overlap_spec k d new (f :: l) Hn (ip_off f)) as Hco.
    specialize (Hco ltac:(by split) ltac:(lia) ltac:(by constructor)).
    destruct (complete_overlap new (f :: l)) as [rest gone]. destruct Hco as (Hl & Hcr & Hg & Hr).
    assert (Hpr : Forall (part k d) rest).
    { assert (Hall : Forall (part k d) (f :: l)) by by constructor. rewrite Hl in Hall.
    by apply Forall_app in Hall as [_ ?]. }
    destruct (partial_overlap_spec k d new rest (ip_off f) Hd Hn Hcr Hpr ltac:(lia) Hr) as (Hn' & Ho' & Hc' & Hx').
    split; [done|]. split; [split; [lia|done]|]. split; [by constructor|].
    intros x. rewrite Hx', Hl, !cover_cons, cover_app.
    assert (Hgx : cover gone x -> has new x).
    { unfold cover, has. rewrite Exists_exists, Forall_forall in *. intros (g & Hgin & Hgx). specialize (Hg g Hgin).
      unfold has in Hgx. lia. }
    tauto.
Qed.

(** A fragment is dropped when it is there already. *)
Lemma place_drop k d new : part k d new -> 0 < ip_len new -> forall l lo l', chained lo l -> Forall (part k d) l ->
  place new l = DropFrag l' -> l' = l /\ forall x, has new x -> cover l x.
Proof.
  intros Hn H0. induction l as [|f l IH]; intros lo l' Hc Hp; [done|]. cbn [place].
  destruct Hc as [_ Hc]. apply Forall_cons_iff in Hp as [Hf Hp].
  rewrite (part_off k d f Hf), (part_off k d new Hn), (part_frag_end k d f Hf).
  destruct (Z.ltb_spec (ip_off f) (ip_off new)) as [Hlt|Hge].
  2: { by destruct (complete_overlap new (f :: l)). }
  destruct (Z.leb_spec (ip_len new) (ip_off f + ip_len f - ip_off new)) as [Hin|Hout].
  { rewrite (proj2 (Z.ltb_lt 0 _)) by lia. intros [= <-]. split; [done|]. intros x. rewrite cover_cons.
  unfold has. lia. }
  rewrite andb_false_r. destruct l as [|g l]; [done|].
  destruct (place new (g :: l)) as [l2|l2 gone|] eqn:Hpl; [|done..].
  destruct (IH _ l2 Hc Hp eq_refl) as (-> & Hx). intros [= <-].
  pose proof (cover_from k d _ _ (ip_off new) Hc Hp ltac:(apply Hx; unfold has; lia)) as Hnl.
  rewrite (proj2 (Z.ltb_ge 0 _)) by lia. split; [done|]. intros x Hh. rewrite cover_cons. right. by apply Hx.
Qed.

(** ** When it is complete *)

Lemma contiguous_spec k d l : forall c hdr, chained c l -> Forall (part k d) l -> c <= len d.2 -> 0 <= c ->
  match contiguous c hdr l with
  | Some (e, h) => c <= e <= len d.2 /\ (forall x, cover l x <-> c <= x < e)
      /\ concat (payload <$> l) = take (Z.to_nat (e - c)) (drop (Z.to_nat c) d.2)
      /\ match l with [] => h = hdr | f0 :: _ => ip_off f0 = c /\ exists f, h = Some f /\ part k d f
        /\ ip_off f + ip_len f = e end
  | None => exists x, c <= x < len d.2 /\ ~ cover l x
  end.
Proof.
  induction l as [|f l IH]; intros c hdr Hc Hp Hcd Hc0; cbn [contiguous].
  { split; [lia|]. split; [intros x; rewrite cover_nil; lia|]. split; [|done]. by rewrite Z.sub_diag. }
  destruct Hc as [Hlf Hc]. apply Forall_cons_iff in Hp as [Hf Hp]. rewrite (part_off k d f Hf).
  pose proof Hf as [_ _ Hfo Hfl Hfe _ Hfd _].
  destruct (Z.eqb_spec (ip_off f) c) as [He|Hne].
  - rewrite He in *. specialize (IH (c + ip_len f) (Some f) Hc Hp Hfe ltac:(lia)).
    destruct (contiguous (c + ip_len f) (Some f) l) as [[e h]|].
    + destruct IH as (H1 & H2 & H3 & H4). split; [lia|]. split.
      { intros x. rewrite cover_cons, H2. unfold has. rewrite He. lia. }
      split.
      * cbn [fmap list_fmap concat]. change (list_fmap pkt (list Z) payload l) with (payload <$> l). rewrite H3, Hfd.
        replace (Z.to_nat (c + ip_len f)) with (Z.to_nat c + Z.to_nat (ip_len f))%nat by lia.
        rewrite <- drop_drop. replace (Z.to_nat (e - c)) with (Z.to_nat (ip_len f) + Z.to_nat (e - (c +
          ip_len f)))%nat by lia.
        set (b := drop (Z.to_nat c) d.2). set (n := Z.to_nat (ip_len f)). set (r := Z.to_nat (e - (c + ip_len f))).
        rewrite <- (take_drop n (take (n + r) b)), take_take, <- take_drop_commute. f_equal. f_equal. lia.
      * split; [done|]. destruct l as [|g l]; [|apply H4]. exists f. split; [done|]. split; [done|]. rewrite He.
        specialize (H2 (e - 1)). rewrite cover_nil in H2. lia.
    + destruct IH as (x & Hx & Hn). exists x. split; [lia|]. rewrite cover_cons. unfold has. rewrite He.
      intros [|]; [lia|done].
  - exists c. split; [lia|]. rewrite cover_cons. intros [Hx|Hx]; [unfold has in Hx; lia|].
    pose proof (cover_from k d l _ c Hc Hp Hx). lia.
Qed.

Lemma remove_header_spec k d f : part k d f -> exists c, remove_header f = Some c /\ concat c = payload f.
Proof.
  intros [_ Hh _ _ _ _ _ _]. unfold remove_header, payload. destruct (p_m f) as [|b c]; cbn [hd concat] in *.
  { unfold len in Hh. cbn in Hh. lia. }
  unfold len in Hh. rewrite (proj2 (Z.leb_le _ _)) by lia. eexists. split; [reflexivity|].
  cbn [concat]. rewrite drop_app_le by lia. done.
Qed.
Lemma concatenate_spec k d l : forall m, Forall (part k d) l ->
  exists c, concatenate m l = Some c /\ concat c = concat m ++ concat (payload <$> l).
Proof.
  induction l as [|f l IH]; intros m Hp; cbn [concatenate].
  { exists m. cbn. by rewrite app_nil_r. }
  apply Forall_cons_iff in Hp as [Hf Hp]. destruct (remove_header_spec k d f Hf) as (c & -> & Hc).
  destruct (IH (m_cat m c) Hp) as (c' & -> & Hc'). exists c'. split; [done|].
  rewrite Hc', m_cat_data, Hc. cbn [fmap list_fmap concat]. by rewrite app_assoc.
Qed.

(** What the transport gets of a datagram [d] with the key [k]. *)
Definition is_datagram (k : key) (d : dgram) (m : pkt) : Prop :=
  key_of m = k /\ hlen_of m = d.1 /\ payload m = d.2 /\ ip_len m = len d.2.
Definition stands_for (l : list pkt) (ivs : list (Z * Z)) : Prop :=
  forall x, cover l x <-> inside ivs x = true.

Lemma check_spec k d i l s ivs : len d.2 <= 65535 -> l <> [] -> chained 0 l -> Forall (part k d) l ->
  stands_for l ivs ->
  exists r, ipChkReAssembly i l s = Some r /\
  if covers (len d.2) ivs
  then exists m, r = (Some m, remque i s <| s_tables ::= Z.pred |>) /\ is_datagram k d m
  else r = (None, s).
Proof.
  intros Hd Hne Hc Hp Hst. unfold ipChkReAssembly.
  pose proof (contiguous_spec k d l 0 None Hc Hp ltac:(unfold len; lia) ltac:(lia)) as Hs.
  destruct (contiguous 0 None l) as [[e h]|].
  2: { eexists. split; [reflexivity|]. destruct (covers (len d.2) ivs) eqn:Hcov; [|done].
       destruct Hs as (x & Hx & Hn). rewrite covers_spec in Hcov. exfalso. by apply Hn, Hst, Hcov. }
  destruct Hs as (He & Hx & Hcat & Hh). destruct l as [|f0 l]; [done|].
  destruct Hh as (Hf00 & f & -> & Hf & Hfe). rewrite (t_mff _ _ _ Hf), Hfe.
  destruct (Z.ltb_spec e (len d.2)) as [Hlt|Hge].
  { eexists. split; [reflexivity|]. destruct (covers (len d.2) ivs) eqn:Hcov; [|done].
    rewrite covers_spec in Hcov. specialize (Hcov e ltac:(lia)). apply Hst, Hx in Hcov. lia. }
  assert (He' : e = len d.2) by lia. apply Forall_cons_iff in Hp as [Hf0 Hp].
  destruct (concatenate_spec k d l (p_m f0) Hp) as (c & -> & Hcc).
  eexists. split; [reflexivity|].
  rewrite (proj2 (covers_spec _ _)) by (intros x Hx'; apply Hst, Hx; lia).
  eexists. split; [reflexivity|]. pose proof Hf0 as [Hk Hh0 _ _ _ _ _ Hfi].
  split; [exact Hk|]. split; [by apply Hfi|]. split.
  - change (drop (Z.to_nat (hlen_of f0)) (concat c) = d.2). rewrite Hcc, drop_app_le.
    + cbn [fmap list_fmap concat] in Hcat. change (list_fmap pkt (list Z) payload l) with (payload <$> l) in Hcat.
      unfold payload at 1 in Hcat. rewrite Hcat, He', drop_0. apply take_ge. unfold len. lia.
    + destruct (p_m f0); cbn [hd concat] in *; unfold len in Hh0; rewrite ?length_app; cbn in *; lia.
  - change (u16 e = len d.2). rewrite He'. apply Z.mod_small. change (2 ^ 16) with 65536. unfold len in *. lia.
Qed.
End Reass.
