(* ===== verification/IpRefine.v ===== *)
(** * The reassembly refines its specification

    Step by step: packets of any number of datagrams, in any order, doubled,
    overlapping, with timeouts and a drain in between. *)

From stdpp Require Import base list numbers.
From S2P Require Export IpReass.

Section Refine.
Context `{ML : MbufLaws} (ipfragttl : Z) (D : key -> dgram).

(** ** What a packet is *)

Lemma as_fragment_part m : arrives D m -> is_frag m = true ->
  let f := as_fragment m in
  len (D (key_of m)).2 <= 65535 /\ part (key_of m) (D (key_of m)) f /\ 0 < ip_len f
  /\ ip_off f = frag_off m /\ ip_len f = len (payload m)
  /\ Z.testbit (ipf_mff f) 0 = more m.
Proof.
  intros [Hh Hfi Hl H16 Ho Hs] Hfr f. destruct (Hs Hfr) as (H1 & H2 & H3 & H4 & H5 & H6 & H7). clear Hs.
  pose proof (payload_len m Hfi ltac:(lia)) as Hpl.
  assert (Hlen : ip_len f = len (payload m)).
  { change (u16 (ip_len m - hlen_of m) = len (payload m)). rewrite Hl, Hpl, <- Z.add_sub_assoc, Z.add_comm.
    replace (len (payload m) - hlen_of m + hlen_of m) with (len (payload m)) by lia.
    apply Z.mod_small. change (2 ^ 16) with 65536. lia. }
  assert (Hoff : ip_off f = frag_off m).
  { change (s16 (ip_off m * 8) = frag_off m). destruct (off_field m Ho) as [_ ->].
    by rewrite (proj2 (Z.ltb_lt _ _)) by done. }
  assert (Hm : Z.testbit (ipf_mff f) 0 = more m).
  { change (ipf_mff f) with (Z.lor (Z.land (ipf_mff m) 254) (if Z.land (ip_off m) IP_MF =? 0 then 0 else 1)).
    rewrite Z.lor_spec, Z.land_spec, andb_false_r. unfold more. by destruct (Z.land (ip_off m) IP_MF =? 0). }
  assert (H0 : 0 <= frag_off m) by (unfold frag_off; pose proof (proj2 (Z.land_nonneg (ip_off m) 0x1fff)
    ltac:(lia)); lia).
  split; [done|]. split; [|rewrite Hlen; done].
  split; rewrite ?Hlen, ?Hoff, ?Hm; (done || lia).
Qed.

(** ** The relation *)

Definition collects (q : ipq) (e : key * (Z * list (Z * Z))) : Prop :=
  key_q q = e.1 /\ ipq_ttl q = e.2.1 /\ len (D e.1).2 <= 65535 /\ pMbufPkt q <> []
  /\ chained 0 (pMbufPkt q) /\ Forall (part e.1 (D e.1)) (pMbufPkt q) /\ stands_for (pMbufPkt q) e.2.2.
Definition incomplete (e : key * (Z * list (Z * Z))) : Prop := covers (len (D e.1).2) e.2.2 = false.
Definition matches (s : ipstate) (c : collecting) : Prop :=
  Forall2 collects (ipqs s) c /\ s_tables s = Z.of_nat (length (ipqs s)).
Definition refines (s : ipstate) (c : collecting) : Prop := matches s c /\ Forall incomplete c.
(** A delivery is the one that the specification makes. *)
Definition delivers (d : delivery) (o : key * dgram * Z) : Prop :=
  let '(k, l, h) := o in is_datagram k l (d_pkt d) /\ d_p d = ip_p (d_pkt d) /\ d_hlen d = h.

Lemma same_datagram_spec m q : same_datagram m q = true <-> key_q q = key_of m.
Proof.
  unfold same_datagram, key_q, key_of. rewrite !andb_true_iff, !Z.eqb_eq. split.
  - intros [[[-> ->] ->] ->]. done.
  - intros [=]. repeat split; congruence.
Qed.
Lemma find_same m l c : Forall2 collects l c -> find_queue m l = find_key (key_of m) c.
Proof.
  unfold find_queue, find_key. induction 1 as [|q e l c Hqe _ IH]; [done|]. cbn [list_find].
  destruct Hqe as [Hk _]. pose proof (same_datagram_spec m q) as Hs. rewrite Hk in Hs.
  destruct (decide (same_datagram m q = true)) as [H1|H1], (decide (e.1 = key_of m)) as [H2|H2];
    [done|by destruct H2; apply Hs|by destruct H1; apply Hs|].
  revert IH. destruct (list_find _ l) as [[i x]|], (list_find _ c) as [[j y]|]; cbn; intros [=]; congruence.
Qed.
Lemma find_key_lookup k c i : find_key k c = Some i -> exists e, c !! i = Some (k, e).
Proof.
  unfold find_key. intros ([j [k' e]] & Hf & ->)%fmap_Some.
  apply list_find_Some in Hf as (Hl & Hk & _). cbn in Hk. subst k'. by exists e.
Qed.

(** ** One event *)

Lemma matches_delete s c i : matches s c -> (i < length c)%nat ->
  matches (remque i s <| s_tables ::= Z.pred |>) (delete i c).
Proof.
  intros [Hq Ht] Hi. split.
  - change (Forall2 collects (delete i (ipqs s)) (delete i c)). by apply Forall2_delete.
  - change (Z.pred (s_tables s) = Z.of_nat (length (delete i (ipqs s)))).
    pose proof (Forall2_length Hq). rewrite length_delete; [lia|]. apply lookup_lt_is_Some. lia.
Qed.
Lemma matches_freed s c g : matches s c -> matches (s <| s_freed ::= g |>) c.
Proof. intros [H1 H2]. by split. Qed.
(** What [ipChkReAssembly] makes of a queue that has got its fragment. *)
Lemma chk_refines m i l s c k e q : matches s c -> Forall incomplete (delete i c) ->
  ipqs s !! i = Some q -> pMbufPkt q = l -> c !! i = Some (k, e) ->
  let '(o, c') := collect D m i c in
  exists r s', ipChkReAssembly i l s = Some (r, s') /\ refines s' c' /\ s_out s' = s_out s /\
  match r with None => o = [] | Some m' => o = [(k, D k, hlen_of m)] /\ is_datagram k (D k) m' end.
Proof.
  intros Hr Hinc Hq <- Hc. pose proof Hr as [Hrel _]. destruct e as [t ivs].
  pose proof (Forall2_lookup_lr _ _ _ _ _ _ Hrel Hq Hc) as (_ & _ & Hd & Hne & Hch & Hp & Hst).
  cbn [fst snd] in *.
  destruct (check_spec k (D k) i (pMbufPkt q) s ivs Hd Hne Hch Hp Hst) as (r & -> & Hcov).
  unfold collect. rewrite Hc. destruct (covers (len (D k).2) ivs) eqn:Hcv.
  - destruct Hcov as (m' & -> & Hm). exists (Some m'), (remque i s <| s_tables ::= Z.pred |>).
    split; [done|]. split; [|done]. split; [|done]. apply matches_delete; [done|]. by eapply lookup_lt_Some.
  - subst r. exists None, s. split; [done|]. split; [|done]. split; [done|].
    rewrite (delete_Permutation c i _ Hc). by apply Forall_cons_2.
Qed.
Lemma delete_alter {A} (f : A -> A) i (l : list A) : delete i (alter f i l) = delete i l.
Proof. revert i. induction l as [|x l IH]; intros [|i]; [done..|]. cbn. f_equal. apply IH. Qed.
Lemma matches_set s c i l iv q k e : matches s c -> ipqs s !! i = Some q -> c !! i = Some (k, e) ->
  l <> [] -> chained 0 l -> Forall (part k (D k)) l -> stands_for l (iv :: e.2) ->
  matches (set_frags i l s) (alter (fun '(k, (t, ivs)) => (k, (t, iv :: ivs))) i c).
Proof.
  intros [Hq Ht] Hl Hc Hne Hch Hp Hst. split.
  - change (Forall2 collects (alter (fun q => q <| pMbufPkt := l |>) i (ipqs s))
      (alter (fun '(k, (t, ivs)) => (k, (t, iv :: ivs))) i c)).
    apply Forall2_alter; [done|]. intros q' e' Hq' He' (H1 & H2 & H3 & _).
    destruct e as [t ivs]. pose proof (eq_trans (eq_sym Hc) He') as [= <-].
    pose proof (eq_trans (eq_sym Hl) Hq') as [= <-].
    cbn [fst snd] in *. repeat (split; [done|]). exact Hst.
  - change (s_tables s = Z.of_nat (length (alter (fun q => q <| pMbufPkt := l |>) i (ipqs s)))).
    by rewrite length_alter.
Qed.
Lemma stands_more new l l' ivs : (forall x, cover l' x <-> cover (new :: l) x) -> stands_for l ivs ->
  stands_for l' ((ip_off new, ip_len new) :: ivs).
Proof.
  intros Hx Hst x. rewrite Hx, cover_cons. unfold has. specialize (Hst x). cbn [inside existsb].
  change (existsb _ ivs) with (inside ivs x). rewrite orb_true_iff, andb_true_iff, Hst. 
  assert (((ip_off new <=? x) = true /\ (x <? ip_off new + ip_len new) = true) <-> ip_off new <= x < ip_off
    new + ip_len new) by lia.
  tauto.
Qed.
Lemma covers_ext n a b : (forall x, inside a x = true <-> inside b x = true) -> covers n a = covers n b.
Proof. intros He. apply eq_bool_prop_intro. rewrite !Is_true_true, !covers_spec. by setoid_rewrite He. Qed.

Definition step_refines (e : ip_event) (s : ipstate) (c : collecting) : Prop :=
  let '(o, c') := spec_step ipfragttl D e c in
  exists s' ds, ip_step ipfragttl e s = Some s' /\ refines s' c' /\ s_out s' = s_out s ++ ds /\ Forall2 delivers ds o.

Lemma deliver_refines p h m s s0 c k d : refines s c -> s_out s = s_out s0 -> is_datagram k d m -> ip_p m = p ->
  exists ds, refines (deliver p h m s) c /\ s_out (deliver p h m s) = s_out s0 ++ ds
    /\ Forall2 delivers ds [(k, d, h)].
Proof.
  intros Hr Ho Hm Hp. exists [mk_dlv p m h]. split; [exact Hr|]. split.
  - change (s_out s ++ [mk_dlv p m h] = s_out s0 ++ [mk_dlv p m h]). by rewrite Ho.
  - constructor; [|done]. done.
Qed.
(** The end of [ours] for a fragment, given what [ipReAssemble] returns. *)
Lemma ours_end m s r s1 o c' : let k := key_of m in
  refines s1 c' -> s_out s1 = s_out s ->
  match r with None => o = [] | Some m' => o = [(k, D k, hlen_of m)] /\ is_datagram k (D k) m' end ->
  exists s' ds, match r with
    | None => Some s1
    | Some m' => Some (deliver (ip_p m) (hlen_of m) m' (s1 <| ips_reassembled ::= count |>))
    end = Some s' /\ refines s' c' /\ s_out s' = s_out s ++ ds /\ Forall2 delivers ds o.
Proof.
  intros k Hr Ho Hm. destruct r as [m'|].
  - destruct Hm as [-> Hm]. destruct (deliver_refines (ip_p m) (hlen_of m) m' (s1 <| ips_reassembled ::=
      count |>) s c'
      k (D k) Hr Ho Hm) as (ds & H1 & H2 & H3).
    { destruct Hm as [Hk _]. unfold k, key_of in Hk. congruence. }
    eexists _, ds. done.
  - subst o. exists s1, []. rewrite app_nil_r. done.
Qed.
Lemma reassemble_refines mem m s c : arrives D m -> is_frag m = true -> refines s c ->
  let '(o, c') := spec_step ipfragttl D (Arrive mem m) c in let k := key_of m in
  exists r s', ipReAssemble ipfragttl mem (as_fragment m) (find_queue m (ipqs s)) s = Some (r, s') /\
  refines s' c' /\ s_out s' = s_out s /\
  match r with None => o = [] | Some m' => o = [(k, D k, hlen_of m)] /\ is_datagram k (D k) m' end.
Proof.
  intros Ha Hfr [Hr Hinc]. unfold spec_step. rewrite Hfr, (find_same m (ipqs s) c (proj1 Hr)).
  destruct (as_fragment_part m Ha Hfr) as (Hd & Hp & H0 & Hoff & Hlen & _). rewrite <- Hoff, <- Hlen.
  set (f := as_fragment m) in *. set (k := key_of m) in *. unfold ipReAssemble.
  destruct (find_key k c) as [i|] eqn:Hf.
  - destruct (find_key_lookup k c i Hf) as ([t ivs] & Hc).
    destruct (Forall2_lookup_r _ _ _ _ _ (proj1 Hr) Hc) as (q & Hq & Hqe). rewrite Hq.
    destruct Hqe as (Hk & Ht & _ & Hne & Hch & Hps & Hst). cbn [fst snd] in *.
    pose proof (place_spec k (D k) f Hd Hp H0 (pMbufPkt q) 0 Hne Hch Hps (proj1 (t_off _ _ _ Hp))) as Hpl.
    assert (Hset : forall l, keeps k (D k) 0 (pMbufPkt q) l f -> matches (set_frags i l s)
        (alter (fun '(k, (t, ivs)) => (k, (t, (ip_off f, ip_len f) :: ivs))) i c)).
    { intros l (H1 & H2 & H3 & H4). eapply matches_set; eauto. eapply stands_more; eauto. }
    assert (Hal : alter (fun '(k, (t, ivs)) => (k, (t, (ip_off f, ip_len f) :: ivs))) i c !! i
        = Some (k, (t, (ip_off f, ip_len f) :: ivs))) by (rewrite list_lookup_alter_eq, Hc; done).
    assert (Hli : forall l, ipqs (set_frags i l s) !! i = Some (q <| pMbufPkt := l |>)).
    { intros l. change (alter (fun q => q <| pMbufPkt := l |>) i (ipqs s) !! i = Some (q <| pMbufPkt := l |>)).
      by rewrite list_lookup_alter_eq, Hq. }
    assert (Hin : Forall incomplete (delete i (alter (fun '(k, (t, ivs)) => (k, (t, (ip_off f,
      ip_len f) :: ivs))) i c))).
    { rewrite delete_alter, delete_take_drop. apply Forall_app. split; [by apply Forall_take|by apply Forall_drop]. }
    set (c1 := alter _ i c) in *.
    destruct (place f (pMbufPkt q)) as [l|l gone|] eqn:Hplace; [| |done].
    + destruct (place_drop k (D k) f Hp H0 _ _ _ Hch Hps Hplace) as (-> & Hin').
      assert (Hcv : covers (len (D k).2) ((ip_off f, ip_len f) :: ivs) = false).
      { rewrite <- (proj1 (Forall_lookup _ _) Hinc i _ Hc). apply covers_ext. intros x. cbn [inside existsb fst snd].
        change (existsb _ ivs) with (inside ivs x). specialize (Hin' x). specialize (Hst x). unfold has in Hin'.
        rewrite orb_true_iff, andb_true_iff. rewrite Hst in Hin'.
        split; [intros [Hh|Hh]; [apply Hin'; lia|done]|by right]. }
      unfold collect. rewrite Hal, Hcv. exists None, (drop_frag f (set_frags i (pMbufPkt q) s)). split; [done|].
      split; [|done]. split; [exact (Hset _ Hpl)|]. rewrite (delete_Permutation c1 i _ Hal). by apply Forall_cons_2.
    + pose proof (chk_refines m i l (set_frags i l s <| s_freed ::= app gone |>) c1 k (t, (ip_off f, ip_len f) :: ivs)
        (q <| pMbufPkt := l |>) (matches_freed _ _ _ (Hset l Hpl)) Hin (Hli l) eq_refl Hal) as Hchk.
      destruct (collect D m i c1) as [o c']. exact Hchk.
  - destruct mem.
    2: { exists None, (drop_frag f s). done. }
    set (q := mk_ipq ipfragttl (ip_p f) (ip_id f) (ip_src f) (ip_dst f) [f]).
    set (s1 := s <| s_tables ::= Z.succ |> <| ipqs ::= cons q |>).
    pose proof (chk_refines m 0 [f] s1 ((k, (ipfragttl, [(ip_off f, ip_len f)])) :: c) k
      (ipfragttl, [(ip_off f, ip_len f)]) q) as Hchk.
    destruct (collect D m 0 _) as [o c']. apply Hchk; [|exact Hinc|done|done|done].
    destruct Hr as [Hr Ht]. split.
    + apply Forall2_cons_2; [|exact Hr]. split; [done|]. split; [done|]. split; [done|]. split; [done|].
      split; [split; [apply Hp|done]|]. split; [by apply Forall_cons_2|].
      intros x. change (cover [f] x <-> inside [(ip_off f, ip_len f)] x = true).
      rewrite cover_cons, cover_nil. unfold has. cbn. lia.
    + change (Z.succ (s_tables s) = Z.of_nat (S (length (ipqs s)))). lia.
Qed.

Lemma arrive_refines mem m s c : arrives D m -> refines s c -> step_refines (Arrive mem m) s c.
Proof.
  intros Ha Hr. unfold step_refines. cbn [ip_step]. unfold ours.
  destruct (off_field m (a_off _ _ Ha)) as [-> _]. destruct (is_frag m) eqn:Hfr.
  - set (s1 := s <| ips_fragments ::= count |>).
    pose proof (reassemble_refines mem m s1 c Ha Hfr Hr) as Hre.
    destruct (as_fragment_part m Ha Hfr) as (_ & _ & _ & -> & _ & ->).
    change (more m || negb (frag_off m =? 0)) with (is_frag m). rewrite Hfr.
    destruct (spec_step ipfragttl D (Arrive mem m) c) as [o c']. cbv zeta in Hre.
    destruct Hre as (r & s' & Hre & H1 & H2 & H3). change (ipqs s1) with (ipqs s) in Hre. rewrite Hre.
    exact (ours_end m s r s' o c' H1 H2 H3).
  - cbn [spec_step]. rewrite Hfr. pose proof Ha as [Hh Hf Hl H16 _ _].
    destruct (deliver_refines (ip_p m) (hlen_of m) (m <| ip_len := u16 (ip_len m - hlen_of m) |>) s s c
      (key_of m) (hlen_of m, payload m)
      Hr eq_refl) as (ds & H1 & H2 & H3); [|done|by eexists _, ds].
    split; [done|]. split; [done|]. split; [done|]. change (u16 (ip_len m - hlen_of m) = len (payload m)).
    pose proof (payload_len m Hf ltac:(lia)) as Hpl. rewrite Hl, Hpl.
    replace (hlen_of m + len (payload m) - hlen_of m) with (len (payload m)) by lia.
    apply Z.mod_small. change (2 ^ 16) with 65536. unfold len in *. lia.
Qed.
Lemma slowtimo_refines s c : refines s c -> step_refines Slowtimo s c.
Proof.
  intros [[Hq Ht] Hinc]. unfold step_refines. cbn [spec_step ip_step]. eexists (ip_slowtimo s), []. split; [done|].
  set (g := fun '(k, (t, ivs)) => _).
  assert (Hl : let '(rest, gone) := slowtimo_loop (ipqs s) in Forall2 collects rest (omap g c)
    /\ Forall incomplete (omap g c) /\ (length rest + length gone = length (ipqs s))%nat).
  { clear Ht. induction Hq as [|q [k [t ivs]] l c Hqe _ IH]; [done|]. apply Forall_cons_iff in Hinc as [Hi Hinc].
    specialize (IH Hinc). cbn [slowtimo_loop]. destruct (slowtimo_loop l) as [rest gone].
    destruct IH as (H1 & H2 & H3).
    destruct Hqe as (Hk & Hqt & Hr).
    change (ipq_ttl (q <| ipq_ttl ::= fun t => u8 (t - 1) |>)) with (u8 (ipq_ttl q - 1)). rewrite Hqt.
    change (omap g ((k, (t, ivs)) :: c)) with
      (match (if u8 (t - 1) =? 0 then None else Some (k, (u8 (t - 1),
        ivs))) with Some y => y :: omap g c | None => omap g c end).
    cbn [snd fst]. destruct (u8 (t - 1) =? 0).
    - split; [done|]. split; [done|]. cbn. lia.
    - split; [|split; [by apply Forall_cons_2|cbn; lia]]. constructor; [|done]. split; [done|]. split; [|exact Hr].
      change (u8 (ipq_ttl q - 1) = u8 (t - 1)). by rewrite Hqt. }
  unfold ip_slowtimo. destruct (slowtimo_loop (ipqs s)) as [rest gone]. destruct Hl as (H1 & H2 & H3).
  split; [split; [split|done]|split; [|done]].
  - exact H1.
  - change (s_tables s - Z.of_nat (length gone) = Z.of_nat (length rest)). lia.
  - change (s_out s = s_out s ++ []). by rewrite app_nil_r.
Qed.
Lemma drain_all n : forall s, length (ipqs s) = n -> s_tables s = Z.of_nat n ->
  ipqs (drain_loop n s) = [] /\ s_tables (drain_loop n s) = 0 /\ s_out (drain_loop n s) = s_out s.
Proof.
  induction n as [|n IH]; intros s Hn Ht; cbn [drain_loop].
  { by destruct (ipqs s). }
  destruct (ipqs s) as [|q l] eqn:Hq; [done|]. cbn [length] in Hn.
  unfold ip_freef. change (ipqs (s <| ips_fragdropped ::= count |>)) with (ipqs s). rewrite Hq.
  cbn [lookup list_lookup].
  match goal with |- context [drain_loop n ?X] => destruct (IH X) as (H1 & H2 & H3) end; [| |by rewrite H1, H2, H3].
  - change (length (delete 0%nat (ipqs s)) = n). rewrite Hq. cbn. lia.
  - change (Z.pred (s_tables s) = Z.of_nat n). lia.
Qed.
Lemma step_ok e s c : event_ok D e -> refines s c -> step_refines e s c.
Proof.
  destruct e as [mem m| |]; intros He Hr; [by apply arrive_refines|by apply slowtimo_refines|].
  destruct Hr as [[Hq Ht] Hinc]. unfold step_refines. cbn [spec_step ip_step].
  destruct (drain_all (length (ipqs s)) s eq_refl Ht) as (H1 & H2 & H3).
  exists (ip_drain s), []. unfold ip_drain. split; [done|]. rewrite app_nil_r. split; [|done].
  split; [split|done]; rewrite ?H1, ?H2; done.
Qed.
Lemma run_refines l : forall s c, Forall (event_ok D) l -> refines s c ->
  exists s' ds, ip_run ipfragttl l s = Some s' /\ refines s' (spec_run ipfragttl D l c).2
  /\ s_out s' = s_out s ++ ds /\ Forall2 delivers ds (spec_run ipfragttl D l c).1.
Proof.
  induction l as [|e l IH]; intros s c Hl Hr; cbn [ip_run spec_run].
  { exists s, []. by rewrite app_nil_r. }
  apply Forall_cons_iff in Hl as [He Hl]. pose proof (step_ok e s c He Hr) as Hs. unfold step_refines in Hs.
  destruct (spec_step ipfragttl D e c) as [o c']. destruct Hs as (s1 & d1 & -> & Hr1 & Ho1 & Hd1).
  destruct (IH s1 c' Hl Hr1) as (s2 & d2 & -> & Hr2 & Ho2 & Hd2).
  destruct (spec_run ipfragttl D l c') as [o2 c2]. exists s2, (d1 ++ d2). split; [done|]. split; [done|].
  split; [by rewrite Ho2, Ho1, app_assoc|]. by apply Forall2_app.
Qed.
End Refine.
