(* ===== verification/IpFrag.v ===== *)
(** * ip_output.c: a datagram in fragments, and back

    The part of [ip_output] (src/vxworks_test/netinet/ip_output.c) behind the label
    [sendit], with [ip_optcopy]; what it sends, in any order and doubled, is what
    the reassembly makes the datagram of.  The memory for mbufs and the results of
    [if_output] are arguments, [m_copy] is a parameter; the bytes of the header
    and its checksum are in IpPath.v. *)

From stdpp Require Import base list numbers.
From S2P Require Export IpRefine.

Class MbufCopy := m_copy : data_chain -> Z -> Z -> data_chain.
Class MbufCopyLaws `{MbufCopy} := m_copy_data c off n : 0 <= off -> 0 <= n -> off + n <= len (concat c) ->
  concat (m_copy c off n) = take (Z.to_nat n) (drop (Z.to_nat off) (concat c)).

(** ** Options *)

Definition IPOPT_EOL : Z := 0.
Definition IPOPT_NOP : Z := 1.
Definition IPOPT_COPIED (o : Z) : bool := negb (Z.land o 0x80 =? 0).
(** [cp] are the bytes of the header from [cp] on, [dp] the options copied;
    [None] behind the header and when the loop does not end. *)
Fixpoint optcopy_loop (fuel : nat) (cp : list Z) (cnt : Z) (dp : list Z) : option (list Z) :=
  if 0 <? cnt then
    match fuel, cp with
    | S fuel, opt :: rest =>
        if opt =? IPOPT_EOL then Some dp
        else if opt =? IPOPT_NOP then optcopy_loop fuel rest (cnt - 1) (dp ++ [IPOPT_NOP])
        else
          match rest with
          | [] => None
          | optlen :: _ =>
              let optlen := if cnt <? optlen then cnt else optlen in
              optcopy_loop fuel (drop (Z.to_nat optlen) cp) (cnt - optlen)
                (if IPOPT_COPIED opt then dp ++ take (Z.to_nat optlen) cp else dp)
          end
    | _, _ => None
    end
  else Some dp.
Fixpoint optcopy_pad (fuel : nat) (dp : list Z) : list Z :=
  if Z.land (len dp) 3 =? 0 then dp
  else match fuel with S fuel => optcopy_pad fuel (dp ++ [IPOPT_EOL]) | O => dp end.
(** The options that go into the header of a fragment, [cnt] bytes of them in
    [opts]. *)
Definition ip_optcopy (opts : list Z) : option (list Z) :=
  match optcopy_loop (length opts) opts (len opts) [] with
  | Some dp => Some (optcopy_pad 3 dp)
  | None => None
  end.

(** ** Fragments *)

Definition EMSGSIZE : Z := 36.
Definition ENOBUFS : Z := 55.
Definition IP_HDR : Z := 20.
Record sent := mk_sent {
  fr_error : Z; fr_out : list pkt; fr_freed : list pkt;
  ips_cantfrag : Z; ips_odropped : Z; ips_ofragments : Z; ips_fragmented : Z
}.

Section IpOutput.
Context `{MbufLib} `{MbufCopy}.

Definition set_flag (b : bool) (off : Z) : Z := if b then s16 (Z.lor off IP_MF) else off.
(** The header of [ip] with its options, cut to what a fragment has. *)
Definition frag_header (ip : pkt) : option (Z * list Z) :=
  let h := hd [] (p_m ip) in
  if IP_HDR <? hlen_of ip then
    match ip_optcopy (take (Z.to_nat (hlen_of ip - IP_HDR)) (drop 20 h)) with
    | Some opts => Some (len opts + IP_HDR, take 20 h ++ opts)
    | None => None
    end
  else Some (IP_HDR, take 20 h).
Definition mk_frag (ip : pkt) (mhlen : Z) (h : list Z) (off n : Z) (last : bool) : pkt :=
  let o := s16 (Z.shiftr (off - hlen_of ip) 3 + Z.land (ip_off ip) (Z.lnot IP_MF)) in
  let o := set_flag (negb (Z.land (ip_off ip) IP_MF =? 0)) o in
  mk_pkt (if IP_HDR <? hlen_of ip then Z.shiftr mhlen 2 else ip_hl ip) (ipf_mff ip) (u16 (n + mhlen)) (ip_id ip)
    (set_flag (negb last) o) (ip_p ip) (ip_src ip) (ip_dst ip) (h :: m_copy (p_m ip) off n).
(** The loop: an error and the packets on the chain behind the first; [pool]
    says for each round whether [mHdrClGet] and [m_copy] have memory. *)
Fixpoint frag_loop (fuel : nat) (pool : list (bool * bool)) (ip : pkt) (off n : Z) (acc : list pkt) :
  option (Z * list pkt) :=
  if off <? ip_len ip then
    match fuel, pool with
    | S fuel, (hdr, copy) :: pool =>
        if negb hdr then Some (ENOBUFS, acc) else
        match frag_header ip with
        | None => None
        | Some (mhlen, h) =>
            let last := ip_len ip <=? off + n in
            let n := if last then ip_len ip - off else n in
            if negb copy then Some (ENOBUFS, acc) else
            frag_loop fuel pool ip (off + n) n (acc ++ [mk_frag ip mhlen h off n last])
        end
    | _, _ => None
    end
  else Some (0, acc).
(** The loop behind [sendorfree], with the results of [if_output]. *)
Fixpoint sendorfree (results : list Z) (error : Z) (l : list pkt) : Z * list pkt * list pkt :=
  match l with
  | [] => (error, [], [])
  | m :: l =>
      if error =? 0 then
        let '(e, out, gone) := sendorfree (tail results) (hd 0 results) l in (e, m :: out, gone)
      else let '(e, out, gone) := sendorfree results error l in (e, out, m :: gone)
  end.
Definition sendit (if_mtu : Z) (pool : list (bool * bool)) (results : list Z) (m : pkt) : option sent :=
  if ip_len m <=? if_mtu then Some (mk_sent (hd 0 results) [m] [] 0 0 0 0)
  else if negb (Z.land (ip_off m) IP_DF =? 0) then Some (mk_sent EMSGSIZE [] [m] 1 0 0 0)
  else
    let hlen := hlen_of m in
    let n := Z.land (if_mtu - hlen) (Z.lnot 7) in
    if n <? 8 then Some (mk_sent EMSGSIZE [] [m] 0 0 0 0) else
    match frag_loop (Z.to_nat (ip_len m)) pool m (hlen + n) n [] with
    | None => None
    | Some (error, l) =>
        let m := if error =? 0 then
            m <| p_m := m_adj (p_m m) (hlen + n - ip_len m) |> <| ip_len := u16 (hlen + n) |>
              <| ip_off := s16 (Z.lor (ip_off m) IP_MF) |>
          else m in
        let '(e, out, gone) := sendorfree results error (m :: l) in
        Some (mk_sent e out gone 0 (if error =? 0 then 0 else 1) (len (ip_len <$> l)) (if e =? 0 then 1 else 0))
    end.
End IpOutput.

(** ** The header of a fragment *)

Lemma optcopy_loop_len fuel : forall cp cnt dp r, bytes cp -> optcopy_loop fuel cp cnt dp = Some r ->
  0 <= cnt <= len cp ->
  len r <= len dp + cnt.
Proof.
  induction fuel as [|fuel IH]; intros cp cnt dp r Hb; cbn [optcopy_loop]; destruct (Z.ltb_spec 0 cnt) as [H0|H0];
    try done; try (intros [= <-]; lia).
  destruct cp as [|opt rest]; [done|]. destruct (opt =? IPOPT_EOL); [intros [= <-]; lia|].
  unfold bytes in Hb. pose proof Hb as [Ho Hrest]%Forall_cons_iff. destruct (opt =? IPOPT_NOP).
  { intros Hr Hc. apply IH in Hr; [|done|]; unfold len in *; rewrite ?length_app in *; cbn in *; lia. }
  destruct rest as [|o rest]; [done|]. apply Forall_cons_iff in Hrest as [[Hon _] _].
  set (n := if cnt <? o then cnt else o).
  assert (Hn : 0 <= n <= cnt) by (unfold n; destruct (Z.ltb_spec cnt o); lia).
  intros Hr Hc. apply IH in Hr; [|by apply Forall_drop|unfold len in *; rewrite length_drop; lia].
  destruct (IPOPT_COPIED opt); [|lia]. unfold len in *. rewrite length_app, length_take in Hr. lia.
Qed.
Lemma land_3 x : Z.land x 3 = x mod 4.
Proof. change 3 with (Z.ones 2). by rewrite Z.land_ones. Qed.
Lemma optcopy_pad_spec fuel : forall dp b, b mod 4 = 0 -> len dp <= b -> (- len dp) mod 4 <= Z.of_nat fuel ->
  len dp <= len (optcopy_pad fuel dp) <= b /\ len (optcopy_pad fuel dp) mod 4 = 0.
Proof.
  induction fuel as [|fuel IH]; intros dp b Hb Hl Hf; cbn [optcopy_pad]; rewrite land_3;
    destruct (Z.eqb_spec (len dp mod 4) 0) as [He|He]; [lia| |lia|].
  - exfalso. revert Hf He. Z.to_euclidean_division_equations. lia.
  - assert (Hs : len (dp ++ [IPOPT_EOL]) = len dp + 1) by (unfold len; rewrite length_app; cbn; lia).
    destruct (IH (dp ++ [IPOPT_EOL]) b Hb) as [H1 H2]; rewrite ?Hs.
    + revert He Hb Hl. Z.to_euclidean_division_equations. lia.
    + revert He Hf. Z.to_euclidean_division_equations. lia.
    + rewrite Hs in H1. lia.
Qed.
Lemma ip_optcopy_len opts r : bytes opts -> len opts mod 4 = 0 -> ip_optcopy opts = Some r ->
  len r <= len opts /\ len r mod 4 = 0.
Proof.
  unfold ip_optcopy. intros Hb H4. destruct (optcopy_loop _ opts (len opts) []) as [dp|] eqn:Hl; [|done].
  intros Hr. assert (r = optcopy_pad 3 dp) as -> by congruence. clear Hr.
  apply optcopy_loop_len in Hl; [|done|unfold len; lia]. change (len []) with 0 in Hl.
  destruct (optcopy_pad_spec 3 dp (len opts) H4 Hl) as [H1 H2]; [|split; [lia|done]].
  change (Z.of_nat 3) with 3. pose proof (Z.mod_pos_bound (- len dp) 4). lia.
Qed.

(** ** The pieces *)

(** A whole datagram to send, whose options can be copied. *)
Record whole (m : pkt) : Prop := {
  w_hl : 20 <= hlen_of m <= len (hd [] (p_m m));
  w_len : ip_len m = len (concat (p_m m));
  w_data : len (payload m) <= 32768;
  w_off : ip_off m = 0;
  w_head : bytes (hd [] (p_m m));
  w_opts : exists o, ip_optcopy (take (Z.to_nat (hlen_of m - IP_HDR)) (drop 20 (hd [] (p_m m)))) = Some o;
  w_60 : hlen_of m <= 60
}.
Lemma whole_len m : whole m -> ip_len m = hlen_of m + len (payload m).
Proof. intros [Hh Hl _ _ _ _ _]. rewrite Hl. apply payload_len; lia. Qed.
Lemma frag_header_spec m : whole m -> exists mhlen h, frag_header m = Some (mhlen, h) /\ mhlen = len h
  /\ 20 <= mhlen <= hlen_of m
  /\ hlen_of (mk_pkt (if IP_HDR <? hlen_of m then Z.shiftr mhlen 2 else ip_hl m) 0 0 0 0 0 0 0 []) = mhlen.
Proof.
  intros [Hh _ _ _ Hb (o & Ho) _]. unfold frag_header. unfold IP_HDR in *.
  assert (H20 : length (take 20 (hd [] (p_m m))) = 20%nat) by (rewrite length_take; unfold len in Hh; lia).
  destruct (Z.ltb_spec 20 (hlen_of m)) as [Hlt|Hge].
  - rewrite Ho. do 2 eexists. split; [reflexivity|].
    assert (Hlo : len (take (Z.to_nat (hlen_of m - 20)) (drop 20 (hd [] (p_m m)))) = hlen_of m - 20).
    { unfold len in *. rewrite length_take, length_drop. lia. }
    destruct (ip_optcopy_len _ o ltac:(by apply Forall_take, Forall_drop)
      ltac:(rewrite Hlo; unfold hlen_of; Z.to_euclidean_division_equations; lia) Ho) as [H1 H2].
    split; [unfold len; rewrite length_app, H20; lia|]. split; [unfold len in *; lia|].
    unfold hlen_of. cbn [ip_hl]. rewrite Z.shiftr_div_pow2 by done. change (2 ^ 2) with 4.
    revert H2. Z.to_euclidean_division_equations. lia.
  - do 2 eexists. split; [reflexivity|]. split; [unfold len; by rewrite H20|]. split; [lia|]. unfold hlen_of in *.
    cbn [ip_hl]. lia.
Qed.

(** [ip_off] of a fragment [8 * o] bytes into a datagram, the last or not. *)
Definition piece_off (o : Z) (last : bool) : Z := set_flag (negb last) (set_flag false (s16 (o + 0))).
Lemma piece_off_spec o last : 0 <= o < 4096 -> let x := piece_off o last in
  0 <= x < 32768 /\ Z.land x 0x1fff = o /\ (Z.land x IP_MF =? 0) = last.
Proof.
  intros Ho. assert (Hx : piece_off o last = 8192 * (if last then 0 else 1) + o).
  { unfold piece_off, set_flag. assert (Hs : forall x, 0 <= x < 32768 -> s16 x = x).
    { intros x Hx. unfold s16. change (2 ^ 16) with 65536. change (2 ^ 15) with 32768.
      rewrite Z.mod_small by lia. by rewrite (proj2 (Z.ltb_lt _ _)) by lia. }
    rewrite Z.add_0_r, (Hs o) by lia. destruct last; cbn [negb]; [lia|].
    rewrite <- Z.add_nocarry_lor by (rewrite land_low by lia; apply Z.land_0_r). unfold IP_MF. rewrite Hs; lia. }
  cbv zeta. rewrite Hx. destruct (field_spec (if last then 0 else 1) o) as (-> & -> & _); [by destruct last|lia|].
  destruct last; (split; [lia|done]).
Qed.

Section Pieces.
Context `{ML : MbufLaws} `{CL : MbufCopyLaws} (D : key -> dgram) (m : pkt).
Context (Hm : whole m) (HD : D (key_of m) = (hlen_of m, payload m)).

(** A piece of the datagram, from [o] on with [n] bytes. *)
Definition is_piece (o n : Z) (f : pkt) : Prop :=
  arrives D f /\ key_of f = key_of m /\ is_frag f = true /\ frag_off f = o /\ len (payload f) = n
  /\ hlen_of f <= hlen_of m.

Lemma mk_frag_spec mhlen h off n last : frag_header m = Some (mhlen, h) ->
  hlen_of m < off -> 0 < n -> off + n <= ip_len m -> (off - hlen_of m) mod 8 = 0 -> last = (ip_len m <=? off + n) ->
  is_piece (off - hlen_of m) n (mk_frag m mhlen h off n last)
  /\ ip_len (mk_frag m mhlen h off n last) <= hlen_of m + n.
Proof.
  intros Hfh Hoff Hn Hend H8 Hlast. set (f := mk_frag m mhlen h off n last).
  destruct (frag_header_spec m Hm) as (mhlen' & h' & Hfh' & Hml & Hmr & Hhl).
  assert (mhlen' = mhlen /\ h' = h) as [-> ->] by (split; congruence).
  pose proof (whole_len m Hm) as Hlen. pose proof (w_data m Hm) as Hdat. pose proof (w_60 m Hm) as H60.
  assert (Hhf : hlen_of f = mhlen) by exact Hhl.
  set (o := (off - hlen_of m) / 8).
  assert (Ho : off - hlen_of m = 8 * o /\ 0 < o < 4096) by (unfold o; revert H8 Hoff;
    Z.to_euclidean_division_equations; lia).
  assert (Hof : ip_off f = piece_off o last).
  { change (ip_off f) with (set_flag (negb last) (set_flag (negb (Z.land (ip_off m) IP_MF =? 0))
      (s16 (Z.shiftr (off - hlen_of m) 3 + Z.land (ip_off m) (Z.lnot IP_MF))))).
    by rewrite (w_off m Hm), Z.shiftr_div_pow2. }
  destruct (piece_off_spec o last ltac:(lia)) as (Hr & Hland & Hmf). rewrite <- Hof in Hr, Hland, Hmf.
  assert (Hfo : frag_off f = off - hlen_of m) by (unfold frag_off; rewrite Hland; lia).
  assert (Hpay : payload f = take (Z.to_nat n) (drop (Z.to_nat (off - hlen_of m)) (payload m))).
  { unfold payload. rewrite Hhf. change (concat (p_m f)) with (h ++ concat (m_copy (p_m m) off n)).
    rewrite drop_app_length' by (unfold len in Hml; lia).
    rewrite m_copy_data by (pose proof (w_len m Hm); lia). rewrite drop_drop. do 2 f_equal. lia. }
  assert (Hpl : len (payload f) = n).
  { rewrite Hpay. unfold len in *. rewrite length_take, length_drop. lia. }
  assert (Hil : ip_len f = n + mhlen).
  { change (u16 (n + mhlen) = n + mhlen). apply Z.mod_small. change (2 ^ 16) with 65536. lia. }
  assert (Hmore : more f = (off - hlen_of m + n <? len (payload m))) by (unfold more; rewrite Hmf, Hlast;
    destruct (Z.leb_spec (ip_len m) (off + n)), (Z.ltb_spec (off - hlen_of m + n) (len (payload m))); done || lia).
  split; [|lia]. split; [|split; [done|split; [|split; [done|split; [done|lia]]]]].
  - split; rewrite ?Hhf; [lia| | | |lia|].
    + change (hd [] (p_m f)) with h. lia.
    + rewrite Hil. change (concat (p_m f)) with (h ++ concat (m_copy (p_m m) off n)).
      rewrite m_copy_data by (pose proof (w_len m Hm); lia). pose proof (w_len m Hm).
      unfold len in *. rewrite length_app, length_take, length_drop. lia.
    + lia.
    + intros _. change (key_of f) with (key_of m). rewrite HD, Hpl, Hfo. cbn [fst snd].
      split; [lia|]. split; [lia|]. split; [done|]. split; [lia|]. split; [done|]. split; [done|]. lia.
  - unfold is_frag. rewrite Hfo. apply orb_true_iff. right. lia.
Qed.
Lemma first_frag_spec n : 0 < n -> n mod 8 = 0 -> hlen_of m + n < ip_len m ->
  let f := m <| p_m := m_adj (p_m m) (hlen_of m + n - ip_len m) |> <| ip_len := u16 (hlen_of m + n) |>
             <| ip_off := s16 (Z.lor (ip_off m) IP_MF) |> in
  is_piece 0 n f /\ ip_len f = hlen_of m + n /\ hlen_of f = hlen_of m.
Proof.
  intros Hn H8 Hlt f. pose proof (whole_len m Hm) as Hlen. pose proof (w_data m Hm) as Hdat.
  pose proof Hm as [Hh Hl _ Hoff _ _ H60].
  assert (Hil : ip_len f = hlen_of m + n).
  { change (u16 (hlen_of m + n) = hlen_of m + n). apply Z.mod_small. change (2 ^ 16) with 65536. lia. }
  assert (Hof : ip_off f = 0x2000) by (change (s16 (Z.lor (ip_off m) IP_MF) = 0x2000); by rewrite Hoff).
  destruct (m_adj_tail (p_m m) (ip_len m - (hlen_of m + n))) as [Ha Hb]; [unfold len in *; lia|].
  replace (- (ip_len m - (hlen_of m + n))) with (hlen_of m + n - ip_len m) in Ha, Hb by lia.
  replace (length (concat (p_m m)) - Z.to_nat (ip_len m - (hlen_of m + n)))%nat with (Z.to_nat (hlen_of m)
    + Z.to_nat n)%nat
    in Ha, Hb by (unfold len in *; lia).
  assert (Hpay : payload f = take (Z.to_nat n) (payload m)).
  { change (drop (Z.to_nat (hlen_of m)) (concat (m_adj (p_m m) (hlen_of m + n - ip_len m))) = take
    (Z.to_nat n) (payload m)).
    rewrite Ha. unfold payload. by rewrite take_drop_commute. }
  assert (Hpl : len (payload f) = n) by (rewrite Hpay; unfold len in *; rewrite length_take; lia).
  assert (Hfo : frag_off f = 0) by (unfold frag_off; by rewrite Hof).
  assert (Hmore : more f = true) by (unfold more; by rewrite Hof).
  split; [|done]. split; [|split; [done|split; [|split; [done|split; [done|]]]]].
  - split; rewrite ?Hil, ?Hof; [apply Hh| | | |done|].
    + change (hlen_of m <= len (hd [] (m_adj (p_m m) (hlen_of m + n - ip_len m)))). rewrite Hb.
      unfold len in *. rewrite length_take. lia.
    + change (concat (p_m f)) with (concat (m_adj (p_m m) (hlen_of m + n - ip_len m))). rewrite Ha.
      unfold len in *. rewrite length_take. lia.
    + lia.
    + intros _. change (key_of f) with (key_of m). rewrite HD, Hpl, Hfo, Hmore. cbn [fst snd].
      split; [lia|]. split; [lia|]. split; [done|]. split; [lia|]. split; [lia|]. split; [exact Hpay|]. done.
  - unfold is_frag. by rewrite Hmore.
  - change (hlen_of m <= hlen_of m). lia.
Qed.

(** Pieces one behind the other from [lo] to [hi]. *)
Fixpoint tiles (lo : Z) (l : list pkt) (hi : Z) : Prop :=
  match l with
  | [] => lo = hi
  | f :: l => exists n, 0 < n /\ is_piece lo n f /\ tiles (lo + n) l hi
  end.
Lemma frag_loop_spec fuel : forall pool off n acc, Forall (eq (true, true)) pool ->
  hlen_of m < off <= ip_len m -> (off - hlen_of m) mod 8 = 0 \/ off = ip_len m ->
    n mod 8 = 0 /\ 8 <= n \/ off = ip_len m ->
  ip_len m - off <= Z.of_nat fuel -> ip_len m - off <= 8 * Z.of_nat (length pool) ->
  exists l, frag_loop fuel pool m off n acc = Some (0, acc ++ l) /\ tiles (off - hlen_of m) l (len (payload m))
    /\ Forall (fun f => ip_len f <= hlen_of m + n) l.
Proof.
  induction fuel as [|fuel IH]; intros pool off n acc Hp Ho H8 Hn Hf Hpl; cbn [frag_loop];
    destruct (Z.ltb_spec off (ip_len m)) as [Hlt|Hge]; try lia.
  1, 3: exists []; rewrite app_nil_r; split; [done|]; split; [cbn; pose proof (whole_len m Hm); lia|done].
  destruct H8 as [H8|]; [|lia]. destruct Hn as [[Hn8 Hn]|]; [|lia].
  destruct pool as [|[hdr copy] pool]; [cbn in Hpl; lia|]. apply Forall_cons_iff in Hp as [[= <- <-] Hp]. cbn [negb].
  destruct (frag_header_spec m Hm) as (mhlen & h & Hfh & _). rewrite Hfh.
  set (last := ip_len m <=? off + n). set (n' := if last then ip_len m - off else n).
  assert (Hn' : 0 < n' <= n /\ off + n' <= ip_len m /\ (n' = n \/ off + n' = ip_len m)
    /\ last = (ip_len m <=? off + n')).
  { unfold n', last. destruct (Z.leb_spec (ip_len m) (off + n)); lia. }
  destruct Hn' as (Hn1 & Hn2 & Hn3 & Hn4).
  destruct (mk_frag_spec mhlen h off n' last Hfh ltac:(lia) ltac:(lia) Hn2 H8 Hn4) as [Hpc Hil].
  destruct (IH pool (off + n') n' (acc ++ [mk_frag m mhlen h off n' last]) Hp) as (l & -> & Ht & Hl).
  - lia.
  - destruct Hn3 as [->|]; [left|by right]. revert H8 Hn8. Z.to_euclidean_division_equations. lia.
  - destruct Hn3 as [->|]; [by left|by right].
  - lia.
  - cbn [length] in Hpl. lia.
  - exists (mk_frag m mhlen h off n' last :: l). split; [by rewrite <- app_assoc|]. split.
    + exists n'. split; [lia|]. split; [done|]. replace (off - hlen_of m + n') with (off + n' - hlen_of m)
        by lia. done.
    + apply Forall_cons_2; [lia|]. eapply Forall_impl; [|exact Hl]. cbn. lia.
Qed.
Lemma sendorfree_all l : forall results, Forall (eq 0) results -> sendorfree results 0 l = (0, l, []).
Proof.
  induction l as [|f l IH]; intros results Hr; [done|]. cbn [sendorfree]. change (0 =? 0) with true. cbv iota.
  assert (Hh : hd 0 results = 0) by (destruct results; [done|]; by apply Forall_cons_iff in Hr as [<- _]).
  assert (Ht : Forall (eq 0) (tail results)) by (destruct results; [done|]; by apply Forall_cons_iff in Hr as [_ ?]).
  by rewrite Hh, (IH _ Ht).
Qed.
Lemma land_lnot_7 x : Z.land x (Z.lnot 7) = 8 * (x / 8).
Proof. rewrite <- Z.ldiff_land. change 7 with (Z.ones 3).
rewrite Z.ldiff_ones_r, Z.shiftr_div_pow2, Z.shiftl_mul_pow2 by done. change (2 ^ 3) with 8. lia. Qed.
Lemma sendit_pieces mtu pool results : mtu < ip_len m -> hlen_of m + 8 <= mtu ->
  Forall (eq (true, true)) pool -> len (payload m) <= 8 * Z.of_nat (length pool) -> Forall (eq 0) results ->
  exists l n, sendit mtu pool results m = Some (mk_sent 0 l [] 0 0 n 1) /\ tiles 0 l (len (payload m))
    /\ Forall (fun f => ip_len f <= mtu) l.
Proof.
  intros Hmtu H8 Hp Hpl Hr. unfold sendit. rewrite (proj2 (Z.leb_gt _ _)) by lia. rewrite (w_off m Hm).
  change (negb (Z.land 0 IP_DF =? 0)) with false. cbv iota zeta. rewrite land_lnot_7.
  set (n := 8 * ((mtu - hlen_of m) / 8)).
  assert (Hn : n mod 8 = 0 /\ 8 <= n <= mtu - hlen_of m).
  { unfold n. revert H8. Z.to_euclidean_division_equations. lia. }
  rewrite (proj2 (Z.ltb_ge _ _)) by lia. pose proof (whole_len m Hm) as Hlen. pose proof (w_hl m Hm) as Hh.
  destruct (frag_loop_spec (Z.to_nat (ip_len m)) pool (hlen_of m + n) n [] Hp) as (l & -> & Ht & Hl); try lia.
  { left. replace (hlen_of m + n - hlen_of m) with n by lia. apply Hn. }
  cbn [app]. change (0 =? 0) with true. cbv iota. rewrite sendorfree_all by done.
  destruct (first_frag_spec n ltac:(lia) ltac:(lia) ltac:(lia)) as (Hf & Hfl & _). rewrite (w_off m Hm) in Hf, Hfl.
  eexists _, _. split; [reflexivity|]. split.
  - exists n. split; [lia|]. split; [exact Hf|]. replace (0 + n) with (hlen_of m + n - hlen_of m) by lia. exact Ht.
  - apply Forall_cons_2; [lia|]. eapply Forall_impl; [|exact Hl]. cbn. lia.
Qed.
End Pieces.
