(* ===== verification/IpThms.v ===== *)
(** * Fragments: results

    The refinement of the reassembly, the way of a datagram through fragments in
    any order, and what goes wrong beyond offset 32768, beyond 65535 bytes and
    with options; witnesses over a concrete library of mbufs. *)

From stdpp Require Import base list numbers sets.
From S2P Require Export IpFrag.

Definition no_fragments : ipstate := mk_ips [] 0 0 0 0 0 0 [] [].


Section Order.
Context `{ML : MbufLaws} `{CL : MbufCopyLaws} (ipfragttl : Z) (D : key -> dgram) (m : pkt).
Context (HD : D (key_of m) = (hlen_of m, payload m)).
#[local] Notation n := (len (payload m)).
#[local] Notation iv f := (frag_off f, len (payload f)).

Lemma tiles_piece l : forall lo hi f, tiles D m lo l hi -> f ∈ l -> exists k, is_piece D m (frag_off f) k f /\ 0 < k
  /\ lo <= frag_off f /\ frag_off f + k <= hi.
Proof.
  induction l as [|g l IH]; intros lo hi f Ht Hf; [by apply not_elem_of_nil in Hf|].
  destruct Ht as (k & Hk & Hg & Ht).
  assert (Hle : lo + k <= hi).
  { clear -Ht. revert Ht. generalize (lo + k). induction l as [|g l IH]; intros a Ha; cbn in Ha; [lia|].
    destruct Ha as (j & Hj & _ & Ha). apply IH in Ha. lia. }
  apply elem_of_cons in Hf as [->|Hf].
  - pose proof Hg as (_ & _ & _ & Ho & _ & _). rewrite Ho. exists k. split; [done|lia].
  - destruct (IH _ _ f Ht Hf) as (j & H1 & H2 & H3). exists j. split; [done|lia].
Qed.
Lemma tiles_cover l : forall lo hi x, tiles D m lo l hi -> lo <= x < hi ->
  exists f, f ∈ l /\ frag_off f <= x < frag_off f + len (payload f).
Proof.
  induction l as [|g l IH]; intros lo hi x Ht Hx; [cbn in Ht; lia|].
  destruct Ht as (k & Hk & (_ & _ & _ & Ho & Hn & _) & Ht). destruct (Z.lt_ge_cases x (lo + k)).
  - exists g. split; [apply list_elem_of_here|lia].
  - destruct (IH _ _ x Ht ltac:(lia)) as (f & Hf & Hfx). exists f. split; [by apply list_elem_of_further|done].
Qed.
(** No other piece has the first byte of [f]. *)
Lemma tiles_apart l : forall lo hi f g, tiles D m lo l hi -> f ∈ l -> g ∈ l ->
  frag_off g <= frag_off f < frag_off g + len (payload g) -> f = g.
Proof.
  induction l as [|h l IH]; intros lo hi f g Ht Hf Hg Hx; [by apply not_elem_of_nil in Hf|].
  destruct Ht as (k & Hk & (_ & _ & _ & Ho & Hn & _) & Ht).
  apply elem_of_cons in Hf, Hg. destruct Hf as [->|Hf], Hg as [->|Hg]; [done| | |by eapply IH].
  - destruct (tiles_piece l _ _ g Ht Hg) as (j & _ & Hj & Hlo & _). lia.
  - destruct (tiles_piece l _ _ f Ht Hf) as (j & _ & Hj & Hlo & _). lia.
Qed.

Lemma covers_parts l p : tiles D m 0 l n -> (forall f, f ∈ p -> f ∈ l) ->
  covers n ((fun f => iv f) <$> reverse p) = true <-> forall f, f ∈ l -> f ∈ p.
Proof.
  intros Ht Hsub. rewrite covers_spec. setoid_rewrite inside_spec. split.
  - intros Hc f Hf. destruct (tiles_piece l 0 n f Ht Hf) as (k & _ & Hk & Hlo & Hhi).
    destruct (Hc (frag_off f) ltac:(lia)) as (o & j & Hin & Hx).
    apply list_elem_of_fmap in Hin as (g & [= -> ->] & Hg).
    rewrite elem_of_reverse in Hg. by rewrite (tiles_apart l 0 n f g Ht Hf (Hsub g Hg) Hx).
  - intros Hall x Hx. destruct (tiles_cover l 0 n x Ht Hx) as (f & Hf & Hfx). exists (frag_off f), (len (payload f)).
    split; [|done]. apply list_elem_of_fmap. exists f. split; [done|]. by apply elem_of_reverse, Hall.
Qed.
Lemma spec_run_app a : forall b c, spec_run ipfragttl D (a ++ b) c =
  let '(o, c) := spec_run ipfragttl D a c in let '(o', c) := spec_run ipfragttl D b c in (o ++ o', c).
Proof.
  induction a as [|e a IH]; intros b c; cbn [spec_run app].
  { by destruct (spec_run ipfragttl D b c). }
  destruct (spec_step ipfragttl D e c) as [o c1]. rewrite IH. destruct (spec_run ipfragttl D a c1) as [o1 c2].
  destruct (spec_run ipfragttl D b c2). by rewrite app_assoc.
Qed.

(** What the specification has after the pieces [p]. *)
Definition collected (p : list pkt) : collecting :=
  match p with [] => [] | _ :: _ => [(key_of m, (ipfragttl, (fun f => iv f) <$> reverse p))] end.
Lemma find_key_head k e c : find_key k ((k, e) :: c) = Some 0%nat.
Proof. unfold find_key. cbn [list_find]. by destruct (decide _). Qed.
Lemma collected_step l p x : tiles D m 0 l n -> x ∈ l ->
  spec_step ipfragttl D (Arrive true x) (collected p) =
  if covers n ((fun f => iv f) <$> reverse (p ++ [x])) then ([(key_of m, D (key_of m), hlen_of x)], [])
  else ([], collected (p ++ [x])).
Proof.
  intros Ht Hx. destruct (tiles_piece l 0 n x Ht Hx) as (k & (_ & Hk & Hfr & _) & _).
  unfold spec_step. rewrite Hfr, Hk, reverse_snoc. destruct p as [|y p]; cbn [collected].
  - change (find_key (key_of m) []) with (@None nat). unfold collect. cbn [lookup list_lookup].
    rewrite HD. cbn [snd]. done.
  - rewrite find_key_head. unfold collect. cbn [alter list_alter lookup list_lookup]. rewrite HD. cbn [snd].
    rewrite fmap_cons. 
    change (collected ((y :: p) ++ [x])) with [(key_of m, (ipfragttl,
      (fun f => iv f) <$> reverse ((y :: p) ++ [x])))].
    by rewrite reverse_snoc.
Qed.
Lemma collected_run l p : tiles D m 0 l n -> (forall f, f ∈ p -> f ∈ l) -> ~ (forall f, f ∈ l -> f ∈ p) ->
  spec_run ipfragttl D (Arrive true <$> p) [] = ([], collected p).
Proof.
  intros Ht. induction p as [|x p IH] using rev_ind; intros Hsub Hnot; [done|].
  rewrite fmap_app, spec_run_app, IH.
  - cbn [fmap list_fmap spec_run]. rewrite (collected_step l p x Ht); [|apply Hsub; set_solver].
    destruct (covers n _) eqn:Hc; [|done]. destruct Hnot. by apply (covers_parts l (p ++ [x]) Ht Hsub).
  - intros f Hf. apply Hsub. set_solver.
  - intros Hall. apply Hnot. intros f Hf. specialize (Hall f Hf). set_solver.
Qed.
Lemma order_run l p x : tiles D m 0 l n -> (forall f, f ∈ p ++ [x] -> f ∈ l) -> (forall f, f ∈ l -> f ∈ p ++ [x]) ->
  ~ (forall f, f ∈ l -> f ∈ p) ->
  spec_run ipfragttl D (Arrive true <$> (p ++ [x])) [] = ([(key_of m, D (key_of m), hlen_of x)], []).
Proof.
  intros Ht Hsub Hall Hnot. rewrite fmap_app, spec_run_app, (collected_run l p Ht); [| |done].
  - cbn [fmap list_fmap spec_run]. rewrite (collected_step l p x Ht) by (apply Hsub; set_solver).
    by rewrite (proj2 (covers_parts l (p ++ [x]) Ht Hsub) Hall).
  - intros f Hf. apply Hsub. set_solver.
Qed.
End Order.

(** The code where the specification has one datagram and nothing else. *)
Lemma one_delivered `{MbufLaws} ipfragttl D l k n : Forall (event_ok D) l ->
  spec_run ipfragttl D l [] = ([(k, D k, n)], []) ->
  exists s d, ip_run ipfragttl l no_fragments = Some s /\ s_out s = [d] /\ ipqs s = []
  /\ is_datagram k (D k) (d_pkt d) /\ d_p d = k.2 /\ d_hlen d = n.
Proof.
  intros Hok Hspec. destruct (run_refines ipfragttl D _ no_fragments [] Hok) as (s & ds & E1 & [[E2 E3] _] & E4 & E5).
  { by repeat split; [constructor|]. }
  rewrite Hspec in E2, E5. cbn [fst snd] in *.
  pose proof (Forall2_length E5) as Hlen. destruct ds as [|d [|d2 ds]]; try done.
  inversion_clear E5 as [|? ? ? ? Hd _]. destruct Hd as (Hd1 & Hd2 & Hd3).
  exists s, d. split; [exact E1|]. split; [exact E4|]. split; [by inversion E2|]. split; [done|]. split; [|done].
  destruct Hd1 as [Hk _]. rewrite Hd2, <- Hk. done.
Qed.


(** ** A library of mbufs *)

Fixpoint trim_to (k : nat) (c : data_chain) : data_chain :=
  match c with [] => [] | b :: c => take k b :: trim_to (k - length b) c end.
#[local] Instance demo_lib : MbufLib := {
  m_adj c n := trim_to (length (concat c) - Z.to_nat (- n)) c;
  m_cat a b := a ++ b
}.
#[local] Instance demo_copy : MbufCopy := fun c off n => [take (Z.to_nat n) (drop (Z.to_nat off) (concat c))].
Lemma trim_to_spec c : forall k, concat (trim_to k c) = take k (concat c) /\ hd [] (trim_to k c) = take k (hd [] c).
Proof.
  induction c as [|b c IH]; intros k; cbn [trim_to concat hd]; [by rewrite take_nil|].
  split; [|done]. destruct (IH (k - length b)%nat) as [-> _]. by rewrite take_app.
Qed.
#[local] Instance demo_laws : MbufLaws.
Proof.
  split; [|intros; apply concat_app]. intros c n Hn k. subst k.
  change (m_adj c (- n)) with (trim_to (length (concat c) - Z.to_nat (- - n)) c). rewrite Z.opp_involutive.
  apply trim_to_spec.
Qed.
#[local] Instance demo_copy_laws : MbufCopyLaws.
Proof. intros c off n H1 H2 H3. unfold m_copy, demo_copy. cbn. by rewrite app_nil_r. Qed.

Definition demo_pkt (hl off : Z) (data : list Z) : pkt :=
  mk_pkt hl 0 (hl * 4 + len data) 77 off 17 0x0a000001 0x0a000002 [replicate (Z.to_nat (hl * 4)) 0; data].
Definition demo_datagram : key -> dgram := fun _ => (20, [1; 2; 3; 4; 5; 6; 7; 8; 9; 10; 11; 12; 13; 14;
  15; 16; 17; 18; 19; 20]).
Definition demo_events : list ip_event :=
  [Arrive true (demo_pkt 5 2 [17; 18; 19; 20]); Slowtimo; Arrive true (demo_pkt 5 0x2000 [1; 2; 3; 4; 5; 6; 7; 8]);
   Arrive true (demo_pkt 5 1 [9; 10; 11; 12; 13; 14; 15; 16; 17; 18; 19; 20]); Drain].
Lemma demo_arrives off data : (let m := demo_pkt 5 off data in
    (0 <=? off) && (off <? 32768) && (len data <? 1000) && bool_decide (key_of m = (77, 0x0a000001, 0x0a000002, 17))
    && (let l := len (payload m) in (0 <? l) && (frag_off m + l <=? 20) && bool_decide (more m = (frag_off
      m + l <? 20))
        && bool_decide (payload m = take (Z.to_nat l) (drop (Z.to_nat (frag_off m)) (demo_datagram (key_of
          m)).2)))) = true ->
  arrives demo_datagram (demo_pkt 5 off data).
Proof.
  cbv zeta. rewrite !andb_true_iff, !bool_decide_eq_true. intros [[[[H1 H2] H3] _] [[[H4 H5] H6] H7]].
  assert (Hl : ip_len (demo_pkt 5 off data) = len (concat (p_m (demo_pkt 5 off data)))).
  { change (20 + len data = len (replicate 20 0 ++ data ++ [])). unfold len.
  rewrite app_nil_r, length_app, length_replicate. lia. }
  assert (Hi : ip_len (demo_pkt 5 off data) = 20 + len data) by done.
  split; [done|done|done|lia|change (0 <= off < 32768); lia|]. intros _.
  change (len (demo_datagram (key_of (demo_pkt 5 off data))).2) with 20. cbv zeta.
  split; [lia|]. split; [lia|]. split; [lia|]. split; [lia|]. split; [done|]. split; [done|]. done.
Qed.
Definition demo_whole : pkt := demo_pkt 6 0 [1; 2; 3; 4; 5; 6; 7; 8; 9; 10; 11; 12; 13; 14; 15; 16; 17; 18; 19; 20].

(** ** What goes wrong *)

Definition run_one (l : list pkt) : option (list (Z * Z * Z)) :=
  match ip_run 60 (Arrive true <$> l) no_fragments with
  | Some s => Some ((fun d => (ip_len (d_pkt d), len (concat (p_m (d_pkt d))), d_hlen d)) <$> s_out s)
  | None => None
  end.
(** A fragment that comes after one from offset 32768 on loses all its bytes,
    header included: [pIpHdrFrag->ip_off] is a negative [short].  The datagram of
    32776 bytes is delivered as 8 bytes, with the length of all. *)
Theorem late_fragment_emptied :
  let a := demo_pkt 5 0x2000 (replicate 32768 1) in let b := demo_pkt 5 0x1000 (replicate 8 2) in
  run_one [a; b] = Some [(32776, 20 + 32776, 20)] /\ run_one [b; a] = Some [(32776, 8, 20)].
Proof. split; vm_compute; reflexivity. Qed.
(** Nothing compares the end of a fragment with 65535: 70000 bytes are delivered
    as a datagram whose length field says 4464. *)
Theorem long_datagram_wraps :
  run_one [demo_pkt 5 0x2000 (replicate 40000 1); demo_pkt 5 (40000 / 8) (replicate 30000 2)]
  = Some [(4464, 20 + 70000, 20)].
Proof. vm_compute. reflexivity. Qed.
(** The protocol is told the header length of the fragment that came last: the
    datagram begins with 24 bytes of header, the call says 20. *)
Theorem header_length_of_the_last :
  let a := demo_pkt 6 0x2000 (replicate 8 1) in let b := demo_pkt 5 1 (replicate 8 2) in
  run_one [a; b] = Some [(16, 24 + 16, 20)] /\ run_one [b; a] = Some [(16, 24 + 16, 24)].
Proof. split; vm_compute; reflexivity. Qed.
