(* ===== verification/IpHeader.v ===== *)
(** * ip_input.c: what [ipintr] accepts

    The part of [ipintr] (src/vxworks_test/netinet/ip_input.c) before the filter
    hook: the header, its checksum by [in_cksum] and the lengths, over chains of
    mbufs; against a check of the bytes as they come from the line.  [m_pullup]
    belongs to the library of mbufs.  The code turns the fields of the header in
    place and stores the result of [in_cksum] there; here the fields are those of
    [pkt], and the chain stays as it came.  [m_pkthdr.len] is the length of the
    chain, the counter of a packet that is dropped is the result. *)

From stdpp Require Import base list numbers.
From S2P Require Export IpReass Cksum.
From S2P Require Wire.

(** The same data with its first [n] bytes in one mbuf; fails without a buffer
    and when there are fewer. *)
Class MbufPullup := m_pullup : data_chain -> Z -> option data_chain.
Class MbufPullupLaws `{MbufPullup} := m_pullup_data c n c' :
  m_pullup c n = Some c' -> concat c' = concat c /\ n <= len (hd [] c').

(** The counter of a packet that is dropped, or the packet. *)
Inductive reason := ips_toosmall | ips_badvers | ips_badhlen | ips_badsum | ips_badlen | ips_tooshort.
Definition checked : Type := reason + pkt.

Definition byte (b : list Z) (i : nat) : Z := default 0 (b !! i).
(** ** Byte order *)

Definition swap16 (x : Z) : Z := Z.lor (Z.shiftl (Z.land x 0x00ff) 8) (Z.shiftr (Z.land x 0xff00) 8).
Definition ntohs (big : bool) (x : Z) : Z := if big then x else swap16 x.
(** The [u_short] at byte [i], and what it is behind NTOHS. *)
Definition load16 (big : bool) (b : list Z) (i : nat) : Z := word big (byte b i) (byte b (S i)).
Definition NTOHS (big : bool) (b : list Z) (i : nat) : Z := ntohs big (load16 big b i).
(** Two bytes in network order, and an address, which stays so. *)
Definition field16 (b : list Z) (i : nat) : Z := byte b i * 256 + byte b (S i).
Definition field32 (b : list Z) (i : nat) : Z := field16 b i * 65536 + field16 b (S (S i)).
Definition ip_v (b : list Z) : Z := byte b 0 / 16.
Definition the_ip_hl (b : list Z) : Z := byte b 0 mod 16.
Definition IPVERSION : Z := 4.
Definition sizeof_ip : Z := 20.

Section Check.
Context `{MbufLib} `{MbufPullup}.
(** The byte order of the machine, where the data of an mbuf are, whether the
    checksum is to be tested ([IP_DO_CHECKSUM_RCV]). *)
Context (big : bool) (mtod : list Z -> Z) (do_checksum : bool).

Definition segs (c : data_chain) : list seg := (fun b => mk_seg (mtod b) b) <$> c.
Definition pull (r : reason) (n : Z) (c : data_chain) (k : data_chain -> option checked) : option checked :=
  if len (hd [] c) <? n then
    match m_pullup c n with Some c => k c | None => Some (inl r) end
  else k c.
(** The data that the lengths leave. *)
Definition trim_to_len (n : Z) (c : data_chain) : data_chain :=
  if n <? len (concat c) then
    match c with
    | b :: rest =>
        if len b =? len (concat c) then take (Z.to_nat n) b :: rest else m_adj c (n - len (concat c))
    | [] => []
    end
  else c.
(** From the conversion of the fields on. *)
Definition check_len (hlen : Z) (c : data_chain) : checked :=
  let ip := hd [] c in
  let n := NTOHS big ip 2 in
  if n <? hlen then inl ips_badlen else
  if len (concat c) <? n then inl ips_tooshort else
  inr (mk_pkt (the_ip_hl ip) (byte ip 1) n (NTOHS big ip 4) (s16 (NTOHS big ip 6)) (byte ip 9)
    (field32 ip 12) (field32 ip 16) (trim_to_len n c)).
(** [None] for a checksum behind the data. *)
Definition ip_check (c : data_chain) : option checked :=
  pull ips_toosmall sizeof_ip c (fun c =>
  let ip := hd [] c in
  if negb (ip_v ip =? IPVERSION) then Some (inl ips_badvers) else
  let hlen := the_ip_hl ip * 4 in
  if hlen <? sizeof_ip then Some (inl ips_badhlen) else
  pull ips_badhlen hlen c (fun c =>
  match (if do_checksum then in_cksum big (segs c) hlen else Some 0) with
  | None => None
  | Some sum => if negb (sum =? 0) then Some (inl ips_badsum) else Some (check_len hlen c)
  end)).

(** ** The same, on the bytes that came *)

Definition ip_bytes_check (b : list Z) : checked :=
  if len b <? sizeof_ip then inl ips_toosmall else
  if negb (ip_v b =? IPVERSION) then inl ips_badvers else
  let hlen := the_ip_hl b * 4 in
  if (hlen <? sizeof_ip) || (len b <? hlen) then inl ips_badhlen else
  if do_checksum && negb (rfc1071 big (take (Z.to_nat hlen) b) =? 0) then inl ips_badsum else
  let n := field16 b 2 in
  if n <? hlen then inl ips_badlen else
  if len b <? n then inl ips_tooshort else
  inr (mk_pkt (the_ip_hl b) (byte b 1) n (field16 b 4) (s16 (field16 b 6)) (byte b 9)
    (field32 b 12) (field32 b 16) [take (Z.to_nat n) b]).
(** Equal but for where the data are. *)
Definition same_result (r : checked) (q : checked) : Prop :=
  match r, q with
  | inl a, inl b => a = b
  | inr p, inr q => p <| p_m := [concat (p_m p)] |> = q /\ hlen_of p <= len (hd [] (p_m p))
  | _, _ => False
  end.
End Check.

Lemma swap16_bytes a b : is_u8 a -> is_u8 b -> swap16 (a + b * 256) = a * 256 + b.
Proof.
  intros Ha Hb. unfold swap16. unfold is_u8 in *. change (2 ^ 8) with 256 in *.
  change 0xff00 with (Z.shiftl (Z.ones 8) 8). rewrite Z.shiftr_land, Z.shiftr_shiftl_l by done.
  cbn [Z.sub Z.shiftl Pos.iter].
  change 0xff with (Z.ones 8). change (Z.shiftl (Z.ones 8) (8 - 8)) with (Z.ones 8).
  rewrite !Z.land_ones, Z.shiftr_div_pow2 by done. change (2 ^ 8) with 256.
  rewrite Wire.lor_shift8 by (unfold is_u8; change (2 ^ 8) with 256; by apply Z.mod_pos_bound).
  Z.to_euclidean_division_equations; lia.
Qed.
Lemma byte_range b i : bytes b -> is_u8 (byte b i).
Proof.
  intros Hb. unfold byte. destruct (b !! i) as [z|] eqn:Hz; [|done]. unfold bytes in Hb. rewrite Forall_lookup in Hb.
  by apply (Hb i z).
Qed.
Lemma NTOHS_field big b i : bytes b -> NTOHS big b i = field16 b i.
Proof.
  intros Hb. unfold NTOHS, ntohs, load16, word, field16. destruct big; [done|].
  apply swap16_bytes; by apply byte_range.
Qed.
Lemma byte_hd (c : data_chain) i : Z.of_nat i < len (hd [] c) -> byte (hd [] c) i = byte (concat c) i.
Proof.
  destruct c as [|b c]; cbn [hd concat]; [done|]. intros Hi. unfold byte. rewrite lookup_app_l; [done|].
  unfold len in Hi. lia.
Qed.
Lemma field16_hd c i : Z.of_nat i + 1 < len (hd [] c) -> field16 (hd [] c) i = field16 (concat c) i.
Proof. intros Hi. unfold field16. by rewrite !byte_hd by lia. Qed.
Lemma field32_hd c i : Z.of_nat i + 3 < len (hd [] c) -> field32 (hd [] c) i = field32 (concat c) i.
Proof. intros Hi. unfold field32. by rewrite !field16_hd by lia. Qed.
Lemma hd_short (c : data_chain) : len (hd [] c) <= len (concat c).
Proof. destruct c; cbn [hd concat]; unfold len; rewrite ?length_app; cbn; lia. Qed.

Section Props.
Context `{ML : MbufLaws} `{PL : MbufPullupLaws} (big : bool) (mtod : list Z -> Z) (do_checksum : bool).

(** A failed call for the first [n] bytes of data that has as many. *)
Definition no_buffer (c : data_chain) (r : checked) : Prop := exists c' n r', concat c' = concat c
  /\ len (hd [] c') < n /\ n <= len (concat c) /\ n <= 60 /\ m_pullup c' n = None
  /\ r = inl r' /\ (r' = ips_toosmall \/ r' = ips_badhlen).
Lemma pull_spec r n c k (P : option checked -> Prop) :
  (len (concat c) < n -> P (Some (inl r))) ->
  (n <= len (concat c) -> len (hd [] c) < n -> m_pullup c n = None -> P (Some (inl r))) ->
  (n <= len (concat c) -> forall c', concat c' = concat c -> n <= len (hd [] c') -> P (k c')) -> P (pull r n c k).
Proof.
  intros H1 H2 H3. unfold pull. pose proof (hd_short c). destruct (Z.ltb_spec (len (hd [] c)) n) as [Hlt|Hge].
  - destruct (m_pullup c n) as [c'|] eqn:Hp.
    + destruct (m_pullup_data _ _ _ Hp) as [Hc Hn]. pose proof (hd_short c'). rewrite Hc in *. by apply H3; [lia|..].
    + destruct (Z.lt_ge_cases (len (concat c)) n); [by apply H1|by apply H2].
  - by apply H3; [lia|..].
Qed.
Lemma trim_to_len_spec n c : 0 <= n <= len (concat c) ->
  concat (trim_to_len n c) = take (Z.to_nat n) (concat c)
  /\ Z.min n (len (hd [] c)) <= len (hd [] (trim_to_len n c)).
Proof.
  intros Hn. unfold trim_to_len. destruct (Z.ltb_spec n (len (concat c))) as [Hlt|Hge].
  2: { split; [|lia]. symmetry. apply take_ge. unfold len in *. lia. }
  destruct c as [|b c]; [unfold len in Hlt; cbn in Hlt; lia|].
  destruct (Z.eqb_spec (len b) (len (concat (b :: c)))) as [He|He].
  - cbn [concat hd] in *. unfold len in *. rewrite length_app in He.
    assert (Hc : concat c = []) by (destruct (concat c); [done|cbn in He; lia]).
    rewrite Hc, !app_nil_r. split; [done|]. rewrite length_take. lia.
  - destruct (m_adj_tail (b :: c) (len (concat (b :: c)) - n)) as [H1 H2]; [unfold len in *; lia|].
    replace (- (len (concat (b :: c)) - n)) with (n - len (concat (b :: c))) in H1, H2 by lia.
    replace (length (concat (b :: c)) - Z.to_nat (len (concat (b :: c)) - n))%nat with (Z.to_nat n) in H1, H2
      by (unfold len in *; lia).
    split; [done|]. rewrite H2. cbn [hd]. unfold len. rewrite length_take. lia.
Qed.
Lemma segs_bytes c : w_bytes <$> segs mtod c = c.
Proof. unfold segs. rewrite <- list_fmap_compose. apply list_fmap_id. Qed.
Lemma segs_ok c : bytes (concat c) -> Forall (fun m => bytes (w_bytes m)) (segs mtod c).
Proof.
  induction c as [|b c IH]; cbn [concat]; [constructor|]. intros [H1 H2]%Forall_app.
  constructor; [exact H1|by apply IH].
Qed.

Lemma check_len_spec hlen b c n : concat c = b -> 20 <= hlen <= len (hd [] c) -> hlen = the_ip_hl b * 4 -> bytes b ->
  n = field16 b 2 ->
  same_result (check_len big hlen c) (if n <? hlen then inl ips_badlen else if len b <? n then inl ips_tooshort else
    inr (mk_pkt (the_ip_hl b) (byte b 1) n (field16 b 4) (s16 (field16 b 6)) (byte b 9)
      (field32 b 12) (field32 b 16) [take (Z.to_nat n) b])).
Proof.
  intros <- Hh Hl Hb ->. assert (Hbh : bytes (hd [] c)) by (destruct c;
    [constructor|by apply Forall_app in Hb as [Hb _]]).
  unfold check_len, the_ip_hl in *. rewrite !NTOHS_field by done. rewrite !field16_hd, !field32_hd, !byte_hd by lia.
  destruct (Z.ltb_spec (field16 (concat c) 2) hlen) as [H1|H1]; [done|].
  destruct (Z.ltb_spec (len (concat c)) (field16 (concat c) 2)) as [H2|H2]; [done|].
  destruct (trim_to_len_spec (field16 (concat c) 2) c ltac:(lia)) as [H3 H4]. split.
  - cbn. by rewrite H3.
  - unfold hlen_of. cbn [ip_hl p_m]. lia.
Qed.
(** The result on a chain is that on its bytes. *)
Lemma ip_check_spec c : bytes (concat c) ->
  exists r, ip_check big mtod do_checksum c = Some r
  /\ (same_result r (ip_bytes_check big do_checksum (concat c)) \/ no_buffer c r).
Proof.
  intros Hb. unfold ip_check. apply pull_spec.
  - intros Hs. eexists. split; [reflexivity|]. left. unfold ip_bytes_check. by rewrite (proj2 (Z.ltb_lt _ _)).
  - intros H1 H2 H3. eexists. split; [reflexivity|]. right. exists c, sizeof_ip, ips_toosmall.
    repeat (split; [done|]). by left.
  - intros H20 c1 Hc1 Hn1. unfold ip_bytes_check. rewrite (proj2 (Z.ltb_ge _ _) H20).
    unfold sizeof_ip in *. assert (Hb0 : byte (hd [] c1) 0 = byte (concat c) 0) by (rewrite byte_hd,
      Hc1 by (cbn; lia); done).
    assert (Hv : ip_v (hd [] c1) = ip_v (concat c)) by (unfold ip_v; by rewrite Hb0).
    assert (Hi : the_ip_hl (hd [] c1) = the_ip_hl (concat c)) by (unfold the_ip_hl; by rewrite Hb0). rewrite Hv, Hi.
    destruct (negb (ip_v (concat c) =? IPVERSION)); [by eexists; split; [reflexivity|left]|].
    cbv zeta.
    assert (Hhl : 0 <= the_ip_hl (concat c) < 16) by by apply Z.mod_pos_bound.
    destruct (Z.ltb_spec (the_ip_hl (concat c) * 4) 20) as [Hl|Hl]; cbn [orb]; [by eexists; split;
      [reflexivity|left]|].
    apply pull_spec; rewrite Hc1.
    + intros Hs. eexists. split; [reflexivity|]. left. by rewrite (proj2 (Z.ltb_lt _ _)).
    + intros H1 H2 H3. eexists. split; [reflexivity|]. right.
      exists c1, (the_ip_hl (concat c) * 4), ips_badhlen. repeat (split; [done || lia|]). by right.
    + intros Hh c2 Hc2 Hn2. rewrite (proj2 (Z.ltb_ge _ _) Hh). set (hlen := the_ip_hl (concat c) * 4) in *.
      assert (Hck : in_cksum big (segs mtod c2) hlen = Some (rfc1071 big (take (Z.to_nat hlen) (concat c)))).
      { rewrite cksum_rfc1071; [by rewrite segs_bytes, Hc2|apply segs_ok; by rewrite Hc2|lia]. }
      rewrite Hck. destruct do_checksum; cbn [andb].
      1: destruct (rfc1071 _ _ =? 0); cbn [negb]; [|by eexists; split; [reflexivity|left]].
      all: eexists; split; [reflexivity|]; left; by apply check_len_spec.
Qed.
End Props.

Lemma field16_range b i : bytes b -> 0 <= field16 b i <= 65535.
Proof.
  intros Hb. pose proof (byte_range b i Hb). pose proof (byte_range b (S i) Hb).
  unfold field16, is_u8 in *. change (2 ^ 8) with 256 in *. lia.
Qed.
(** The lengths of a packet that passed. *)
Definition sound_lengths (m : pkt) : Prop :=
  20 <= hlen_of m <= 60 /\ hlen_of m <= len (hd [] (p_m m)) /\ ip_len m = len (concat (p_m m)) /\ ip_len m <= 65535.
Lemma ip_bytes_check_lengths big ck b r m : bytes b -> same_result r (ip_bytes_check big ck b) ->
  r = inr m -> sound_lengths m.
Proof.
  intros Hb Hs ->. unfold ip_bytes_check in Hs. destruct (_ <? _); [done|]. destruct (negb _); [done|].
  destruct (Z.ltb_spec (the_ip_hl b * 4) sizeof_ip) as [|H20]; [done|]. cbn [orb] in Hs.
  destruct (_ <? _); [done|]. destruct (_ && _); [done|].
  destruct (Z.ltb_spec (field16 b 2) (the_ip_hl b * 4)); [done|].
  destruct (Z.ltb_spec (len b) (field16 b 2)); [done|].
  destruct Hs as [Hm Hh]. pose proof (field16_range b 2 Hb). assert (the_ip_hl b < 16) by by apply Z.mod_pos_bound.
  destruct m as [hl tos n id off p src dst d].
  injection Hm as -> _ -> _ _ _ _ _ Hd. unfold sound_lengths, hlen_of, sizeof_ip in *. cbn [ip_hl ip_len p_m] in *.
  split; [lia|]. split; [done|]. split; [|lia]. rewrite Hd. unfold len in *. rewrite length_take. lia.
Qed.

(** ** The result *)

(** C15: what [ipintr] does with a packet before it looks at options and
    addresses depends on its bytes only, not on how they lie in mbufs, except
    that a buffer for the header may be wanting: it never reads behind the data,
    it drops the packet for the first of the reasons for which the bytes are to
    be dropped, or goes on with the fields and the bytes that the header gives;
    then the header is whole and in the first mbuf and the data are as long as
    the header says, which is what the code behind relies on. *)
Theorem ip_check_bytes `{MbufLaws} `{MbufPullupLaws} big mtod do_checksum c : bytes (concat c) ->
  exists r, ip_check big mtod do_checksum c = Some r
  /\ (same_result r (ip_bytes_check big do_checksum (concat c)) \/ no_buffer c r)
  /\ forall m, r = inr m -> sound_lengths m.
Proof.
  intros Hb. destruct (ip_check_spec big mtod do_checksum c Hb) as (r & Hr & Hs). exists r. split; [done|].
  split; [done|].
  intros m ->. destruct Hs as [Hs|(? & ? & ? & _ & _ & _ & _ & _ & Hn & _)]; [by eapply ip_bytes_check_lengths|done].
Qed.

(** ** A library of mbufs, and a packet *)

#[local] Instance adj_lib : MbufLib := {
  m_adj c n := [take (length (concat c) - Z.to_nat (- n)) (hd [] c);
    take (length (concat c) - Z.to_nat (- n) - length (hd [] c)) (concat (tail c))];
  m_cat a b := a ++ b
}.
#[local] Instance adj_laws : MbufLaws.
Proof.
  split; [|intros; apply concat_app]. intros c n Hn k. unfold m_adj, adj_lib. rewrite Z.opp_involutive.
  cbn [hd concat].
  split; [|done]. rewrite app_nil_r. destruct c as [|b c]; cbn [hd tail concat]; [cbn [app];
    by rewrite !take_nil|]. by rewrite <- take_app.
Qed.
#[local] Instance flat_pullup : MbufPullup := fun c n => if n <=? len (concat c) then Some [concat c] else None.
#[local] Instance flat_pullup_laws : MbufPullupLaws.
Proof.
  intros c n c'. unfold m_pullup, flat_pullup. destruct (Z.leb_spec n (len (concat c))); [|done]. intros [= <-].
  cbn. by rewrite app_nil_r.
Qed.
(** 22 bytes in a header of 20, and two bytes of padding; the header in three
    mbufs. *)
Definition demo_in : data_chain :=
  [[69; 0; 0; 22; 1]; [2; 0; 0; 64; 17; 101; 211; 10; 0; 0]; [1; 10; 0; 0; 2; 7; 8; 0; 0]].
Lemma ip_check_bytes_witness : (exists r, ip_check true (fun _ => 4) true demo_in = Some r
    /\ (same_result r (ip_bytes_check true true (concat demo_in)) \/ no_buffer demo_in r)
    /\ forall m, r = inr m -> sound_lengths m)
  /\ ip_bytes_check true true (concat demo_in)
    = inr (mk_pkt 5 0 22 258 0 17 0x0a000001 0x0a000002 [take 22 (concat demo_in)]).
Proof.
  split; [|vm_compute; reflexivity]. apply (ip_check_bytes true (fun _ => 4) true demo_in).
  unfold demo_in. cbn [concat app]. repeat (apply Forall_cons_2; [by split|]). apply Forall_nil_2.
Defined.
