(* ===== verification/IpPath.v ===== *)
(** * From ip_output.c to ip_input.c: a datagram over the wire

    The header as [ip_output] writes it for [if_output], with [htons] and the
    checksum; that a host of either byte order reads the packet back from it; and
    the way of a datagram from the fragments that the sender makes to the transport
    of the receiver. *)

From stdpp Require Import base list numbers sets.
From S2P Require Export IpThms IpHeader.

(** A [u_short] in network order. *)
Definition net16 (x : Z) : list Z := [u8 (x / 256); u8 x].
(** An address. *)
Definition net32 (x : Z) : list Z := net16 (x / 65536) ++ net16 x.
(** A [u_short] in memory; [htons] is the exchange that [ntohs] is. *)
Definition store16 (big : bool) (x : Z) : list Z := if big then net16 x else rev (net16 x).
Definition htons (big : bool) (x : Z) : Z := if big then x else swap16 x.
Definition HTONS (big : bool) (x : Z) : list Z := store16 big (htons big (u16 x)).

(** The header of [m] with [ip_ttl] and the options that its first mbuf has. *)
Definition ip_put_header (big : bool) (m : pkt) (sum : list Z) : list Z :=
  let h := hd [] (p_m m) in
  [IPVERSION * 16 + ip_hl m mod 16; u8 (ipf_mff m)] ++ HTONS big (ip_len m) ++ HTONS big (ip_id m) ++ HTONS
    big (ip_off m)
  ++ [byte h 8; u8 (ip_p m)] ++ sum ++ net32 (ip_src m) ++ net32 (ip_dst m) ++ drop 20 h.
Definition with_ip_header (big : bool) (m : pkt) (sum : list Z) : data_chain := ip_put_header big m sum ::
  tail (p_m m).

Section Wire.
(** The byte order of the sender, where the data of an mbuf are, and
    [IP_DO_CHECKSUM_SND]. *)
Context (big : bool) (mtod : list Z -> Z) (do_checksum : bool).
(** What [if_output] gets; [None] for a checksum behind the data. *)
Definition wire (m : pkt) : option data_chain :=
  let m0 := with_ip_header big m [0; 0] in
  if do_checksum then
    match in_cksum big (segs mtod m0) (hlen_of m) with
    | Some sum => Some (with_ip_header big m (store16 big sum))
    | None => None
    end
  else Some m0.
End Wire.

(** A packet whose fields have the widths of [struct ip]. *)
Record sendable (m : pkt) : Prop := {
  n_hl : 20 <= hlen_of m <= 60;
  n_first : hlen_of m <= len (hd [] (p_m m));
  n_len : ip_len m = len (concat (p_m m)) /\ ip_len m <= 65535;
  n_id : 0 <= ip_id m < 65536;
  n_off : -32768 <= ip_off m < 32768;
  n_p : is_u8 (ip_p m);
  n_src : is_u32 (ip_src m);
  n_dst : is_u32 (ip_dst m);
  n_bytes : bytes (concat (p_m m))
}.

(** ** Fields *)

Lemma net16_bytes x : bytes (net16 x).
Proof. repeat constructor; apply u8_range. Qed.
Lemma field16_net16 x l : field16 (net16 x ++ l) 0 = u16 x.
Proof.
  unfold field16, byte, net16, u8, u16. cbn. change (2 ^ 8) with 256. change (2 ^ 16) with 65536.
  Z.to_euclidean_division_equations; lia.
Qed.
Lemma field32_net32 x l : is_u32 x -> field32 (net32 x ++ l) 0 = x.
Proof.
  intros Hx. unfold field32. change (field16 (net32 x ++ l) 2) with (field16 (net16 x ++ l) 0).
  change (field16 (net32 x ++ l) 0) with (field16 (net16 (x / 65536) ++ net16 x ++ l) 0). rewrite !field16_net16.
  unfold is_u32, u16 in *. change (2 ^ 16) with 65536. change (2 ^ 32) with 4294967296 in Hx.
  Z.to_euclidean_division_equations; lia.
Qed.
Lemma s16_u16 x : -32768 <= x < 32768 -> s16 (u16 x) = x.
Proof.
  intros Hx. unfold s16, u16. change (2 ^ 16) with 65536. change (2 ^ 15) with 32768. rewrite Z.mod_mod by done.
  destruct (Z.ltb_spec (x mod 65536) 32768); Z.to_euclidean_division_equations; lia.
Qed.
Lemma word_store16 big x : 0 <= x <= 65535 -> exists a b, store16 big x = [a;
  b] /\ is_u8 a /\ is_u8 b /\ word big a b = x.
Proof.
  intros Hx. unfold store16, net16, word. destruct big; do 2 eexists; (split; [reflexivity|]);
    (split; [apply u8_range|]); (split; [apply u8_range|]);
    unfold u8; change (2 ^ 8) with 256; Z.to_euclidean_division_equations; lia.
Qed.

Lemma net16_u16 x : net16 (u16 x) = net16 x.
Proof.
  unfold net16, u8, u16. change (2 ^ 16) with 65536. change (2 ^ 8) with 256.
  f_equal; [|f_equal]; Z.to_euclidean_division_equations; lia.
Qed.
Lemma net16_swap y : 0 <= y < 65536 -> rev (net16 (swap16 y)) = net16 y.
Proof.
  intros Hy. assert (Hab : exists a b, y = a + b * 256 /\ 0 <= a < 256 /\ 0 <= b < 256).
  { exists (y mod 256), (y / 256). Z.to_euclidean_division_equations; lia. }
  destruct Hab as (a & b & -> & Ha & Hb). rewrite swap16_bytes by done. unfold net16, u8.
  change (2 ^ 8) with 256. cbn [rev app].
  f_equal; [|f_equal]; Z.to_euclidean_division_equations; lia.
Qed.
Lemma HTONS_net big x : HTONS big x = net16 x.
Proof.
  rewrite <- net16_u16. unfold HTONS, htons, store16. destruct big; [done|]. apply net16_swap.
  by apply Z.mod_pos_bound.
Qed.

(** ** The checksum between two byte orders *)

Lemma all_ones_turn l h : bytes l -> stands 65535 (wsum h l) -> stands 65535 (wsum (negb h) l).
Proof.
  intros Hl Hs. eapply stands_trans; [|by apply wsum_turn].
  eapply stands_trans; [|apply stands_mul, Hs; lia]. by split_and!.
Qed.
Lemma cksum_ok big big' a b h1 h2 : bytes (a ++ [0; 0] ++ b) -> Nat.even (length a) = true -> is_u8 h1 -> is_u8 h2 ->
  word big h1 h2 = rfc1071 big (a ++ [0; 0] ++ b) -> rfc1071 big' (a ++ [h1; h2] ++ b) = 0.
Proof.
  intros Hz He H1 H2 Hw.
  assert (Hb : bytes (a ++ [h1; h2] ++ b)).
  { unfold bytes in *. rewrite !Forall_app, !Forall_cons_iff in *. tauto. }
  assert (Hs : stands 65535 (wsum big (a ++ [h1; h2] ++ b))).
  { destruct (rfc1071_stands big _ Hz) as [Hs Hr]. rewrite wsum_field by done.
    replace 65535 with (65535 - rfc1071 big (a ++ [0; 0] ++ b) + word big h1 h2) by lia.
    apply stands_add; [done|]. rewrite Hw. apply stands_refl, Hr. }
  rewrite (rfc1071_unique big' _ 65535); [done|done|done|].
  destruct big, big'; try done; [by apply (all_ones_turn _ true)|by apply (all_ones_turn _ false)].
Qed.

(** ** The packet on the wire *)

Lemma hl_range m : sendable m -> 5 <= ip_hl m <= 15.
Proof. intros [Hh]. unfold hlen_of in Hh. lia. Qed.
(** The header that comes out. *)
Definition net_header (m : pkt) (sum : list Z) : list Z :=
  let h := hd [] (p_m m) in
  [IPVERSION * 16 + ip_hl m mod 16; u8 (ipf_mff m)] ++ net16 (ip_len m) ++ net16 (ip_id m) ++ net16 (ip_off m)
  ++ [byte h 8; u8 (ip_p m)] ++ sum ++ net32 (ip_src m) ++ net32 (ip_dst m) ++ drop 20 h.
Definition with_header (m : pkt) (sum : list Z) : data_chain := net_header m sum :: tail (p_m m).
Lemma with_header_net big m sum : with_ip_header big m sum = with_header m sum.
Proof. unfold with_ip_header, ip_put_header. by rewrite !HTONS_net. Qed.
(** What is before and behind the checksum. *)
Definition before_sum (m : pkt) : list Z := take 10 (net_header m [0; 0]).
Definition behind_sum (m : pkt) : list Z := drop 12 (net_header m [0; 0]) ++ concat (tail (p_m m)).
Lemma with_header_parts m a b : concat (with_header m [a; b]) = before_sum m ++ [a; b] ++ behind_sum m.
Proof. unfold with_header, before_sum, behind_sum. cbn [concat]. unfold net_header. cbn. done. Qed.
Lemma before_len m : length (before_sum m) = 10%nat.
Proof. done. Qed.
Lemma data_parts m : sendable m -> exists h, p_m m = h :: tail (p_m m) /\ 20 <= len h /\ hlen_of m <= len h.
Proof.
  intros [Hh Hf]. destruct (p_m m) as [|h c]; cbn [hd] in Hf; [change (len []) with 0 in Hf; lia|].
  exists h. cbn. split; [done|lia].
Qed.
Lemma wire_data m a b : sendable m -> let c := with_header m [a; b] in
  len (concat c) = len (concat (p_m m)) /\ hlen_of m <= len (hd [] c)
  /\ drop (Z.to_nat (hlen_of m)) (concat c) = payload m.
Proof.
  intros Hm c. pose proof (n_hl m Hm) as Hhl. destruct (data_parts m Hm) as (h & Hp & H20 & Hh).
  set (x := before_sum m ++ [a; b] ++ net32 (ip_src m) ++ net32 (ip_dst m)).
  assert (Hx : length x = 20%nat) by done.
  assert (Hc : c = (x ++ drop 20 h) :: tail (p_m m)) by (replace h with (hd [] (p_m m)) by (by rewrite Hp); done).
  assert (Hh20 : length h = (20 + length (drop 20 h))%nat) by (rewrite length_drop; unfold len in H20; lia).
  rewrite Hc. cbn [concat hd]. unfold payload. rewrite Hp. cbn [concat tail]. unfold len in *.
  rewrite !length_app, Hx. cbn [tail].
  split; [lia|]. split; [lia|]. replace (Z.to_nat (hlen_of m)) with (20 + (Z.to_nat (hlen_of m) - 20))%nat by lia.
  rewrite <- app_assoc, <- !drop_drop. rewrite (drop_app_length' x) by done. by rewrite (drop_app_le h) by lia.
Qed.
Lemma wire_bytes m a b : sendable m -> is_u8 a -> is_u8 b -> bytes (concat (with_header m [a; b])).
Proof.
  intros Hm Ha Hb. pose proof (n_bytes m Hm) as Hd. destruct (data_parts m Hm) as (h & Hp & H20 & _).
  pose proof (hl_range m Hm). rewrite Hp in Hd. apply Forall_app in Hd as [Hd1 Hd2].
  unfold with_header, net_header. rewrite Hp. cbn [concat hd tail]. unfold bytes, net32. rewrite !Forall_app.
  pose proof (net16_bytes) as Hn. unfold bytes in Hn.
  repeat split; auto; [| |by apply Forall_drop].
  - constructor; [|constructor; [apply u8_range|constructor]]. unfold is_u8, IPVERSION. change (2 ^ 8) with 256.
    rewrite Z.mod_small; lia.
  - constructor; [|constructor; [apply u8_range|constructor]]. unfold byte.
    destruct (h !! 8%nat) as [z|] eqn:Hz; [|by split]. rewrite Forall_lookup in Hd1. by apply (Hd1 8%nat).
Qed.

Lemma wire_sum big big' mtod snd m : sendable m ->
  exists a b, wire big mtod snd m = Some (with_header m [a; b]) /\ is_u8 a /\ is_u8 b
  /\ (snd = true -> rfc1071 big' (take (Z.to_nat (hlen_of m)) (concat (with_header m [a; b]))) = 0).
Proof.
  intros Hm. pose proof (n_hl m Hm) as Hh.
  unfold wire. cbv zeta. rewrite with_header_net. destruct snd; [|by exists 0, 0].
  pose proof (wire_bytes m 0 0 Hm ltac:(by split) ltac:(by split)) as Hz.
  rewrite cksum_rfc1071, segs_bytes by (first [by apply segs_ok|lia]). rewrite with_header_parts in *.
  set (k := (Z.to_nat (hlen_of m) - 12)%nat).
  assert (Hk : forall a b, take (Z.to_nat (hlen_of m)) (before_sum m ++ [a; b] ++ behind_sum m)
    = before_sum m ++ [a; b] ++ take k (behind_sum m)).
  { intros a b. replace (Z.to_nat (hlen_of m)) with (length (before_sum m) + (2 + k))%nat by (rewrite
    before_len; unfold k; lia).
    by rewrite take_app_add. }
  rewrite Hk. assert (Hz' : bytes (before_sum m ++ [0; 0] ++ take k (behind_sum m))) by (rewrite <- Hk;
    by apply Forall_take).
  destruct (rfc1071_stands big _ Hz') as [_ Hr]. destruct (word_store16 big _ Hr) as (a & b & -> & Ha & Hb' & Hw).
  exists a, b. rewrite with_header_net. split; [done|]. split; [done|]. split; [done|]. intros _.
  rewrite with_header_parts, Hk. by apply (cksum_ok big).
Qed.

(** A host of any byte order accepts the bytes, with more behind them, and has
    the packet. *)
Lemma wire_check big big' mtod snd rcv m pad : sendable m -> bytes pad -> (rcv = true -> snd = true) ->
  exists w, wire big mtod snd m = Some w /\ bytes (concat w) /\ len (concat w) = ip_len m
  /\ ip_bytes_check big' rcv (concat w ++ pad) = inr (m <| ipf_mff ::= u8 |> <| p_m := [concat w] |>)
  /\ drop (Z.to_nat (hlen_of m)) (concat w) = payload m.
Proof.
  intros Hm Hpad Hck. destruct Hm as [Hh Hf [Hl Hl2] Hid Hoff Hpp Hs Hd Hb] eqn:E. clear E.
  destruct (wire_sum big big' mtod snd m Hm) as (a & b & -> & Ha & Hb' & Hsum). exists (with_header m [a; b]).
  destruct (wire_data m a b Hm) as (Hwl & Hwh & Hwd). pose proof (hl_range m Hm) as Hr.
  split; [done|]. split; [by apply wire_bytes|]. split; [lia|]. split; [|done].
  set (w := concat (with_header m [a; b])) in *. set (B := w ++ pad).
  assert (H0 : byte B 0 = IPVERSION * 16 + ip_hl m) by (change (byte B 0) with (IPVERSION * 16 + ip_hl m
    mod 16); rewrite Z.mod_small; lia).
  assert (Hv : ip_v B = IPVERSION) by (unfold ip_v; rewrite H0; unfold IPVERSION;
    Z.to_euclidean_division_equations; lia).
  assert (Hi : the_ip_hl B = ip_hl m) by (unfold the_ip_hl; rewrite H0; unfold IPVERSION;
    Z.to_euclidean_division_equations; lia).
  assert (Hn : field16 B 2 = ip_len m).
  { etransitivity; [exact (field16_net16 (ip_len m) [])|]. apply Z.mod_small. unfold len in Hl.
  change (2 ^ 16) with 65536. lia. }
  assert (Hd4 : field16 B 4 = ip_id m).
  { etransitivity; [exact (field16_net16 (ip_id m) [])|]. by apply Z.mod_small. }
  assert (Ho : s16 (field16 B 6) = ip_off m).
  { rewrite <- (s16_u16 (ip_off m)) by done. f_equal. exact (field16_net16 (ip_off m) []). }
  assert (Hp : byte B 9 = ip_p m) by (exact (u8_id _ Hpp)).
  assert (Hsrc : field32 B 12 = ip_src m) by exact (field32_net32 (ip_src m) [] Hs).
  assert (Hdst : field32 B 16 = ip_dst m) by exact (field32_net32 (ip_dst m) [] Hd).
  assert (HB : len B = ip_len m + len pad) by (unfold B, len in *; rewrite length_app; lia).
  assert (Htake : forall n, n <= ip_len m -> take (Z.to_nat n) B = take (Z.to_nat n) w).
  { intros n Hle. unfold B. rewrite take_app_le; [done|unfold len in *; lia]. }
  unfold ip_bytes_check. rewrite Hv, Hi, Hn, Hd4, Ho, Hp, Hsrc, Hdst, HB. unfold sizeof_ip, hlen_of in *.
  assert (Hhw : ip_hl m * 4 <= ip_len m) by (pose proof (hd_short (p_m m)); lia).
  rewrite !(proj2 (Z.ltb_ge _ _)) by (unfold len in *; lia). cbn [orb negb].
  change (IPVERSION =? IPVERSION) with true. cbn [negb].
  rewrite Htake by lia. replace (rcv && negb (rfc1071 big' (take (Z.to_nat (ip_hl m * 4)) w) =? 0)) with false.
  2: { destruct rcv; [|done]. by rewrite Hsum by auto. }
  rewrite Htake, take_ge by (unfold len in *; lia). done.
Qed.

(** ** The bytes of the fragments *)

Definition has_bytes (f : pkt) : Prop := bytes (concat (p_m f)).
Lemma optcopy_loop_bytes fuel : forall cp cnt dp r, bytes cp -> bytes dp ->
  optcopy_loop fuel cp cnt dp = Some r -> bytes r.
Proof.
  unfold bytes. induction fuel as [|fuel IH]; intros cp cnt dp r Hc Hd; cbn [optcopy_loop];
    destruct (0 <? cnt); try congruence.
  destruct cp as [|opt rest]; [done|]. destruct (opt =? IPOPT_EOL); [congruence|].
  destruct (opt =? IPOPT_NOP).
  - apply Forall_cons_iff in Hc as [_ Hc]. apply IH; [done|]. apply Forall_app. split; [done|]. by repeat constructor.
  - destruct rest as [|o rest]; [done|]. apply IH; [by apply Forall_drop|].
    destruct (IPOPT_COPIED opt); [|done]. apply Forall_app. split; [done|]. by apply Forall_take.
Qed.
Lemma optcopy_pad_bytes fuel : forall dp, bytes dp -> bytes (optcopy_pad fuel dp).
Proof.
  unfold bytes. induction fuel as [|fuel IH]; intros dp Hd; cbn [optcopy_pad];
    destruct (Z.land (len dp) 3 =? 0); try done.
  apply IH, Forall_app. split; [done|]. by repeat constructor.
Qed.
Lemma frag_header_bytes m mhlen h : has_bytes m -> frag_header m = Some (mhlen, h) -> bytes h.
Proof.
  intros Hm. unfold frag_header, ip_optcopy. 
  assert (Hh : bytes (hd [] (p_m m))).
  { unfold has_bytes in Hm. destruct (p_m m); [constructor|]. by apply Forall_app in Hm as [Hm _]. }
  destruct (IP_HDR <? hlen_of m); [|intros [= _ <-]; by apply Forall_take].
  destruct (optcopy_loop _ _ _ _) as [dp|] eqn:Hl; [|done]. intros [= _ <-]. apply Forall_app.
  split; [by apply Forall_take|]. apply (optcopy_pad_bytes 3).
  eapply optcopy_loop_bytes; [| |exact Hl]; [|constructor].
  by apply Forall_take, Forall_drop.
Qed.

Section Bytes.
Context `{ML : MbufLaws} `{CL : MbufCopyLaws} (m : pkt).
Context (Hm : has_bytes m) (Hlen : ip_len m = len (concat (p_m m))).

Lemma frag_loop_bytes fuel : forall pool off n acc e l, 0 <= off -> 0 <= n -> Forall has_bytes acc ->
  frag_loop fuel pool m off n acc = Some (e, l) -> Forall has_bytes l.
Proof.
  induction fuel as [|fuel IH]; intros pool off n acc e l Ho Hn Ha; cbn [frag_loop];
    destruct (Z.ltb_spec off (ip_len m)); try (by intros [= _ <-]).
  destruct pool as [|[hdr copy] pool]; [done|]. destruct hdr; cbn [negb]; [|by intros [= _ <-]].
  destruct (frag_header m) as [[mhlen h]|] eqn:Hh; [|done]. destruct copy; cbn [negb]; [|by intros [= _ <-]].
  set (last := ip_len m <=? off + n). set (n' := if last then ip_len m - off else n).
  assert (Hn' : 0 <= n' /\ off + n' <= ip_len m) by (unfold n', last;
    destruct (Z.leb_spec (ip_len m) (off + n)); lia).
  apply IH; [lia|lia|]. apply Forall_app. split; [done|]. constructor; [|constructor].
  unfold has_bytes. change (p_m (mk_frag m mhlen h off n' last)) with (h :: m_copy (p_m m) off n').
  cbn [concat]. rewrite m_copy_data by lia. apply Forall_app. split; [by eapply frag_header_bytes|].
  by apply Forall_take, Forall_drop.
Qed.
Lemma sendorfree_out P l : forall results e, Forall P l -> Forall P (sendorfree results e l).1.2.
Proof.
  induction l as [|f l IH]; intros results e Hl; [constructor|]. apply Forall_cons_iff in Hl as [Hf Hl].
  cbn [sendorfree].
  destruct (e =? 0).
  - specialize (IH (tail results) (hd 0 results) Hl). destruct (sendorfree _ _ l) as [[? ?] ?]. by constructor.
  - specialize (IH results e Hl). by destruct (sendorfree _ _ l) as [[? ?] ?].
Qed.
(** Whatever [ip_output] sends consists of bytes. *)
Lemma sendit_bytes mtu pool results s : 0 <= hlen_of m -> sendit mtu pool results m = Some s ->
  Forall has_bytes (fr_out s).
Proof.
  intros Hh. unfold sendit. destruct (Z.leb_spec (ip_len m) mtu) as [|Hmtu]; [intros [= <-]; by constructor|].
  destruct (negb _); [intros [= <-]; constructor|]. rewrite land_lnot_7.
  set (n := 8 * ((mtu - hlen_of m) / 8)).
  assert (Hn : n <= mtu - hlen_of m) by (unfold n; Z.to_euclidean_division_equations; lia).
  destruct (Z.ltb_spec n 8); [intros [= <-]; constructor|].
  destruct (frag_loop _ _ _ _ _ _) as [[e l]|] eqn:Hl; [|done].
  apply frag_loop_bytes in Hl; [|lia|lia|constructor].
  set (m' := if e =? 0 then _ else m). intros Hs.
  assert (Hm' : has_bytes m').
  { unfold m'. destruct (e =? 0); [|done]. unfold has_bytes.
    destruct (m_adj_tail (p_m m) (ip_len m - (hlen_of m + n))) as [Hc _]; [unfold len in *; lia|].
    change (bytes (concat (m_adj (p_m m) (hlen_of m + n - ip_len m)))).
    replace (hlen_of m + n - ip_len m) with (- (ip_len m - (hlen_of m + n))) by lia. rewrite Hc.
    by apply Forall_take. }
  pose proof (sendorfree_out has_bytes (m' :: l) results e ltac:(by constructor)) as Hout.
  destruct (sendorfree results e (m' :: l)) as [[e' out] gone]. by injection Hs as <-.
Qed.
End Bytes.

(** ** From sender to receiver *)

Section Path.
Context `{MbufLib} `{MbufPullup} (ipfragttl : Z) (big : bool) (mtod : list Z -> Z) (do_checksum : bool).
(** [ipintr] for packets from [ipintrq], of which the filter hook is none, whose
    options ask for nothing, and that are for this host. *)
Definition ipintr (mem : bool) (c : data_chain) (s : ipstate) : option ipstate :=
  match ip_check big mtod do_checksum c with
  | None => None
  | Some (inl _) => Some s
  | Some (inr m) => ours ipfragttl mem m s
  end.
Fixpoint ipintr_run (l : list data_chain) (s : ipstate) : option ipstate :=
  match l with
  | [] => Some s
  | c :: l => match ipintr true c s with Some s => ipintr_run l s | None => None end
  end.
End Path.
(** There is a buffer for a header. *)
Definition header_memory `{MbufPullup} : Prop := forall c n, n <= 60 -> n <= len (concat c) -> is_Some (m_pullup c n).
(** The chain [c] has what was sent of [f], and the padding of a link. *)
Definition came (big : bool) (mtod : list Z -> Z) (snd : bool) (f : pkt) (c : data_chain) : Prop :=
  exists w pad, wire big mtod snd f = Some w /\ bytes pad /\ concat c = concat w ++ pad.
(** [q] is [f] after the wire. *)
Definition crossed (f q : pkt) : Prop := exists c,
  q = f <| ipf_mff ::= u8 |> <| p_m := c |> /\ payload q = payload f /\ hlen_of f <= len (hd [] c)
    /\ len (concat c) = ip_len f.

Section Crossed.
Context (D : key -> dgram).
Lemma crossed_arrives f q : crossed f q -> arrives D f -> arrives D q.
Proof.
  intros (c & -> & Hp & Hh & Hl) [H1 H2 H3 H4 H5 H6]. split; try done. intros Hf. rewrite Hp. by apply H6.
Qed.
Lemma crossed_spec ttl fs qs : Forall2 crossed fs qs -> forall c,
  spec_run ttl D (Arrive true <$> qs) c = spec_run ttl D (Arrive true <$> fs) c.
Proof.
  induction 1 as [|f q fs qs Hq _ IH]; intros c; [done|]. rewrite !fmap_cons. cbn [spec_run].
  assert (Hstep : spec_step ttl D (Arrive true q) c = spec_step ttl D (Arrive true f) c).
  { destruct Hq as (c' & -> & Hp & _). unfold spec_step. by rewrite Hp. }
  rewrite Hstep. destruct (spec_step ttl D (Arrive true f) c) as [o c1]. by rewrite IH.
Qed.
End Crossed.

Section Cross.
Context `{ML : MbufLaws} `{CL : MbufCopyLaws} `{PL : MbufPullupLaws}.
Context (ipfragttl : Z) (big big' : bool) (mtod mtod' : list Z -> Z) (snd rcv : bool).
Context (Hck : rcv = true -> snd = true) (Hmem : header_memory).

Lemma came_crossed f c : sendable f -> came big mtod snd f c ->
  exists q, ip_check big' mtod' rcv c = Some (inr q) /\ crossed f q.
Proof.
  intros Hf (w & pad & Hw & Hpad & Hc).
  destruct (wire_check big big' mtod snd rcv f pad Hf Hpad Hck) as (w' & Hw' & Hbw & Hlw & Hbc & Hpay).
  assert (w' = w) as -> by congruence. rewrite <- Hc in Hbc.
  assert (Hb : bytes (concat c)) by (rewrite Hc; by apply Forall_app).
  destruct (ip_check_spec big' mtod' rcv c Hb) as (r & Hr & [Hs|Hn]).
  - rewrite Hbc in Hs. destruct r as [|q]; [done|]. destruct Hs as [Hq Hh]. exists q. split; [done|].
    exists (p_m q). destruct q as [hl tos n id off p src dst d]. cbn [p_m] in *.
    change (mk_pkt hl tos n id off p src dst [concat d]
      = mk_pkt (ip_hl f) (u8 (ipf_mff f)) (ip_len f) (ip_id f) (ip_off f) (ip_p f) (ip_src f) (ip_dst f)
        [concat w]) in Hq.
    injection Hq as -> -> -> -> -> -> -> -> Hd. split; [done|]. unfold payload at 1. cbn [p_m]. rewrite Hd. by split.
  - destruct Hn as (c' & n & r' & Hc' & _ & Hn & H60 & Hno & _).
    destruct (Hmem c' n H60) as [x Hx]; [by rewrite Hc'|congruence].
Qed.
Lemma came_run fs cs : Forall sendable fs -> Forall2 (came big mtod snd) fs cs -> exists qs, Forall2 crossed fs qs
  /\ forall s, ipintr_run ipfragttl big' mtod' rcv cs s = ip_run ipfragttl (Arrive true <$> qs) s.
Proof.
  intros Hs. induction 1 as [|f c fs cs Hc _ IH]; [by exists []|]. apply Forall_cons_iff in Hs as [Hf Hs].
  destruct (IH Hs) as (qs & Hqs & Hrun). destruct (came_crossed f c Hf Hc) as (q & Hq & Hr).
  exists (q :: qs). split; [by constructor|]. intros s. rewrite fmap_cons. cbn [ipintr_run ip_run ip_step].
  unfold ipintr.
  rewrite Hq. by destruct (ours ipfragttl true q s).
Qed.
End Cross.

(** A datagram whose other fields have the widths of [struct ip]. *)
Record fields_ok (m : pkt) : Prop := {
  o_id : 0 <= ip_id m < 65536;
  o_p : is_u8 (ip_p m);
  o_src : is_u32 (ip_src m);
  o_dst : is_u32 (ip_dst m);
  o_data : bytes (payload m)
}.
Lemma whole_bytes m : whole m -> fields_ok m -> has_bytes m.
Proof.
  intros [Hh _ _ _ Hb _ _] [_ _ _ _ Hd]. unfold has_bytes, payload in *.
  destruct (p_m m) as [|h c]; cbn [hd concat] in *; [constructor|]. apply Forall_app. split; [done|].
  rewrite drop_app_le in Hd by (unfold len in Hh; lia). by apply Forall_app in Hd as [_ Hd].
Qed.
Lemma piece_sendable `{MbufLaws} D m o n f : whole m -> fields_ok m -> is_piece D m o n f -> has_bytes f ->
  sendable f.
Proof.
  intros Hm [H1 H2 H3 H4 _] ([A1 A2 A3 A4 A5 _] & Hk & _ & _ & _ & Hh) Hb. pose proof (w_60 m Hm) as H60.
  unfold key_of in Hk. injection Hk as Ki Ks Kd Kp. split; rewrite ?Ki, ?Ks, ?Kd, ?Kp; (done || lia).
Qed.


(** ** Witness *)

#[local] Existing Instances demo_lib demo_laws demo_copy demo_copy_laws flat_pullup flat_pullup_laws.
Lemma flat_memory : header_memory.
Proof. intros c n _ Hn. unfold m_pullup, flat_pullup. rewrite (proj2 (Z.leb_le _ _)) by done. by eexists. Qed.
