(* ===== verification/Life.v ===== *)
(** * pppLib.c: the life of a unit

    [pppInit], the part of [ppp_task] around its main loop, [set_up_tty],
    [cleanup] and [pppDelete]: what they take from the system, what they give
    back, and who owns it.  The results of the system are arguments ([answers]);
    the option parser, the checks of authentication and the handlers of the main
    loop are modelled in Options.v, Auth.v and Link.v, here only the files that
    the parser stores and the way they end count. *)

From Stdlib Require Import String Ascii.
From stdpp Require Import base list numbers strings sets.
From S2P Require Export Prelude.
#[local] Open Scope list_scope.

Definition NPPP := 16.
Definition MAXPATHLEN := 1024.
Definition ERROR := -1.
Definition OK := 0.

(** ** Memory *)

Definition ptr := nat.
(** [PPP_PARMS]; of its options the two files that [cleanup] frees. *)
Record PPP_PARMS := mk_parms {
  task_name : option ptr; devname : option ptr; local_addr : option ptr; remote_addr : option ptr;
  filename : option ptr; baud : Z; pap_file : option ptr; chap_file : option ptr }.
#[export] Instance eta_parms : Eta PPP_PARMS := fun p =>
  {| task_name := task_name p; devname := devname p; local_addr := local_addr p; remote_addr := remote_addr p;
     filename := filename p; baud := baud p; pap_file := pap_file p; chap_file := chap_file p |}.
#[export] Instance set_task_name : Setter task_name := ltac:(derive_setter).
#[export] Instance set_devname : Setter devname := ltac:(derive_setter).
#[export] Instance set_local_addr : Setter local_addr := ltac:(derive_setter).
#[export] Instance set_remote_addr : Setter remote_addr := ltac:(derive_setter).
#[export] Instance set_filename : Setter filename := ltac:(derive_setter).
#[export] Instance set_baud : Setter baud := ltac:(derive_setter).
#[export] Instance set_pap_file : Setter pap_file := ltac:(derive_setter).
#[export] Instance set_chap_file : Setter chap_file := ltac:(derive_setter).

(** The variables of the task that count here; [options] points into the
    [PPP_PARMS] at that address. *)
Record PPP_TASK_VARS := mk_vars {
  v_fd : Z; v_s : Z; v_options : ptr; task_id : Z; timer_id : Z; restore_term : bool; ttystate : Z;
  baud_rate : Z; v_devname : string; inspeed : Z }.
#[export] Instance eta_vars : Eta PPP_TASK_VARS := fun v =>
  {| v_fd := v_fd v; v_s := v_s v; v_options := v_options v; task_id := task_id v; timer_id := timer_id v;
     restore_term := restore_term v; ttystate := ttystate v; baud_rate := baud_rate v;
     v_devname := v_devname v; inspeed := inspeed v |}.
#[export] Instance set_v_fd : Setter v_fd := ltac:(derive_setter).
#[export] Instance set_v_s : Setter v_s := ltac:(derive_setter).
#[export] Instance set_v_options : Setter v_options := ltac:(derive_setter).
#[export] Instance set_task_id : Setter task_id := ltac:(derive_setter).
#[export] Instance set_timer_id : Setter timer_id := ltac:(derive_setter).
#[export] Instance set_restore_term : Setter restore_term := ltac:(derive_setter).
#[export] Instance set_ttystate : Setter ttystate := ltac:(derive_setter).
#[export] Instance set_baud_rate : Setter baud_rate := ltac:(derive_setter).
#[export] Instance set_v_devname : Setter v_devname := ltac:(derive_setter).
#[export] Instance set_inspeed : Setter inspeed := ltac:(derive_setter).

Inductive block := b_string (s : string) | b_parms (p : PPP_PARMS) | b_vars (v : PPP_TASK_VARS).
(** Every block that was allocated, by address; whether it has not been freed. *)
Record cell := mk_cell { c_block : block; c_live : bool }.

(** A call of [taskSpawn], with the arguments that are pointers or vary. *)
Record spawned := mk_spawned {
  s_name : option ptr; s_unit : Z; s_devname : option ptr; s_local : option ptr; s_remote : option ptr;
  s_baud : Z; s_options : ptr; s_file : option ptr }.
(** Requests to the tty. *)
Inductive tty_call := FIOGETOPTIONS | FIOOPTIONS_RAW | FIOBAUDRATE (speed : Z) | FIOSETOPTIONS (state : Z).

(** The memory and the next answers of the allocator ([true] behind the list),
    the two tables, what is open: units, sockets, timers; the tasks spawned; the
    requests to the tty; the signals sent. *)
Record life := mk_life {
  cells : list cell; mem : list bool; ppp_if : list (option ptr); ppp_parms : list (option ptr);
  units : list Z; socks : list Z; timers : list Z; tasks : list spawned; tty : list tty_call;
  kills : list Z }.
#[export] Instance eta_life : Eta life := fun w =>
  {| cells := cells w; mem := mem w; ppp_if := ppp_if w; ppp_parms := ppp_parms w; units := units w;
     socks := socks w; timers := timers w; tasks := tasks w; tty := tty w; kills := kills w |}.
#[export] Instance set_cells : Setter cells := ltac:(derive_setter).
#[export] Instance set_mem : Setter mem := ltac:(derive_setter).
#[export] Instance set_ppp_if : Setter ppp_if := ltac:(derive_setter).
#[export] Instance set_ppp_parms : Setter ppp_parms := ltac:(derive_setter).
#[export] Instance set_units : Setter units := ltac:(derive_setter).
#[export] Instance set_socks : Setter socks := ltac:(derive_setter).
#[export] Instance set_timers : Setter timers := ltac:(derive_setter).
#[export] Instance set_tasks : Setter tasks := ltac:(derive_setter).
#[export] Instance set_tty : Setter tty := ltac:(derive_setter).
#[export] Instance set_kills : Setter kills := ltac:(derive_setter).

(** A call ends the task with a status ([exit], or [taskDelete] of itself). *)
Definition L := M life Z.

Section Life.
(** What is read of a [PPP_PARMS] that has been freed. *)
Context (after_free : PPP_PARMS -> PPP_PARMS).

Definition malloc (b : block) : L (option ptr) :=
  m <- gets mem ;;
  modify (fun w => w <| mem ::= tail |>) ;;
  if hd true m then
    p <- gets (fun w => length (cells w)) ;;
    modify (fun w => w <| cells ::= fun l => l ++ [mk_cell b true] |>) ;;
    ret (Some p)
  else ret None.
Definition the_cell (p : ptr) : L cell := o <- gets (fun w => cells w !! p) ;; access o.
Definition live_cell (p : ptr) : L block :=
  c <- the_cell p ;; if c_live c then ret (c_block c) else fault.
Definition set_cell (p : ptr) (c : cell) : L () := modify (fun w => w <| cells ::= <[p := c]> |>).
Definition free (p : option ptr) : L () :=
  match p with
  | None => ret tt
  | Some p => b <- live_cell p ;; set_cell p (mk_cell b false)
  end.
Definition get_parms (p : ptr) : L PPP_PARMS :=
  b <- live_cell p ;; match b with b_parms q => ret q | _ => fault end.
Definition set_parms (p : ptr) (f : PPP_PARMS -> PPP_PARMS) : L () :=
  q <- get_parms p ;; set_cell p (mk_cell (b_parms (f q)) true).
(** A read of the options through a pointer that may dangle. *)
Definition get_options (p : ptr) : L PPP_PARMS :=
  c <- the_cell p ;;
  match c_block c with b_parms q => ret (if c_live c then q else after_free q) | _ => fault end.
Definition get_vars (p : ptr) : L PPP_TASK_VARS :=
  b <- live_cell p ;; match b with b_vars v => ret v | _ => fault end.
Definition set_vars (p : ptr) (f : PPP_TASK_VARS -> PPP_TASK_VARS) : L () :=
  v <- get_vars p ;; set_cell p (mk_cell (b_vars (f v)) true).

(** The tables have [NPPP] places. *)
Definition table (t : life -> list (option ptr)) (unit : Z) : L (option ptr) :=
  l <- gets t ;; access (if unit <? 0 then None else l !! Z.to_nat unit).
Definition in_table (t : life -> list (option ptr)) (unit : Z) : L () := table t unit ;; ret tt.
Definition set_if (unit : Z) (p : option ptr) : L () :=
  in_table ppp_if unit ;; modify (fun w => w <| ppp_if ::= <[Z.to_nat unit := p]> |>).
Definition set_parms_of (unit : Z) (p : option ptr) : L () :=
  in_table ppp_parms unit ;; modify (fun w => w <| ppp_parms ::= <[Z.to_nat unit := p]> |>).
(** [ppp_if[unit]->], [ppp_parms[unit]->] *)
Definition vars_of (unit : Z) : L ptr := p <- table ppp_if unit ;; access p.
Definition parms_of (unit : Z) : L ptr := p <- table ppp_parms unit ;; access p.

(** ** pppInit *)

Definition stringdup (s : string) : L (option ptr) := malloc (b_string s).
Definition ppp_task_name : string := "tPPP"%string.
(** ["%x"] of a unit. *)
Definition hex (unit : Z) : string :=
  String (ascii_of_nat (Z.to_nat (if unit <? 10 then 48 + unit else 87 + unit))) EmptyString.
Definition no_parms : PPP_PARMS := mk_parms None None None None None 0 None None.

Definition pppInit (unit : Z) (dev local remote : option string) (bd : Z)
    (pOptions : option (option ptr * option ptr)) (fOptions : option string) (spawn : Z) : L Z :=
  u <- table ppp_if unit ;;
  if match u with Some _ => true | None => false end then ret ERROR else
  q <- malloc (b_parms no_parms) ;;
  set_parms_of unit q ;;
  match q with
  | None => ret ERROR
  | Some q =>
      set_parms q (fun p => p <| baud := bd |>) ;;
      s <- stringdup (default ""%string dev) ;; set_parms q (fun p => p <| devname := s |>) ;;
      s <- stringdup (default ""%string local) ;; set_parms q (fun p => p <| local_addr := s |>) ;;
      s <- stringdup (default ""%string remote) ;; set_parms q (fun p => p <| remote_addr := s |>) ;;
      match fOptions with
      | Some f => s <- stringdup f ;; set_parms q (fun p => p <| filename := s |>)
      | None => ret tt
      end ;;
      s <- malloc (b_string "") ;; set_parms q (fun p => p <| task_name := s |>) ;;
      s <- access s ;;
      set_cell s (mk_cell (b_string (ppp_task_name +:+ hex unit)) true) ;;
      match pOptions with
      | Some (pap, chap) => set_parms q (fun p => p <| pap_file := pap |> <| chap_file := chap |>)
      | None => ret tt
      end ;;
      p <- get_parms q ;;
      modify (fun w => w <| tasks ::= cons (mk_spawned (task_name p) unit (devname p) (local_addr p)
                (remote_addr p) (baud p) q (filename p)) |>) ;;
      ret (if spawn =? ERROR then ERROR else OK)
  end.

(** ** cleanup and die *)

Definition remove1 (x : Z) (l : list Z) : list Z := filter (fun y => y <> x) l.
Definition cleanup (unit status : Z) : L () :=
  if (unit <? 0) || (NPPP <? unit) then ret tt else
  v <- vars_of unit ;;
  x <- get_vars v ;;
  when (restore_term x) (modify (fun w => w <| tty ::= cons (FIOSETOPTIONS (ttystate x)) |>)) ;;
  modify (fun w => w <| units ::= remove1 unit |>) ;;
  set_vars v (fun x => x <| v_fd := ERROR |>) ;;
  when (negb (v_s x =? ERROR)) (modify (fun w => w <| socks ::= remove1 (v_s x) |>)) ;;
  when ((status =? 0) && negb (task_id x =? 0)) (throw status) ;;
  modify (fun w => w <| timers ::= remove1 (timer_id x) |>) ;;
  q <- parms_of unit ;;
  p <- get_parms q ;;
  free (task_name p) ;;
  free (devname p) ;; free (local_addr p) ;; free (remote_addr p) ;; free (filename p) ;;
  free (Some q) ;;
  x <- get_vars v ;;
  o <- get_options (v_options x) ;; free (pap_file o) ;;
  o <- get_options (v_options x) ;; free (chap_file o) ;;
  free (Some v) ;;
  set_if unit None.
(** [passive]: whether LCP has a flag that keeps the task; [lcp_close] takes
    nothing and gives nothing. *)
Definition die (passive : bool) (unit status : Z) : L () :=
  if passive then ret tt else
  cleanup unit status ;; if status =? 0 then ret tt else throw status.
Definition pppDelete (unit : Z) : L () :=
  v <- table ppp_if unit ;;
  match v with
  | Some v => x <- get_vars v ;; modify (fun w => w <| kills ::= cons (task_id x) |>)
  | None => ret tt
  end.

(** ** ppp_task *)

(** What the system answers, in the order of the calls; [t_files] are the calls
    of [setupapfile] ([true]) and [setchapfile] that [parse_args] makes, with the
    names; [t_checks]: whether the set-up comes back, rather than die; the hooks
    that are there with their results; [t_loop]: whether the main loop comes to
    its end, rather than to a [die] in a handler; [t_passive]: the flags of LCP
    behind it. *)
Record answers := mk_answers {
  t_taskvar : bool; t_self : Z; t_timer : Z; t_connect : bool; t_hostname : bool; t_open : option Z;
  t_files : list (bool * string); t_args : bool; t_checks : bool; t_socket : Z; t_signals : bool;
  t_getoptions : Z; t_raw : bool; t_speed : bool; t_up : option bool; t_loop : bool; t_down : option bool;
  t_passive : bool }.

Definition set_up_tty (v : ptr) (unit : Z) (a : answers) : L () :=
  modify (fun w => w <| tty ::= cons FIOGETOPTIONS |>) ;;
  when (t_getoptions a =? ERROR) (die false unit 1) ;;
  x <- get_vars v ;;
  when (negb (restore_term x)) (set_vars v (fun x => x <| ttystate := t_getoptions a |>)) ;;
  let speed := inspeed x in
  modify (fun w => w <| tty ::= cons FIOOPTIONS_RAW |>) ;;
  when (negb (t_raw a)) (die false unit 1) ;;
  when (negb (speed =? 0)) (
    modify (fun w => w <| tty ::= cons (FIOBAUDRATE speed) |>) ;;
    when (negb (t_speed a)) (die false unit 1)) ;;
  set_vars v (fun x => x <| baud_rate := speed |>) ;;
  set_vars v (fun x => x <| restore_term := true |>).

(** [setupapfile] and [setchapfile] as far as memory goes. *)
Definition set_file (v : ptr) (f : bool * string) : L () :=
  s <- stringdup f.2 ;;
  x <- get_vars v ;;
  set_parms (v_options x) (fun p => if f.1 then p <| pap_file := s |> else p <| chap_file := s |>).
Fixpoint set_files (v : ptr) (l : list (bool * string)) : L () :=
  match l with [] => ret tt | f :: l => set_file v f ;; set_files v l end.

(** What is calloc'ed. *)
Definition no_vars : PPP_TASK_VARS := mk_vars 0 0 0%nat 0 0 false 0 0 "" 0.
Definition get_string (p : option ptr) : L string :=
  p <- access p ;; b <- live_cell p ;; match b with b_string s => ret s | _ => fault end.
(** From the socket on. *)
Definition task_end (unit : Z) (v : ptr) (a : answers) : L () :=
  set_vars v (fun x => x <| v_s := t_socket a |>) ;;
  when (t_socket a <? 0) (die false unit 1) ;;
  modify (fun w => w <| socks ::= cons (t_socket a) |>) ;;
  when (negb (t_signals a)) (die false unit 1) ;;
  set_up_tty v unit a ;;
  when (negb (default true (t_up a))) (die false unit 1) ;;
  when (negb (t_loop a)) (die false unit 1) ;;
  when (negb (default true (t_down a))) (die (t_passive a) unit 1) ;;
  die (t_passive a) unit 1.
Definition ppp_task (t : spawned) (a : answers) : L () :=
  let unit := s_unit t in
  v <- malloc (b_vars no_vars) ;;
  set_if unit v ;;
  match v with
  | None => ret tt
  | Some v =>
      if negb (t_taskvar a) then set_if unit None else
      set_vars v (fun x => x <| v_fd := ERROR |>) ;;
      set_vars v (fun x => x <| v_s := ERROR |>) ;;
      set_vars v (fun x => x <| v_options := s_options t |>) ;;
      set_vars v (fun x => x <| task_id := t_self a |>) ;;
      dev <- get_string (s_devname t) ;;
      if MAXPATHLEN <=? Z.of_nat (String.length dev) then fault else
      set_vars v (fun x => x <| v_devname := dev |>) ;;
      set_vars v (fun x => x <| timer_id := t_timer a |>) ;;
      if t_timer a <? 0 then set_if unit None else
      modify (fun w => w <| timers ::= cons (t_timer a) |>) ;;
      if negb (t_connect a) then set_if unit None else
      if negb (t_hostname a) then set_if unit None else
      match t_open a with
      | None => set_if unit None
      | Some fd =>
          modify (fun w => w <| units ::= cons unit |>) ;;
          set_vars v (fun x => x <| v_fd := fd |>) ;;
          set_vars v (fun x => x <| inspeed := s_baud t |>) ;;
          set_files v (t_files a) ;;
          when (negb (t_args a)) (die false unit 1) ;;
          when (negb (t_checks a)) (die false unit 1) ;;
          task_end unit v a
      end
  end.
End Life.

(** ** Running in a world with other things *)

Lemma bind_eq {A B} (m : L A) (k : A -> L B) w a w' : m w = Ok a w' -> bind m k w = k a w'.
Proof. unfold bind. by intros ->. Qed.

Section Frame.
Context (af : PPP_PARMS -> PPP_PARMS).
(** The cells of others, the rest of the world. *)
Context (H : list cell).
#[local] Notation n := (length H).
#[local] Notation W l := (mk_life (H ++ l) []).

Lemma app_lookup l i : (H ++ l) !! (n + i)%nat = l !! i.
Proof. rewrite lookup_app_r by lia. f_equal. lia. Qed.
Lemma malloc_eq b l a1 a2 a3 a4 a5 a6 a7 a8 :
  malloc b (W l a1 a2 a3 a4 a5 a6 a7 a8)
  = Ok (Some (n + length l)%nat) (W (l ++ [mk_cell b true]) a1 a2 a3 a4 a5 a6 a7 a8).
Proof.
  unfold malloc, bind, gets, modify, ret. cbn -[upd].
  change (mem (upd mem tail (W l a1 a2 a3 a4 a5 a6 a7 a8))) with (@nil bool).
  change (cells (upd mem tail (W l a1 a2 a3 a4 a5 a6 a7 a8))) with (H ++ l).
  rewrite length_app. f_equal. unfold upd, set_cells, set_mem. cbn. by rewrite <- app_assoc.
Qed.
Lemma live_eq l i b a1 a2 a3 a4 a5 a6 a7 a8 : l !! i = Some (mk_cell b true) ->
  live_cell (n + i)%nat (W l a1 a2 a3 a4 a5 a6 a7 a8) = Ok b (W l a1 a2 a3 a4 a5 a6 a7 a8).
Proof.
  intros Hi. unfold live_cell, the_cell, bind, gets, access. cbn [cells].
  rewrite app_lookup, Hi. done.
Qed.
Lemma set_cell_eq l i c a1 a2 a3 a4 a5 a6 a7 a8 :
  set_cell (n + i)%nat c (W l a1 a2 a3 a4 a5 a6 a7 a8) = Ok tt (W (<[i := c]> l) a1 a2 a3 a4 a5 a6 a7 a8).
Proof.
  unfold set_cell, modify. f_equal. unfold upd, set_cells. cbn. f_equal. apply insert_app_r.
Qed.
Lemma free_eq l i b a1 a2 a3 a4 a5 a6 a7 a8 : l !! i = Some (mk_cell b true) ->
  free (Some (n + i)%nat) (W l a1 a2 a3 a4 a5 a6 a7 a8)
  = Ok tt (W (<[i := mk_cell b false]> l) a1 a2 a3 a4 a5 a6 a7 a8).
Proof. intros Hi. unfold free. rewrite (bind_eq _ _ _ _ _ (live_eq l i b _ _ _ _ _ _ _ _ Hi)). apply set_cell_eq. Qed.
Lemma get_parms_eq l i q a1 a2 a3 a4 a5 a6 a7 a8 : l !! i = Some (mk_cell (b_parms q) true) ->
  get_parms (n + i)%nat (W l a1 a2 a3 a4 a5 a6 a7 a8) = Ok q (W l a1 a2 a3 a4 a5 a6 a7 a8).
Proof. intros Hi. unfold get_parms. by rewrite (bind_eq _ _ _ _ _ (live_eq l i _ _ _ _ _ _ _ _ _ Hi)). Qed.
Lemma set_parms_eq l i q f a1 a2 a3 a4 a5 a6 a7 a8 : l !! i = Some (mk_cell (b_parms q) true) ->
  set_parms (n + i)%nat f (W l a1 a2 a3 a4 a5 a6 a7 a8)
  = Ok tt (W (<[i := mk_cell (b_parms (f q)) true]> l) a1 a2 a3 a4 a5 a6 a7 a8).
Proof. intros Hi. unfold set_parms. rewrite (bind_eq _ _ _ _ _ (get_parms_eq l i q _ _ _ _ _ _ _ _ Hi)).
apply set_cell_eq. Qed.
Lemma get_vars_eq l i v a1 a2 a3 a4 a5 a6 a7 a8 : l !! i = Some (mk_cell (b_vars v) true) ->
  get_vars (n + i)%nat (W l a1 a2 a3 a4 a5 a6 a7 a8) = Ok v (W l a1 a2 a3 a4 a5 a6 a7 a8).
Proof. intros Hi. unfold get_vars. by rewrite (bind_eq _ _ _ _ _ (live_eq l i _ _ _ _ _ _ _ _ _ Hi)). Qed.
Lemma set_vars_eq l i v f a1 a2 a3 a4 a5 a6 a7 a8 : l !! i = Some (mk_cell (b_vars v) true) ->
  set_vars (n + i)%nat f (W l a1 a2 a3 a4 a5 a6 a7 a8)
  = Ok tt (W (<[i := mk_cell (b_vars (f v)) true]> l) a1 a2 a3 a4 a5 a6 a7 a8).
Proof. intros Hi. unfold set_vars. rewrite (bind_eq _ _ _ _ _ (get_vars_eq l i v _ _ _ _ _ _ _ _ Hi)).
apply set_cell_eq. Qed.
Lemma get_options_eq l i q live a1 a2 a3 a4 a5 a6 a7 a8 : l !! i = Some (mk_cell (b_parms q) live) ->
  get_options af (n + i)%nat (W l a1 a2 a3 a4 a5 a6 a7 a8)
  = Ok (if live then q else af q) (W l a1 a2 a3 a4 a5 a6 a7 a8).
Proof.
  intros Hi. unfold get_options, the_cell, bind, gets, access. cbn [cells]. rewrite app_lookup, Hi. done.
Qed.

Lemma table_if_eq l u p ps a3 a4 a5 a6 a7 a8 ifs : 0 <= u -> ifs !! Z.to_nat u = Some p ->
  table ppp_if u (W l ifs ps a3 a4 a5 a6 a7 a8) = Ok p (W l ifs ps a3 a4 a5 a6 a7 a8).
Proof.
  intros Hu Hp. unfold table, bind, gets, access. cbn [ppp_if].
  rewrite (proj2 (Z.ltb_ge u 0)) by lia. by rewrite Hp.
Qed.
Lemma table_parms_eq l u p ps a3 a4 a5 a6 a7 a8 ifs : 0 <= u -> ps !! Z.to_nat u = Some p ->
  table ppp_parms u (W l ifs ps a3 a4 a5 a6 a7 a8) = Ok p (W l ifs ps a3 a4 a5 a6 a7 a8).
Proof.
  intros Hu Hp. unfold table, bind, gets, access. cbn [ppp_parms].
  rewrite (proj2 (Z.ltb_ge u 0)) by lia. by rewrite Hp.
Qed.
Lemma set_if_eq l u p p0 ps a3 a4 a5 a6 a7 a8 ifs : 0 <= u -> ifs !! Z.to_nat u = Some p0 ->
  set_if u p (W l ifs ps a3 a4 a5 a6 a7 a8) = Ok tt (W l (<[Z.to_nat u := p]> ifs) ps a3 a4 a5 a6 a7 a8).
Proof.
  intros Hu Hp. unfold set_if, in_table, bind. by rewrite (table_if_eq l u p0).
Qed.
Lemma set_parms_of_eq l u p p0 ps a3 a4 a5 a6 a7 a8 ifs : 0 <= u -> ps !! Z.to_nat u = Some p0 ->
  set_parms_of u p (W l ifs ps a3 a4 a5 a6 a7 a8) = Ok tt (W l ifs (<[Z.to_nat u := p]> ps) a3 a4 a5 a6 a7 a8).
Proof.
  intros Hu Hp. unfold set_parms_of, in_table, bind. by rewrite (table_parms_eq l u p0).
Qed.

(** The cells of a unit that has been set up with the file [f]. *)
Definition file_ptr (f : option string) : option ptr := match f with Some _ => Some (n + 4)%nat | None => None end.
Definition name_ptr (f : option string) : ptr := match f with Some _ => (n + 5)%nat | None => (n + 4)%nat end.
Definition init_parms (f : option string) (bd : Z) (o : option ptr * option ptr) : PPP_PARMS :=
  mk_parms (Some (name_ptr f)) (Some (n + 1)%nat) (Some (n + 2)%nat) (Some (n + 3)%nat) (file_ptr f) bd o.1 o.2.
Definition init_strings (u : Z) (dev local remote f : option string) : list cell :=
  (fun s => mk_cell (b_string s) true) <$>
  ([default "" dev; default "" local; default "" remote]%string ++ match f with Some s => [s] | None => [] end
   ++ [ppp_task_name +:+ hex u]).
End Frame.

#[local] Ltac fields := cbv [upd set_task_name set_devname set_local_addr set_remote_addr set_filename set_baud
  set_pap_file set_chap_file task_name devname local_addr remote_addr filename baud pap_file chap_file
  set_v_fd set_v_s set_v_options set_task_id set_timer_id set_restore_term set_ttystate set_baud_rate set_v_devname
  set_inspeed v_fd v_s v_options task_id timer_id restore_term ttystate baud_rate v_devname inspeed
  set_ppp_if set_ppp_parms set_units set_socks set_timers set_tasks set_tty set_kills
  cells mem ppp_if ppp_parms units socks timers tasks tty kills no_parms no_vars].
#[local] Ltac tidy := cbn [app length insert list_insert lookup list_lookup fst snd hd tail]; fields.
#[local] Ltac ev L := erewrite bind_eq; [|eapply L; try reflexivity; try eassumption]; cbv beta; tidy.

#[local] Ltac ev0 := erewrite bind_eq; [|reflexivity]; cbv beta; tidy.

(** The options read from the freed block. *)
#[local] Ltac stale Haf :=
  match goal with
  | |- context [?af (mk_parms ?a ?b ?c ?d ?e ?f ?g ?h)] =>
      let H1 := fresh in let H2 := fresh in
      destruct (Haf (mk_parms a b c d e f g h)) as [H1 H2]; revert H1 H2; fields; intros H1 H2;
        rewrite ?H1, ?H2; clear H1 H2
  end.

Lemma init_eq H u dev local remote bd o f spawn ifs ps p0 us ss ts tk ty ks :
  0 <= u -> ifs !! Z.to_nat u = Some None -> ps !! Z.to_nat u = Some p0 ->
  let n := length H in
  pppInit u dev local remote bd (Some o) f spawn (mk_life H [] ifs ps us ss ts tk ty ks) =
  Ok (if spawn =? ERROR then ERROR else OK)
     (mk_life (H ++ mk_cell (b_parms (init_parms H f bd o)) true :: init_strings u dev local remote f) [] ifs
        (<[Z.to_nat u := Some n]> ps) us ss ts
        (mk_spawned (Some (name_ptr H f)) u (Some (n + 1)%nat) (Some (n + 2)%nat) (Some (n + 3)%nat) bd n
          (file_ptr H f) :: tk)
        ty ks).
Proof.
  intros Hu Hif Hps n. rewrite <- (app_nil_r H) at 1. unfold pppInit, stringdup. destruct o as [pap chap].
  ev table_if_eq. ev malloc_eq. ev set_parms_of_eq. ev set_parms_eq. ev malloc_eq. ev set_parms_eq.
  ev malloc_eq. ev set_parms_eq. ev malloc_eq. ev set_parms_eq. subst n. destruct f as [f|].
  - rewrite (bind_assoc _ _ _ _). ev malloc_eq. ev set_parms_eq. ev malloc_eq. ev set_parms_eq. ev0.
    ev set_cell_eq. ev set_parms_eq. ev get_parms_eq. rewrite Nat.add_0_r. reflexivity.
  - ev0. ev malloc_eq. ev set_parms_eq. ev0.
    ev set_cell_eq. ev set_parms_eq. ev get_parms_eq. rewrite Nat.add_0_r. reflexivity.
Qed.

(** ** A unit that is up *)

(** Each file at most once. *)
Definition files_once (fs : list (bool * string)) : Prop :=
  match fs with
  | [] | [_] => True
  | [(a, _); (b, _)] => a = negb b
  | _ => False
  end.
Definition files_ptr (k : nat) (b : bool) (fs : list (bool * string)) (p : option ptr) : option ptr :=
  match fs with
  | [(a, _)] => if Bool.eqb a b then Some k else p
  | [(a, _); _] => Some (if Bool.eqb a b then k else S k)
  | _ => p
  end.
Definition up_cells H u dev local remote f bd o v fs : list cell :=
  let n := length H in let k := (S (name_ptr H f))%nat in
  mk_cell (b_parms (init_parms H f bd (files_ptr (S k) true fs o.1, files_ptr (S k) false fs o.2))) true
  :: init_strings u dev local remote f
  ++ mk_cell (b_vars v) true :: ((fun x => mk_cell (b_string x.2) true) <$> fs).
(** The options that the caller gave are replaced by copies. *)
Definition replaced (o : option ptr * option ptr) (fs : list (bool * string)) : Prop :=
  (o.1 = None \/ true ∈ fs.*1) /\ (o.2 = None \/ false ∈ fs.*1).

Lemma when_tty c x l1 l2 a1 a2 a3 a4 a5 a6 a7 a8 :
  when c (modify (fun w => w <| tty ::= cons x |>)) (mk_life l1 l2 a1 a2 a3 a4 a5 a6 a7 a8)
  = (Ok tt (mk_life l1 l2 a1 a2 a3 a4 a5 a6 (if c then x :: a7 else a7) a8) : outcome life Z unit).
Proof. by destruct c. Qed.
Lemma when_socks c f l1 l2 a1 a2 a3 a4 a5 a6 a7 a8 :
  when c (modify (fun w => w <| socks ::= f |>)) (mk_life l1 l2 a1 a2 a3 a4 a5 a6 a7 a8)
  = (Ok tt (mk_life l1 l2 a1 a2 a3 (if c then f a4 else a4) a5 a6 a7 a8) : outcome life Z unit).
Proof. by destruct c. Qed.
Lemma cleanup_eq af H u dev local remote f bd o v fs ifs ps us ss ts tk ty ks :
  (forall q, pap_file (af q) = pap_file q /\ chap_file (af q) = chap_file q) ->
  0 <= u <= NPPP -> files_once fs -> replaced o fs -> v_options v = (length H + 0)%nat ->
  ifs !! Z.to_nat u = Some (Some (S (name_ptr H f))) -> ps !! Z.to_nat u = Some (Some (length H + 0)%nat) ->
  exists d, cleanup af u 1 (mk_life (H ++ up_cells H u dev local remote f bd o v fs) [] ifs ps us ss ts tk ty ks)
  = Ok tt (mk_life (H ++ d) [] (<[Z.to_nat u := None]> ifs) ps (remove1 u us)
      (if negb (v_s v =? ERROR) then remove1 (v_s v) ss else ss) (remove1 (timer_id v) ts) tk
      (if restore_term v then FIOSETOPTIONS (ttystate v) :: ty else ty) ks)
  /\ Forall (fun c => c_live c = false) d.
Proof.
  intros Haf [Hu Hu2] Hfs Ho Hv Hif Hps. unfold cleanup, vars_of, parms_of, up_cells.
  rewrite (proj2 (Z.ltb_ge u 0)), (proj2 (Z.ltb_ge NPPP u)) by lia. cbn [orb].
  destruct v as [vfd vs vo tid tm rt st br dn sp]. cbn [v_options] in Hv. subst vo. destruct o as [o1 o2].
  unfold replaced in Ho. cbn [fst snd] in Ho.
  destruct f as [f|]; cbn [name_ptr] in *; rewrite <- ?Nat.add_succ_r in *.
  all: destruct fs as [|[a s1] [|[b s2] [|]]]; try done; cbn [files_once fmap list_fmap fst] in *; subst;
    try destruct a; try destruct b;
    unfold files_ptr, init_parms, init_strings, file_ptr, name_ptr;
      cbn [Bool.eqb negb fst snd fmap list_fmap app] in *.
  all: rewrite <- ?Nat.add_succ_r.
  all: try (assert (o1 = None) as -> by set_solver); try (assert (o2 = None) as -> by set_solver).
  all: rewrite (bind_assoc _ _ _ _); ev table_if_eq; ev0; ev get_vars_eq; ev when_tty; ev0; ev set_vars_eq;
    ev when_socks; ev0; ev0.
  all: rewrite (bind_assoc _ _ _ _); ev table_parms_eq; ev0; ev get_parms_eq.
  all: ev free_eq; ev free_eq; ev free_eq; ev free_eq; first [ev free_eq|ev0]; ev free_eq; ev get_vars_eq.
  all: ev get_options_eq; stale Haf; first [ev free_eq|ev0]; ev get_options_eq; stale Haf;
    first [ev free_eq|ev0]; ev free_eq.
  all: eexists; split; [eapply set_if_eq; eassumption|]; repeat (apply Forall_cons_2; [reflexivity|]);
    apply Forall_nil_2.
Qed.

Section Task.
Context (af : PPP_PARMS -> PPP_PARMS) (H : list cell) (u : Z) (dev local remote f : option string) (bd : Z)
  (o : option ptr * option ptr).
#[local] Notation n := (length H).
#[local] Notation v_ptr := (S (name_ptr H f)).
#[local] Notation UP v fs := (mk_life (H ++ up_cells H u dev local remote f bd o v fs) []).

Lemma up_vars v fs : up_cells H u dev local remote f bd o v fs !! (v_ptr - n)%nat = Some (mk_cell (b_vars v) true).
Proof.
  destruct f as [g|]; cbn [name_ptr].
  - replace (S (n + 5) - n)%nat with 6%nat by lia. reflexivity.
  - replace (S (n + 4) - n)%nat with 5%nat by lia. reflexivity.
Qed.
Lemma up_set v v' fs : <[(v_ptr - n)%nat := mk_cell (b_vars v') true]> (up_cells H u dev local remote f bd o v fs)
  = up_cells H u dev local remote f bd o v' fs.
Proof.
  destruct f as [g|]; cbn [name_ptr].
  - replace (S (n + 5) - n)%nat with 6%nat by lia. reflexivity.
  - replace (S (n + 4) - n)%nat with 5%nat by lia. reflexivity.
Qed.
Lemma v_ptr_eq : v_ptr = (n + (v_ptr - n))%nat.
Proof. destruct f; cbn [name_ptr]; lia. Qed.
Lemma get_vars_up v fs a1 a2 a3 a4 a5 a6 a7 a8 :
  get_vars v_ptr (UP v fs a1 a2 a3 a4 a5 a6 a7 a8) = Ok v (UP v fs a1 a2 a3 a4 a5 a6 a7 a8).
Proof. rewrite v_ptr_eq at 1. apply get_vars_eq, up_vars. Qed.
Lemma set_vars_up v g fs a1 a2 a3 a4 a5 a6 a7 a8 :
  set_vars v_ptr g (UP v fs a1 a2 a3 a4 a5 a6 a7 a8) = Ok tt (UP (g v) fs a1 a2 a3 a4 a5 a6 a7 a8).
Proof. rewrite v_ptr_eq at 1. rewrite (set_vars_eq _ _ _ v) by apply up_vars. by rewrite up_set. Qed.
Lemma set_files_up v fs a1 a2 a3 a4 a5 a6 a7 a8 : files_once fs -> v_options v = (n + 0)%nat ->
  set_files v_ptr fs (UP v [] a1 a2 a3 a4 a5 a6 a7 a8) = Ok tt (UP v fs a1 a2 a3 a4 a5 a6 a7 a8).
Proof.
  intros Hfs Hv. destruct v as [vfd vs vo tid tm rt st br dn sp]. cbn [v_options] in Hv. subst vo.
  destruct o as [o1 o2].
  destruct fs as [|[a s1] [|[b s2] [|]]]; try done; cbn [files_once] in Hfs; subst; try destruct a; try destruct b;
    unfold set_files, set_file, stringdup, up_cells, init_strings, init_parms, files_ptr, file_ptr;
    destruct f as [g|]; cbn [name_ptr Bool.eqb negb]; rewrite <- ?Nat.add_succ_r; cbn [app fmap list_fmap fst snd];
    rewrite (bind_assoc _ _ _ _); ev malloc_eq; rewrite (bind_assoc _ _ _ _); ev get_vars_eq; ev set_parms_eq.
  1-4: reflexivity.
  all: rewrite (bind_assoc _ _ _ _); ev malloc_eq; rewrite (bind_assoc _ _ _ _); ev get_vars_eq;
    ev set_parms_eq; reflexivity.
Qed.
Lemma start_up v a1 a2 a3 a4 a5 a6 a7 a8 :
  malloc (b_vars v) (mk_life (H ++ mk_cell (b_parms (init_parms H f bd o)) true :: init_strings u dev local
    remote f) []
    a1 a2 a3 a4 a5 a6 a7 a8)
  = Ok (Some v_ptr) (UP v [] a1 a2 a3 a4 a5 a6 a7 a8).
Proof.
  rewrite malloc_eq. destruct o as [o1 o2]. destruct f; cbn [name_ptr init_strings app fmap list_fmap length];
    rewrite <- ?Nat.add_succ_r; reflexivity.
Qed.
Lemma get_string_up v fs a1 a2 a3 a4 a5 a6 a7 a8 :
  get_string (Some (n + 1)%nat) (UP v fs a1 a2 a3 a4 a5 a6 a7 a8)
  = Ok (default ""%string dev) (UP v fs a1 a2 a3 a4 a5 a6 a7 a8).
Proof. unfold get_string. ev0. ev live_eq. reflexivity. Qed.

Context (ifs ps : list (option ptr)) (us ss ts ks : list Z) (tk : list spawned) (fs : list (bool * string))
  (a : answers).
Context (Haf : forall q, pap_file (af q) = pap_file q /\ chap_file (af q) = chap_file q).
Context (Hu : 0 <= u <= NPPP) (Hfs : files_once fs) (Ho : replaced o fs).
Context (Hif : ifs !! Z.to_nat u = Some None) (Hps : ps !! Z.to_nat u = Some (Some (n + 0)%nat)).
Context (Hus : u ∉ us) (Hss : t_socket a ∉ ss) (Hts : t_timer a ∉ ts).
#[local] Notation ifs1 := (<[Z.to_nat u := Some v_ptr]> ifs).

(** The task has ended, and the world is as it was but for cells that are free. *)
Definition gone {A} (r : outcome life Z A) : Prop :=
  exists d ty', r = Throw 1 (mk_life (H ++ d) [] ifs ps us ss ts tk ty' ks) /\ Forall (fun c => c_live c = false) d.
Lemma remove1_head x l : x ∉ l -> remove1 x (x :: l) = l.
Proof.
  intros Hx. unfold remove1. rewrite filter_cons_False by by intros [].
  induction l as [|y l IH]; [done|]. apply not_elem_of_cons in Hx as [Hy Hx].
  rewrite filter_cons_True by done. by rewrite IH.
Qed.
Lemma remove1_none x l : x ∉ l -> remove1 x l = l.
Proof.
  intros Hx. induction l as [|y l IH]; [done|]. apply not_elem_of_cons in Hx as [Hy Hx]. unfold remove1 in *.
  rewrite filter_cons_True by done. by rewrite IH.
Qed.
Lemma gone_die {A} (k : unit -> L A) v ss1 ty : v_options v = (n + 0)%nat -> timer_id v = t_timer a ->
  (if negb (v_s v =? ERROR) then remove1 (v_s v) ss1 else ss1) = ss ->
  gone (bind (die af false u 1) k (UP v fs ifs1 ps (u :: us) ss1 (t_timer a :: ts) tk ty ks)).
Proof.
  intros Hv Ht Hs. unfold die.
  destruct (cleanup_eq af H u dev local remote f bd o v fs ifs1 ps (u :: us) ss1 (t_timer a :: ts) tk ty ks)
    as (d & Hc & Hd); try done.
  { rewrite list_lookup_insert_eq; [done|]. by eapply lookup_lt_Some. }
  rewrite Ht, Hs, (remove1_head u us Hus), (remove1_head _ _ Hts), list_insert_insert_eq,
    (list_insert_id _ _ _ Hif) in Hc.
  unfold bind at 1. rewrite (bind_eq _ _ _ _ _ Hc). eexists d, _. split; [reflexivity|done].
Qed.
Lemma gone_when {A} c (k : unit -> L A) v ss1 ty : v_options v = (n + 0)%nat -> timer_id v = t_timer a ->
  (if negb (v_s v =? ERROR) then remove1 (v_s v) ss1 else ss1) = ss ->
  let w := UP v fs ifs1 ps (u :: us) ss1 (t_timer a :: ts) tk ty ks in
  (c = false -> gone (k tt w)) -> gone (bind (when c (die af false u 1)) k w).
Proof. intros Hv Ht Hs w Hk. destruct c; [by apply gone_die|by apply Hk]. Qed.
Lemma gone_last v ss1 ty : v_options v = (n + 0)%nat -> timer_id v = t_timer a ->
  (if negb (v_s v =? ERROR) then remove1 (v_s v) ss1 else ss1) = ss ->
  gone (die af false u 1 (UP v fs ifs1 ps (u :: us) ss1 (t_timer a :: ts) tk ty ks)).
Proof.
  intros Hv Ht Hs. destruct (gone_die (fun x => ret x) v ss1 ty Hv Ht Hs) as (d & ty' & Hd & Hf).
  exists d, ty'. split; [|done]. revert Hd. unfold bind. by destruct (die _ _ _ _ _).
Qed.
Lemma set_up_gone (k : unit -> L unit) v ss1 ty : v_options v = (n + 0)%nat -> timer_id v = t_timer a ->
  (if negb (v_s v =? ERROR) then remove1 (v_s v) ss1 else ss1) = ss ->
  (forall v' ty', v_options v' = (n + 0)%nat -> timer_id v' = t_timer a -> v_s v' = v_s v ->
     gone (k tt (UP v' fs ifs1 ps (u :: us) ss1 (t_timer a :: ts) tk ty' ks))) ->
  gone (bind (set_up_tty af v_ptr u a) k (UP v fs ifs1 ps (u :: us) ss1 (t_timer a :: ts) tk ty ks)).
Proof.
  intros Hv Ht Hs Hk. unfold set_up_tty. rewrite (bind_assoc _ _ _ _).
  erewrite bind_eq; [|reflexivity]. cbv beta. rewrite (bind_assoc _ _ _ _). apply gone_when; [done..|]. intros _.
  rewrite (bind_assoc _ _ _ _). erewrite bind_eq; [|apply get_vars_up]. cbv beta.
  rewrite (bind_assoc _ _ _ _).
  set (v1 := if negb (restore_term v) then v <| ttystate := t_getoptions a |> else v).
  assert (Hv1 : v_options v1 = (n + 0)%nat /\ timer_id v1 = t_timer a /\ v_s v1 = v_s v /\ inspeed v1 = inspeed v).
  { unfold v1. by destruct (restore_term v). }
  destruct Hv1 as (Hv1 & Ht1 & Hs1 & _). rewrite <- Hs1 in Hs.
  erewrite bind_eq.
  2: { instantiate (1 := UP v1 fs ifs1 ps (u :: us) ss1 (t_timer a :: ts) tk (FIOGETOPTIONS :: ty) ks). unfold v1.
       destruct (restore_term v); [reflexivity|]. apply set_vars_up. }
  cbv beta zeta. rewrite (bind_assoc _ _ _ _). erewrite bind_eq; [|reflexivity]. cbv beta.
  rewrite (bind_assoc _ _ _ _). apply gone_when; [done..|]. intros _. rewrite (bind_assoc _ _ _ _).
  destruct (negb (inspeed v =? 0)); cbn [when].
  - rewrite (bind_assoc _ _ _ _). erewrite bind_eq; [|reflexivity]. cbv beta. apply gone_when; [done..|]. intros _.
    rewrite (bind_assoc _ _ _ _). erewrite bind_eq; [|apply set_vars_up]. cbv beta.
    erewrite bind_eq; [|apply set_vars_up]. apply Hk; done.
  - erewrite bind_eq; [|reflexivity]. cbv beta.
    rewrite (bind_assoc _ _ _ _). erewrite bind_eq; [|apply set_vars_up]. cbv beta.
    erewrite bind_eq; [|apply set_vars_up]. apply Hk; done.
Qed.

Lemma task_end_gone v ty : v_options v = (n + 0)%nat -> timer_id v = t_timer a -> t_passive a = false ->
  gone (task_end af u v_ptr a (UP v fs ifs1 ps (u :: us) ss (t_timer a :: ts) tk ty ks)).
Proof.
  intros Hv Ht Hp. unfold task_end. rewrite Hp. erewrite bind_eq; [|apply set_vars_up]. cbv beta.
  apply gone_when; [done|done| |].
  { change (v_s (v <| v_s := t_socket a |>)) with (t_socket a). rewrite remove1_none by done. by destruct (negb _). }
  intros Hneg. apply Z.ltb_ge in Hneg.
  assert (Hs : forall v, v_s v = t_socket a ->
    (if negb (v_s v =? ERROR) then remove1 (v_s v) (t_socket a :: ss) else t_socket a :: ss) = ss).
  { intros v0 ->. unfold ERROR. rewrite (proj2 (Z.eqb_neq _ _)) by lia. by apply remove1_head. }
  erewrite bind_eq; [|reflexivity]. cbv beta. apply gone_when; [done|done|by apply Hs|]. intros _.
  apply set_up_gone; [done|done|by apply Hs|]. intros v' ty' Hv' Ht' Hs'.
  assert (Hs3 : v_s v' = t_socket a) by (rewrite Hs'; done).
  do 3 (apply gone_when; [done|done|by apply Hs|]; intros _). apply gone_last; [done|done|by apply Hs].
Qed.
Lemma task_gone t ty : s_unit t = u -> s_devname t = Some (n + 1)%nat -> s_options t = (n + 0)%nat ->
  Z.of_nat (String.length (default ""%string dev)) < MAXPATHLEN -> t_files a = fs ->
  t_taskvar a = true -> 0 <= t_timer a -> t_connect a = true -> t_hostname a = true -> is_Some (t_open a) ->
  t_passive a = false ->
  gone (ppp_task af t a (mk_life (H ++ mk_cell (b_parms (init_parms H f bd o)) true :: init_strings u dev
    local remote f)
    [] ifs ps us ss ts tk ty ks)).
Proof.
  intros Hunit Hdev Hopt Hlen Hf H1 H2 H3 H4 [fd H5] H6. unfold ppp_task.
  rewrite Hunit, Hdev, Hopt, H1, H3, H4, H5, Hf.
  erewrite bind_eq; [|apply start_up]. cbv beta.
  erewrite bind_eq; [|eapply set_if_eq; [apply Hu|apply Hif]]. cbv beta. cbn [negb].
  do 4 (erewrite bind_eq; [|apply set_vars_up]; cbv beta).
  erewrite bind_eq; [|apply get_string_up]. cbv beta.
  rewrite (proj2 (Z.leb_gt _ _)) by done.
  do 2 (erewrite bind_eq; [|apply set_vars_up]; cbv beta). rewrite (proj2 (Z.ltb_ge _ _)) by done.
  do 2 (erewrite bind_eq; [|reflexivity]; cbv beta).
  do 2 (erewrite bind_eq; [|apply set_vars_up]; cbv beta).
  erewrite bind_eq; [|by apply set_files_up]. cbv beta.
  do 2 (apply gone_when; [done|done|done|]; intros _).
  apply task_end_gone; try done.
Qed.
End Task.

(** ** Results *)

(** [pppInit], and the task that it spawns. *)
Definition unit_life (af : PPP_PARMS -> PPP_PARMS) (unit : Z) (dev local remote : option string) (bd : Z)
    (o : option ptr * option ptr) (f : option string) (spawn : Z) (a : answers) : L () :=
  s <- pppInit unit dev local remote bd (Some o) f spawn ;;
  if s =? ERROR then ret tt else
  l <- gets tasks ;; t <- access (head l) ;; ppp_task af t a.
(** The system grants what comes before [pppopen], and the unit. *)
Definition opened (a : answers) : Prop :=
  t_taskvar a = true /\ 0 <= t_timer a /\ t_connect a = true /\ t_hostname a = true /\ is_Some (t_open a).

(** C21: a unit that has been opened leaves nothing behind, however its task
    ends: when the options are refused, the authentication cannot be done, the
    socket, the signals, the tty or a hook fail, a handler dies or the link is
    down, every block allocated by [pppInit] and [ppp_task] is freed once, the unit,
    the socket and the timer are given back and the place in [ppp_if] is free;
    if the memory just freed still shows the names of the files, which [cleanup]
    looks at then, each file was given once, and LCP is not passive. *)
Theorem unit_leaves_nothing af unit dev local remote bd o f spawn a w :
  (forall q, pap_file (af q) = pap_file q /\ chap_file (af q) = chap_file q) ->
  0 <= unit < NPPP -> ppp_if w !! Z.to_nat unit = Some None -> is_Some (ppp_parms w !! Z.to_nat unit) -> mem w = [] ->
  unit ∉ units w -> t_socket a ∉ socks w -> t_timer a ∉ timers w -> spawn <> ERROR -> opened a ->
  Z.of_nat (String.length (default ""%string dev)) < MAXPATHLEN -> files_once (t_files a) -> replaced o (t_files a) ->
  t_passive a = false ->
  exists w' d, unit_life af unit dev local remote bd o f spawn a w = Throw 1 w'
  /\ cells w' = cells w ++ d /\ Forall (fun c => c_live c = false) d
  /\ ppp_if w' = ppp_if w /\ units w' = units w /\ socks w' = socks w /\ timers w' = timers w.
Proof.
  intros Haf Hu Hif [p0 Hps] Hmem Hus Hss Hts Hsp (H1 & H2 & H3 & H4 & H5) Hlen Hfs Ho Hp.
  destruct w as [H m ifs ps us ss ts tk ty ks]. cbn in Hif, Hps, Hmem, Hus, Hss, Hts. subst m. unfold unit_life.
  erewrite bind_eq; [|by apply (init_eq H unit dev local remote bd o f spawn ifs ps p0); [lia|..]]. cbv beta.
  rewrite (proj2 (Z.eqb_neq spawn ERROR)) by done. change (OK =? ERROR) with false. cbv iota.
  do 2 (erewrite bind_eq; [|reflexivity]; cbv beta).
  set (t := mk_spawned _ _ _ _ _ _ _ _).
  destruct (task_gone af H unit dev local remote f bd o ifs (<[Z.to_nat unit := Some (length H)]> ps) us ss
    ts ks (t :: tk)
    (t_files a) a Haf ltac:(unfold NPPP in *; lia) Hfs Ho Hif) with (t := t) (ty := ty) as (d & ty' & Hr &
      Hd); try done.
  - rewrite list_lookup_insert_eq, Nat.add_0_r; [done|]. by eapply lookup_lt_Some.
  - eexists _, d. split; [exact Hr|]. done.
Qed.

Definition free_world : life := mk_life [] [] (replicate 16 None) (replicate 16 None) [] [] [] [] [] [].
Definition demo_answers (taskvar : bool) (timer : Z) (connect hostname : bool) (fd : option Z) (passive :
  bool) : answers :=
  mk_answers taskvar 77 timer connect hostname fd [(true, "/secrets"%string)] true true 5 true 0 true true (Some true) true
    None passive.
Definition demo_life (af : PPP_PARMS -> PPP_PARMS) (a : answers) : L () :=
  unit_life af 0 (Some "/tyCo/1"%string) (Some "90.0.0.1"%string) None 38400 (Some 0%nat, None) None 77 a.
Lemma unit_leaves_nothing_witness : exists w' d,
  demo_life id (demo_answers true 3 true true (Some 4) false) free_world = Throw 1 w'
  /\ cells w' = [] ++ d /\ Forall (fun c => c_live c = false) d
  /\ ppp_if w' = replicate 16 None /\ units w' = [] /\ socks w' = [] /\ timers w' = [].
Proof.
  apply (unit_leaves_nothing id 0 (Some "/tyCo/1"%string) (Some "90.0.0.1"%string) None 38400 (Some 0%nat, None) None 77
    (demo_answers true 3 true true (Some 4) false) free_world);
    first [done|by apply not_elem_of_nil|by eexists|by (repeat split; first [done|by eexists])
      |by (split; [right; apply list_elem_of_here|left])].
Defined.

(** How many blocks are not freed. *)
Definition live_blocks (w : life) : nat := length (filter (fun c => c_live c = true) (cells w)).
Definition left_over (r : outcome life Z unit) : option (nat * nat * option ptr) :=
  match r with
  | Ok _ w | Throw _ w => Some (live_blocks w, length (timers w), default None (ppp_if w !! 0%nat))
  | _ => None
  end.
(** When something before the unit is opened fails, or the unit cannot be opened,
    the task ends with its six or seven blocks allocated, and its timer, and the
    place in [ppp_if] free: [pppInit] can be called again and leaks again. *)
Theorem early_failure_leaks :
  (fun a => left_over (demo_life id a free_world)) <$>
    [demo_answers false 3 true true (Some 4) false; demo_answers true (-1) true true (Some 4) false;
     demo_answers true 3 false true (Some 4) false; demo_answers true 3 true false (Some 4) false;
     demo_answers true 3 true true None false]
  = [Some (6%nat, 0%nat, None); Some (6%nat, 0%nat, None); Some (6%nat, 1%nat, None); Some (6%nat, 1%nat, None);
     Some (6%nat, 1%nat, None)].
Proof. vm_compute. reflexivity. Qed.
(** With a passive LCP the task returns behind its last [die] and leaves
    everything, the place in [ppp_if] included: the unit cannot be used again. *)
Theorem passive_task_stays :
  left_over (demo_life id (demo_answers true 3 true true (Some 4) true) free_world) = Some (7%nat, 1%nat, Some 5%nat).
Proof. vm_compute. reflexivity. Qed.
(** [cleanup] frees what the freed options say: when they have changed, a wild
    pointer. *)
Theorem cleanup_frees_stale_pointer :
  demo_life (fun q => q <| pap_file := Some 99%nat |>) (demo_answers true 3 true true (Some 4) false)
    free_world = Fault.
Proof. vm_compute. reflexivity. Qed.
(** Two calls of [pppInit] for a unit before the first task has run are both OK;
    the tasks share one place in the table of parameters, and the second frees
    what the first has freed. *)
Definition init_twice (second : bool) : L () :=
  let init := pppInit 0 None None None 0 None None 77 in
  a <- init ;; b <- init ;;
  l <- gets tasks ;;
  match l with
  | [t2; t1] =>
      if second then
        (fun w => match ppp_task id t1 (demo_answers true 3 true true (Some 4) false) w with
                  | Ok _ w | Throw _ w => ppp_task id t2 (demo_answers true 6 true true (Some 7) false) w
                  | Fault => Fault
                  | Hang => Hang
                  end)
      else if (a =? OK) && (b =? OK) then ret tt else fault
  | _ => fault
  end.
Theorem init_twice_frees_twice :
  (exists w, init_twice false free_world = Ok tt w) /\ init_twice true free_world = Fault.
Proof. split; [eexists|]; vm_compute; reflexivity. Qed.
(** The number of the unit is not checked. *)
Theorem init_unit_unchecked : pppInit 16 None None None 0 None None 77 free_world = Fault.
Proof. vm_compute. reflexivity. Qed.
